(* ===== verification/_CoqProject ===== *)
-Q . S2P
Prelude.v
GoStrings.v
Lexer.v
Directives.v
Stmt.v
Analyze.v
Parse.v
ParseFacts.v
Combine.v
Build.v
Quoting.v
LexSteps.v
RoundTrip.v
Verdict.v
Routing.v
RoutingFacts.v
Servers.v
ConnManager.v
RaftStore.v
RaftFacts.v
RaftInstance.v
Snapshot.v
RateLimit.v
Values.v
FileCache.v
GoNet.v
Template.v
Access.v
Listen.v
Serve.v
GoJSON.v
GoURL.v
KVStore.v
OAuth2.v
OAuthFacts.v
OAuthReplies.v
Proxy.v
Upstream.v
Pool.v
KeyGen.v
Jwt.v
Vars.v
GitOps.v
HttpCore.v
VinceConfig.v
Startup.v
Logging.v
Html.v
Metrics.v
OpaStore.v
Policy.v
Assets.v
Process.v
Management.v
Format.v
Main.v
