(* ===== verification/Prelude.v ===== *)
(** * vince (ergonproxy/nginxconfig): a verification development

    vince is an HTTP proxy that is configured with nginx configuration files.
    This library models the program and proves what it does.

    ** The program and the files that model it

    main (src/main.go) runs the format command (src/config_format.go), or finds
    the configuration (src/vince_config.go) and starts everything
    (src/ngx_startup.go).  A configuration file is read by the lexer
    (src/config_lex.go), which splits it into tokens and checks the braces.  The
    parser (src/config_parse.go) makes statements of the tokens, has each
    statement checked against the directive table (src/config_analyze.go),
    follows include directives through a queue of files, and can put the files
    together into one.  The printer (src/config_build.go) writes statements as a
    file again.  At start-up the statements become a tree of rules, the listen
    directives and their ssl options (src/ngx_http_core.go) say which servers
    share an address, and a server is started for each; a request is given to a
    server by its host name and to a location by its path, and the directives in
    force there become a chain of handlers, with the access rules
    (src/access_control.go), the access log (src/ngx_log.go) and the proxy
    (src/ngx_proxy_pass.go, src/upstream.go) among them.  The values of
    directives (src/values.go) are merged from the outer block to the inner one
    and expand the variables of the request (src/ngx_ctx_variables.go).  Log
    files stay open in a cache (src/read_writer_closer_cache.go), the connection
    manager (src/ngx_http_core_conn_manager.go) follows the states of the
    connections, the rate limiter (src/ngx_http_rate_limit.go) keeps buckets per
    key, streams (src/conn_stream.go) take connections from a pool
    (src/conn_pool.go), buffers come from shared pools (src/buffers).
    Administrators have pages (src/management.go) with metrics (src/metrics.go)
    and git repositories (src/gitops.go).  Beside the proxy there are an OAuth2
    server (src/oauth2_server.go, src/accounts.go), policies in a key-value store
    (src/access_control.go, src/kv_store.go, src/opa_backend_store.go), raft with
    its log in the same database (src/raft_badger_store.go), and a manager of
    child processes (src/process_manager.go, src/process_child.go).

    - [Prelude]: outcomes of Go code (returned, panicked, out of fuel), loops
      with fuel and their laws, tactics, hint databases, lemmas on strings,
      lists and integers.
    - [GoStrings], [GoNet], [GoJSON], [GoURL]: what the code uses of Go's
      strings, runes and UTF-8, of addresses, of JSON objects and of query
      strings.
    - [Lexer], [LexSteps]: src/config_lex.go.  [lex] is the function [lex],
      [lexer_lex] the method lexer.lex with one definition per inner loop,
      [luaLexer_lex] the lexer of Lua blocks, [balanceBraces] the brace check.
      [LexSteps] gives the main loop as steps between states.
    - [Directives], [Analyze]: src/config_analyze.go.  The table of directives
      as it is in the source, and [analyze].  Go's table is a global variable
      whose slices [analyze] reverses in place; the model passes it along.
    - [Stmt], [Parse], [ParseFacts], [Combine]: src/config_parse.go.  The objects
      that the code shares through pointers are the fields of one state,
      [world].  [Combine] is about the queue of includes and performInclude.
    - [Build], [Quoting], [RoundTrip]: src/config_build.go and its relation to the
      lexer and the parser.  [Verdict] is about the errors that the parser reports
      on whole blocks.  [Format]: src/config_format.go.
    - [Routing], [RoutingFacts], [Servers]: src/ngx_startup.go, the types rule,
      locationMatch, handlerMatch and alice.  A pointer to a rule is the path of
      child indices from the root, so that pointer equality is equality of
      paths.
    - [Access]: src/access_control.go (the type nginxAccess), the access log
      middleware of src/ngx_log.go with the line it writes, and serverCtx.chain.  A
      handler is a function from requests to the events it writes, or a panic.
    - [Listen], [HttpCore]: src/ngx_http_core.go, and the first half of process in
      src/ngx_startup.go, which groups the servers by address.
    - [Serve]: the request handler of vinceHandler in src/ngx_startup.go, which
      composes [Routing], [Servers] and [Access].
    - [VinceConfig], [Startup], [Main]: src/vince_config.go, process,
      startEverything and shutdown of src/ngx_startup.go, and src/main.go.  A small
      state and error monad threads the maps of listeners and servers, the bound
      addresses, the open connections and the connection manager; while the
      servers run, signals come and connections are accepted, report their states
      and go, as a list of events.
    - [FileCache]: src/read_writer_closer_cache.go, with the list nodes and the
      maps of the code, and an LRU list that it refines.  [Logging] is the rest of
      src/ngx_log.go over it.
    - [ConnManager], [RateLimit], [Values]: the files named above.  [Template] is
      stringTemplateValue of src/values.go, [Vars] src/ngx_ctx_variables.go,
      [KeyGen] the generator in src/scripts and the file it writes, [Jwt]
      src/jwt_token.go.
    - [Proxy], [Upstream], [Pool]: src/ngx_proxy_pass.go, src/upstream.go,
      src/conn_pool.go and src/conn_stream.go.
    - [RaftStore], [RaftFacts], [RaftInstance]: src/raft_badger_store.go.  The
      database is the class [Badger], whose writes may fail, with the laws
      [BadgerLaws]; [BadgerLimits] says which writes it refuses.  [RaftFacts]
      proves the theorems against them and [RaftInstance] is a finite map that
      satisfies them.  [Snapshot] is fsmSnapshot of the same file.  [KVStore] is
      the interface kvStore with its laws, its implementation over badger, kv.Set
      over the class [Raft], and a cluster of nodes with the guarantees of raft:
      one order of committed entries, an Apply that may fail, and entries that are
      committed although their Apply has failed.
    - [OAuth2], [OAuthFacts], [OAuthReplies]: src/oauth2_server.go and
      src/accounts.go, against the interface of [KVStore]; a monad has the store,
      the clock and the random bytes.
    - [Policy], [OpaStore]: the adapter in src/access_control.go over any
      [kvStore], and src/opa_backend_store.go as two processes with channels.
    - [GitOps], [Metrics], [Html], [Management], [Process]: src/gitops.go;
      src/metrics.go; src/buffers/buffers.go with the tags of
      src/templates/tpl.go; src/management.go, src/error.go and
      src/templates/fs.go, which compose the three; src/process_manager.go and
      src/process_child.go, a step relation over the goroutines, in which [kill]
      visits one child after the other.  [Html] also has the part of HTML's
      tokenizer that reads a start tag, against which the tags are proved.  [Assets] has the
      html templates of src/templates/tpl.go, the embedded files of
      src/templates/fs.go, the icons of src/templates/octicons and the names of
      src/http_headers.go; [pages_executed] says that after the first page the
      templates answer as a function, the execHTML of [Management].

    ** What the theorems show

    - Reading: on the tokens of a file of the grammar [gram] the parser returns
      exactly the statements the grammar assigns; it always stops; the brace
      check accepts exactly the balanced token lists and names the right line
      otherwise; the verdict of [analyze] is a predicate of the statement and the
      initial table whatever calls came before, and that of a whole block the
      conjunction over its statements in their contexts; every directive of the
      table can be used.
    - Printing: what [build] prints for well-formed statements is lexed and
      parsed to the same statements, and so is the file that the format command
      writes for such statements; without comments, formatting that file again
      changes nothing.
    - Includes: putting the files together returns, and gives the unfolding of
      the main file with no include left.
    - Routing: document order of the directives in force, the meaning of
      wildcard names, the choice of servers and locations, the order of the
      handlers, the servers of an address and the ssl options of a listener; what
      a request gets, from the host name to the chain of its location, with the
      first access directive deciding; the map of locations that requests share
      changes no answer; the options of a proxy in force; the expansion of
      variables.
    - Start and end: which servers run on which addresses when the configuration
      can come up; that no address stays bound and no connection open or recorded
      when the program exits, and that the one panic that leaves them is that of a
      nil listener.
    - State: the connection counters account for the connections in every
      reachable run, identifiers are unique; the log store reads back what was
      written and deletes exactly the range it is asked to; the file cache
      refines an LRU list, neither leaks a file nor closes one twice, and keeps
      its bound; a bucket never grants more than it holds; nested values give the
      innermost one; the pool of connections is a queue that serves who waits;
      the replicas of the key-value store refine a map, whatever raft fails and
      commits later; the stored policies refine a map; requests are counted, and
      which label values make one panic.
    - Security: an access token is only given to an authenticated client, the
      responses of the OAuth2 server have the stated types; git requests touch
      three repositories and asset requests one directory; no attribute value
      leaves its quotes when HTML reads it.
    - Processes: what [kill] leaves in every interleaving of the goroutines,
      before it and while it runs.
    - Defects that the model brings to light are theorems as well: inputs on
      which the lexer, the parser or the include queue do not stop, nil
      dereferences and indices out of range, a context check without effect, the
      location choice that panics on two prefixes, a leading wildcard that
      matches everything, a first index that is one too high and never
      refreshed, a limiter that limits nothing, an error of a TLS listener that
      is lost, streams that carry nothing, log files that cannot be written,
      transactions that only read, children that never run, error pages that
      come twice, snapshots that lack the older entries, tokens that cannot be
      signed, paths that make the management server panic, refused keys that are
      reported as stored.

    ** Fuel

    Loops that the input does not bound take fuel, a unit per turn, and give
    [OutOfFuel] when it is used up; a larger fuel never changes a result
    ([stable]).  For the lexer [lexFuel], the number of runes plus six, decides:
    if it is not enough, no fuel is ([lex_fuel_decides]).  For the parser a fuel
    above the number of tokens is enough ([parseInternal_terminates]), for
    putting files together [combineFuel].  The queue of includes has no bound,
    and a file that includes itself has no sufficient fuel.

    ** Parameters

    Code outside the repository is an argument: the file system and
    filepath.Glob ([FileSystem]), regular expressions ([Regexp]), the database
    ([Badger]; [BadgerUnlimited] is one that no size is too big for), the JSON of a
    log entry ([LogCodec]) and of objects ([JSON]), raft ([Raft]), the named
    character references of HTML ([CharacterReferences]), bcrypt,
    random bytes and the clock ([OAuthEnv]), the language of text/template beyond
    variables ([TextTemplate]), html/template, the router and the file server
    ([WebEnv]), go-git ([GitEnv]), the policy library ([PolicyModel]), sockets,
    certificates and directories ([NetEnv], [TLSEnv], [OsEnv]), processes
    ([OsProcess]), files that are written ([LogEnv], [FormatEnv]), the embedded
    files, their templates and the icons ([EmbeddedFS], [HtmlTemplate],
    [Octicons]), the backup of the database and the signing of tokens, the order in
    which Go walks a map, what a sync.Pool gives, the readings of the clock, the
    output of openssl and the sizes of bytefmt ([Env]).  Of the standard library
    the parts that the code reaches are spelled out; these corners are parameters:
    unicode.IsPrint beyond ASCII ([Unicode]), Sprintf with flags ([Fmt]),
    sort.Slice on more than twelve elements, url.Parse, and durations in other
    forms than a unit ([Durations]).  What is assumed of a parameter is a class of
    laws or a hypothesis of the theorem, and every such theorem is applied to a
    concrete instance.

    ** What is not modelled

    Failures of reads after a file was opened and of reads of the database other
    than for a key that it does not hold or refuses; snapshots in the cluster of the
    key-value store; connections that are accepted while shutdown runs (accepting
    one and recording it is one step);
    interleavings inside one operation of the connection manager, of the rate
    limiter and of the file cache (each operation is atomic, the latter two hold a
    lock; the timers of the cache are events between operations); the bytes of TLS
    and of the proxied bodies; serverCtx.with, a copy of pointers to the state
    that [Startup] threads; the body of show in src/conn_stream.go, which is
    empty; the structs of src/scripts that no generator reads. *)

From stdpp Require Export base tactics list gmap strings fin_maps sorting.
From Stdlib Require Export ZArith Lia.

Declare Scope go_scope.
Delimit Scope go_scope with go.

(** ** Outcomes of Go code

    A Go function that returns normally gives [Ok]; a run-time panic (a nil
    dereference, an index out of range) gives [Panic]; a loop that has used up
    the fuel it was given gives [OutOfFuel].  A Go [error] is an ordinary
    return value and is not represented here. *)

Inductive go_panic : Type :=
| NilDereference
| IndexOutOfRange
| DivideByZero
| SendOnFullChannel
| TypeAssertion
| ExplicitPanic.

#[global] Instance go_panic_eq_dec : EqDecision go_panic.
Proof. solve_decision. Defined.

Inductive res (A : Type) : Type :=
| Ok (a : A)
| Panic (p : go_panic)
| OutOfFuel.
Arguments Ok {A} _.
Arguments Panic {A} _.
Arguments OutOfFuel {A}.

#[global] Instance res_ret : MRet res := λ A a, Ok a.
#[global] Instance res_bind : MBind res := λ A B f m,
  match m with
  | Ok a => f a
  | Panic p => Panic p
  | OutOfFuel => OutOfFuel
  end.
#[global] Instance res_fmap : FMap res := λ A B f m,
  match m with
  | Ok a => Ok (f a)
  | Panic p => Panic p
  | OutOfFuel => OutOfFuel
  end.

(** An outcome that is not the exhaustion of fuel. *)
Definition finished {A} (m : res A) : bool :=
  match m with OutOfFuel => false | _ => true end.

(** Indexing a Go slice: a panic outside the range. *)
Definition go_index {A} (l : list A) (i : nat) : res A :=
  match l !! i with
  | Some x => Ok x
  | None => Panic IndexOutOfRange
  end.

#[global] Instance Ok_inj {A} : Inj (=) (=) (@Ok A).
Proof. by intros a b [= ->]. Qed.

Lemma bind_Ok_inv {A B} (m : res A) (f : A → res B) b :
  (m ≫= f) = Ok b → ∃ a, m = Ok a ∧ f a = Ok b.
Proof. destruct m; simpl; naive_solver. Qed.

Lemma res_bind_assoc {A B C} (m : res A) (f : A → res B) (g : B → res C) :
  (m ≫= f) ≫= g = m ≫= (λ x, f x ≫= g).
Proof. by destruct m. Qed.

Lemma bind_finished {A B} (m : res A) (f : A → res B) :
  finished m = true →
  (∀ a, m = Ok a → finished (f a) = true) →
  finished (m ≫= f) = true.
Proof. destruct m; simpl; naive_solver. Qed.

(** A loop over a slice whose body appends to a result. *)
Fixpoint go_concat_map {A B} (f : A → res (list B)) (l : list A) : res (list B) :=
  match l with
  | [] => Ok []
  | x :: xs => here ← f x; there ← go_concat_map f xs; Ok (here ++ there)
  end.

Lemma go_concat_map_Ok {A B} (f : A → res (list B)) (Q : A → list B → Prop) l :
  Forall (λ x, ∃ o, f x = Ok o ∧ Q x o) l →
  ∃ outs, go_concat_map f l = Ok (concat outs) ∧ Forall2 Q l outs.
Proof.
  induction 1 as [|x l (o & Ho & HQ) _ (outs & IH & HF)]; [by exists []|].
  exists (o :: outs). simpl. rewrite Ho. simpl. rewrite IH. simpl. auto.
Qed.

(** ** Loops with fuel

    [go_for step fuel s] runs a Go [for] loop whose state is [s]: [step] gives
    the next state ([inl]) or leaves the loop ([inr]).  Each turn takes one
    unit of fuel; [step] itself gets what is left, for the loops inside it. *)

Fixpoint go_for {St R} (step : nat → St → res (St + R)) (fuel : nat) (s : St) : res R :=
  match fuel with
  | O => OutOfFuel
  | S n =>
    r ← step n s;
    match r with
    | inl s' => go_for step n s'
    | inr x => Ok x
    end
  end.

(** A loop whose body has no loop inside. *)
Definition go_while {St R} (step : St → St + R) : nat → St → res R :=
  go_for (λ _ s, Ok (step s)).

Lemma go_while_S {St R} (step : St → St + R) n s :
  go_while step (S n) s =
  match step s with inl s' => go_while step n s' | inr x => Ok x end.
Proof. done. Qed.

(** More fuel never changes a result that was reached. *)
Definition stable {St R} (f : nat → St → res R) : Prop :=
  ∀ n m s, (n ≤ m)%nat → finished (f n s) = true → f m s = f n s.

Lemma go_for_stable {St R} (step : nat → St → res (St + R)) :
  stable step → stable (go_for step).
Proof.
  intros Hst n. induction n as [|n IH]; intros m s Hle Hfin; [done|].
  destruct m as [|m]; [lia|]. simpl in *.
  destruct (step n s) as [r| |] eqn:E; simpl in *; [|..].
  - rewrite (Hst n m s), E by (rewrite ?E; (lia || done)). simpl.
    destruct r; [|done]. apply IH; [lia|done].
  - by rewrite (Hst n m s), E by (rewrite ?E; (lia || done)).
  - done.
Qed.

Lemma go_while_stable {St R} (step : St → St + R) : stable (go_while step).
Proof. apply go_for_stable. by intros n m s. Qed.

(** Two runs that both finish agree. *)
Lemma stable_agree {St R} (f : nat → St → res R) n m s :
  stable f → finished (f n s) = true → finished (f m s) = true → f n s = f m s.
Proof.
  intros Hf Hn Hm. destruct (decide (n ≤ m)%nat).
  - symmetry. by apply Hf.
  - apply Hf; [lia|done].
Qed.

(** [fuel_complete μ c f]: fuel [μ s + c] decides whether [f] ever finishes
    on [s]; if that much is not enough then no fuel is. *)
Definition fuel_complete {St R} (μ : St → nat) (c : nat) (f : nat → St → res R) : Prop :=
  ∀ n s, (μ s + c ≤ n)%nat → f n s = OutOfFuel → ∀ m, f m s = OutOfFuel.

Section LoopCompleteness.
Context {St R : Type} (step : nat → St → res (St + R)) (μ : St → nat) (c : nat).
(** States from which the body never leaves the loop. *)
Context (stuck : St → Prop).
Hypothesis step_stable : stable step.
Hypothesis step_complete : fuel_complete μ c step.
Hypothesis step_decreases : ∀ n s s', step n s = Ok (inl s') →
  (μ s' < μ s)%nat ∨ (∃ x, ∀ k, step k s' = Ok (inr x)) ∨ stuck s'.
Hypothesis stuck_stays : ∀ n s, stuck s →
  step n s = OutOfFuel ∨ ∃ s', step n s = Ok (inl s') ∧ stuck s'.

Lemma stuck_diverges n s : stuck s → go_for step n s = OutOfFuel.
Proof.
  revert s. induction n as [|n IH]; intros s Hs; [done|]. simpl.
  destruct (stuck_stays n s Hs) as [->|(s' & -> & Hs')]; [done|]. simpl. auto.
Qed.

Lemma go_for_complete : fuel_complete μ (c + 2) (go_for step).
Proof.
  intros n. induction n as [|n IH]; intros s Hle Hoof m; [lia|].
  destruct m as [|m]; [done|]. simpl in *.
  destruct (step n s) as [[s'|x]| |] eqn:E; simpl in *; [|done..|].
  - destruct (finished (step m s)) eqn:Ef.
    + rewrite (stable_agree step m n s) by (rewrite ?E; done). rewrite E. simpl.
      destruct (step_decreases n s s' E) as [Hd|[[x Hx]|Hs]].
      * apply IH; [lia|done].
      * exfalso. destruct n; [lia|]. simpl in Hoof. by rewrite Hx in Hoof.
      * by apply stuck_diverges.
    + by destruct (step m s).
  - by rewrite (step_complete n s) by (lia || done).
Qed.
End LoopCompleteness.

Lemma go_while_complete {St R} (step : St → St + R) (μ : St → nat) (stuck : St → Prop) :
  (∀ s s', step s = inl s' → (μ s' < μ s)%nat ∨ (∃ x, step s' = inr x) ∨ stuck s') →
  (∀ s, stuck s → ∃ s', step s = inl s' ∧ stuck s') →
  fuel_complete μ 2 (go_while step).
Proof.
  intros Hd Hs. apply (go_for_complete _ μ 0 stuck).
  - by intros n m s.
  - by intros n s.
  - intros n s s' [= H]. destruct (Hd _ _ H) as [?|[[x Hx]|?]]; [by left|right; left|by right; right].
    exists x. intros k. by rewrite Hx.
  - intros n s H. right. destruct (Hs _ H) as (s' & -> & ?). eauto.
Qed.

(** Invariant rule for loops. *)
Lemma go_for_invariant {St R} (step : nat → St → res (St + R)) (P : St → Prop) (Q : R → Prop) :
  (∀ n s s', P s → step n s = Ok (inl s') → P s') →
  (∀ n s r, P s → step n s = Ok (inr r) → Q r) →
  ∀ n s r, P s → go_for step n s = Ok r → Q r.
Proof.
  intros Hs Hr n. induction n as [|n IH]; intros s r HP H; [done|]. simpl in H.
  destruct (step n s) as [[s'|x]| |] eqn:E; simpl in H; [eauto| |done..].
  injection H as <-. eauto.
Qed.

Lemma go_while_invariant {St R} (step : St → St + R) (P : St → Prop) (Q : R → Prop) :
  (∀ s s', P s → step s = inl s' → P s') →
  (∀ s r, P s → step s = inr r → Q r) →
  ∀ n s r, P s → go_while step n s = Ok r → Q r.
Proof.
  intros Hs Hr. apply go_for_invariant.
  - intros _ s s' HP [= H]. eauto.
  - intros _ s r HP [= H]. eauto.
Qed.

(** A loop whose body never raises [μ] ends at or below where it started. *)
Lemma go_for_measure {St R} (step : nat → St → res (St + R)) (μ : St → nat) (ν : R → nat) :
  (∀ n s s', step n s = Ok (inl s') → (μ s' ≤ μ s)%nat) →
  (∀ n s r, step n s = Ok (inr r) → (ν r ≤ μ s)%nat) →
  ∀ n s r, go_for step n s = Ok r → (ν r ≤ μ s)%nat.
Proof.
  intros Hs Hr n s r. apply (go_for_invariant _ (λ s', (μ s' ≤ μ s)%nat) (λ r, (ν r ≤ μ s)%nat)); [..|done].
  - intros k s1 s2 HP H. apply Hs in H. lia.
  - intros k s1 x HP H. apply Hr in H. lia.
Qed.

Lemma bind_stable {A B} (m1 m2 : res A) (g1 g2 : A → res B) :
  (finished m1 = true → m2 = m1) →
  (∀ a, m1 = Ok a → finished (g1 a) = true → g2 a = g1 a) →
  finished (m1 ≫= g1) = true → m2 ≫= g2 = m1 ≫= g1.
Proof. intros Hm Hg Hf. destruct m1; simpl in *; [|by rewrite Hm..|done]. rewrite Hm by done. simpl. auto. Qed.

(** Completeness of a sequence: the first part decides, and when it ends with
    [a] the second part decides. *)
Lemma bind_complete {A B} (m1 m2 : res A) (g1 g2 : A → res B) :
  (m1 = OutOfFuel → m2 = OutOfFuel) →
  (finished m1 = true → finished m2 = true → m2 = m1) →
  (∀ a, m1 = Ok a → g1 a = OutOfFuel → g2 a = OutOfFuel) →
  m1 ≫= g1 = OutOfFuel → m2 ≫= g2 = OutOfFuel.
Proof.
  intros Ho Ha Hg H. destruct m1 as [a| |]; simpl in *; [|done|by rewrite Ho].
  destruct (finished m2) eqn:E; [rewrite Ha by done; simpl; auto|by destruct m2].
Qed.

Lemma fuel_complete_mono {St R} (μ : St → nat) c c' (f : nat → St → res R) :
  (c ≤ c')%nat → fuel_complete μ c f → fuel_complete μ c' f.
Proof. intros Hc H n s Hn. apply H. lia. Qed.

(** ** Hint databases and tactics *)

Create HintDb vince.
#[export] Hint Resolve Z.le_refl Z.le_trans : vince.
#[export] Hint Extern 1 (_ ≤ _)%Z => lia : vince.
#[export] Hint Extern 1 (_ < _)%Z => lia : vince.
#[export] Hint Extern 1 (_ ≤ _)%nat => lia : vince.
#[export] Hint Extern 1 (_ < _)%nat => lia : vince.

(** Invert every hypothesis that says a [bind] returned normally. *)
Ltac inv_bind :=
  repeat match goal with
  | H : (_ ≫= _) = Ok _ |- _ =>
      let a := fresh "a" in
      let H1 := fresh "H" in
      apply bind_Ok_inv in H as (a & H1 & H)
  | H : Ok _ = Ok _ |- _ => injection H as H; try subst
  | H : Panic _ = Ok _ |- _ => discriminate H
  | H : OutOfFuel = Ok _ |- _ => discriminate H
  end.

(** Turn the boolean tests of the code into the propositions they decide. *)
Ltac reflect_bools :=
  repeat match goal with
  | H : (_ && _) = true |- _ => apply andb_true_iff in H as [? ?]
  | H : (_ || _) = false |- _ => apply orb_false_iff in H as [? ?]
  | H : negb _ = true |- _ => apply negb_true_iff in H
  | H : negb _ = false |- _ => apply negb_false_iff in H
  | H : (_ =? _)%Z = true |- _ => apply Z.eqb_eq in H
  | H : (_ =? _)%Z = false |- _ => apply Z.eqb_neq in H
  | H : (_ <? _)%Z = true |- _ => apply Z.ltb_lt in H
  | H : (_ <? _)%Z = false |- _ => apply Z.ltb_ge in H
  | H : (_ <=? _)%Z = true |- _ => apply Z.leb_le in H
  | H : (_ <=? _)%Z = false |- _ => apply Z.leb_gt in H
  | H : (_ =? _)%string = true |- _ => apply String.eqb_eq in H
  | H : (_ =? _)%string = false |- _ => apply String.eqb_neq in H
  | H : bool_decide _ = true |- _ => apply bool_decide_eq_true in H
  | H : bool_decide _ = false |- _ => apply bool_decide_eq_false in H
  end.

(** Split on every [if] and [match] of the goal, keeping the equations. *)
Ltac split_code := repeat (case_match; simplify_eq/=).

(** ** Lists *)

Lemma forallb_Forall {A} (f : A → bool) l : forallb f l = true ↔ Forall (λ x, f x = true) l.
Proof.
  induction l as [|x l IH]; simpl; [by split|]. rewrite andb_true_iff, Forall_cons, IH. done.
Qed.

Lemma forallb_Forall_is_Some {A} (l : list (option A)) :
  forallb (λ o, match o with Some _ => true | None => false end) l = true → Forall is_Some l.
Proof. rewrite forallb_Forall. intros H. eapply Forall_impl; [exact H|]. intros [x|]; by eauto. Qed.

Lemma omap_fmap {A B C} (f : A → B) (g : B → option C) (l : list A) :
  omap g (f <$> l) = omap (λ x, g (f x)) l.
Proof. induction l as [|x l IH]; [done|]. cbn. destruct (g (f x)); [f_equal|]; exact IH. Qed.

(** ** Strings as Go byte strings *)

Lemma string_app_nil_r (s : string) : s +:+ "" = s.
Proof. induction s as [|a s IH]; [done|]. change (String a (s +:+ "") = String a s). by rewrite IH. Qed.

Lemma string_app_assoc (s1 s2 s3 : string) : s1 +:+ (s2 +:+ s3) = (s1 +:+ s2) +:+ s3.
Proof.
  induction s1 as [|a s IH]; [done|].
  change (String a (s +:+ (s2 +:+ s3)) = String a ((s +:+ s2) +:+ s3)). by rewrite IH.
Qed.

Lemma string_app_cons a (s1 s2 : string) : String a s1 +:+ s2 = String a (s1 +:+ s2).
Proof. done. Qed.

Lemma string_app_nil_l (s : string) : "" +:+ s = s.
Proof. done. Qed.

Lemma string_app_eq_nil (s1 s2 : string) : s1 +:+ s2 = "" → s1 = "" ∧ s2 = "".
Proof. destruct s1; simpl; [done|]. rewrite string_app_cons. done. Qed.

Lemma string_length_app (s1 s2 : string) :
  String.length (s1 +:+ s2) = (String.length s1 + String.length s2)%nat.
Proof. induction s1 as [|a s IH]; [done|]. rewrite string_app_cons. simpl. by rewrite IH. Qed.

Create Rewrite HintDb vince_str.
#[export] Hint Rewrite string_app_nil_r string_app_nil_l string_app_cons : vince_str.
