(* ===== verification/GoStrings.v ===== *)
(** * The parts of the Go language and standard library the code uses on text

    Go strings are byte strings, here [string]; a rune is an [int32] code
    point, here [Z].  This file holds UTF-8 (conversion of a rune to a string
    and the decoding that [range] and [bufio.Reader.ReadRune] perform), the
    white-space predicate of package unicode, the functions of package strings
    and the quoting of package strconv. *)

From S2P Require Import Prelude.

#[local] Open Scope Z_scope.

Abbreviation rune := Z (only parsing).

(** ** Bytes *)

Definition byteZ (a : Ascii.ascii) : Z := Z.of_N (Ascii.N_of_ascii a).
Definition zbyte (z : Z) : Ascii.ascii := Ascii.ascii_of_N (Z.to_N z).
Definition str1 (z : Z) : string := String (zbyte z) "".

Lemma byteZ_range a : 0 ≤ byteZ a < 256.
Proof. unfold byteZ. pose proof (Ascii.N_ascii_bounded a). lia. Qed.

Lemma byteZ_zbyte z : 0 ≤ z < 256 → byteZ (zbyte z) = z.
Proof. intros. unfold byteZ, zbyte. rewrite Ascii.N_ascii_embedding; lia. Qed.

Lemma zbyte_byteZ a : zbyte (byteZ a) = a.
Proof. unfold byteZ, zbyte. rewrite N2Z.id. apply Ascii.ascii_N_embedding. Qed.

(** ** UTF-8 *)

Definition validRune (r : rune) : bool :=
  (0 <=? r) && (r <=? 0x10FFFF) && negb ((0xD800 <=? r) && (r <=? 0xDFFF)).

(** [string(r)]: an invalid rune becomes U+FFFD. *)
Definition runeString (r : rune) : string :=
  if (0 <=? r) && (r <=? 0x7F) then str1 r
  else if (0 <=? r) && (r <=? 0x7FF) then
    str1 (Z.lor 0xC0 (Z.shiftr r 6)) +:+ str1 (Z.lor 0x80 (Z.land r 0x3F))
  else if negb (validRune r) then str1 0xEF +:+ str1 0xBF +:+ str1 0xBD
  else if r <=? 0xFFFF then
    str1 (Z.lor 0xE0 (Z.shiftr r 12)) +:+
    str1 (Z.lor 0x80 (Z.land (Z.shiftr r 6) 0x3F)) +:+
    str1 (Z.lor 0x80 (Z.land r 0x3F))
  else
    str1 (Z.lor 0xF0 (Z.shiftr r 18)) +:+
    str1 (Z.lor 0x80 (Z.land (Z.shiftr r 12) 0x3F)) +:+
    str1 (Z.lor 0x80 (Z.land (Z.shiftr r 6) 0x3F)) +:+
    str1 (Z.lor 0x80 (Z.land r 0x3F)).

Definition runesString (rs : list rune) : string :=
  foldr (λ r s, runeString r +:+ s) "" rs.

Definition inRange (c lo hi : Z) : bool := (lo <=? c) && (c <=? hi).

(** Is [c1] an acceptable second byte after the lead byte [c0] of a three-byte
    sequence; the two restrictions rule out overlong forms and surrogates. *)
Definition second3 (c0 c1 : Z) : bool :=
  if c0 =? 0xE0 then inRange c1 0xA0 0xBF
  else if c0 =? 0xED then inRange c1 0x80 0x9F
  else inRange c0 0xE1 0xEF && inRange c1 0x80 0xBF.

Definition second4 (c0 c1 : Z) : bool :=
  if c0 =? 0xF0 then inRange c1 0x90 0xBF
  else if c0 =? 0xF4 then inRange c1 0x80 0x8F
  else inRange c0 0xF1 0xF3 && inRange c1 0x80 0xBF.

Definition cont (c : Z) : bool := inRange c 0x80 0xBF.

(** The runes of a byte string, one U+FFFD per byte that starts no valid
    sequence. *)
Fixpoint utf8Decode (s : string) : list rune :=
  match s with
  | "" => []
  | String b0 s0 =>
    let c0 := byteZ b0 in
    if c0 <? 0x80 then c0 :: utf8Decode s0
    else match s0 with
    | "" => 0xFFFD :: utf8Decode s0
    | String b1 s1 =>
      let c1 := byteZ b1 in
      if inRange c0 0xC2 0xDF && cont c1 then
        Z.lor (Z.shiftl (Z.land c0 0x1F) 6) (Z.land c1 0x3F) :: utf8Decode s1
      else match s1 with
      | "" => 0xFFFD :: utf8Decode s0
      | String b2 s2 =>
        let c2 := byteZ b2 in
        if second3 c0 c1 && cont c2 then
          Z.lor (Z.lor (Z.shiftl (Z.land c0 0xF) 12) (Z.shiftl (Z.land c1 0x3F) 6))
                (Z.land c2 0x3F) :: utf8Decode s2
        else match s2 with
        | "" => 0xFFFD :: utf8Decode s0
        | String b3 s3 =>
          let c3 := byteZ b3 in
          if second4 c0 c1 && cont c2 && cont c3 then
            Z.lor (Z.lor (Z.shiftl (Z.land c0 0x7) 18) (Z.shiftl (Z.land c1 0x3F) 12))
                  (Z.lor (Z.shiftl (Z.land c2 0x3F) 6) (Z.land c3 0x3F)) :: utf8Decode s3
          else 0xFFFD :: utf8Decode s0
        end
      end
    end
  end.

(** ** Package unicode *)

(** [unicode.IsSpace]. *)
Definition IsSpace (r : rune) : bool :=
  if (0 <=? r) && (r <=? 0xFF) then
    inRange r 9 13 || (r =? 32) || (r =? 0x85) || (r =? 0xA0)
  else (r =? 0x1680) || inRange r 0x2000 0x200A || (r =? 0x2028) || (r =? 0x2029)
       || (r =? 0x202F) || (r =? 0x205F) || (r =? 0x3000).

(** The characters the configuration syntax gives a meaning to. *)
Abbreviation r_nl := 10 (only parsing).
Abbreviation r_sp := 32 (only parsing).
Abbreviation r_dquote := 34 (only parsing).
Abbreviation r_hash := 35 (only parsing).
Abbreviation r_dollar := 36 (only parsing).
Abbreviation r_squote := 39 (only parsing).
Abbreviation r_semi := 59 (only parsing).
Abbreviation r_bslash := 92 (only parsing).
Abbreviation r_lbrace := 123 (only parsing).
Abbreviation r_rbrace := 125 (only parsing).

(** ** Package strings *)

(** [s[len(s)-1]]; [None] stands for the index panic of the empty string. *)
Fixpoint lastByte (s : string) : option Ascii.ascii :=
  match s with
  | "" => None
  | String a "" => Some a
  | String _ s' => lastByte s'
  end.

Definition firstByte (s : string) : option Ascii.ascii :=
  match s with "" => None | String a _ => Some a end.

Definition endsWithByte (s : string) (c : Z) : bool :=
  match lastByte s with Some a => byteZ a =? c | None => false end.

Definition startsWithByte (s : string) (c : Z) : bool :=
  match firstByte s with Some a => byteZ a =? c | None => false end.

(** [s[1:]] of a string known to be non-empty. *)
Definition tailString (s : string) : string :=
  match s with "" => "" | String _ s' => s' end.

Fixpoint HasPrefix (s prefix : string) : bool :=
  match prefix, s with
  | "", _ => true
  | String _ _, "" => false
  | String p ps, String c cs => (byteZ p =? byteZ c) && HasPrefix cs ps
  end.

Fixpoint stringRev (s : string) : string :=
  match s with "" => "" | String a s' => stringRev s' +:+ String a "" end.

Definition HasSuffix (s suffix : string) : bool :=
  HasPrefix (stringRev s) (stringRev suffix).

Fixpoint Contains (s sub : string) : bool :=
  HasPrefix s sub ||
  match s with "" => false | String _ s' => Contains s' sub end.

(** [strings.TrimLeft] and [strings.TrimRight] with a cutset of one ASCII
    character. *)
Fixpoint TrimLeft (s : string) (c : Z) : string :=
  match s with
  | "" => ""
  | String a s' => if byteZ a =? c then TrimLeft s' c else s
  end.

Definition TrimRight (s : string) (c : Z) : string :=
  stringRev (TrimLeft (stringRev s) c).

Fixpoint Join (l : list string) (sep : string) : string :=
  match l with
  | [] => ""
  | [s] => s
  | s :: l' => s +:+ sep +:+ Join l' sep
  end.

Definition consHead (a : Ascii.ascii) (l : list string) : list string :=
  match l with
  | [] => [String a ""]
  | s :: l' => String a s :: l'
  end.

(** [strings.Split] with a separator of one ASCII character. *)
Fixpoint Split (s : string) (c : Z) : list string :=
  match s with
  | "" => [""]
  | String a s' => if byteZ a =? c then "" :: Split s' c else consHead a (Split s' c)
  end.

Fixpoint skipString (n : nat) (s : string) : string :=
  match n, s with
  | O, _ => s
  | S n', String _ s' => skipString n' s'
  | S _, "" => ""
  end.

Definition TrimPrefix (s prefix : string) : string :=
  if HasPrefix s prefix then skipString (String.length prefix) s else s.

(** [strings.TrimSuffix]. *)
Definition TrimSuffix (s suffix : string) : string :=
  if HasSuffix s suffix then stringRev (skipString (String.length suffix) (stringRev s)) else s.

(** [strings.Replace(s, old, new, -1)] for a non-empty [old]: the fuel is the
    length of [s], which bounds the number of steps. *)
Fixpoint replaceAll (fuel : nat) (s old new : string) : string :=
  match fuel, s with
  | O, _ => s
  | S _, "" => ""
  | S n, String a s' =>
    if HasPrefix s old then new +:+ replaceAll n (skipString (String.length old) s) old new
    else String a (replaceAll n s' old new)
  end.

Definition Replace (s old new : string) : string :=
  replaceAll (String.length s) s old new.

(** ASCII lower-casing of one byte, and [strings.ToLower] on ASCII text.  No
    rune outside ASCII has the lower case of o, n or f, so on the comparisons
    the code makes it agrees with the Unicode mapping. *)
Definition lowerByte (a : Ascii.ascii) : Ascii.ascii :=
  if inRange (byteZ a) 65 90 then zbyte (byteZ a + 32) else a.

Fixpoint ToLower (s : string) : string :=
  match s with "" => "" | String a s' => String (lowerByte a) (ToLower s') end.

(** ** Package strconv *)

Definition digitByte (d : Z) : Ascii.ascii := zbyte (48 + d).

Fixpoint itoaGo (fuel : nat) (n : Z) (acc : string) : string :=
  match fuel with
  | O => acc
  | S f =>
    let acc' := String (digitByte (n mod 10)) acc in
    if n <? 10 then acc' else itoaGo f (n / 10) acc'
  end.

(** [strconv.Itoa]; 20 digits hold every 64-bit value. *)
Definition Itoa (n : Z) : string :=
  if n <? 0 then String (zbyte 45) (itoaGo 20 (- n) "") else itoaGo 20 n "".

(** [strings.IndexByte] compared with -1. *)
Fixpoint hasByte (c : Z) (s : string) : bool :=
  match s with "" => false | String a s' => (byteZ a =? c) || hasByte c s' end.

(** [strconv.Atoi]: an optional sign and decimal digits, within 64 bits. *)
Fixpoint digitsVal (s : string) (acc : Z) : option Z :=
  match s with
  | "" => Some acc
  | String a s' =>
    if inRange (byteZ a) 48 57 then digitsVal s' (acc * 10 + (byteZ a - 48)) else None
  end.

Definition inInt64 (v : Z) : option Z :=
  if (- 2 ^ 63 <=? v) && (v <? 2 ^ 63) then Some v else None.

Definition Atoi (s : string) : option Z :=
  match s with
  | "" => None
  | String a s' =>
    if (byteZ a =? 45) || (byteZ a =? 43) then
      match s' with
      | "" => None
      | _ => v ← digitsVal s' 0; inInt64 (if byteZ a =? 45 then - v else v)
      end
    else v ← digitsVal s 0; inInt64 v
  end.

Definition hexDigit (d : Z) : Ascii.ascii :=
  if d <? 10 then zbyte (48 + d) else zbyte (87 + d).

Fixpoint hexGo (n : nat) (v : Z) : string :=
  match n with
  | O => ""
  | S n' => String (hexDigit (Z.land (Z.shiftr v (4 * Z.of_nat n')) 0xF)) (hexGo n' v)
  end.

(** The Unicode table behind [strconv.IsPrint] for runes outside ASCII is data
    of the Go distribution; it is a parameter of everything that quotes. *)
Class Unicode := { isPrintWide : rune → bool }.

(** Only ASCII counts as printable. *)
Definition asciiOnly : Unicode := {| isPrintWide := λ _, false |}.

Section Quote.
Context `{U : Unicode}.

Definition IsPrint (r : rune) : bool :=
  if r <? 0x80 then inRange r 0x20 0x7E else isPrintWide r.

(** [strconv.appendEscapedRune] of Go 1.13, the double quote as delimiter. *)
Definition escapedRune (r : rune) : string :=
  if (r =? r_dquote) || (r =? r_bslash) then str1 r_bslash +:+ str1 r
  else if IsPrint r then runeString r
  else if r =? 7 then str1 r_bslash +:+ "a"
  else if r =? 8 then str1 r_bslash +:+ "b"
  else if r =? 12 then str1 r_bslash +:+ "f"
  else if r =? 10 then str1 r_bslash +:+ "n"
  else if r =? 13 then str1 r_bslash +:+ "r"
  else if r =? 9 then str1 r_bslash +:+ "t"
  else if r =? 11 then str1 r_bslash +:+ "v"
  else if r <? 32 then str1 r_bslash +:+ "x" +:+ hexGo 2 r
  else if r <? 0x10000 then str1 r_bslash +:+ "u" +:+ hexGo 4 r
  else str1 r_bslash +:+ "U" +:+ hexGo 8 r.

(** A byte that starts no valid sequence is written as a hexadecimal escape;
    [decodeWidths] pairs each rune with that byte when it is such a byte. *)
Fixpoint decodeWidths (fuel : nat) (s : string) : list (rune + Ascii.ascii) :=
  match fuel, s with
  | O, _ => []
  | S _, "" => []
  | S n, String b s' =>
    match utf8Decode s with
    | [] => []
    | r :: _ =>
      if (r =? 0xFFFD) && negb (HasPrefix s (runeString 0xFFFD))
      then inr b :: decodeWidths n s'
      else inl r :: decodeWidths n (skipString (String.length (runeString r)) s)
    end
  end.

Definition quoteItem (i : rune + Ascii.ascii) : string :=
  match i with
  | inl r => escapedRune r
  | inr b => str1 r_bslash +:+ "x" +:+ hexGo 2 (byteZ b)
  end.

(** [strconv.Quote]. *)
Definition Quote (s : string) : string :=
  str1 r_dquote +:+
  foldr (λ i acc, quoteItem i +:+ acc) "" (decodeWidths (String.length s) s) +:+
  str1 r_dquote.

End Quote.

(** ** Lemmas on UTF-8 *)

Ltac bytes_lia :=
  unfold inRange, cont, second3, second4 in *; reflect_bools; lia.


Lemma lor_shiftl_add a b k :
  0 ≤ k → 0 ≤ b < 2 ^ k → Z.lor (Z.shiftl a k) b = a * 2 ^ k + b.
Proof.
  intros Hk Hb. rewrite <- Z.add_nocarry_lor, Z.shiftl_mul_pow2; [done|lia|].
  apply Z.bits_inj'. intros n Hn. rewrite Z.land_spec, Z.bits_0.
  destruct (decide (n < k)).
  - by rewrite Z.shiftl_spec_low by lia.
  - destruct (decide (b = 0)) as [->|]; [by rewrite Z.bits_0, andb_false_r|].
    rewrite (Z.bits_above_log2 b n); [by rewrite andb_false_r|lia|].
    apply Z.log2_lt_pow2; [lia|]. pose proof (Z.pow_le_mono_r 2 k n). lia.
Qed.

Lemma land_mod r k : 0 ≤ k → Z.land r (Z.ones k) = r mod 2 ^ k.
Proof. apply Z.land_ones. Qed.

(** The byte arithmetic of UTF-8 in terms of division and remainder. *)
Lemma contByte x : 0 ≤ x → Z.lor 0x80 (Z.land x 0x3F) = 128 + x mod 64.
Proof.
  intros. change 0x3F with (Z.ones 6). change (Z.lor 0x80) with (Z.lor (Z.shiftl 2 6)).
  rewrite land_mod by lia. change (2 ^ 6) with 64. pose proof (Z.mod_pos_bound x 64).
  rewrite lor_shiftl_add by lia. lia.
Qed.

Lemma landMask m k x : m = Z.ones k → 0 ≤ k → Z.land x m = x mod 2 ^ k.
Proof. intros ->. apply land_mod. Qed.

Ltac utf8_norm :=
  repeat first
  [ rewrite Z.shiftr_div_pow2 by lia
  | rewrite contByte by (repeat apply Z.div_pos; lia)
  | rewrite (landMask 0x3F 6) by (reflexivity || lia)
  | rewrite (landMask 0x1F 5) by (reflexivity || lia)
  | rewrite (landMask 0xF 4) by (reflexivity || lia)
  | rewrite (landMask 0x7 3) by (reflexivity || lia) ];
  change (2 ^ 3) with 8 in *; change (2 ^ 4) with 16 in *; change (2 ^ 5) with 32 in *;
  change (2 ^ 6) with 64 in *; change (2 ^ 12) with 4096 in *; change (2 ^ 18) with 262144 in *.

Lemma lead2 x : 0 ≤ x < 32 → Z.lor 0xC0 x = 192 + x.
Proof. intros. change (Z.lor 0xC0) with (Z.lor (Z.shiftl 6 5)). rewrite lor_shiftl_add by lia. lia. Qed.
Lemma lead3 x : 0 ≤ x < 16 → Z.lor 0xE0 x = 224 + x.
Proof. intros. change (Z.lor 0xE0) with (Z.lor (Z.shiftl 14 4)). rewrite lor_shiftl_add by lia. lia. Qed.
Lemma lead4 x : 0 ≤ x < 8 → Z.lor 0xF0 x = 240 + x.
Proof. intros. change (Z.lor 0xF0) with (Z.lor (Z.shiftl 30 3)). rewrite lor_shiftl_add by lia. lia. Qed.

Lemma runeString_ascii r s :
  0 ≤ r < 0x80 → utf8Decode (runeString r +:+ s) = r :: utf8Decode s.
Proof.
  intros. unfold runeString. replace ((0 <=? r) && (r <=? 0x7F)) with true by lia.
  unfold str1; rewrite ?string_app_cons, ?string_app_nil_l; cbn [utf8Decode]. rewrite byteZ_zbyte by lia.
  by replace (r <? 0x80) with true by lia.
Qed.

Lemma utf8Decode_2 c0 c1 s :
  0xC2 ≤ c0 ≤ 0xDF → 0x80 ≤ c1 ≤ 0xBF →
  utf8Decode (str1 c0 +:+ str1 c1 +:+ s) = (c0 - 192) * 64 + (c1 - 128) :: utf8Decode s.
Proof.
  intros. unfold str1; rewrite ?string_app_cons, ?string_app_nil_l; cbn [utf8Decode]. rewrite !byteZ_zbyte by lia.
  replace (c0 <? 0x80) with false by lia.
  replace (inRange c0 0xC2 0xDF && cont c1) with true by (unfold inRange, cont, inRange; lia).
  utf8_norm.
  assert (c0 mod 32 = c0 - 192) as -> by (symmetry; apply (Z.mod_unique _ _ 6); lia).
  assert (c1 mod 64 = c1 - 128) as -> by (symmetry; apply (Z.mod_unique _ _ 2); lia).
  rewrite lor_shiftl_add by lia. f_equal; lia.
Qed.

Lemma utf8Decode_3 c0 c1 c2 s :
  0xE0 ≤ c0 ≤ 0xEF → 0x80 ≤ c1 ≤ 0xBF → 0x80 ≤ c2 ≤ 0xBF →
  second3 c0 c1 = true →
  utf8Decode (str1 c0 +:+ str1 c1 +:+ str1 c2 +:+ s) =
  (c0 - 224) * 4096 + (c1 - 128) * 64 + (c2 - 128) :: utf8Decode s.
Proof.
  intros ??? Hs. unfold str1; rewrite ?string_app_cons, ?string_app_nil_l; cbn [utf8Decode]. rewrite !byteZ_zbyte by lia.
  replace (c0 <? 0x80) with false by lia.
  replace (inRange c0 0xC2 0xDF && cont c1) with false by (unfold inRange; lia).
  rewrite Hs. replace (cont c2) with true by (unfold cont, inRange; lia). cbn [andb].
  utf8_norm.
  assert (c0 mod 16 = c0 - 224) as -> by (symmetry; apply (Z.mod_unique _ _ 14); lia).
  assert (c1 mod 64 = c1 - 128) as -> by (symmetry; apply (Z.mod_unique _ _ 2); lia).
  assert (c2 mod 64 = c2 - 128) as -> by (symmetry; apply (Z.mod_unique _ _ 2); lia).
  rewrite (Z.shiftl_mul_pow2 (c1 - 128)) by lia.
  rewrite (lor_shiftl_add (c0 - 224)) by lia.
  replace ((c0 - 224) * 2 ^ 12 + (c1 - 128) * 2 ^ 6)
    with (((c0 - 224) * 64 + (c1 - 128)) * 2 ^ 6) by lia.
  rewrite <- Z.shiftl_mul_pow2 by lia. rewrite lor_shiftl_add by lia. f_equal; lia.
Qed.

Lemma utf8Decode_4 c0 c1 c2 c3 s :
  0xF0 ≤ c0 ≤ 0xF4 → 0x80 ≤ c1 ≤ 0xBF → 0x80 ≤ c2 ≤ 0xBF → 0x80 ≤ c3 ≤ 0xBF →
  second4 c0 c1 = true →
  utf8Decode (str1 c0 +:+ str1 c1 +:+ str1 c2 +:+ str1 c3 +:+ s) =
  (c0 - 240) * 262144 + (c1 - 128) * 4096 + (c2 - 128) * 64 + (c3 - 128) :: utf8Decode s.
Proof.
  intros ???? Hs. unfold str1; rewrite ?string_app_cons, ?string_app_nil_l; cbn [utf8Decode]. rewrite !byteZ_zbyte by lia.
  replace (c0 <? 0x80) with false by lia.
  replace (inRange c0 0xC2 0xDF && cont c1) with false by (unfold inRange; lia).
  replace (second3 c0 c1) with false by (unfold second3, inRange; repeat case_match; lia).
  rewrite Hs. replace (cont c2) with true by (unfold cont, inRange; lia).
  replace (cont c3) with true by (unfold cont, inRange; lia). cbn [andb].
  utf8_norm.
  assert (c0 mod 8 = c0 - 240) as -> by (symmetry; apply (Z.mod_unique _ _ 30); lia).
  assert (c1 mod 64 = c1 - 128) as -> by (symmetry; apply (Z.mod_unique _ _ 2); lia).
  assert (c2 mod 64 = c2 - 128) as -> by (symmetry; apply (Z.mod_unique _ _ 2); lia).
  assert (c3 mod 64 = c3 - 128) as -> by (symmetry; apply (Z.mod_unique _ _ 2); lia).
  rewrite (lor_shiftl_add (c2 - 128)) by lia.
  rewrite (Z.shiftl_mul_pow2 (c1 - 128)) by lia.
  rewrite (lor_shiftl_add (c0 - 240)) by lia.
  replace ((c0 - 240) * 2 ^ 18 + (c1 - 128) * 2 ^ 12)
    with (((c0 - 240) * 64 + (c1 - 128)) * 2 ^ 12) by lia.
  rewrite <- Z.shiftl_mul_pow2 by lia. rewrite lor_shiftl_add by lia. f_equal; lia.
Qed.

(** Decoding the encoding of a valid rune gives the rune back, whatever
    follows. *)
Lemma utf8Decode_runeString r s :
  validRune r = true → utf8Decode (runeString r +:+ s) = r :: utf8Decode s.
Proof.
  intros Hv. pose proof Hv as Hv'. unfold validRune in Hv'.
  destruct (decide (r < 0x80)); [apply runeString_ascii; lia|].
  unfold runeString. rewrite Hv. cbn [negb].
  replace ((0 <=? r) && (r <=? 0x7F)) with false by lia.
  destruct (decide (r ≤ 0x7FF)).
  { replace ((0 <=? r) && (r <=? 0x7FF)) with true by lia. utf8_norm.
    rewrite lead2 by (split; [apply Z.div_pos|apply Z.div_lt_upper_bound]; lia).
    rewrite <- string_app_assoc. pose proof (Z.div_mod r 64). pose proof (Z.mod_pos_bound r 64).
    rewrite utf8Decode_2 by lia. f_equal; lia. }
  replace ((0 <=? r) && (r <=? 0x7FF)) with false by lia.
  pose proof (Z.div_mod r 64). pose proof (Z.mod_pos_bound r 64).
  pose proof (Z.div_mod (r / 64) 64). pose proof (Z.mod_pos_bound (r / 64) 64).
  assert (r / 4096 = r / 64 / 64) by (by rewrite Z.div_div by lia).
  destruct (decide (r ≤ 0xFFFF)).
  { replace (r <=? 0xFFFF) with true by lia. utf8_norm.
    rewrite lead3 by lia. rewrite <- !string_app_assoc.
    rewrite utf8Decode_3; [f_equal; lia|lia..|].
    unfold second3, inRange. repeat case_match; lia. }
  replace (r <=? 0xFFFF) with false by lia.
  pose proof (Z.div_mod (r / 4096) 64). pose proof (Z.mod_pos_bound (r / 4096) 64).
  assert (r / 262144 = r / 4096 / 64) by (by rewrite Z.div_div by lia).
  utf8_norm. rewrite lead4 by lia. rewrite <- !string_app_assoc.
  rewrite utf8Decode_4; [f_equal; lia|lia..|].
  unfold second4, inRange. repeat case_match; lia.
Qed.

Lemma runesString_app rs1 rs2 :
  runesString (rs1 ++ rs2) = runesString rs1 +:+ runesString rs2.
Proof.
  induction rs1 as [|r rs IH]; [done|]. simpl. by rewrite IH, string_app_assoc.
Qed.

Lemma runesString_cons r rs : runesString (r :: rs) = runeString r +:+ runesString rs.
Proof. done. Qed.

Lemma utf8Decode_runesString_app rs s :
  Forall (λ r, validRune r = true) rs →
  utf8Decode (runesString rs +:+ s) = rs ++ utf8Decode s.
Proof.
  induction 1 as [|r rs Hr Hrs IH]; [done|].
  rewrite runesString_cons, <- string_app_assoc, utf8Decode_runeString by done.
  by rewrite IH.
Qed.

Lemma utf8Decode_runesString rs :
  Forall (λ r, validRune r = true) rs → utf8Decode (runesString rs) = rs.
Proof.
  intros H. rewrite <- (string_app_nil_r (runesString rs)).
  rewrite utf8Decode_runesString_app by done. apply app_nil_r.
Qed.

(** Text that is well-formed UTF-8. *)
Definition validText (s : string) : Prop :=
  ∃ rs, Forall (λ r, validRune r = true) rs ∧ s = runesString rs.

Lemma validText_decode s :
  validText s → Forall (λ r, validRune r = true) (utf8Decode s) ∧ runesString (utf8Decode s) = s.
Proof. intros (rs & H & ->). by rewrite utf8Decode_runesString. Qed.

Lemma utf8Decode_app s1 s2 :
  validText s1 → utf8Decode (s1 +:+ s2) = utf8Decode s1 ++ utf8Decode s2.
Proof.
  intros (rs & H & ->). rewrite utf8Decode_runesString_app by done.
  by rewrite utf8Decode_runesString.
Qed.

Lemma validText_app s1 s2 : validText s1 → validText s2 → validText (s1 +:+ s2).
Proof.
  intros (r1 & H1 & ->) (r2 & H2 & ->). exists (r1 ++ r2).
  by rewrite runesString_app, Forall_app.
Qed.

Lemma validText_nil : validText "".
Proof. by exists []. Qed.

Lemma validText_rune r : validRune r = true → validText (runeString r).
Proof. intros. exists [r]. split; [by repeat constructor|]. simpl. by rewrite string_app_nil_r. Qed.

(** A rune encodes to at least one byte. *)
Lemma runeString_nonempty r : runeString r ≠ "".
Proof. unfold runeString. split_code; done. Qed.

#[export] Hint Resolve validText_app validText_nil validText_rune runeString_nonempty : vince.

(** ** Lemmas on the package strings *)

Lemma hasByte_app c s1 s2 : hasByte c (s1 +:+ s2) = hasByte c s1 || hasByte c s2.
Proof. induction s1 as [|a s IH]; [done|]. rewrite string_app_cons. simpl. by rewrite IH, orb_assoc. Qed.

Lemma HasPrefix_app s1 s2 : HasPrefix (s1 +:+ s2) s1 = true.
Proof. induction s1 as [|a s IH]; [by destruct s2|]. rewrite string_app_cons. simpl. by rewrite Z.eqb_refl. Qed.

Lemma skipString_app s1 s2 : skipString (String.length s1) (s1 +:+ s2) = s2.
Proof. induction s1 as [|a s IH]; [by destruct s2|]. by rewrite string_app_cons. Qed.

Lemma Split_app a b c : (0 ≤ c < 256) → Split (a +:+ String (zbyte c) b) c = Split a c ++ Split b c.
Proof.
  intros Hc. induction a as [|x a IH].
  - simpl. rewrite byteZ_zbyte by done. by rewrite Z.eqb_refl.
  - rewrite string_app_cons. simpl. rewrite IH. destruct (byteZ x =? c); [done|].
    destruct (Split a c) eqn:E; [|done]. destruct a; simpl in E; [done|].
    destruct (_ =? _); [done|]. unfold consHead in E. by destruct (Split a0 c).
Qed.

Lemma HasPrefix_split s p : HasPrefix s p = true → ∃ x, s = p +:+ x.
Proof.
  revert s. induction p as [|a p IH]; intros s H; [by exists s|].
  destruct s as [|b s]; [done|]. simpl in H. reflect_bools. apply IH in H0 as [x ->]. exists x.
  rewrite string_app_cons. f_equal. by rewrite <- (zbyte_byteZ a), <- (zbyte_byteZ b), H.
Qed.

Lemma stringRev_app s1 s2 : stringRev (s1 +:+ s2) = stringRev s2 +:+ stringRev s1.
Proof.
  induction s1 as [|a s IH]; [by rewrite string_app_nil_r|].
  rewrite string_app_cons. simpl. by rewrite IH, string_app_assoc.
Qed.

Lemma stringRev_involutive s : stringRev (stringRev s) = s.
Proof. induction s as [|a s IH]; [done|]. simpl. rewrite stringRev_app, IH. done. Qed.

Lemma Split_none s c : hasByte c s = false → Split s c = [s].
Proof.
  induction s as [|a s IH]; [done|]. simpl. rewrite orb_false_iff. intros [-> H]. by rewrite IH.
Qed.
