(* ===== verification/Lexer.v ===== *)
(** * The configuration lexer (src/config_lex.go)

    [lex] turns the bytes of a configuration file into tokens.  The reader is
    an in-memory file: the only error it gives is the end of file.  Each loop
    of the source that is not bounded by its input takes fuel, one unit per
    iteration. *)

From S2P Require Import Prelude GoStrings.

#[local] Open Scope Z_scope.

(** ** Errors *)

Record NgxError := mkNgxError {
  Reason : string;
  Linenum : Z;
  ErrFilename : string;
}.

Definition newError (reason : string) (line : Z) (filename : string) : NgxError :=
  {| Reason := reason; Linenum := line; ErrFilename := filename |}.

(** [NgxError.Error]. *)
Definition NgxError_Error (n : NgxError) : string :=
  ErrFilename n +:+ ":" +:+ Itoa (Linenum n) +:+ " " +:+ Reason n.

(** The error values of the configuration code: [NgxError] itself, the three
    wrappers of it, the end of file of the reader, and errors of the operating
    system (their message only). *)
Inductive error : Type :=
| ErrNgx (e : NgxError)
| NgxParserDirectiveUnknownError (e : NgxError)
| NgxParserDirectiveContextError (e : NgxError)
| NgxParserDirectiveArgumentsError (e : NgxError)
| io_EOF
| ErrOS (msg : string).

#[global] Instance NgxError_eq_dec : EqDecision NgxError.
Proof. solve_decision. Defined.
#[global] Instance error_eq_dec : EqDecision error.
Proof. solve_decision. Defined.

(** ** The rune iterators *)

(** [wrapBufio] over [bufio.Reader]: the runes still to be read. *)
Record wrapBufio := mkIter { it_runes : list rune }.

Definition newIter (rd : string) : wrapBufio := {| it_runes := utf8Decode rd |}.

(** [wrapBufio.Next]: the rune read and whether the end of file was met. *)
Definition wrapBufio_Next (w : wrapBufio) : rune * bool * wrapBufio :=
  match it_runes w with
  | [] => (0, true, w)
  | r :: rs => (r, false, {| it_runes := rs |})
  end.

Record lineCounter := mkLineCounter {
  lc_Iter : wrapBufio;
  lc_line : Z;
}.

(** [lineCounter.Next]: the rune, its line, whether the end of file was met. *)
Definition lineCounter_Next (ls : lineCounter) : rune * Z * bool * lineCounter :=
  let '(ch, err, it) := wrapBufio_Next (lc_Iter ls) in
  if err then (0, 0, true, {| lc_Iter := it; lc_line := lc_line ls |})
  else
    let line := if ch =? r_nl then lc_line ls + 1 else lc_line ls in
    (ch, line, false, {| lc_Iter := it; lc_line := line |}).

(** ** Tokens and the lexer's state *)

Record token := mkToken {
  text : string;
  line : Z;
  quote : bool;
}.

#[global] Instance token_eq_dec : EqDecision token.
Proof. solve_decision. Defined.

(** The implementations of the interface [customLexer]. *)
Inductive customLexer : Type := luaLexer.

Record lexer := mkLexer {
  lx_token : string;
  lx_tokens : list token;
  lx_line : Z;
  nextTokenIsDirective : bool;
  lx_iter : lineCounter;
  externalLexer : gmap string customLexer;
}.

Definition set_token (t : string) (lx : lexer) : lexer :=
  {| lx_token := t; lx_tokens := lx_tokens lx; lx_line := lx_line lx;
     nextTokenIsDirective := nextTokenIsDirective lx; lx_iter := lx_iter lx;
     externalLexer := externalLexer lx |}.
Definition append_tokens (ts : list token) (lx : lexer) : lexer :=
  {| lx_token := lx_token lx; lx_tokens := lx_tokens lx ++ ts; lx_line := lx_line lx;
     nextTokenIsDirective := nextTokenIsDirective lx; lx_iter := lx_iter lx;
     externalLexer := externalLexer lx |}.
Definition set_line (l : Z) (lx : lexer) : lexer :=
  {| lx_token := lx_token lx; lx_tokens := lx_tokens lx; lx_line := l;
     nextTokenIsDirective := nextTokenIsDirective lx; lx_iter := lx_iter lx;
     externalLexer := externalLexer lx |}.
Definition set_directive (b : bool) (lx : lexer) : lexer :=
  {| lx_token := lx_token lx; lx_tokens := lx_tokens lx; lx_line := lx_line lx;
     nextTokenIsDirective := b; lx_iter := lx_iter lx;
     externalLexer := externalLexer lx |}.
Definition set_iter (it : lineCounter) (lx : lexer) : lexer :=
  {| lx_token := lx_token lx; lx_tokens := lx_tokens lx; lx_line := lx_line lx;
     nextTokenIsDirective := nextTokenIsDirective lx; lx_iter := it;
     externalLexer := externalLexer lx |}.

(** [luaLexer.directives]. *)
Definition luaLexer_directives : list string := [
  "access_by_lua_block";
  "balancer_by_lua_block";
  "body_filter_by_lua_block";
  "content_by_lua_block";
  "header_filter_by_lua_block";
  "init_by_lua_block";
  "init_worker_by_lua_block";
  "log_by_lua_block";
  "rewrite_by_lua_block";
  "set_by_lua_block";
  "ssl_certificate_by_lua_block";
  "ssl_session_fetch_by_lua_block";
  "ssl_session_store_by_lua_block"].

Definition defaultCustomLexers : gmap string customLexer :=
  foldl (λ m directive, <[directive := luaLexer]> m) ∅ luaLexer_directives.

Definition newLexer (iter : wrapBufio) (custom : gmap string customLexer) : lexer :=
  {| lx_token := ""; lx_tokens := []; lx_line := 0; nextTokenIsDirective := false;
     lx_iter := {| lc_Iter := iter; lc_line := 1 |}; externalLexer := custom |}.

(** [lexer.custom]. *)
Definition lexer_custom (lx : lexer) (token : string) : option customLexer :=
  if nextTokenIsDirective lx then externalLexer lx !! token else None.

(** ** The Lua block lexer *)

(** [for unicode.IsSpace(ch) { ch, line, err = it.Next() }]: the state is the
    rune, its line, the error of the last read and the iterator. *)
Definition skipSpaceStep (s : rune * Z * bool * lineCounter)
    : (rune * Z * bool * lineCounter) + (rune * Z * bool * lineCounter) :=
  let '(ch, ln, err, it) := s in
  if IsSpace ch then inl (lineCounter_Next it) else inr s.

Definition skipSpace := go_while skipSpaceStep.

Definition consumeSpace (fuel : nat) (it : lineCounter) : res (rune * Z * bool * lineCounter) :=
  skipSpace fuel (lineCounter_Next it).

(** The argument loop of [set_by_lua_block]: the state is the argument text,
    the tokens so far and what the last read gave. *)
Definition luaArgStep (fuel : nat)
    (s : string * list token * (rune * Z * bool * lineCounter))
    : res (string * list token * (rune * Z * bool * lineCounter) + list token * lineCounter) :=
  let '(arg, tok, (ch, ln, err, it)) := s in
  if (err : bool) then Ok (inr (tok, it))
  else
    '(tok, ch, it) ←
      (if IsSpace ch then
         if negb (arg =? "")%string
         then Ok (tok ++ [{| text := arg; line := ln; quote := false |}], ch, it)
         else
           '(ch, _, _, it) ← skipSpace fuel (ch, ln, err, it);
           Ok (tok, ch, it)
       else Ok (tok, ch, it));
    Ok (inl (arg +:+ runeString ch, tok, lineCounter_Next it)).

Definition luaArgLoop := go_for luaArgStep.

(** The string-literal loop inside a Lua block, for the quote [qt]. *)
Definition luaQuoteStep (qt : rune) (s : string * rune * Z * lineCounter)
    : (string * rune * Z * lineCounter) + (string * rune * Z * lineCounter) :=
  let '(tk, ch, ln, it) := s in
  if ch =? qt then inr s
  else
    let tk := tk +:+ runeString ch in
    let '(ch, ln, _, it) := lineCounter_Next it in
    inl (tk, ch, ln, it).

Definition luaQuoteLoop (qt : rune) := go_while (luaQuoteStep qt).

(** The body loop of a Lua block: the state is the brace depth, the text so
    far and what the last read gave; it leaves with the tokens or an error. *)
Definition luaBodyStep (tok : list token) (fuel : nat)
    (s : Z * string * (rune * Z * bool * lineCounter))
    : res (Z * string * (rune * Z * bool * lineCounter) + (list token + error) * lineCounter) :=
  let '(depth, tk, (ch, ln, err, it)) := s in
  if (err : bool) then Ok (inr (inl tok, it))
  else
    '(depth, tk, ch, ln, it) ←
      (if ch =? r_lbrace then Ok (depth + 1, tk, ch, ln, it)
       else if ch =? r_rbrace then Ok (depth - 1, tk, ch, ln, it)
       else if (ch =? r_dquote) || (ch =? r_squote) then
         let qt := ch in
         let tk := tk +:+ runeString ch in
         let '(ch, ln, _, it) := lineCounter_Next it in
         '(tk, ch, ln, it) ← luaQuoteLoop qt fuel (tk, ch, ln, it);
         Ok (depth, tk, ch, ln, it)
       else Ok (depth, tk, ch, ln, it));
    if depth <? 0 then
      Ok (inr (inr (ErrNgx {| Reason := "unexpected }"; Linenum := ln; ErrFilename := "" |}), it))
    else if depth =? 0 then
      Ok (inr (inl (tok ++ [{| text := tk; line := ln; quote := false |};
                            {| text := ";"; line := ln; quote := false |}]), it))
    else Ok (inl (depth, tk +:+ runeString ch, lineCounter_Next it)).

Definition luaBodyLoop (tok : list token) := go_for (luaBodyStep tok).

(** [luaLexer.lex]: the tokens, or the error, and the iterator.  On the
    normal path the source returns [nil, nil]: the tokens it has collected are
    not returned. *)
Definition luaLexer_lex (fuel : nat) (it : lineCounter) (directive : string)
    : res ((list token + error) * lineCounter) :=
  '(tok, it) ←
    (if (directive =? "set_by_lua_block")%string then
       luaArgLoop fuel ("", [], lineCounter_Next it)
     else Ok ([], it));
  '(ch, ln, err, it) ← consumeSpace fuel it;
  if (err : bool) then Ok (inr io_EOF, it)
  else if negb (ch =? r_lbrace) then
    Ok (inr (ErrNgx {| Reason := "expected { to start Lua block"; Linenum := ln;
                       ErrFilename := "" |}), it)
  else
    '(r, it) ← luaBodyLoop tok fuel (1, "", lineCounter_Next it);
    match r with
    | inr e => Ok (inr e, it)
    | inl _ => Ok (inl [], it)
    end.

Definition customLexer_lex (c : customLexer) (fuel : nat) (it : lineCounter)
    (directive : string) : res ((list token + error) * lineCounter) :=
  match c with luaLexer => luaLexer_lex fuel it directive end.

(** ** The main loop *)

(** A comment: [for ch != '\n' { lx.token += string(ch); ch, _, err = Next() }]. *)
Definition commentStep (s : string * rune * lineCounter)
    : (string * rune * lineCounter) + (string * lineCounter) :=
  let '(tok, ch, it) := s in
  if ch =? r_nl then inr (tok, it)
  else
    let tok := tok +:+ runeString ch in
    let '(ch, _, _, it) := lineCounter_Next it in
    inl (tok, ch, it).

Definition commentLoop := go_while commentStep.

(** A variable in braces: the loop runs until the token ends with a closing
    brace or white space is read. *)
Definition variableStep (s : string * rune * Z * lineCounter)
    : (string * rune * Z * lineCounter) + (string * rune * Z * lineCounter) :=
  let '(tok, ch, ln, it) := s in
  if negb (endsWithByte tok r_rbrace) && negb (IsSpace ch) then
    let tok := tok +:+ runeString ch in
    let '(ch, ln, _, it) := lineCounter_Next it in
    inl (tok, ch, ln, it)
  else inr s.

Definition variableLoop := go_while variableStep.

(** A quoted token: until the closing quote [qt]; a backslash before the quote
    is dropped, any other backslash is kept with the rune it precedes. *)
Definition quoteStep (qt : rune) (s : string * rune * lineCounter)
    : (string * rune * lineCounter) + (string * lineCounter) :=
  let '(tok, ch, it) := s in
  if ch =? qt then inr (tok, it)
  else
    let '(tok, it) :=
      if ch =? r_bslash then
        let '(ch, _, _, it) := lineCounter_Next it in
        if ch =? qt then (tok +:+ runeString qt, it)
        else (tok +:+ str1 r_bslash +:+ runeString ch, it)
      else (tok +:+ runeString ch, it) in
    let '(ch, _, _, it) := lineCounter_Next it in
    inl (tok, ch, it).

Definition quoteLoop (qt : rune) := go_while (quoteStep qt).

Definition mkTok (t : string) (l : Z) (q : bool) : token :=
  {| text := t; line := l; quote := q |}.

(** The result of one pass over the loop body: go round again with the new
    state ([inl]), or return from [lex] ([inr]). *)
Abbreviation pass := (lexer + option error * lexer)%type (only parsing).
Definition Again (lx : lexer) : pass := inl lx.
Definition Return (err : option error) (lx : lexer) : pass := inr (err, lx).

(** Lines 110-131: white space ends the pending token, which may start a
    custom lexer; then the white space is skipped. *)
Definition lexSpace (fuel : nat) (lx : lexer) (ch : rune) (ln : Z)
    : res (error * lexer + rune * Z * lexer) :=
  if IsSpace ch then
    r ← (if negb (lx_token lx =? "")%string then
           let lx := append_tokens [mkTok (lx_token lx) (lx_line lx) false] lx in
           match lexer_custom lx (lx_token lx) with
           | Some clx =>
             '(r, it) ← customLexer_lex clx fuel (lx_iter lx) (lx_token lx);
             let lx := set_iter it lx in
             match r with
             | inr e => Ok (inl (e, lx))
             | inl ts => Ok (inr (set_token "" (append_tokens ts lx)))
             end
           | None => Ok (inr (set_token "" (set_directive false lx)))
           end
         else Ok (inr lx));
    match r with
    | inl (e, lx) => Ok (inl (e, lx))
    | inr lx =>
      '(ch, ln, _, it) ← skipSpace fuel (ch, ln, false, lx_iter lx);
      Ok (inr (ch, ln, set_iter it lx))
    end
  else Ok (inr (ch, ln, lx)).

(** Lines 162-199: a quote, inside a token or around one. *)
Definition lexQuote (fuel : nat) (lx : lexer) (ch : rune) : res pass :=
  if negb (lx_token lx =? "")%string then
    Ok (Again (set_token (lx_token lx +:+ runeString ch) lx))
  else
    let qt := ch in
    let '(ch, _, _, it) := lineCounter_Next (lx_iter lx) in
    '(tok, it) ← quoteLoop qt fuel ("", ch, it);
    let lx := append_tokens [mkTok tok (lx_line lx) true] (set_iter it lx) in
    match lexer_custom lx tok with
    | Some clx =>
      '(r, it) ← customLexer_lex clx fuel (lx_iter lx) tok;
      let lx := set_iter it lx in
      match r with
      | inr e => Ok (Return (Some e) (set_token tok lx))
      | inl ts => Ok (Again (set_token "" (set_directive true (append_tokens ts lx))))
      end
    | None => Ok (Again (set_token "" (set_directive false lx)))
    end.

(** Lines 200-214: an opening brace, a closing brace or a semicolon. *)
Definition lexTerminal (lx : lexer) (ch : rune) (ln : Z) : lexer :=
  let lx := if negb (lx_token lx =? "")%string
            then set_token "" (append_tokens [mkTok (lx_token lx) (lx_line lx) false] lx)
            else lx in
  set_directive true (append_tokens [mkTok (runeString ch) ln false] lx).

Definition isTerminalRune (ch : rune) : bool :=
  (ch =? r_lbrace) || (ch =? r_rbrace) || (ch =? r_semi).

Definition isQuoteRune (ch : rune) : bool := (ch =? r_dquote) || (ch =? r_squote).

(** Lines 152-215: what follows when the rune is not white space, a comment or
    an escape. *)
Definition lexRune (fuel : nat) (lx : lexer) (ch : rune) (ln : Z) : res pass :=
  let lx := if (lx_token lx =? "")%string then set_line ln lx else lx in
  '(lx, ch, ln) ←
    (if endsWithByte (lx_token lx) r_dollar && (ch =? r_lbrace) then
       '(tok, ch, ln, it) ← variableLoop fuel (lx_token lx, ch, ln, lx_iter lx);
       Ok (set_token tok (set_iter it (set_directive false lx)), ch, ln)
     else Ok (lx, ch, ln));
  if isQuoteRune ch then lexQuote fuel lx ch
  else if isTerminalRune ch then Ok (Again (lexTerminal lx ch ln))
  else Ok (Again (set_token (lx_token lx +:+ runeString ch) lx)).

(** One pass over the body of the loop of [lexer.lex]. *)
Definition lexPass (fuel : nat) (lx : lexer) : res pass :=
  let '(ch, ln, err, it) := lineCounter_Next (lx_iter lx) in
  let lx := set_iter it lx in
  if (err : bool) then Ok (Return None lx)
  else
    r ← lexSpace fuel lx ch ln;
    match r with
    | inl (e, lx) => Ok (Return (Some e) lx)
    | inr (ch, ln, lx) =>
      if (lx_token lx =? "")%string && (ch =? r_hash) then
        '(tok, it) ← commentLoop fuel (lx_token lx, ch, lx_iter lx);
        Ok (Again (set_token "" (append_tokens [mkTok tok ln false] (set_iter it lx))))
      else if ch =? r_bslash then
        let '(ch', _, _, it) := lineCounter_Next (lx_iter lx) in
        Ok (Again (set_token (lx_token lx +:+ runeString ch +:+ runeString ch')
                             (set_iter it lx)))
      else lexRune fuel lx ch ln
    end.

(** [lexer.lex]. *)
Definition lexer_lex : nat → lexer → res (option error * lexer) := go_for lexPass.

(** ** Balanced braces *)

Fixpoint balanceLoop (tokens : list token) (filename : string) (depth ln : Z)
    : option error :=
  match tokens with
  | [] =>
    if depth >? 0 then
      Some (ErrNgx {| Reason := "unexpected end of file, expecting }";
                      Linenum := ln; ErrFilename := filename |})
    else None
  | t :: ts =>
    let ln := line t in
    let depth :=
      if (text t =? "}")%string && negb (quote t) then depth - 1
      else if (text t =? "{")%string && negb (quote t) then depth + 1
      else depth in
    if depth <? 0 then
      Some (ErrNgx {| Reason := "unexpected }"; Linenum := line t; ErrFilename := filename |})
    else balanceLoop ts filename depth ln
  end.

Definition balanceBraces (tokens : list token) (filename : string) : option error :=
  balanceLoop tokens filename 0 0.

(** [lex]: the tokens of a file, or the error. *)
Definition lex (fuel : nat) (rd : string) (filename : string) : res (list token + error) :=
  '(err, lx) ← lexer_lex fuel (newLexer (newIter rd) defaultCustomLexers);
  match err with
  | Some e => Ok (inr e)
  | None =>
    match balanceBraces (lx_tokens lx) filename with
    | Some e => Ok (inr e)
    | None => Ok (inl (lx_tokens lx))
    end
  end.

(** ** Fuel: what is enough, and when nothing is

    The measure of every loop is the number of runes left to read. *)

Definition left_in (it : lineCounter) : nat := length (it_runes (lc_Iter it)).

(** Reading either takes a rune or is at the end of the file and stays there. *)
Lemma Next_cases it :
  (∃ r ln it', lineCounter_Next it = (r, ln, false, it') ∧
     it_runes (lc_Iter it) = r :: it_runes (lc_Iter it')) ∨
  (it_runes (lc_Iter it) = [] ∧ lineCounter_Next it = (0, 0, true, it)).
Proof.
  destruct it as [[[|r rs]] l]; [by right|left].
  unfold lineCounter_Next. simpl. eauto.
Qed.

(** Step to the next rune: [r] was read, or the file was at its end. *)
Ltac next_cases it :=
  let r := fresh "r" in let Hr := fresh "Hr" in
  let l := fresh "ln" in let it' := fresh "it" in let Hn := fresh "Hn" in
  destruct (Next_cases it) as [(r & l & it' & Hn & Hr)|[Hr Hn]];
  rewrite ?Hn in *.

Lemma Next_left it ch ln err it' :
  lineCounter_Next it = (ch, ln, err, it') →
  (left_in it' ≤ left_in it)%nat ∧ (err = false → (left_in it' < left_in it)%nat) ∧
  (err = true → ch = 0 ∧ left_in it = 0%nat ∧ it' = it).
Proof.
  unfold left_in. intros H. next_cases it; simplify_eq; rewrite ?Hr; simpl; [|naive_solver lia].
  split; [lia|]. split; [lia|done].
Qed.

Lemma skipSpace_stable : stable skipSpace.
Proof. apply go_while_stable. Qed.
Lemma luaQuoteLoop_stable qt : stable (luaQuoteLoop qt).
Proof. apply go_while_stable. Qed.
Lemma commentLoop_stable : stable commentLoop.
Proof. apply go_while_stable. Qed.
Lemma variableLoop_stable : stable variableLoop.
Proof. apply go_while_stable. Qed.
Lemma quoteLoop_stable qt : stable (quoteLoop qt).
Proof. apply go_while_stable. Qed.

#[export] Hint Resolve skipSpace_stable luaQuoteLoop_stable commentLoop_stable
  variableLoop_stable quoteLoop_stable : vince.

(** Stability of straight-line code around stable loops. *)
Ltac stable_code :=
  repeat first
  [ done
  | match goal with
    | |- finished (_ ≫= _) = true → _ => apply bind_stable; [intros|intros]
    | H : finished (_ ≫= _) = true |- _ ≫= _ = _ ≫= _ => revert H; apply bind_stable; [intros|intros]
    | H : stable ?f, H2 : finished (?f ?n ?s) = true |- ?f ?m ?s = ?f ?n ?s => apply H; done
    end
  | case_match ].

Lemma luaArgLoop_stable : stable luaArgLoop.
Proof.
  apply go_for_stable. intros n m [[arg tok] [[[ch ln] err] it]] Hle. unfold luaArgStep.
  pose proof skipSpace_stable. stable_code.
Qed.

Lemma luaBodyLoop_stable tok : stable (luaBodyLoop tok).
Proof.
  apply go_for_stable. intros n m [[depth tk] [[[ch ln] err] it]] Hle. unfold luaBodyStep.
  pose proof luaQuoteLoop_stable as Hq. destruct (lineCounter_Next it) as [[[ch' ln'] err'] it'].
  stable_code. apply (Hq _ n m); done.
Qed.

Lemma customLexer_lex_stable n m c it d :
  (n ≤ m)%nat → finished (customLexer_lex c n it d) = true →
  customLexer_lex c m it d = customLexer_lex c n it d.
Proof.
  intros Hle. destruct c. unfold customLexer_lex, luaLexer_lex, consumeSpace.
  pose proof luaArgLoop_stable. pose proof skipSpace_stable.
  pose proof luaBodyLoop_stable as Hb. stable_code; apply (Hb _ n m); done.
Qed.

Lemma lexPass_stable : stable lexPass.
Proof.
  intros n m lx Hle. unfold lexPass, lexSpace, lexRune, lexQuote.
  pose proof skipSpace_stable. pose proof commentLoop_stable. pose proof variableLoop_stable.
  pose proof quoteLoop_stable as Hq.
  stable_code; first [by apply (Hq _ n m) | by apply customLexer_lex_stable].
Qed.

Lemma lexer_lex_stable : stable lexer_lex.
Proof. apply go_for_stable, lexPass_stable. Qed.

(** *** Completeness of the inner loops *)

Definition left4 (s : rune * Z * bool * lineCounter) : nat := left_in s.2.
Definition left3 (s : string * rune * lineCounter) : nat := left_in s.2.
Definition leftv (s : string * rune * Z * lineCounter) : nat := left_in s.2.

Ltac loop_left := unfold left4, left3, leftv, left_in in *; simpl in *.

Ltac left_lia :=
  loop_left;
  repeat match goal with H : it_runes _ = _ |- _ => apply (f_equal length) in H; simpl in H end;
  lia.

(** At the end of the file the iterator repeats itself. *)
Definition at_end (it : lineCounter) : Prop := it_runes (lc_Iter it) = [].

Lemma at_end_Next it : at_end it → lineCounter_Next it = (0, 0, true, it).
Proof. intros. next_cases it; unfold at_end in *; congruence. Qed.

Lemma skipSpace_complete : fuel_complete left4 2 skipSpace.
Proof.
  apply (go_while_complete _ _ (λ _, False)); [|done].
  intros [[[ch ln] err] it] s' H. unfold skipSpaceStep in H.
  destruct (IsSpace ch); [|done]. injection H as <-.
  next_cases it; [left|right; left]; loop_left; [rewrite Hr; simpl; lia|eauto].
Qed.

Lemma commentLoop_complete : fuel_complete left3 2 commentLoop.
Proof.
  apply (go_while_complete _ _ (λ s, s.1.2 = 0 ∧ at_end s.2)).
  - intros [[tok ch] it] s' H. unfold commentStep in H. destruct (ch =? r_nl); [done|].
    next_cases it; simplify_eq; [left|right; right]; loop_left; [rewrite Hr; simpl; lia|done].
  - intros [[tok ch] it] [Hch Hend]. cbn [fst snd] in *. subst ch. unfold commentStep.
    rewrite (at_end_Next it) by done. eauto.
Qed.

Lemma quoteLoop_complete qt : qt ≠ 0 → fuel_complete left3 2 (quoteLoop qt).
Proof.
  intros Hqt. apply (go_while_complete _ _ (λ s, s.1.2 = 0 ∧ at_end s.2)).
  - intros [[tok ch] it] s' H. unfold quoteStep in H. destruct (ch =? qt); [done|].
    destruct (ch =? r_bslash).
    + next_cases it.
      * destruct (r =? qt); next_cases it0; simplify_eq; loop_left;
          solve [left; rewrite Hr, ?Hr0; simpl; lia | right; right; done].
      * destruct (0 =? qt); rewrite Hn in H; simplify_eq; right; right; done.
    + next_cases it; simplify_eq; [left|right; right]; loop_left; [rewrite Hr; simpl; lia|done].
  - intros [[tok ch] it] [Hch Hend]. cbn [fst snd] in *. subst ch. unfold quoteStep.
    rewrite (proj2 (Z.eqb_neq 0 qt)) by done. change (0 =? r_bslash) with false. cbv iota beta.
    rewrite (at_end_Next it) by done. eauto.
Qed.

Lemma luaQuoteLoop_complete qt : qt ≠ 0 → fuel_complete leftv 2 (luaQuoteLoop qt).
Proof.
  intros Hqt. apply (go_while_complete _ _ (λ s, s.1.1.2 = 0 ∧ at_end s.2)).
  - intros [[[tok ch] ln] it] s' H. unfold luaQuoteStep in H. destruct (ch =? qt); [done|].
    next_cases it; simplify_eq; [left|right; right]; loop_left; [rewrite Hr; simpl; lia|done].
  - intros [[[tok ch] ln] it] [Hch Hend]. cbn [fst snd] in *. subst ch. unfold luaQuoteStep.
    rewrite (proj2 (Z.eqb_neq 0 qt)), (at_end_Next it) by done. eauto.
Qed.

Lemma runeString0_end tok : endsWithByte (tok +:+ runeString 0) r_rbrace = false.
Proof.
  change (runeString 0) with (str1 0). induction tok as [|a s IH]; [done|].
  rewrite string_app_cons. unfold endsWithByte in *. simpl.
  by destruct s.
Qed.

Lemma variableLoop_complete : fuel_complete leftv 2 variableLoop.
Proof.
  apply (go_while_complete _ _
    (λ s, s.1.1.2 = 0 ∧ at_end s.2 ∧ endsWithByte s.1.1.1 r_rbrace = false)).
  - intros [[[tok ch] ln] it] s' H. unfold variableStep in H.
    destruct (negb _ && negb _); [|done].
    next_cases it; simplify_eq; [left; loop_left; rewrite Hr; simpl; lia|right].
    destruct (endsWithByte (tok +:+ runeString ch) r_rbrace) eqn:E; [left|by right].
    unfold variableStep. rewrite E. eauto.
  - intros [[[tok ch] ln] it] (Hch & Hend & Htok). cbn [fst snd] in *. subst ch.
    unfold variableStep. rewrite Htok. change (IsSpace 0) with false. cbn [negb andb].
    rewrite (at_end_Next it) by done. eexists. split; [done|].
    split; [done|]. split; [done|]. apply runeString0_end.
Qed.

(** *** The loops only move the iterator forward *)

Ltac destruct_next :=
  match goal with
  | |- context [lineCounter_Next ?it] =>
    let H := fresh "Hnext" in
    destruct (lineCounter_Next it) as [[[? ?] ?] ?] eqn:H;
    pose proof (Next_left _ _ _ _ _ H) as (? & ? & ?)
  | H0 : context [lineCounter_Next ?it] |- _ =>
    lazymatch type of H0 with
    | lineCounter_Next _ = _ => fail
    | _ =>
      let H := fresh "Hnext" in
      destruct (lineCounter_Next it) as [[[? ?] ?] ?] eqn:H;
      pose proof (Next_left _ _ _ _ _ H) as (? & ? & ?)
    end
  end.

Ltac next_facts :=
  repeat match goal with
  | H : lineCounter_Next _ = _ |- _ => apply Next_left in H as (? & ? & ?)
  end.

(** The measure obligations of a loop body made of reads and tests. *)
Ltac left_body :=
  repeat first [ destruct_next | case_match ]; simplify_eq; loop_left; lia.

Lemma skipSpace_left n s r : skipSpace n s = Ok r → (left4 r ≤ left4 s)%nat.
Proof.
  apply go_for_measure; intros _ [[[ch ln] err] it] s' [= H]; unfold skipSpaceStep in H; left_body.
Qed.

Lemma commentLoop_left n s r : commentLoop n s = Ok r → (left_in r.2 ≤ left3 s)%nat.
Proof.
  apply (go_for_measure _ _ (λ r, left_in r.2)); intros _ [[tok ch] it] s' [= H]; unfold commentStep in H; left_body.
Qed.

Lemma variableLoop_left n s r : variableLoop n s = Ok r → (leftv r ≤ leftv s)%nat.
Proof.
  apply go_for_measure; intros _ [[[tok ch] ln] it] s' [= H]; unfold variableStep in H; left_body.
Qed.

Lemma quoteLoop_left qt n s r : quoteLoop qt n s = Ok r → (left_in r.2 ≤ left3 s)%nat.
Proof.
  apply (go_for_measure _ _ (λ r, left_in r.2)); intros _ [[tok ch] it] s' [= H]; unfold quoteStep in H; left_body.
Qed.

Lemma luaQuoteLoop_left qt n s r : luaQuoteLoop qt n s = Ok r → (leftv r ≤ leftv s)%nat.
Proof.
  apply go_for_measure; intros _ [[[tok ch] ln] it] s' [= H]; unfold luaQuoteStep in H; left_body.
Qed.

(** *** Completeness of the Lua lexer and of one pass *)

(** Completeness of straight-line code: loops by their own completeness, the
    rest by cases.  [fuel_complete] hypotheses of the loops used must be in
    the context together with their stability. *)
Ltac complete_code :=
  repeat first
  [ done
  | progress rewrite !res_bind_assoc
  | match goal with
    | |- _ ≫= _ = OutOfFuel → _ ≫= _ = OutOfFuel =>
        apply bind_complete;
        [ | intros ? ?; apply stable_agree; assumption | intros ? ? ]
    | H : fuel_complete _ _ ?f |- ?f ?n ?s = OutOfFuel → ?f ?m ?s = OutOfFuel =>
        let H2 := fresh in intros H2; apply (H n s); [left_lia|exact H2]
    end
  | case_match ].

Lemma luaArgLoop_complete : fuel_complete (λ s, left4 s.2) 4 luaArgLoop.
Proof.
  apply (go_for_complete _ _ 2 (λ _, False)); [|..|done].
  - intros n m [[arg tok] [[[ch ln] err] it]] Hle. unfold luaArgStep.
    pose proof skipSpace_stable. stable_code.
  - intros n [[arg tok] [[[ch ln] err] it]] Hle Ho m. revert Ho. unfold luaArgStep.
    pose proof skipSpace_complete. pose proof skipSpace_stable.
    complete_code.
  - intros n [[arg tok] [[[ch ln] err] it]] s' H. unfold luaArgStep in H.
    destruct err; [done|]. inv_bind. destruct a as [[tok' ch'] it'].
    assert (left_in it' ≤ left_in it)%nat.
    { destruct (IsSpace ch); [|by simplify_eq]. destruct (negb _); [by simplify_eq|].
      inv_bind. destruct a as [[[? ?] ?] ?]. simplify_eq. apply skipSpace_left in H1. by loop_left. }
    simplify_eq. next_cases it'; loop_left; [left; rewrite Hr in *; simpl in *; lia|].
    right; left. eexists. intros k. reflexivity.
Qed.

Lemma luaArgLoop_left n s r : luaArgLoop n s = Ok r → (left_in r.2 ≤ left4 s.2)%nat.
Proof.
  apply (go_for_measure _ (λ s, left4 s.2) (λ r, left_in r.2));
    intros k [[arg tok] [[[ch ln] err] it]] s' H; unfold luaArgStep in H;
    (destruct err; [by simplify_eq|]); inv_bind; destruct a as [[tok' ch'] it']; simplify_eq.
  assert (left_in it' ≤ left_in it)%nat.
  { destruct (IsSpace ch); [|by simplify_eq]. destruct (negb _); [by simplify_eq|].
    inv_bind. destruct a as [[[? ?] ?] ?]. simplify_eq.
    match goal with Hs : skipSpace _ _ = _ |- _ => apply skipSpace_left in Hs end. by loop_left. }
  destruct_next. loop_left. lia.
Qed.

(** What the switch of the Lua body loop does to the iterator. *)
Lemma luaBodyStep_left tok n depth tk ch ln it r :
  luaBodyStep tok n (depth, tk, (ch, ln, false, it)) = Ok r →
  match r with
  | inl (_, _, nx) => ∃ it', nx = lineCounter_Next it' ∧ (left_in it' ≤ left_in it)%nat
  | inr (_, it') => (left_in it' ≤ left_in it)%nat
  end.
Proof.
  unfold luaBodyStep. intros H. inv_bind. destruct a as [[[[d t] c] l] it'].
  assert (left_in it' ≤ left_in it)%nat.
  { clear H. repeat case_match; simplify_eq; try lia. inv_bind. destruct a as [[[? ?] ?] ?]. simplify_eq.
    match goal with Hs : luaQuoteLoop _ _ _ = _ |- _ => apply luaQuoteLoop_left in Hs end.
    next_facts. loop_left. lia. }
  repeat case_match; simplify_eq; eauto.
Qed.

Lemma luaBodyLoop_complete tok : fuel_complete (λ s, left4 s.2) 4 (luaBodyLoop tok).
Proof.
  apply (go_for_complete _ _ 2 (λ _, False)); [|..|done].
  - intros n m [[depth tk] [[[ch ln] err] it]] Hle. unfold luaBodyStep.
    pose proof luaQuoteLoop_stable as Hq. destruct (lineCounter_Next it) as [[[ch' ln'] err'] it'].
    stable_code. apply (Hq _ n m); done.
  - intros n [[depth tk] [[[ch ln] err] it]] Hle Ho m. revert Ho. unfold luaBodyStep.
    pose proof (luaQuoteLoop_stable ch).
    destruct ((ch =? r_dquote) || (ch =? r_squote)) eqn:Eq;
      [pose proof (luaQuoteLoop_complete ch ltac:(lia))|]; next_cases it; complete_code.
  - intros n [[depth tk] [[[ch ln] err] it]] s' H.
    destruct err; [done|]. apply luaBodyStep_left in H. destruct s' as [[? ?] nx].
    destruct H as (it' & -> & Hle).
    next_cases it'; loop_left; [left; rewrite Hr in *; simpl in *; lia|].
    right; left. eexists. intros k. reflexivity.
Qed.

Lemma luaBodyLoop_left tok n s r : luaBodyLoop tok n s = Ok r → (left_in r.2 ≤ left4 s.2)%nat.
Proof.
  apply (go_for_measure _ (λ s, left4 s.2) (λ r, left_in r.2));
    intros k [[depth tk] [[[ch ln] err] it]] s' H;
    (destruct err; [by simplify_eq/=|]); apply luaBodyStep_left in H.
  - destruct s' as [[? ?] nx]. destruct H as (it' & -> & Hle). destruct_next. loop_left. lia.
  - by destruct s'.
Qed.

Lemma customLexer_lex_left c n it d r it' :
  customLexer_lex c n it d = Ok (r, it') → (left_in it' ≤ left_in it)%nat.
Proof.
  destruct c. unfold customLexer_lex, luaLexer_lex, consumeSpace. intros H.
  inv_bind. destruct a as [tok it1]. inv_bind. destruct a as [[[ch ln] err] it2].
  assert (left_in it1 ≤ left_in it)%nat.
  { destruct (d =? _)%string; [|by simplify_eq]. apply luaArgLoop_left in H0. cbn [snd] in H0.
    repeat destruct_next; left_lia. }
  assert (left_in it2 ≤ left_in it1)%nat.
  { apply skipSpace_left in H1. repeat destruct_next; left_lia. }
  destruct err; [simplify_eq; lia|]. destruct (negb _); [simplify_eq; lia|].
  inv_bind. destruct a as [r' it3]. apply luaBodyLoop_left in H4. cbn [snd] in H4.
  repeat destruct_next; destruct r'; simplify_eq; left_lia.
Qed.

Lemma customLexer_lex_complete c n it d :
  (left_in it + 4 ≤ n)%nat → customLexer_lex c n it d = OutOfFuel →
  ∀ m, customLexer_lex c m it d = OutOfFuel.
Proof.
  intros Hle Ho m. revert Ho. destruct c. unfold customLexer_lex, luaLexer_lex, consumeSpace.
  pose proof luaArgLoop_complete. pose proof luaArgLoop_stable.
  pose proof skipSpace_complete. pose proof skipSpace_stable.
  pose proof luaBodyLoop_complete. pose proof luaBodyLoop_stable.
  apply bind_complete; [| |intros [tok it1] E1].
  - destruct (d =? _)%string; [|done]. next_cases it; complete_code.
  - destruct (d =? _)%string; [|done]. intros. by apply stable_agree.
  - assert (left_in it1 ≤ left_in it)%nat.
    { destruct (d =? _)%string; [|by simplify_eq]. apply luaArgLoop_left in E1. cbn [snd] in E1.
      repeat destruct_next; left_lia. }
    apply bind_complete; [| |intros [[[ch ln] err] it2] E2].
    + next_cases it1; complete_code.
    + intros. by apply stable_agree.
    + apply skipSpace_left in E2.
      destruct err; [done|]. destruct (negb _); [done|].
      apply bind_complete; [| |intros [[] ?] ?; done].
      * intros Ho. eapply luaBodyLoop_complete; [|exact Ho]. cbn [snd].
        repeat destruct_next; left_lia.
      * intros. by apply stable_agree.
Qed.

Definition left_lx (lx : lexer) : nat := left_in (lx_iter lx).

(** Push loop results into facts about the runes left. *)
Ltac loop_facts :=
  repeat match goal with
  | H : skipSpace _ _ = Ok _ |- _ => apply skipSpace_left in H
  | H : commentLoop _ _ = Ok _ |- _ => apply commentLoop_left in H
  | H : variableLoop _ _ = Ok _ |- _ => apply variableLoop_left in H
  | H : quoteLoop _ _ _ = Ok _ |- _ => apply quoteLoop_left in H
  | H : customLexer_lex _ _ _ _ = Ok _ |- _ => apply customLexer_lex_left in H
  end; next_facts.

Lemma lexSpace_left n lx ch ln r :
  lexSpace n lx ch ln = Ok r →
  (left_lx (match r with inl (_, lx') => lx' | inr (_, _, lx') => lx' end) ≤ left_lx lx)%nat.
Proof.
  unfold lexSpace. intros H. destruct (IsSpace ch); [|by simplify_eq]. inv_bind.
  assert (left_lx (match a with inl (_, lx') => lx' | inr lx' => lx' end) ≤ left_lx lx)%nat.
  { clear H. destruct (negb _); [|by simplify_eq]. case_match; [|by simplify_eq].
    inv_bind. destruct a0 as [[ts|e] it']; simplify_eq; loop_facts; unfold left_lx; simpl; done. }
  destruct a as [[e lx']|lx']; [by simplify_eq|]. inv_bind.
  destruct a as [[[? ?] ?] ?]. simplify_eq. loop_facts. unfold left_lx in *. loop_left. lia.
Qed.

Lemma lexRune_left n lx ch ln lx' :
  lexRune n lx ch ln = Ok (Again lx') → (left_lx lx' ≤ left_lx lx)%nat.
Proof.
  unfold lexRune. intros H. inv_bind. destruct a as [[lx1 ch1] ln1].
  assert (left_lx lx1 ≤ left_lx lx)%nat.
  { clear H. destruct (_ && _).
    - inv_bind. destruct a as [[[? ?] ?] ?]. simplify_eq. loop_facts.
      unfold left_lx. loop_left. destruct (lx_token lx =? "")%string; simpl in *; done.
    - simplify_eq. destruct (lx_token lx =? "")%string; done. }
  destruct (isQuoteRune ch1).
  - unfold lexQuote in H. destruct (negb _); [by simplify_eq|].
    destruct (lineCounter_Next (lx_iter lx1)) as [[[? ?] ?] ?] eqn:?. inv_bind.
    destruct a as [? ?]. case_match; [|simplify_eq; loop_facts; unfold left_lx in *; left_lia].
    inv_bind. destruct a as [[|] ?]; simplify_eq. loop_facts. unfold left_lx in *. left_lia.
  - destruct (isTerminalRune ch1); simplify_eq; [|done].
    unfold lexTerminal. destruct (negb _); done.
Qed.

Lemma lexPass_decreases n lx lx' :
  lexPass n lx = Ok (Again lx') → (left_lx lx' < left_lx lx)%nat.
Proof.
  unfold lexPass. destruct (lineCounter_Next (lx_iter lx)) as [[[ch ln] err] it] eqn:E.
  intros H. destruct err; [done|]. inv_bind. apply lexSpace_left in H0.
  destruct a as [[e lx1]|[[ch1 ln1] lx1]]; [done|].
  assert (left_lx lx1 < left_lx lx)%nat.
  { next_facts. unfold left_lx in *. simpl in *. lia. }
  destruct (_ && _).
  { inv_bind. destruct a as [tok it1]. simplify_eq. loop_facts. unfold left_lx in *. left_lia. }
  destruct (ch1 =? r_bslash).
  { destruct (lineCounter_Next (lx_iter lx1)) as [[[? ?] ?] ?] eqn:?. simplify_eq.
    loop_facts. unfold left_lx in *. left_lia. }
  apply lexRune_left in H. lia.
Qed.

Lemma lexSpace_stable lx ch ln : stable (λ n (_ : unit), lexSpace n lx ch ln).
Proof.
  intros n m _ Hle. unfold lexSpace. pose proof skipSpace_stable.
  stable_code. by apply customLexer_lex_stable.
Qed.

Lemma customLexer_lex_agree c n m it d :
  finished (customLexer_lex c n it d) = true → finished (customLexer_lex c m it d) = true →
  customLexer_lex c m it d = customLexer_lex c n it d.
Proof.
  intros Hn Hm. destruct (decide (n ≤ m)%nat); [|symmetry]; apply customLexer_lex_stable; auto; lia.
Qed.

Lemma lexSpace_complete n lx ch ln :
  (left_lx lx + 4 ≤ n)%nat → lexSpace n lx ch ln = OutOfFuel →
  ∀ m, lexSpace m lx ch ln = OutOfFuel.
Proof.
  intros Hle Ho m. revert Ho. unfold lexSpace. destruct (IsSpace ch); [|done].
  pose proof skipSpace_complete. pose proof skipSpace_stable.
  assert (∀ lx', (left_lx lx' ≤ left_lx lx)%nat →
    skipSpace n (ch, ln, false, lx_iter lx') = OutOfFuel →
    skipSpace m (ch, ln, false, lx_iter lx') = OutOfFuel) as Hsk.
  { intros lx' Hl Ho. apply (H n); [|done]. unfold left_lx in *. left_lia. }
  destruct (negb _).
  2: { rewrite !res_bind_assoc || idtac. cbn -[skipSpace].
       apply bind_complete; [apply Hsk; lia|intros; by apply stable_agree|by intros [[[? ?] ?] ?]]. }
  destruct (lexer_custom _ _).
  2: { cbn -[skipSpace]. apply bind_complete;
       [apply Hsk; done|intros; by apply stable_agree|by intros [[[? ?] ?] ?]]. }
  rewrite !res_bind_assoc. apply bind_complete.
  - intros Ho. eapply customLexer_lex_complete; [|exact Ho]. unfold left_lx in *. simpl. lia.
  - apply customLexer_lex_agree.
  - intros [[ts|e] it'] E; cbn -[skipSpace]; [|done].
    apply bind_complete; [|intros; by apply stable_agree|by intros [[[? ?] ?] ?]].
    apply customLexer_lex_left in E. simpl in E. intros Ho. apply (H n); [|done].
    unfold left_lx in *. left_lia.
Qed.

Lemma lexQuote_complete n lx ch :
  ch ≠ 0 → (left_lx lx + 4 ≤ n)%nat → lexQuote n lx ch = OutOfFuel →
  ∀ m, lexQuote m lx ch = OutOfFuel.
Proof.
  intros Hch Hle Ho m. revert Ho. unfold lexQuote. destruct (negb _); [done|].
  pose proof (quoteLoop_complete ch Hch) as Hq. pose proof (quoteLoop_stable ch).
  destruct (lineCounter_Next (lx_iter lx)) as [[[c1 l1] e1] it1] eqn:En.
  apply Next_left in En as (Hit & _ & _). unfold left_lx in *.
  apply bind_complete; [|intros; by apply stable_agree|intros [tok it'] E].
  - intros Ho. apply (Hq n); [|done]. left_lia.
  - apply quoteLoop_left in E. destruct (lexer_custom _ _); [|done].
    apply bind_complete; [|apply customLexer_lex_agree|by intros [[|] ?]].
    intros Ho. eapply customLexer_lex_complete; [|exact Ho]. simpl. left_lia.
Qed.

Lemma lexRune_complete n lx ch ln :
  (left_lx lx + 4 ≤ n)%nat → lexRune n lx ch ln = OutOfFuel →
  ∀ m, lexRune m lx ch ln = OutOfFuel.
Proof.
  intros Hle Ho m. revert Ho. unfold lexRune.
  set (lx1 := if (lx_token lx =? "")%string then _ else _).
  assert (left_lx lx1 = left_lx lx) as Hl1 by (unfold lx1; by destruct (_ =? _)%string).
  assert (∀ lx2 c l, (left_lx lx2 ≤ left_lx lx)%nat →
    (if isQuoteRune c then lexQuote n lx2 c
     else if isTerminalRune c then Ok (Again (lexTerminal lx2 c l))
     else Ok (Again (set_token (lx_token lx2 +:+ runeString c) lx2))) = OutOfFuel →
    (if isQuoteRune c then lexQuote m lx2 c
     else if isTerminalRune c then Ok (Again (lexTerminal lx2 c l))
     else Ok (Again (set_token (lx_token lx2 +:+ runeString c) lx2))) = OutOfFuel) as Hrest.
  { intros lx2 c l Hl. unfold isQuoteRune. destruct (_ || _) eqn:E; [|by destruct (isTerminalRune c)].
    intros Ho. eapply lexQuote_complete; [lia| |exact Ho]. lia. }
  destruct (_ && _); [|cbn -[lexQuote]; apply Hrest; lia].
  rewrite !res_bind_assoc. apply bind_complete; [| |intros [[[tok c] l] it'] E].
  - intros Ho. eapply variableLoop_complete; [|exact Ho]. unfold left_lx in *. left_lia.
  - intros. by apply (stable_agree _ _ _ _ variableLoop_stable).
  - cbn -[lexQuote]. apply Hrest. apply variableLoop_left in E. unfold left_lx in *. left_lia.
Qed.

Lemma lexPass_complete : fuel_complete left_lx 4 lexPass.
Proof.
  intros n lx Hle Ho m. revert Ho. unfold lexPass.
  destruct (lineCounter_Next (lx_iter lx)) as [[[ch ln] err] it] eqn:En.
  destruct err; [done|]. apply Next_left in En as (Hit & _ & _).
  apply bind_complete; [| |intros [[e lx1]|[[ch1 ln1] lx1]] E; [done|]].
  - intros Ho. eapply lexSpace_complete; [|exact Ho]. unfold left_lx in *. simpl. lia.
  - intros. by apply (stable_agree _ _ _ tt (lexSpace_stable _ _ _)).
  - apply lexSpace_left in E. unfold left_lx in *. simpl in E. destruct (_ && _).
    { apply bind_complete; [| |by intros [? ?]].
      - intros Ho. eapply commentLoop_complete; [|exact Ho]. left_lia.
      - intros. by apply (stable_agree _ _ _ _ commentLoop_stable). }
    destruct (ch1 =? r_bslash); [by destruct (lineCounter_Next _) as [[[? ?] ?] ?]|].
    intros Ho. eapply lexRune_complete; [|exact Ho]. unfold left_lx. lia.
Qed.

Lemma lexer_lex_complete : fuel_complete left_lx 6 lexer_lex.
Proof.
  apply (go_for_complete _ _ 4 (λ _, False)).
  - apply lexPass_stable.
  - apply lexPass_complete.
  - intros n s s' H. left. by eapply lexPass_decreases.
  - done.
Qed.

(** ** Theorems *)

(** Enough fuel for a file: one unit per rune and a constant. *)
Definition lexFuel (rd : string) : nat := length (utf8Decode rd) + 6.

Lemma lex_stable rd filename : stable (λ n (_ : unit), lex n rd filename).
Proof.
  intros n m _ Hle. unfold lex. apply bind_stable; [|by intros [? ?]].
  intros. by apply lexer_lex_stable.
Qed.

Lemma lex_complete rd filename m :
  lex (lexFuel rd) rd filename = OutOfFuel → lex m rd filename = OutOfFuel.
Proof.
  unfold lex. apply bind_complete; [| |by intros [[e|] lx'] _; [|case_match]].
  - intros Ho. eapply lexer_lex_complete; [|exact Ho]. done.
  - intros. by apply (stable_agree _ _ _ _ lexer_lex_stable).
Qed.

(** A result reached with any fuel is reached with [lexFuel]. *)
Lemma lex_enough rd filename n r :
  lex n rd filename = Ok r → lex (lexFuel rd) rd filename = Ok r.
Proof.
  intros H. destruct (finished (lex (lexFuel rd) rd filename)) eqn:E.
  - rewrite <- H. apply (stable_agree (λ n (_ : unit), lex n rd filename) _ _ tt (lex_stable rd filename));
      [done|by rewrite H].
  - assert (lex (lexFuel rd) rd filename = OutOfFuel) as Ho
      by (revert E; by destruct (lex (lexFuel rd) rd filename)).
    by rewrite (lex_complete rd filename n Ho) in H.
Qed.

(** C3: the fuel [lexFuel rd], linear in the length of the file, decides the
    lexer.  If it is not exhausted then every larger fuel gives the same
    tokens or error, and if it is exhausted then the lexer runs for ever: no
    fuel is enough. *)
Theorem lex_fuel_decides rd filename n :
  (lexFuel rd ≤ n)%nat →
  (finished (lex (lexFuel rd) rd filename) = true →
     lex n rd filename = lex (lexFuel rd) rd filename) ∧
  (lex (lexFuel rd) rd filename = OutOfFuel → ∀ m, lex m rd filename = OutOfFuel).
Proof.
  intros Hle. split.
  - intros. by apply (lex_stable rd filename (lexFuel rd) n tt).
  - intros Ho m. by apply lex_complete.
Qed.

(** The change of brace depth at a token; a quoted brace does not count. *)
Definition braceDelta (t : token) : Z :=
  if (text t =? "}")%string && negb (quote t) then -1
  else if (text t =? "{")%string && negb (quote t) then 1
  else 0.

Definition braceDepth (ts : list token) : Z := foldr (λ t d, braceDelta t + d) 0 ts.

Lemma balanceLoop_spec ts f d ln :
  0 ≤ d →
  balanceLoop ts f d ln = None ↔
  (∀ k, 0 ≤ d + braceDepth (take k ts)) ∧ d + braceDepth ts = 0.
Proof.
  revert d ln. induction ts as [|t ts IH]; intros d ln Hd; simpl.
  - destruct (d >? 0) eqn:E; split; try done.
    + intros [_ H]. lia.
    + intros _. split; [intros k; rewrite take_nil; simpl; lia|lia].
  - set (d' := if _ && _ then _ else _).
    assert (d' = d + braceDelta t) as Hd'.
    { unfold d', braceDelta. repeat case_match; lia. }
    rewrite Hd'. destruct (d + braceDelta t <? 0) eqn:E; [split; [done|]|].
    + intros [H _]. specialize (H 1%nat). simpl in H. rewrite ?take_0 in H. simpl in H. lia.
    + rewrite IH by lia. split; intros [H1 H2]; (split; [|lia]); intros k.
      * destruct k as [|k]; simpl; [lia|]. specialize (H1 k). lia.
      * specialize (H1 (S k)). simpl in H1. lia.
Qed.

(** [balanceBraces] accepts exactly the token lists whose unquoted braces
    are balanced: no prefix closes more blocks than it opened, and at the end
    of the file every block is closed. *)
Theorem balanceBraces_accepts ts filename :
  balanceBraces ts filename = None ↔
  (∀ k, 0 ≤ braceDepth (take k ts)) ∧ braceDepth ts = 0.
Proof. unfold balanceBraces. rewrite balanceLoop_spec by lia. done. Qed.

Lemma balanceLoop_error_line ts f d ln e :
  0 ≤ d → balanceLoop ts f d ln = Some e →
  (∃ k t, ts !! k = Some t ∧ d + braceDepth (take (S k) ts) < 0 ∧
     (∀ j, (j ≤ k)%nat → 0 ≤ d + braceDepth (take j ts)) ∧
     e = ErrNgx {| Reason := "unexpected }"; Linenum := line t; ErrFilename := f |}) ∨
  (0 < d + braceDepth ts ∧
     e = ErrNgx {| Reason := "unexpected end of file, expecting }";
                   Linenum := default ln (line <$> last ts); ErrFilename := f |}).
Proof.
  revert d ln. induction ts as [|t ts IH]; intros d ln Hd H; simpl in H.
  - destruct (d >? 0) eqn:E; [|done]. injection H as <-. right. simpl. split; [lia|done].
  - set (d' := if _ && _ then _ else _) in H.
    assert (d' = d + braceDelta t) as Hd'.
    { unfold d', braceDelta. repeat case_match; lia. }
    rewrite Hd' in H. destruct (d + braceDelta t <? 0) eqn:E.
    + injection H as <-. left. exists 0%nat, t. simpl. rewrite ?take_0. simpl.
      split; [done|]. split; [lia|]. split; [|done]. intros j Hj.
      destruct j; [simpl; lia|lia].
    + apply IH in H as [(k & t' & Hk & Hneg & Hpre & ->)|[Hp ->]]; [left|right|lia].
      * exists (S k), t'. simpl in *. split; [done|]. split; [lia|]. split; [|done].
        intros j Hj. destruct j; simpl; [lia|]. specialize (Hpre j). lia.
      * simpl. split; [lia|]. destruct ts as [|t2 ts']; [done|]. rewrite last_cons_cons.
        destruct (last (t2 :: ts')) eqn:El; [done|]. by apply last_None in El.
Qed.

(** When [balanceBraces] rejects a token list it reports the line of the
    first closing brace that has no opening one, or, when there is none, the
    line of the last token. *)
Theorem balanceBraces_reports ts filename e :
  balanceBraces ts filename = Some e →
  (∃ k t, ts !! k = Some t ∧ braceDepth (take (S k) ts) < 0 ∧
     (∀ j, (j ≤ k)%nat → 0 ≤ braceDepth (take j ts)) ∧
     e = ErrNgx {| Reason := "unexpected }"; Linenum := line t; ErrFilename := filename |}) ∨
  (0 < braceDepth ts ∧
     e = ErrNgx {| Reason := "unexpected end of file, expecting }";
                   Linenum := default 0 (line <$> last ts); ErrFilename := filename |}).
Proof. intros H. by apply balanceLoop_error_line in H. Qed.

(** A comment that is still open when the file ends. *)
Lemma commentLoop_diverges n tok ch it :
  Forall (λ r, r ≠ r_nl) (ch :: it_runes (lc_Iter it)) →
  commentLoop n (tok, ch, it) = OutOfFuel.
Proof.
  revert tok ch it. induction n as [|n IH]; intros tok ch it Hall; [done|].
  unfold commentLoop. rewrite go_while_S. apply Forall_cons in Hall as [Hch Hrs].
  unfold commentStep at 1. rewrite (proj2 (Z.eqb_neq _ _) Hch).
  next_cases it; apply IH; [by rewrite Hr in Hrs|]. rewrite Hr. by repeat constructor.
Qed.

(** A file whose first character starts a comment and that has no newline
    is never lexed: the comment loop waits for a newline that does not come,
    whatever the fuel.  [Next] goes on returning the rune 0 after the end of
    the file and the loop does not look at its error. *)
Theorem lex_comment_without_newline rd filename rs :
  utf8Decode rd = r_hash :: rs → Forall (λ r, r ≠ r_nl) rs →
  ∀ n, lex n rd filename = OutOfFuel.
Proof.
  intros Hrd Hrs n. unfold lex, newIter. rewrite Hrd.
  destruct n as [|n]; [done|]. unfold lexer_lex. cbn [go_for].
  unfold lexPass. cbn -[commentLoop go_for].
  by rewrite commentLoop_diverges by (constructor; done).
Qed.

(** ** The theorems at work *)

Lemma lex_fuel_decides_witness :
  let rd := "listen 80;" in
  (finished (lex (lexFuel rd) rd "a.conf") = true →
     lex 100 rd "a.conf" = lex (lexFuel rd) rd "a.conf") ∧
  (lex (lexFuel rd) rd "a.conf" = OutOfFuel → ∀ m, lex m rd "a.conf" = OutOfFuel).
Proof. apply (lex_fuel_decides "listen 80;" "a.conf" 100). vm_compute. lia. Defined.

Lemma balanceBraces_reports_witness :
  let ts := [mkToken "a" 1 false; mkToken "}" 3 false] in
  let e := ErrNgx {| Reason := "unexpected }"; Linenum := 3; ErrFilename := "a.conf" |} in
  (∃ k t, ts !! k = Some t ∧ braceDepth (take (S k) ts) < 0 ∧
     (∀ j, (j ≤ k)%nat → 0 ≤ braceDepth (take j ts)) ∧
     e = ErrNgx {| Reason := "unexpected }"; Linenum := line t; ErrFilename := "a.conf" |}) ∨
  (0 < braceDepth ts ∧
     e = ErrNgx {| Reason := "unexpected end of file, expecting }";
                   Linenum := default 0 (line <$> last ts); ErrFilename := "a.conf" |}).
Proof.
  apply (balanceBraces_reports [mkToken "a" 1 false; mkToken "}" 3 false] "a.conf"
    (ErrNgx {| Reason := "unexpected }"; Linenum := 3; ErrFilename := "a.conf" |})).
  vm_compute. reflexivity.
Defined.

Lemma lex_comment_without_newline_witness : lex 5000 "# last line" "a.conf" = OutOfFuel.
Proof.
  apply (lex_comment_without_newline "# last line" "a.conf" (utf8Decode " last line")).
  - vm_compute. reflexivity.
  - vm_compute. repeat (apply Forall_cons; split; [discriminate|]). apply Forall_nil. exact I.
Defined.
