(* ===== verification/Directives.v ===== *)
(** * The directive table (src/config_analyze.go, lines 8-1465)

    The bit masks of the argument styles and of the contexts, the table
    [directives] with the masks of every directive, in the order of the
    source, and the table [contexts].  A Go [int] is 64 bits wide here: the
    largest mask is 2^32. *)

From S2P Require Import Prelude GoStrings.

#[local] Open Scope Z_scope.

Infix ".|" := Z.lor (at level 50, left associativity) : go_scope.
#[local] Open Scope go_scope.

(** Argument styles. *)
Definition NGXConfNoArgs : Z := 0x00000001.
Definition NGXConfTake1 : Z := 0x00000002.
Definition NGXConfTake2 : Z := 0x00000004.
Definition NGXConfTake3 : Z := 0x00000008.
Definition NGXConfTake4 : Z := 0x00000010.
Definition NGXConfTake5 : Z := 0x00000020.
Definition NGXConfTake6 : Z := 0x00000040.
Definition NGXConfTake7 : Z := 0x00000080.
Definition NGXConfBlock : Z := 0x00000100.
Definition NGXConfFlag : Z := 0x00000200.
Definition NGXConfAny : Z := 0x00000400.
Definition NGXConf1More : Z := 0x00000800.
Definition NGXConf2More : Z := 0x00001000.

(** Aliases. *)
Definition NGXConfTake12 : Z := NGXConfTake1 .| NGXConfTake2.
Definition NGXConfTake13 : Z := NGXConfTake1 .| NGXConfTake3.
Definition NGXConfTake23 : Z := NGXConfTake2 .| NGXConfTake3.
Definition NGXConfTake123 : Z := NGXConfTake12 .| NGXConfTake3.
Definition NGXConfTake1234 : Z := NGXConfTake123 .| NGXConfTake4.

(** Contexts. *)
Definition NGXDirectConf : Z := 0x00010000.
Definition NGXMainConf : Z := 0x00040000.
Definition NGXEventConf : Z := 0x00080000.
Definition NGXMailMainConf : Z := 0x00100000.
Definition NGXMailSrvConf : Z := 0x00200000.
Definition NGXStreamMainConf : Z := 0x00400000.
Definition NGXStreamSrvConf : Z := 0x00800000.
Definition NGXStreamUpsConf : Z := 0x01000000.
Definition NGXHttpMainConf : Z := 0x02000000.
Definition NGXHttpSrvConf : Z := 0x04000000.
Definition NGXHttpLocConf : Z := 0x08000000.
Definition NGXHttpUpsConf : Z := 0x10000000.
Definition NGXHttpSifConf : Z := 0x20000000.
Definition NGXHttpLifConf : Z := 0x40000000.
Definition NGXHttpLmtConf : Z := 0x80000000.
Definition NGXHttpOauth2Conf : Z := 0x100000000.

Definition NGXAnyConf : Z :=
  NGXMainConf .| NGXEventConf .| NGXMailMainConf .| NGXMailSrvConf .|
  NGXStreamMainConf .| NGXStreamSrvConf .| NGXStreamUpsConf .|
  NGXHttpMainConf .| NGXHttpSrvConf .| NGXHttpLocConf .| NGXHttpUpsConf .| NGXHttpOauth2Conf.

(** ** The table of directives *)

(** Lines 55-204: from [absolute_redirect] to [fastcgi_cache_max_range_offset]. *)
Definition directives_1 : list (string * list Z) := [
  ("absolute_redirect", [
    NGXHttpMainConf .| NGXHttpSrvConf .| NGXHttpLocConf .| NGXConfFlag]);
  ("accept_mutex", [
    NGXEventConf .| NGXConfFlag]);
  ("accept_mutex_delay", [
    NGXEventConf .| NGXConfTake1]);
  ("access_log", [
    NGXHttpMainConf .| NGXHttpSrvConf .| NGXHttpLocConf .| NGXHttpLifConf .| NGXHttpLmtConf .| NGXConf1More;
    NGXStreamMainConf .| NGXStreamSrvConf .| NGXConf1More]);
  ("add_after_body", [
    NGXHttpMainConf .| NGXHttpSrvConf .| NGXHttpLocConf .| NGXConfTake1]);
  ("add_before_body", [
    NGXHttpMainConf .| NGXHttpSrvConf .| NGXHttpLocConf .| NGXConfTake1]);
  ("add_header", [
    NGXHttpMainConf .| NGXHttpSrvConf .| NGXHttpLocConf .| NGXHttpLifConf .| NGXConfTake23]);
  ("add_trailer", [
    NGXHttpMainConf .| NGXHttpSrvConf .| NGXHttpLocConf .| NGXHttpLifConf .| NGXConfTake23]);
  ("addition_types", [
    NGXHttpMainConf .| NGXHttpSrvConf .| NGXHttpLocConf .| NGXConf1More]);
  ("aio", [
    NGXHttpMainConf .| NGXHttpSrvConf .| NGXHttpLocConf .| NGXConfTake1]);
  ("aio_write", [
    NGXHttpMainConf .| NGXHttpSrvConf .| NGXHttpLocConf .| NGXConfFlag]);
  ("alias", [
    NGXHttpLocConf .| NGXConfTake1]);
  ("allow", [
    NGXHttpMainConf .| NGXHttpSrvConf .| NGXHttpLocConf .| NGXHttpLmtConf .| NGXConfTake1;
    NGXStreamMainConf .| NGXStreamSrvConf .| NGXConfTake1]);
  ("ancient_browser", [
    NGXHttpMainConf .| NGXHttpSrvConf .| NGXHttpLocConf .| NGXConf1More]);
  ("ancient_browser_value", [
    NGXHttpMainConf .| NGXHttpSrvConf .| NGXHttpLocConf .| NGXConfTake1]);
  ("auth_basic", [
    NGXHttpMainConf .| NGXHttpSrvConf .| NGXHttpLocConf .| NGXHttpLmtConf .| NGXConfTake1]);
  ("auth_basic_user_file", [
    NGXHttpMainConf .| NGXHttpSrvConf .| NGXHttpLocConf .| NGXHttpLmtConf .| NGXConfTake1]);
  ("auth_http", [
    NGXMailMainConf .| NGXMailSrvConf .| NGXConfTake1]);
  ("auth_http_header", [
    NGXMailMainConf .| NGXMailSrvConf .| NGXConfTake2]);
  ("auth_http_pass_client_cert", [
    NGXMailMainConf .| NGXMailSrvConf .| NGXConfFlag]);
  ("auth_http_timeout", [
    NGXMailMainConf .| NGXMailSrvConf .| NGXConfTake1]);
  ("auth_request", [
    NGXHttpMainConf .| NGXHttpSrvConf .| NGXHttpLocConf .| NGXConfTake1]);
  ("auth_request_set", [
    NGXHttpMainConf .| NGXHttpSrvConf .| NGXHttpLocConf .| NGXConfTake2]);
  ("autoindex", [
    NGXHttpMainConf .| NGXHttpSrvConf .| NGXHttpLocConf .| NGXConfFlag]);
  ("autoindex_exact_size", [
    NGXHttpMainConf .| NGXHttpSrvConf .| NGXHttpLocConf .| NGXConfFlag]);
  ("autoindex_format", [
    NGXHttpMainConf .| NGXHttpSrvConf .| NGXHttpLocConf .| NGXConfTake1]);
  ("autoindex_localtime", [
    NGXHttpMainConf .| NGXHttpSrvConf .| NGXHttpLocConf .| NGXConfFlag]);
  ("break", [
    NGXHttpSrvConf .| NGXHttpSifConf .| NGXHttpLocConf .| NGXHttpLifConf .| NGXConfNoArgs]);
  ("charset", [
    NGXHttpMainConf .| NGXHttpSrvConf .| NGXHttpLocConf .| NGXHttpLifConf .| NGXConfTake1]);
  ("charset_map", [
    NGXHttpMainConf .| NGXConfBlock .| NGXConfTake2]);
  ("charset_types", [
    NGXHttpMainConf .| NGXHttpSrvConf .| NGXHttpLocConf .| NGXConf1More]);
  ("chunked_transfer_encoding", [
    NGXHttpMainConf .| NGXHttpSrvConf .| NGXHttpLocConf .| NGXConfFlag]);
  ("client_body_buffer_size", [
    NGXHttpMainConf .| NGXHttpSrvConf .| NGXHttpLocConf .| NGXConfTake1]);
  ("client_body_in_file_only", [
    NGXHttpMainConf .| NGXHttpSrvConf .| NGXHttpLocConf .| NGXConfTake1]);
  ("client_body_in_single_buffer", [
    NGXHttpMainConf .| NGXHttpSrvConf .| NGXHttpLocConf .| NGXConfFlag]);
  ("client_body_temp_path", [
    NGXHttpMainConf .| NGXHttpSrvConf .| NGXHttpLocConf .| NGXConfTake1234]);
  ("client_body_timeout", [
    NGXHttpMainConf .| NGXHttpSrvConf .| NGXHttpLocConf .| NGXConfTake1]);
  ("client_header_buffer_size", [
    NGXHttpMainConf .| NGXHttpSrvConf .| NGXConfTake1]);
  ("client_header_timeout", [
    NGXHttpMainConf .| NGXHttpSrvConf .| NGXConfTake1]);
  ("client_max_body_size", [
    NGXHttpMainConf .| NGXHttpSrvConf .| NGXHttpLocConf .| NGXConfTake1]);
  ("connection_pool_size", [
    NGXHttpMainConf .| NGXHttpSrvConf .| NGXConfTake1]);
  ("create_full_put_path", [
    NGXHttpMainConf .| NGXHttpSrvConf .| NGXHttpLocConf .| NGXConfFlag]);
  ("daemon", [
    NGXMainConf .| NGXDirectConf .| NGXConfFlag]);
  ("dav_access", [
    NGXHttpMainConf .| NGXHttpSrvConf .| NGXHttpLocConf .| NGXConfTake123]);
  ("dav_methods", [
    NGXHttpMainConf .| NGXHttpSrvConf .| NGXHttpLocConf .| NGXConf1More]);
  ("debug_connection", [
    NGXEventConf .| NGXConfTake1]);
  ("debug_points", [
    NGXMainConf .| NGXDirectConf .| NGXConfTake1]);
  ("default_type", [
    NGXHttpMainConf .| NGXHttpSrvConf .| NGXHttpLocConf .| NGXConfTake1]);
  ("deny", [
    NGXHttpMainConf .| NGXHttpSrvConf .| NGXHttpLocConf .| NGXHttpLmtConf .| NGXConfTake1;
    NGXStreamMainConf .| NGXStreamSrvConf .| NGXConfTake1]);
  ("directio", [
    NGXHttpMainConf .| NGXHttpSrvConf .| NGXHttpLocConf .| NGXConfTake1]);
  ("directio_alignment", [
    NGXHttpMainConf .| NGXHttpSrvConf .| NGXHttpLocConf .| NGXConfTake1]);
  ("disable_symlinks", [
    NGXHttpMainConf .| NGXHttpSrvConf .| NGXHttpLocConf .| NGXConfTake12]);
  ("empty_gif", [
    NGXHttpLocConf .| NGXConfNoArgs]);
  ("env", [
    NGXMainConf .| NGXDirectConf .| NGXConfTake1]);
  ("error_log", [
    NGXMainConf .| NGXConf1More;
    NGXHttpMainConf .| NGXHttpSrvConf .| NGXHttpLocConf .| NGXConf1More;
    NGXMailMainConf .| NGXMailSrvConf .| NGXConf1More;
    NGXStreamMainConf .| NGXStreamSrvConf .| NGXConf1More]);
  ("error_page", [
    NGXHttpMainConf .| NGXHttpSrvConf .| NGXHttpLocConf .| NGXHttpLifConf .| NGXConf2More]);
  ("etag", [
    NGXHttpMainConf .| NGXHttpSrvConf .| NGXHttpLocConf .| NGXConfFlag]);
  ("events", [
    NGXMainConf .| NGXConfBlock .| NGXConfNoArgs]);
  ("expires", [
    NGXHttpMainConf .| NGXHttpSrvConf .| NGXHttpLocConf .| NGXHttpLifConf .| NGXConfTake12]);
  ("fastcgi_bind", [
    NGXHttpMainConf .| NGXHttpSrvConf .| NGXHttpLocConf .| NGXConfTake12]);
  ("fastcgi_buffer_size", [
    NGXHttpMainConf .| NGXHttpSrvConf .| NGXHttpLocConf .| NGXConfTake1]);
  ("fastcgi_buffering", [
    NGXHttpMainConf .| NGXHttpSrvConf .| NGXHttpLocConf .| NGXConfFlag]);
  ("fastcgi_buffers", [
    NGXHttpMainConf .| NGXHttpSrvConf .| NGXHttpLocConf .| NGXConfTake2]);
  ("fastcgi_busy_buffers_size", [
    NGXHttpMainConf .| NGXHttpSrvConf .| NGXHttpLocConf .| NGXConfTake1]);
  ("fastcgi_cache", [
    NGXHttpMainConf .| NGXHttpSrvConf .| NGXHttpLocConf .| NGXConfTake1]);
  ("fastcgi_cache_background_update", [
    NGXHttpMainConf .| NGXHttpSrvConf .| NGXHttpLocConf .| NGXConfFlag]);
  ("fastcgi_cache_bypass", [
    NGXHttpMainConf .| NGXHttpSrvConf .| NGXHttpLocConf .| NGXConf1More]);
  ("fastcgi_cache_key", [
    NGXHttpMainConf .| NGXHttpSrvConf .| NGXHttpLocConf .| NGXConfTake1]);
  ("fastcgi_cache_lock", [
    NGXHttpMainConf .| NGXHttpSrvConf .| NGXHttpLocConf .| NGXConfFlag]);
  ("fastcgi_cache_lock_age", [
    NGXHttpMainConf .| NGXHttpSrvConf .| NGXHttpLocConf .| NGXConfTake1]);
  ("fastcgi_cache_lock_timeout", [
    NGXHttpMainConf .| NGXHttpSrvConf .| NGXHttpLocConf .| NGXConfTake1]);
  ("fastcgi_cache_max_range_offset", [
    NGXHttpMainConf .| NGXHttpSrvConf .| NGXHttpLocConf .| NGXConfTake1])].

(** Lines 205-354: from [fastcgi_cache_methods] to [gunzip_buffers]. *)
Definition directives_2 : list (string * list Z) := [
  ("fastcgi_cache_methods", [
    NGXHttpMainConf .| NGXHttpSrvConf .| NGXHttpLocConf .| NGXConf1More]);
  ("fastcgi_cache_min_uses", [
    NGXHttpMainConf .| NGXHttpSrvConf .| NGXHttpLocConf .| NGXConfTake1]);
  ("fastcgi_cache_path", [
    NGXHttpMainConf .| NGXConf2More]);
  ("fastcgi_cache_revalidate", [
    NGXHttpMainConf .| NGXHttpSrvConf .| NGXHttpLocConf .| NGXConfFlag]);
  ("fastcgi_cache_use_stale", [
    NGXHttpMainConf .| NGXHttpSrvConf .| NGXHttpLocConf .| NGXConf1More]);
  ("fastcgi_cache_valid", [
    NGXHttpMainConf .| NGXHttpSrvConf .| NGXHttpLocConf .| NGXConf1More]);
  ("fastcgi_catch_stderr", [
    NGXHttpMainConf .| NGXHttpSrvConf .| NGXHttpLocConf .| NGXConfTake1]);
  ("fastcgi_connect_timeout", [
    NGXHttpMainConf .| NGXHttpSrvConf .| NGXHttpLocConf .| NGXConfTake1]);
  ("fastcgi_force_ranges", [
    NGXHttpMainConf .| NGXHttpSrvConf .| NGXHttpLocConf .| NGXConfFlag]);
  ("fastcgi_hide_header", [
    NGXHttpMainConf .| NGXHttpSrvConf .| NGXHttpLocConf .| NGXConfTake1]);
  ("fastcgi_ignore_client_abort", [
    NGXHttpMainConf .| NGXHttpSrvConf .| NGXHttpLocConf .| NGXConfFlag]);
  ("fastcgi_ignore_headers", [
    NGXHttpMainConf .| NGXHttpSrvConf .| NGXHttpLocConf .| NGXConf1More]);
  ("fastcgi_index", [
    NGXHttpMainConf .| NGXHttpSrvConf .| NGXHttpLocConf .| NGXConfTake1]);
  ("fastcgi_intercept_errors", [
    NGXHttpMainConf .| NGXHttpSrvConf .| NGXHttpLocConf .| NGXConfFlag]);
  ("fastcgi_keep_conn", [
    NGXHttpMainConf .| NGXHttpSrvConf .| NGXHttpLocConf .| NGXConfFlag]);
  ("fastcgi_limit_rate", [
    NGXHttpMainConf .| NGXHttpSrvConf .| NGXHttpLocConf .| NGXConfTake1]);
  ("fastcgi_max_temp_file_size", [
    NGXHttpMainConf .| NGXHttpSrvConf .| NGXHttpLocConf .| NGXConfTake1]);
  ("fastcgi_next_upstream", [
    NGXHttpMainConf .| NGXHttpSrvConf .| NGXHttpLocConf .| NGXConf1More]);
  ("fastcgi_next_upstream_timeout", [
    NGXHttpMainConf .| NGXHttpSrvConf .| NGXHttpLocConf .| NGXConfTake1]);
  ("fastcgi_next_upstream_tries", [
    NGXHttpMainConf .| NGXHttpSrvConf .| NGXHttpLocConf .| NGXConfTake1]);
  ("fastcgi_no_cache", [
    NGXHttpMainConf .| NGXHttpSrvConf .| NGXHttpLocConf .| NGXConf1More]);
  ("fastcgi_param", [
    NGXHttpMainConf .| NGXHttpSrvConf .| NGXHttpLocConf .| NGXConfTake23]);
  ("fastcgi_pass", [
    NGXHttpLocConf .| NGXHttpLifConf .| NGXConfTake1]);
  ("fastcgi_pass_header", [
    NGXHttpMainConf .| NGXHttpSrvConf .| NGXHttpLocConf .| NGXConfTake1]);
  ("fastcgi_pass_request_body", [
    NGXHttpMainConf .| NGXHttpSrvConf .| NGXHttpLocConf .| NGXConfFlag]);
  ("fastcgi_pass_request_headers", [
    NGXHttpMainConf .| NGXHttpSrvConf .| NGXHttpLocConf .| NGXConfFlag]);
  ("fastcgi_read_timeout", [
    NGXHttpMainConf .| NGXHttpSrvConf .| NGXHttpLocConf .| NGXConfTake1]);
  ("fastcgi_request_buffering", [
    NGXHttpMainConf .| NGXHttpSrvConf .| NGXHttpLocConf .| NGXConfFlag]);
  ("fastcgi_send_lowat", [
    NGXHttpMainConf .| NGXHttpSrvConf .| NGXHttpLocConf .| NGXConfTake1]);
  ("fastcgi_send_timeout", [
    NGXHttpMainConf .| NGXHttpSrvConf .| NGXHttpLocConf .| NGXConfTake1]);
  ("fastcgi_socket_keepalive", [
    NGXHttpMainConf .| NGXHttpSrvConf .| NGXHttpLocConf .| NGXConfFlag]);
  ("fastcgi_split_path_info", [
    NGXHttpMainConf .| NGXHttpSrvConf .| NGXHttpLocConf .| NGXConfTake1]);
  ("fastcgi_store", [
    NGXHttpMainConf .| NGXHttpSrvConf .| NGXHttpLocConf .| NGXConfTake1]);
  ("fastcgi_store_access", [
    NGXHttpMainConf .| NGXHttpSrvConf .| NGXHttpLocConf .| NGXConfTake123]);
  ("fastcgi_temp_file_write_size", [
    NGXHttpMainConf .| NGXHttpSrvConf .| NGXHttpLocConf .| NGXConfTake1]);
  ("fastcgi_temp_path", [
    NGXHttpMainConf .| NGXHttpSrvConf .| NGXHttpLocConf .| NGXConfTake1234]);
  ("flv", [
    NGXHttpLocConf .| NGXConfNoArgs]);
  ("geo", [
    NGXHttpMainConf .| NGXConfBlock .| NGXConfTake12;
    NGXStreamMainConf .| NGXConfBlock .| NGXConfTake12]);
  ("geoip_city", [
    NGXHttpMainConf .| NGXConfTake12;
    NGXStreamMainConf .| NGXConfTake12]);
  ("geoip_country", [
    NGXHttpMainConf .| NGXConfTake12;
    NGXStreamMainConf .| NGXConfTake12]);
  ("geoip_org", [
    NGXHttpMainConf .| NGXConfTake12;
    NGXStreamMainConf .| NGXConfTake12]);
  ("geoip_proxy", [
    NGXHttpMainConf .| NGXConfTake1]);
  ("geoip_proxy_recursive", [
    NGXHttpMainConf .| NGXConfFlag]);
  ("google_perftools_profiles", [
    NGXMainConf .| NGXDirectConf .| NGXConfTake1]);
  ("grpc_bind", [
    NGXHttpMainConf .| NGXHttpSrvConf .| NGXHttpLocConf .| NGXConfTake12]);
  ("grpc_buffer_size", [
    NGXHttpMainConf .| NGXHttpSrvConf .| NGXHttpLocConf .| NGXConfTake1]);
  ("grpc_connect_timeout", [
    NGXHttpMainConf .| NGXHttpSrvConf .| NGXHttpLocConf .| NGXConfTake1]);
  ("grpc_hide_header", [
    NGXHttpMainConf .| NGXHttpSrvConf .| NGXHttpLocConf .| NGXConfTake1]);
  ("grpc_ignore_headers", [
    NGXHttpMainConf .| NGXHttpSrvConf .| NGXHttpLocConf .| NGXConf1More]);
  ("grpc_intercept_errors", [
    NGXHttpMainConf .| NGXHttpSrvConf .| NGXHttpLocConf .| NGXConfFlag]);
  ("grpc_next_upstream", [
    NGXHttpMainConf .| NGXHttpSrvConf .| NGXHttpLocConf .| NGXConf1More]);
  ("grpc_next_upstream_timeout", [
    NGXHttpMainConf .| NGXHttpSrvConf .| NGXHttpLocConf .| NGXConfTake1]);
  ("grpc_next_upstream_tries", [
    NGXHttpMainConf .| NGXHttpSrvConf .| NGXHttpLocConf .| NGXConfTake1]);
  ("grpc_pass", [
    NGXHttpLocConf .| NGXHttpLifConf .| NGXConfTake1]);
  ("grpc_pass_header", [
    NGXHttpMainConf .| NGXHttpSrvConf .| NGXHttpLocConf .| NGXConfTake1]);
  ("grpc_read_timeout", [
    NGXHttpMainConf .| NGXHttpSrvConf .| NGXHttpLocConf .| NGXConfTake1]);
  ("grpc_send_timeout", [
    NGXHttpMainConf .| NGXHttpSrvConf .| NGXHttpLocConf .| NGXConfTake1]);
  ("grpc_set_header", [
    NGXHttpMainConf .| NGXHttpSrvConf .| NGXHttpLocConf .| NGXConfTake2]);
  ("grpc_socket_keepalive", [
    NGXHttpMainConf .| NGXHttpSrvConf .| NGXHttpLocConf .| NGXConfFlag]);
  ("grpc_ssl_certificate", [
    NGXHttpMainConf .| NGXHttpSrvConf .| NGXHttpLocConf .| NGXConfTake1]);
  ("grpc_ssl_certificate_key", [
    NGXHttpMainConf .| NGXHttpSrvConf .| NGXHttpLocConf .| NGXConfTake1]);
  ("grpc_ssl_ciphers", [
    NGXHttpMainConf .| NGXHttpSrvConf .| NGXHttpLocConf .| NGXConfTake1]);
  ("grpc_ssl_crl", [
    NGXHttpMainConf .| NGXHttpSrvConf .| NGXHttpLocConf .| NGXConfTake1]);
  ("grpc_ssl_name", [
    NGXHttpMainConf .| NGXHttpSrvConf .| NGXHttpLocConf .| NGXConfTake1]);
  ("grpc_ssl_password_file", [
    NGXHttpMainConf .| NGXHttpSrvConf .| NGXHttpLocConf .| NGXConfTake1]);
  ("grpc_ssl_protocols", [
    NGXHttpMainConf .| NGXHttpSrvConf .| NGXHttpLocConf .| NGXConf1More]);
  ("grpc_ssl_server_name", [
    NGXHttpMainConf .| NGXHttpSrvConf .| NGXHttpLocConf .| NGXConfFlag]);
  ("grpc_ssl_session_reuse", [
    NGXHttpMainConf .| NGXHttpSrvConf .| NGXHttpLocConf .| NGXConfFlag]);
  ("grpc_ssl_trusted_certificate", [
    NGXHttpMainConf .| NGXHttpSrvConf .| NGXHttpLocConf .| NGXConfTake1]);
  ("grpc_ssl_verify", [
    NGXHttpMainConf .| NGXHttpSrvConf .| NGXHttpLocConf .| NGXConfFlag]);
  ("grpc_ssl_verify_depth", [
    NGXHttpMainConf .| NGXHttpSrvConf .| NGXHttpLocConf .| NGXConfTake1]);
  ("gunzip", [
    NGXHttpMainConf .| NGXHttpSrvConf .| NGXHttpLocConf .| NGXConfFlag]);
  ("gunzip_buffers", [
    NGXHttpMainConf .| NGXHttpSrvConf .| NGXHttpLocConf .| NGXConfTake2])].

(** Lines 355-502: from [gzip] to [mail]. *)
Definition directives_3 : list (string * list Z) := [
  ("gzip", [
    NGXHttpMainConf .| NGXHttpSrvConf .| NGXHttpLocConf .| NGXHttpLifConf .| NGXConfFlag]);
  ("gzip_buffers", [
    NGXHttpMainConf .| NGXHttpSrvConf .| NGXHttpLocConf .| NGXConfTake2]);
  ("gzip_comp_level", [
    NGXHttpMainConf .| NGXHttpSrvConf .| NGXHttpLocConf .| NGXConfTake1]);
  ("gzip_disable", [
    NGXHttpMainConf .| NGXHttpSrvConf .| NGXHttpLocConf .| NGXConf1More]);
  ("gzip_http_version", [
    NGXHttpMainConf .| NGXHttpSrvConf .| NGXHttpLocConf .| NGXConfTake1]);
  ("gzip_min_length", [
    NGXHttpMainConf .| NGXHttpSrvConf .| NGXHttpLocConf .| NGXConfTake1]);
  ("gzip_proxied", [
    NGXHttpMainConf .| NGXHttpSrvConf .| NGXHttpLocConf .| NGXConf1More]);
  ("gzip_static", [
    NGXHttpMainConf .| NGXHttpSrvConf .| NGXHttpLocConf .| NGXConfTake1]);
  ("gzip_types", [
    NGXHttpMainConf .| NGXHttpSrvConf .| NGXHttpLocConf .| NGXConf1More]);
  ("gzip_vary", [
    NGXHttpMainConf .| NGXHttpSrvConf .| NGXHttpLocConf .| NGXConfFlag]);
  ("hash", [
    NGXHttpUpsConf .| NGXConfTake12;
    NGXStreamUpsConf .| NGXConfTake12]);
  ("http", [
    NGXMainConf .| NGXConfBlock .| NGXConfNoArgs]);
  ("http2_body_preread_size", [
    NGXHttpMainConf .| NGXHttpSrvConf .| NGXConfTake1]);
  ("http2_chunk_size", [
    NGXHttpMainConf .| NGXHttpSrvConf .| NGXHttpLocConf .| NGXConfTake1]);
  ("http2_idle_timeout", [
    NGXHttpMainConf .| NGXHttpSrvConf .| NGXConfTake1]);
  ("http2_max_concurrent_pushes", [
    NGXHttpMainConf .| NGXHttpSrvConf .| NGXConfTake1]);
  ("http2_max_concurrent_streams", [
    NGXHttpMainConf .| NGXHttpSrvConf .| NGXConfTake1]);
  ("http2_max_field_size", [
    NGXHttpMainConf .| NGXHttpSrvConf .| NGXConfTake1]);
  ("http2_max_header_size", [
    NGXHttpMainConf .| NGXHttpSrvConf .| NGXConfTake1]);
  ("http2_max_requests", [
    NGXHttpMainConf .| NGXHttpSrvConf .| NGXConfTake1]);
  ("http2_push", [
    NGXHttpMainConf .| NGXHttpSrvConf .| NGXHttpLocConf .| NGXConfTake1]);
  ("http2_push_preload", [
    NGXHttpMainConf .| NGXHttpSrvConf .| NGXHttpLocConf .| NGXConfFlag]);
  ("http2_recv_buffer_size", [
    NGXHttpMainConf .| NGXConfTake1]);
  ("http2_recv_timeout", [
    NGXHttpMainConf .| NGXHttpSrvConf .| NGXConfTake1]);
  ("if", [
    NGXHttpSrvConf .| NGXHttpLocConf .| NGXConfBlock .| NGXConf1More]);
  ("if_modified_since", [
    NGXHttpMainConf .| NGXHttpSrvConf .| NGXHttpLocConf .| NGXConfTake1]);
  ("ignore_invalid_headers", [
    NGXHttpMainConf .| NGXHttpSrvConf .| NGXConfFlag]);
  ("image_filter", [
    NGXHttpLocConf .| NGXConfTake123]);
  ("image_filter_buffer", [
    NGXHttpMainConf .| NGXHttpSrvConf .| NGXHttpLocConf .| NGXConfTake1]);
  ("image_filter_interlace", [
    NGXHttpMainConf .| NGXHttpSrvConf .| NGXHttpLocConf .| NGXConfFlag]);
  ("image_filter_jpeg_quality", [
    NGXHttpMainConf .| NGXHttpSrvConf .| NGXHttpLocConf .| NGXConfTake1]);
  ("image_filter_sharpen", [
    NGXHttpMainConf .| NGXHttpSrvConf .| NGXHttpLocConf .| NGXConfTake1]);
  ("image_filter_transparency", [
    NGXHttpMainConf .| NGXHttpSrvConf .| NGXHttpLocConf .| NGXConfFlag]);
  ("image_filter_webp_quality", [
    NGXHttpMainConf .| NGXHttpSrvConf .| NGXHttpLocConf .| NGXConfTake1]);
  ("imap_auth", [
    NGXMailMainConf .| NGXMailSrvConf .| NGXConf1More]);
  ("imap_capabilities", [
    NGXMailMainConf .| NGXMailSrvConf .| NGXConf1More]);
  ("imap_client_buffer", [
    NGXMailMainConf .| NGXMailSrvConf .| NGXConfTake1]);
  ("include", [
    NGXAnyConf .| NGXConfTake1]);
  ("index", [
    NGXHttpMainConf .| NGXHttpSrvConf .| NGXHttpLocConf .| NGXConf1More]);
  ("internal", [
    NGXHttpLocConf .| NGXConfNoArgs]);
  ("ip_hash", [
    NGXHttpUpsConf .| NGXConfNoArgs]);
  ("keepalive", [
    NGXHttpUpsConf .| NGXConfTake1]);
  ("keepalive_disable", [
    NGXHttpMainConf .| NGXHttpSrvConf .| NGXHttpLocConf .| NGXConfTake12]);
  ("keepalive_requests", [
    NGXHttpMainConf .| NGXHttpSrvConf .| NGXHttpLocConf .| NGXConfTake1;
    NGXHttpUpsConf .| NGXConfTake1]);
  ("keepalive_timeout", [
    NGXHttpMainConf .| NGXHttpSrvConf .| NGXHttpLocConf .| NGXConfTake12;
    NGXHttpUpsConf .| NGXConfTake1]);
  ("large_client_header_buffers", [
    NGXHttpMainConf .| NGXHttpSrvConf .| NGXConfTake2]);
  ("least_conn", [
    NGXHttpUpsConf .| NGXConfNoArgs;
    NGXStreamUpsConf .| NGXConfNoArgs]);
  ("limit_conn", [
    NGXHttpMainConf .| NGXHttpSrvConf .| NGXHttpLocConf .| NGXConfTake2;
    NGXStreamMainConf .| NGXStreamSrvConf .| NGXConfTake2]);
  ("limit_conn_log_level", [
    NGXHttpMainConf .| NGXHttpSrvConf .| NGXHttpLocConf .| NGXConfTake1;
    NGXStreamMainConf .| NGXStreamSrvConf .| NGXConfTake1]);
  ("limit_conn_status", [
    NGXHttpMainConf .| NGXHttpSrvConf .| NGXHttpLocConf .| NGXConfTake1]);
  ("limit_conn_zone", [
    NGXHttpMainConf .| NGXConfTake2;
    NGXStreamMainConf .| NGXConfTake2]);
  ("limit_except", [
    NGXHttpLocConf .| NGXConfBlock .| NGXConf1More]);
  ("limit_rate", [
    NGXHttpMainConf .| NGXHttpSrvConf .| NGXHttpLocConf .| NGXHttpLifConf .| NGXConfTake1]);
  ("limit_rate_after", [
    NGXHttpMainConf .| NGXHttpSrvConf .| NGXHttpLocConf .| NGXHttpLifConf .| NGXConfTake1]);
  ("limit_req", [
    NGXHttpMainConf .| NGXHttpSrvConf .| NGXHttpLocConf .| NGXConfTake123]);
  ("limit_req_log_level", [
    NGXHttpMainConf .| NGXHttpSrvConf .| NGXHttpLocConf .| NGXConfTake1]);
  ("limit_req_status", [
    NGXHttpMainConf .| NGXHttpSrvConf .| NGXHttpLocConf .| NGXConfTake1]);
  ("limit_req_zone", [
    NGXHttpMainConf .| NGXConfTake3]);
  ("lingering_close", [
    NGXHttpMainConf .| NGXHttpSrvConf .| NGXHttpLocConf .| NGXConfTake1]);
  ("lingering_time", [
    NGXHttpMainConf .| NGXHttpSrvConf .| NGXHttpLocConf .| NGXConfTake1]);
  ("lingering_timeout", [
    NGXHttpMainConf .| NGXHttpSrvConf .| NGXHttpLocConf .| NGXConfTake1]);
  ("listen", [
    NGXHttpSrvConf .| NGXConf1More;
    NGXMailSrvConf .| NGXConf1More;
    NGXStreamSrvConf .| NGXConf1More]);
  ("load_module", [
    NGXMainConf .| NGXDirectConf .| NGXConfTake1]);
  ("location", [
    NGXHttpSrvConf .| NGXHttpLocConf .| NGXConfBlock .| NGXConfTake12]);
  ("lock_file", [
    NGXMainConf .| NGXDirectConf .| NGXConfTake1]);
  ("log_format", [
    NGXHttpMainConf .| NGXConf2More;
    NGXStreamMainConf .| NGXConf2More]);
  ("log_not_found", [
    NGXHttpMainConf .| NGXHttpSrvConf .| NGXHttpLocConf .| NGXConfFlag]);
  ("log_subrequest", [
    NGXHttpMainConf .| NGXHttpSrvConf .| NGXHttpLocConf .| NGXConfFlag]);
  ("mail", [
    NGXMainConf .| NGXConfBlock .| NGXConfNoArgs])].

(** Lines 503-651: from [map] to [proxy_cache_max_range_offset]. *)
Definition directives_4 : list (string * list Z) := [
  ("map", [
    NGXHttpMainConf .| NGXConfBlock .| NGXConfTake2;
    NGXStreamMainConf .| NGXConfBlock .| NGXConfTake2]);
  ("map_hash_bucket_size", [
    NGXHttpMainConf .| NGXConfTake1;
    NGXStreamMainConf .| NGXConfTake1]);
  ("map_hash_max_size", [
    NGXHttpMainConf .| NGXConfTake1;
    NGXStreamMainConf .| NGXConfTake1]);
  ("master_process", [
    NGXMainConf .| NGXDirectConf .| NGXConfFlag]);
  ("max_ranges", [
    NGXHttpMainConf .| NGXHttpSrvConf .| NGXHttpLocConf .| NGXConfTake1]);
  ("memcached_bind", [
    NGXHttpMainConf .| NGXHttpSrvConf .| NGXHttpLocConf .| NGXConfTake12]);
  ("memcached_buffer_size", [
    NGXHttpMainConf .| NGXHttpSrvConf .| NGXHttpLocConf .| NGXConfTake1]);
  ("memcached_connect_timeout", [
    NGXHttpMainConf .| NGXHttpSrvConf .| NGXHttpLocConf .| NGXConfTake1]);
  ("memcached_gzip_flag", [
    NGXHttpMainConf .| NGXHttpSrvConf .| NGXHttpLocConf .| NGXConfTake1]);
  ("memcached_next_upstream", [
    NGXHttpMainConf .| NGXHttpSrvConf .| NGXHttpLocConf .| NGXConf1More]);
  ("memcached_next_upstream_timeout", [
    NGXHttpMainConf .| NGXHttpSrvConf .| NGXHttpLocConf .| NGXConfTake1]);
  ("memcached_next_upstream_tries", [
    NGXHttpMainConf .| NGXHttpSrvConf .| NGXHttpLocConf .| NGXConfTake1]);
  ("memcached_pass", [
    NGXHttpLocConf .| NGXHttpLifConf .| NGXConfTake1]);
  ("memcached_read_timeout", [
    NGXHttpMainConf .| NGXHttpSrvConf .| NGXHttpLocConf .| NGXConfTake1]);
  ("memcached_send_timeout", [
    NGXHttpMainConf .| NGXHttpSrvConf .| NGXHttpLocConf .| NGXConfTake1]);
  ("memcached_socket_keepalive", [
    NGXHttpMainConf .| NGXHttpSrvConf .| NGXHttpLocConf .| NGXConfFlag]);
  ("merge_slashes", [
    NGXHttpMainConf .| NGXHttpSrvConf .| NGXConfFlag]);
  ("min_delete_depth", [
    NGXHttpMainConf .| NGXHttpSrvConf .| NGXHttpLocConf .| NGXConfTake1]);
  ("mirror", [
    NGXHttpMainConf .| NGXHttpSrvConf .| NGXHttpLocConf .| NGXConfTake1]);
  ("mirror_request_body", [
    NGXHttpMainConf .| NGXHttpSrvConf .| NGXHttpLocConf .| NGXConfFlag]);
  ("modern_browser", [
    NGXHttpMainConf .| NGXHttpSrvConf .| NGXHttpLocConf .| NGXConfTake12]);
  ("modern_browser_value", [
    NGXHttpMainConf .| NGXHttpSrvConf .| NGXHttpLocConf .| NGXConfTake1]);
  ("mp4", [
    NGXHttpLocConf .| NGXConfNoArgs]);
  ("mp4_buffer_size", [
    NGXHttpMainConf .| NGXHttpSrvConf .| NGXHttpLocConf .| NGXConfTake1]);
  ("mp4_max_buffer_size", [
    NGXHttpMainConf .| NGXHttpSrvConf .| NGXHttpLocConf .| NGXConfTake1]);
  ("msie_padding", [
    NGXHttpMainConf .| NGXHttpSrvConf .| NGXHttpLocConf .| NGXConfFlag]);
  ("msie_refresh", [
    NGXHttpMainConf .| NGXHttpSrvConf .| NGXHttpLocConf .| NGXConfFlag]);
  ("multi_accept", [
    NGXEventConf .| NGXConfFlag]);
  ("open_file_cache", [
    NGXHttpMainConf .| NGXHttpSrvConf .| NGXHttpLocConf .| NGXConfTake12]);
  ("open_file_cache_errors", [
    NGXHttpMainConf .| NGXHttpSrvConf .| NGXHttpLocConf .| NGXConfFlag]);
  ("open_file_cache_min_uses", [
    NGXHttpMainConf .| NGXHttpSrvConf .| NGXHttpLocConf .| NGXConfTake1]);
  ("open_file_cache_valid", [
    NGXHttpMainConf .| NGXHttpSrvConf .| NGXHttpLocConf .| NGXConfTake1]);
  ("open_log_file_cache", [
    NGXHttpMainConf .| NGXHttpSrvConf .| NGXHttpLocConf .| NGXConfTake1234;
    NGXStreamMainConf .| NGXStreamSrvConf .| NGXConfTake1234]);
  ("oauth2_redirect_separator", []);
  ("oauth2_authorization_expire", []);
  ("oauth2_access_expire", []);
  ("oauth2_allow_get_access", []);
  ("oauth2_allowed_access_type", []);
  ("oauth2_token_type", []);
  ("oauth2_provider_name", []);
  ("oauth2_auth_endpoint", []);
  ("oauth2_token_endpoint", []);
  ("oauth2_info_endpoint", []);
  ("oauth2_session_path", []);
  ("oauth2_session_max_age", []);
  ("oauth2_session_domain", []);
  ("oauth2_session_secure", []);
  ("oauth2_session_hhhponly", []);
  ("oauth2_session_name", []);
  ("oauth2_csrf_secret", []);
  ("output_buffers", [
    NGXHttpMainConf .| NGXHttpSrvConf .| NGXHttpLocConf .| NGXConfTake2]);
  ("override_charset", [
    NGXHttpMainConf .| NGXHttpSrvConf .| NGXHttpLocConf .| NGXHttpLifConf .| NGXConfFlag]);
  ("pcre_jit", [
    NGXMainConf .| NGXDirectConf .| NGXConfFlag]);
  ("perl", [
    NGXHttpLocConf .| NGXHttpLmtConf .| NGXConfTake1]);
  ("perl_modules", [
    NGXHttpMainConf .| NGXConfTake1]);
  ("perl_require", [
    NGXHttpMainConf .| NGXConfTake1]);
  ("perl_set", [
    NGXHttpMainConf .| NGXConfTake2]);
  ("pid", [
    NGXMainConf .| NGXDirectConf .| NGXConfTake1]);
  ("pop3_auth", [
    NGXMailMainConf .| NGXMailSrvConf .| NGXConf1More]);
  ("pop3_capabilities", [
    NGXMailMainConf .| NGXMailSrvConf .| NGXConf1More]);
  ("port_in_redirect", [
    NGXHttpMainConf .| NGXHttpSrvConf .| NGXHttpLocConf .| NGXConfFlag]);
  ("postpone_output", [
    NGXHttpMainConf .| NGXHttpSrvConf .| NGXHttpLocConf .| NGXConfTake1]);
  ("preread_buffer_size", [
    NGXStreamMainConf .| NGXStreamSrvConf .| NGXConfTake1]);
  ("preread_timeout", [
    NGXStreamMainConf .| NGXStreamSrvConf .| NGXConfTake1]);
  ("protocol", [
    NGXMailSrvConf .| NGXConfTake1]);
  ("proxy_bind", [
    NGXHttpMainConf .| NGXHttpSrvConf .| NGXHttpLocConf .| NGXConfTake12;
    NGXStreamMainConf .| NGXStreamSrvConf .| NGXConfTake12]);
  ("proxy_buffer", [
    NGXMailMainConf .| NGXMailSrvConf .| NGXConfTake1]);
  ("proxy_buffer_size", [
    NGXHttpMainConf .| NGXHttpSrvConf .| NGXHttpLocConf .| NGXConfTake1;
    NGXStreamMainConf .| NGXStreamSrvConf .| NGXConfTake1]);
  ("proxy_buffering", [
    NGXHttpMainConf .| NGXHttpSrvConf .| NGXHttpLocConf .| NGXConfFlag]);
  ("proxy_buffers", [
    NGXHttpMainConf .| NGXHttpSrvConf .| NGXHttpLocConf .| NGXConfTake2]);
  ("proxy_busy_buffers_size", [
    NGXHttpMainConf .| NGXHttpSrvConf .| NGXHttpLocConf .| NGXConfTake1]);
  ("proxy_cache", [
    NGXHttpMainConf .| NGXHttpSrvConf .| NGXHttpLocConf .| NGXConfTake1]);
  ("proxy_cache_background_update", [
    NGXHttpMainConf .| NGXHttpSrvConf .| NGXHttpLocConf .| NGXConfFlag]);
  ("proxy_cache_bypass", [
    NGXHttpMainConf .| NGXHttpSrvConf .| NGXHttpLocConf .| NGXConf1More]);
  ("proxy_cache_convert_head", [
    NGXHttpMainConf .| NGXHttpSrvConf .| NGXHttpLocConf .| NGXConfFlag]);
  ("proxy_cache_key", [
    NGXHttpMainConf .| NGXHttpSrvConf .| NGXHttpLocConf .| NGXConfTake1]);
  ("proxy_cache_lock", [
    NGXHttpMainConf .| NGXHttpSrvConf .| NGXHttpLocConf .| NGXConfFlag]);
  ("proxy_cache_lock_age", [
    NGXHttpMainConf .| NGXHttpSrvConf .| NGXHttpLocConf .| NGXConfTake1]);
  ("proxy_cache_lock_timeout", [
    NGXHttpMainConf .| NGXHttpSrvConf .| NGXHttpLocConf .| NGXConfTake1]);
  ("proxy_cache_max_range_offset", [
    NGXHttpMainConf .| NGXHttpSrvConf .| NGXHttpLocConf .| NGXConfTake1])].

(** Lines 652-801: from [proxy_cache_methods] to [real_ip_header]. *)
Definition directives_5 : list (string * list Z) := [
  ("proxy_cache_methods", [
    NGXHttpMainConf .| NGXHttpSrvConf .| NGXHttpLocConf .| NGXConf1More]);
  ("proxy_cache_min_uses", [
    NGXHttpMainConf .| NGXHttpSrvConf .| NGXHttpLocConf .| NGXConfTake1]);
  ("proxy_cache_path", [
    NGXHttpMainConf .| NGXConf2More]);
  ("proxy_cache_revalidate", [
    NGXHttpMainConf .| NGXHttpSrvConf .| NGXHttpLocConf .| NGXConfFlag]);
  ("proxy_cache_use_stale", [
    NGXHttpMainConf .| NGXHttpSrvConf .| NGXHttpLocConf .| NGXConf1More]);
  ("proxy_cache_valid", [
    NGXHttpMainConf .| NGXHttpSrvConf .| NGXHttpLocConf .| NGXConf1More]);
  ("proxy_connect_timeout", [
    NGXHttpMainConf .| NGXHttpSrvConf .| NGXHttpLocConf .| NGXConfTake1;
    NGXStreamMainConf .| NGXStreamSrvConf .| NGXConfTake1]);
  ("proxy_cookie_domain", [
    NGXHttpMainConf .| NGXHttpSrvConf .| NGXHttpLocConf .| NGXConfTake12]);
  ("proxy_cookie_path", [
    NGXHttpMainConf .| NGXHttpSrvConf .| NGXHttpLocConf .| NGXConfTake12]);
  ("proxy_download_rate", [
    NGXStreamMainConf .| NGXStreamSrvConf .| NGXConfTake1]);
  ("proxy_force_ranges", [
    NGXHttpMainConf .| NGXHttpSrvConf .| NGXHttpLocConf .| NGXConfFlag]);
  ("proxy_headers_hash_bucket_size", [
    NGXHttpMainConf .| NGXHttpSrvConf .| NGXHttpLocConf .| NGXConfTake1]);
  ("proxy_headers_hash_max_size", [
    NGXHttpMainConf .| NGXHttpSrvConf .| NGXHttpLocConf .| NGXConfTake1]);
  ("proxy_hide_header", [
    NGXHttpMainConf .| NGXHttpSrvConf .| NGXHttpLocConf .| NGXConfTake1]);
  ("proxy_http_version", [
    NGXHttpMainConf .| NGXHttpSrvConf .| NGXHttpLocConf .| NGXConfTake1]);
  ("proxy_ignore_client_abort", [
    NGXHttpMainConf .| NGXHttpSrvConf .| NGXHttpLocConf .| NGXConfFlag]);
  ("proxy_ignore_headers", [
    NGXHttpMainConf .| NGXHttpSrvConf .| NGXHttpLocConf .| NGXConf1More]);
  ("proxy_intercept_errors", [
    NGXHttpMainConf .| NGXHttpSrvConf .| NGXHttpLocConf .| NGXConfFlag]);
  ("proxy_limit_rate", [
    NGXHttpMainConf .| NGXHttpSrvConf .| NGXHttpLocConf .| NGXConfTake1]);
  ("proxy_max_temp_file_size", [
    NGXHttpMainConf .| NGXHttpSrvConf .| NGXHttpLocConf .| NGXConfTake1]);
  ("proxy_method", [
    NGXHttpMainConf .| NGXHttpSrvConf .| NGXHttpLocConf .| NGXConfTake1]);
  ("proxy_next_upstream", [
    NGXHttpMainConf .| NGXHttpSrvConf .| NGXHttpLocConf .| NGXConf1More;
    NGXStreamMainConf .| NGXStreamSrvConf .| NGXConfFlag]);
  ("proxy_next_upstream_timeout", [
    NGXHttpMainConf .| NGXHttpSrvConf .| NGXHttpLocConf .| NGXConfTake1;
    NGXStreamMainConf .| NGXStreamSrvConf .| NGXConfTake1]);
  ("proxy_next_upstream_tries", [
    NGXHttpMainConf .| NGXHttpSrvConf .| NGXHttpLocConf .| NGXConfTake1;
    NGXStreamMainConf .| NGXStreamSrvConf .| NGXConfTake1]);
  ("proxy_no_cache", [
    NGXHttpMainConf .| NGXHttpSrvConf .| NGXHttpLocConf .| NGXConf1More]);
  ("proxy_pass", [
    NGXHttpLocConf .| NGXHttpLifConf .| NGXHttpLmtConf .| NGXConfTake1;
    NGXStreamSrvConf .| NGXConfTake1]);
  ("proxy_pass_error_message", [
    NGXMailMainConf .| NGXMailSrvConf .| NGXConfFlag]);
  ("proxy_pass_header", [
    NGXHttpMainConf .| NGXHttpSrvConf .| NGXHttpLocConf .| NGXConfTake1]);
  ("proxy_pass_request_body", [
    NGXHttpMainConf .| NGXHttpSrvConf .| NGXHttpLocConf .| NGXConfFlag]);
  ("proxy_pass_request_headers", [
    NGXHttpMainConf .| NGXHttpSrvConf .| NGXHttpLocConf .| NGXConfFlag]);
  ("proxy_protocol", [
    NGXStreamMainConf .| NGXStreamSrvConf .| NGXConfFlag]);
  ("proxy_protocol_timeout", [
    NGXStreamMainConf .| NGXStreamSrvConf .| NGXConfTake1]);
  ("proxy_read_timeout", [
    NGXHttpMainConf .| NGXHttpSrvConf .| NGXHttpLocConf .| NGXConfTake1]);
  ("proxy_redirect", [
    NGXHttpMainConf .| NGXHttpSrvConf .| NGXHttpLocConf .| NGXConfTake12]);
  ("proxy_request_buffering", [
    NGXHttpMainConf .| NGXHttpSrvConf .| NGXHttpLocConf .| NGXConfFlag]);
  ("proxy_requests", [
    NGXStreamMainConf .| NGXStreamSrvConf .| NGXConfTake1]);
  ("proxy_responses", [
    NGXStreamMainConf .| NGXStreamSrvConf .| NGXConfTake1]);
  ("proxy_send_lowat", [
    NGXHttpMainConf .| NGXHttpSrvConf .| NGXHttpLocConf .| NGXConfTake1]);
  ("proxy_send_timeout", [
    NGXHttpMainConf .| NGXHttpSrvConf .| NGXHttpLocConf .| NGXConfTake1]);
  ("proxy_set_body", [
    NGXHttpMainConf .| NGXHttpSrvConf .| NGXHttpLocConf .| NGXConfTake1]);
  ("proxy_set_header", [
    NGXHttpMainConf .| NGXHttpSrvConf .| NGXHttpLocConf .| NGXConfTake2]);
  ("proxy_socket_keepalive", [
    NGXHttpMainConf .| NGXHttpSrvConf .| NGXHttpLocConf .| NGXConfFlag;
    NGXStreamMainConf .| NGXStreamSrvConf .| NGXConfFlag]);
  ("proxy_ssl", [
    NGXStreamMainConf .| NGXStreamSrvConf .| NGXConfFlag]);
  ("proxy_ssl_certificate", [
    NGXHttpMainConf .| NGXHttpSrvConf .| NGXHttpLocConf .| NGXConfTake1;
    NGXStreamMainConf .| NGXStreamSrvConf .| NGXConfTake1]);
  ("proxy_ssl_certificate_key", [
    NGXHttpMainConf .| NGXHttpSrvConf .| NGXHttpLocConf .| NGXConfTake1;
    NGXStreamMainConf .| NGXStreamSrvConf .| NGXConfTake1]);
  ("proxy_ssl_ciphers", [
    NGXHttpMainConf .| NGXHttpSrvConf .| NGXHttpLocConf .| NGXConfTake1;
    NGXStreamMainConf .| NGXStreamSrvConf .| NGXConfTake1]);
  ("proxy_ssl_crl", [
    NGXHttpMainConf .| NGXHttpSrvConf .| NGXHttpLocConf .| NGXConfTake1;
    NGXStreamMainConf .| NGXStreamSrvConf .| NGXConfTake1]);
  ("proxy_ssl_name", [
    NGXHttpMainConf .| NGXHttpSrvConf .| NGXHttpLocConf .| NGXConfTake1;
    NGXStreamMainConf .| NGXStreamSrvConf .| NGXConfTake1]);
  ("proxy_ssl_password_file", [
    NGXHttpMainConf .| NGXHttpSrvConf .| NGXHttpLocConf .| NGXConfTake1;
    NGXStreamMainConf .| NGXStreamSrvConf .| NGXConfTake1]);
  ("proxy_ssl_protocols", [
    NGXHttpMainConf .| NGXHttpSrvConf .| NGXHttpLocConf .| NGXConf1More;
    NGXStreamMainConf .| NGXStreamSrvConf .| NGXConf1More]);
  ("proxy_ssl_server_name", [
    NGXHttpMainConf .| NGXHttpSrvConf .| NGXHttpLocConf .| NGXConfFlag;
    NGXStreamMainConf .| NGXStreamSrvConf .| NGXConfFlag]);
  ("proxy_ssl_session_reuse", [
    NGXHttpMainConf .| NGXHttpSrvConf .| NGXHttpLocConf .| NGXConfFlag;
    NGXStreamMainConf .| NGXStreamSrvConf .| NGXConfFlag]);
  ("proxy_ssl_trusted_certificate", [
    NGXHttpMainConf .| NGXHttpSrvConf .| NGXHttpLocConf .| NGXConfTake1;
    NGXStreamMainConf .| NGXStreamSrvConf .| NGXConfTake1]);
  ("proxy_ssl_verify", [
    NGXHttpMainConf .| NGXHttpSrvConf .| NGXHttpLocConf .| NGXConfFlag;
    NGXStreamMainConf .| NGXStreamSrvConf .| NGXConfFlag]);
  ("proxy_ssl_verify_depth", [
    NGXHttpMainConf .| NGXHttpSrvConf .| NGXHttpLocConf .| NGXConfTake1;
    NGXStreamMainConf .| NGXStreamSrvConf .| NGXConfTake1]);
  ("proxy_store", [
    NGXHttpMainConf .| NGXHttpSrvConf .| NGXHttpLocConf .| NGXConfTake1]);
  ("proxy_store_access", [
    NGXHttpMainConf .| NGXHttpSrvConf .| NGXHttpLocConf .| NGXConfTake123]);
  ("proxy_temp_file_write_size", [
    NGXHttpMainConf .| NGXHttpSrvConf .| NGXHttpLocConf .| NGXConfTake1]);
  ("proxy_temp_path", [
    NGXHttpMainConf .| NGXHttpSrvConf .| NGXHttpLocConf .| NGXConfTake1234]);
  ("proxy_timeout", [
    NGXMailMainConf .| NGXMailSrvConf .| NGXConfTake1;
    NGXStreamMainConf .| NGXStreamSrvConf .| NGXConfTake1]);
  ("proxy_upload_rate", [
    NGXStreamMainConf .| NGXStreamSrvConf .| NGXConfTake1]);
  ("random", [
    NGXHttpUpsConf .| NGXConfNoArgs .| NGXConfTake12;
    NGXStreamUpsConf .| NGXConfNoArgs .| NGXConfTake12]);
  ("random_index", [
    NGXHttpLocConf .| NGXConfFlag]);
  ("read_ahead", [
    NGXHttpMainConf .| NGXHttpSrvConf .| NGXHttpLocConf .| NGXConfTake1]);
  ("real_ip_header", [
    NGXHttpMainConf .| NGXHttpSrvConf .| NGXHttpLocConf .| NGXConfTake1])].

(** Lines 802-951: from [real_ip_recursive] to [server_tokens]. *)
Definition directives_6 : list (string * list Z) := [
  ("real_ip_recursive", [
    NGXHttpMainConf .| NGXHttpSrvConf .| NGXHttpLocConf .| NGXConfFlag]);
  ("recursive_error_pages", [
    NGXHttpMainConf .| NGXHttpSrvConf .| NGXHttpLocConf .| NGXConfFlag]);
  ("referer_hash_bucket_size", [
    NGXHttpSrvConf .| NGXHttpLocConf .| NGXConfTake1]);
  ("referer_hash_max_size", [
    NGXHttpSrvConf .| NGXHttpLocConf .| NGXConfTake1]);
  ("request_pool_size", [
    NGXHttpMainConf .| NGXHttpSrvConf .| NGXConfTake1]);
  ("reset_timedout_connection", [
    NGXHttpMainConf .| NGXHttpSrvConf .| NGXHttpLocConf .| NGXConfFlag]);
  ("resolver", [
    NGXHttpMainConf .| NGXHttpSrvConf .| NGXHttpLocConf .| NGXConf1More;
    NGXMailMainConf .| NGXMailSrvConf .| NGXConf1More;
    NGXStreamMainConf .| NGXStreamSrvConf .| NGXConf1More]);
  ("resolver_timeout", [
    NGXHttpMainConf .| NGXHttpSrvConf .| NGXHttpLocConf .| NGXConfTake1;
    NGXMailMainConf .| NGXMailSrvConf .| NGXConfTake1;
    NGXStreamMainConf .| NGXStreamSrvConf .| NGXConfTake1]);
  ("return", [
    NGXHttpSrvConf .| NGXHttpSifConf .| NGXHttpLocConf .| NGXHttpLifConf .| NGXConfTake12;
    NGXStreamSrvConf .| NGXConfTake1]);
  ("rewrite", [
    NGXHttpSrvConf .| NGXHttpSifConf .| NGXHttpLocConf .| NGXHttpLifConf .| NGXConfTake23]);
  ("rewrite_log", [
    NGXHttpMainConf .| NGXHttpSrvConf .| NGXHttpSifConf .| NGXHttpLocConf .| NGXHttpLifConf .| NGXConfFlag]);
  ("root", [
    NGXHttpMainConf .| NGXHttpSrvConf .| NGXHttpLocConf .| NGXHttpLifConf .| NGXConfTake1]);
  ("satisfy", [
    NGXHttpMainConf .| NGXHttpSrvConf .| NGXHttpLocConf .| NGXConfTake1]);
  ("scgi_bind", [
    NGXHttpMainConf .| NGXHttpSrvConf .| NGXHttpLocConf .| NGXConfTake12]);
  ("scgi_buffer_size", [
    NGXHttpMainConf .| NGXHttpSrvConf .| NGXHttpLocConf .| NGXConfTake1]);
  ("scgi_buffering", [
    NGXHttpMainConf .| NGXHttpSrvConf .| NGXHttpLocConf .| NGXConfFlag]);
  ("scgi_buffers", [
    NGXHttpMainConf .| NGXHttpSrvConf .| NGXHttpLocConf .| NGXConfTake2]);
  ("scgi_busy_buffers_size", [
    NGXHttpMainConf .| NGXHttpSrvConf .| NGXHttpLocConf .| NGXConfTake1]);
  ("scgi_cache", [
    NGXHttpMainConf .| NGXHttpSrvConf .| NGXHttpLocConf .| NGXConfTake1]);
  ("scgi_cache_background_update", [
    NGXHttpMainConf .| NGXHttpSrvConf .| NGXHttpLocConf .| NGXConfFlag]);
  ("scgi_cache_bypass", [
    NGXHttpMainConf .| NGXHttpSrvConf .| NGXHttpLocConf .| NGXConf1More]);
  ("scgi_cache_key", [
    NGXHttpMainConf .| NGXHttpSrvConf .| NGXHttpLocConf .| NGXConfTake1]);
  ("scgi_cache_lock", [
    NGXHttpMainConf .| NGXHttpSrvConf .| NGXHttpLocConf .| NGXConfFlag]);
  ("scgi_cache_lock_age", [
    NGXHttpMainConf .| NGXHttpSrvConf .| NGXHttpLocConf .| NGXConfTake1]);
  ("scgi_cache_lock_timeout", [
    NGXHttpMainConf .| NGXHttpSrvConf .| NGXHttpLocConf .| NGXConfTake1]);
  ("scgi_cache_max_range_offset", [
    NGXHttpMainConf .| NGXHttpSrvConf .| NGXHttpLocConf .| NGXConfTake1]);
  ("scgi_cache_methods", [
    NGXHttpMainConf .| NGXHttpSrvConf .| NGXHttpLocConf .| NGXConf1More]);
  ("scgi_cache_min_uses", [
    NGXHttpMainConf .| NGXHttpSrvConf .| NGXHttpLocConf .| NGXConfTake1]);
  ("scgi_cache_path", [
    NGXHttpMainConf .| NGXConf2More]);
  ("scgi_cache_revalidate", [
    NGXHttpMainConf .| NGXHttpSrvConf .| NGXHttpLocConf .| NGXConfFlag]);
  ("scgi_cache_use_stale", [
    NGXHttpMainConf .| NGXHttpSrvConf .| NGXHttpLocConf .| NGXConf1More]);
  ("scgi_cache_valid", [
    NGXHttpMainConf .| NGXHttpSrvConf .| NGXHttpLocConf .| NGXConf1More]);
  ("scgi_connect_timeout", [
    NGXHttpMainConf .| NGXHttpSrvConf .| NGXHttpLocConf .| NGXConfTake1]);
  ("scgi_force_ranges", [
    NGXHttpMainConf .| NGXHttpSrvConf .| NGXHttpLocConf .| NGXConfFlag]);
  ("scgi_hide_header", [
    NGXHttpMainConf .| NGXHttpSrvConf .| NGXHttpLocConf .| NGXConfTake1]);
  ("scgi_ignore_client_abort", [
    NGXHttpMainConf .| NGXHttpSrvConf .| NGXHttpLocConf .| NGXConfFlag]);
  ("scgi_ignore_headers", [
    NGXHttpMainConf .| NGXHttpSrvConf .| NGXHttpLocConf .| NGXConf1More]);
  ("scgi_intercept_errors", [
    NGXHttpMainConf .| NGXHttpSrvConf .| NGXHttpLocConf .| NGXConfFlag]);
  ("scgi_limit_rate", [
    NGXHttpMainConf .| NGXHttpSrvConf .| NGXHttpLocConf .| NGXConfTake1]);
  ("scgi_max_temp_file_size", [
    NGXHttpMainConf .| NGXHttpSrvConf .| NGXHttpLocConf .| NGXConfTake1]);
  ("scgi_next_upstream", [
    NGXHttpMainConf .| NGXHttpSrvConf .| NGXHttpLocConf .| NGXConf1More]);
  ("scgi_next_upstream_timeout", [
    NGXHttpMainConf .| NGXHttpSrvConf .| NGXHttpLocConf .| NGXConfTake1]);
  ("scgi_next_upstream_tries", [
    NGXHttpMainConf .| NGXHttpSrvConf .| NGXHttpLocConf .| NGXConfTake1]);
  ("scgi_no_cache", [
    NGXHttpMainConf .| NGXHttpSrvConf .| NGXHttpLocConf .| NGXConf1More]);
  ("scgi_param", [
    NGXHttpMainConf .| NGXHttpSrvConf .| NGXHttpLocConf .| NGXConfTake23]);
  ("scgi_pass", [
    NGXHttpLocConf .| NGXHttpLifConf .| NGXConfTake1]);
  ("scgi_pass_header", [
    NGXHttpMainConf .| NGXHttpSrvConf .| NGXHttpLocConf .| NGXConfTake1]);
  ("scgi_pass_request_body", [
    NGXHttpMainConf .| NGXHttpSrvConf .| NGXHttpLocConf .| NGXConfFlag]);
  ("scgi_pass_request_headers", [
    NGXHttpMainConf .| NGXHttpSrvConf .| NGXHttpLocConf .| NGXConfFlag]);
  ("scgi_read_timeout", [
    NGXHttpMainConf .| NGXHttpSrvConf .| NGXHttpLocConf .| NGXConfTake1]);
  ("scgi_request_buffering", [
    NGXHttpMainConf .| NGXHttpSrvConf .| NGXHttpLocConf .| NGXConfFlag]);
  ("scgi_send_timeout", [
    NGXHttpMainConf .| NGXHttpSrvConf .| NGXHttpLocConf .| NGXConfTake1]);
  ("scgi_socket_keepalive", [
    NGXHttpMainConf .| NGXHttpSrvConf .| NGXHttpLocConf .| NGXConfFlag]);
  ("scgi_store", [
    NGXHttpMainConf .| NGXHttpSrvConf .| NGXHttpLocConf .| NGXConfTake1]);
  ("scgi_store_access", [
    NGXHttpMainConf .| NGXHttpSrvConf .| NGXHttpLocConf .| NGXConfTake123]);
  ("scgi_temp_file_write_size", [
    NGXHttpMainConf .| NGXHttpSrvConf .| NGXHttpLocConf .| NGXConfTake1]);
  ("scgi_temp_path", [
    NGXHttpMainConf .| NGXHttpSrvConf .| NGXHttpLocConf .| NGXConfTake1234]);
  ("secure_link", [
    NGXHttpMainConf .| NGXHttpSrvConf .| NGXHttpLocConf .| NGXConfTake1]);
  ("secure_link_md5", [
    NGXHttpMainConf .| NGXHttpSrvConf .| NGXHttpLocConf .| NGXConfTake1]);
  ("secure_link_secret", [
    NGXHttpMainConf .| NGXHttpSrvConf .| NGXHttpLocConf .| NGXConfTake1]);
  ("send_lowat", [
    NGXHttpMainConf .| NGXHttpSrvConf .| NGXHttpLocConf .| NGXConfTake1]);
  ("send_timeout", [
    NGXHttpMainConf .| NGXHttpSrvConf .| NGXHttpLocConf .| NGXConfTake1]);
  ("sendfile", [
    NGXHttpMainConf .| NGXHttpSrvConf .| NGXHttpLocConf .| NGXHttpLifConf .| NGXConfFlag]);
  ("sendfile_max_chunk", [
    NGXHttpMainConf .| NGXHttpSrvConf .| NGXHttpLocConf .| NGXConfTake1]);
  ("server", [
    NGXHttpMainConf .| NGXConfBlock .| NGXConfNoArgs;
    NGXHttpUpsConf .| NGXConf1More;
    NGXMailMainConf .| NGXConfBlock .| NGXConfNoArgs;
    NGXStreamMainConf .| NGXConfBlock .| NGXConfNoArgs;
    NGXStreamUpsConf .| NGXConf1More]);
  ("server_name", [
    NGXHttpSrvConf .| NGXConf1More;
    NGXMailMainConf .| NGXMailSrvConf .| NGXConfTake1]);
  ("server_name_in_redirect", [
    NGXHttpMainConf .| NGXHttpSrvConf .| NGXHttpLocConf .| NGXConfFlag]);
  ("server_names_hash_bucket_size", [
    NGXHttpMainConf .| NGXConfTake1]);
  ("server_names_hash_max_size", [
    NGXHttpMainConf .| NGXConfTake1]);
  ("server_tokens", [
    NGXHttpMainConf .| NGXHttpSrvConf .| NGXHttpLocConf .| NGXConfTake1])].

(** Lines 952-1101: from [set] to [timeout]. *)
Definition directives_7 : list (string * list Z) := [
  ("set", [
    NGXHttpSrvConf .| NGXHttpSifConf .| NGXHttpLocConf .| NGXHttpLifConf .| NGXConfTake2]);
  ("set_real_ip_from", [
    NGXHttpMainConf .| NGXHttpSrvConf .| NGXHttpLocConf .| NGXConfTake1;
    NGXStreamMainConf .| NGXStreamSrvConf .| NGXConfTake1]);
  ("slice", [
    NGXHttpMainConf .| NGXHttpSrvConf .| NGXHttpLocConf .| NGXConfTake1]);
  ("smtp_auth", [
    NGXMailMainConf .| NGXMailSrvConf .| NGXConf1More]);
  ("smtp_capabilities", [
    NGXMailMainConf .| NGXMailSrvConf .| NGXConf1More]);
  ("smtp_client_buffer", [
    NGXMailMainConf .| NGXMailSrvConf .| NGXConfTake1]);
  ("smtp_greeting_delay", [
    NGXMailMainConf .| NGXMailSrvConf .| NGXConfTake1]);
  ("source_charset", [
    NGXHttpMainConf .| NGXHttpSrvConf .| NGXHttpLocConf .| NGXHttpLifConf .| NGXConfTake1]);
  ("spdy_chunk_size", [
    NGXHttpMainConf .| NGXHttpSrvConf .| NGXHttpLocConf .| NGXConfTake1]);
  ("spdy_headers_comp", [
    NGXHttpMainConf .| NGXHttpSrvConf .| NGXConfTake1]);
  ("split_clients", [
    NGXHttpMainConf .| NGXConfBlock .| NGXConfTake2;
    NGXStreamMainConf .| NGXConfBlock .| NGXConfTake2]);
  ("ssi", [
    NGXHttpMainConf .| NGXHttpSrvConf .| NGXHttpLocConf .| NGXHttpLifConf .| NGXConfFlag]);
  ("ssi_last_modified", [
    NGXHttpMainConf .| NGXHttpSrvConf .| NGXHttpLocConf .| NGXConfFlag]);
  ("ssi_min_file_chunk", [
    NGXHttpMainConf .| NGXHttpSrvConf .| NGXHttpLocConf .| NGXConfTake1]);
  ("ssi_silent_errors", [
    NGXHttpMainConf .| NGXHttpSrvConf .| NGXHttpLocConf .| NGXConfFlag]);
  ("ssi_types", [
    NGXHttpMainConf .| NGXHttpSrvConf .| NGXHttpLocConf .| NGXConf1More]);
  ("ssi_value_length", [
    NGXHttpMainConf .| NGXHttpSrvConf .| NGXHttpLocConf .| NGXConfTake1]);
  ("ssl", [
    NGXHttpMainConf .| NGXHttpSrvConf .| NGXConfFlag;
    NGXMailMainConf .| NGXMailSrvConf .| NGXConfFlag]);
  ("ssl_buffer_size", [
    NGXHttpMainConf .| NGXHttpSrvConf .| NGXConfTake1]);
  ("ssl_certificate", [
    NGXHttpMainConf .| NGXHttpSrvConf .| NGXConfTake1;
    NGXMailMainConf .| NGXMailSrvConf .| NGXConfTake1;
    NGXStreamMainConf .| NGXStreamSrvConf .| NGXConfTake1]);
  ("ssl_certificate_key", [
    NGXHttpMainConf .| NGXHttpSrvConf .| NGXConfTake1;
    NGXMailMainConf .| NGXMailSrvConf .| NGXConfTake1;
    NGXStreamMainConf .| NGXStreamSrvConf .| NGXConfTake1]);
  ("ssl_ciphers", [
    NGXHttpMainConf .| NGXHttpSrvConf .| NGXConfTake1;
    NGXMailMainConf .| NGXMailSrvConf .| NGXConfTake1;
    NGXStreamMainConf .| NGXStreamSrvConf .| NGXConfTake1]);
  ("ssl_client_certificate", [
    NGXHttpMainConf .| NGXHttpSrvConf .| NGXConfTake1;
    NGXMailMainConf .| NGXMailSrvConf .| NGXConfTake1;
    NGXStreamMainConf .| NGXStreamSrvConf .| NGXConfTake1]);
  ("ssl_crl", [
    NGXHttpMainConf .| NGXHttpSrvConf .| NGXConfTake1;
    NGXMailMainConf .| NGXMailSrvConf .| NGXConfTake1;
    NGXStreamMainConf .| NGXStreamSrvConf .| NGXConfTake1]);
  ("ssl_dhparam", [
    NGXHttpMainConf .| NGXHttpSrvConf .| NGXConfTake1;
    NGXMailMainConf .| NGXMailSrvConf .| NGXConfTake1;
    NGXStreamMainConf .| NGXStreamSrvConf .| NGXConfTake1]);
  ("ssl_early_data", [
    NGXHttpMainConf .| NGXHttpSrvConf .| NGXConfFlag]);
  ("ssl_ecdh_curve", [
    NGXHttpMainConf .| NGXHttpSrvConf .| NGXConfTake1;
    NGXMailMainConf .| NGXMailSrvConf .| NGXConfTake1;
    NGXStreamMainConf .| NGXStreamSrvConf .| NGXConfTake1]);
  ("ssl_engine", [
    NGXMainConf .| NGXDirectConf .| NGXConfTake1]);
  ("ssl_handshake_timeout", [
    NGXStreamMainConf .| NGXStreamSrvConf .| NGXConfTake1]);
  ("ssl_password_file", [
    NGXHttpMainConf .| NGXHttpSrvConf .| NGXConfTake1;
    NGXMailMainConf .| NGXMailSrvConf .| NGXConfTake1;
    NGXStreamMainConf .| NGXStreamSrvConf .| NGXConfTake1]);
  ("ssl_prefer_server_ciphers", [
    NGXHttpMainConf .| NGXHttpSrvConf .| NGXConfFlag;
    NGXMailMainConf .| NGXMailSrvConf .| NGXConfFlag;
    NGXStreamMainConf .| NGXStreamSrvConf .| NGXConfFlag]);
  ("ssl_preread", [
    NGXStreamMainConf .| NGXStreamSrvConf .| NGXConfFlag]);
  ("ssl_protocols", [
    NGXHttpMainConf .| NGXHttpSrvConf .| NGXConf1More;
    NGXMailMainConf .| NGXMailSrvConf .| NGXConf1More;
    NGXStreamMainConf .| NGXStreamSrvConf .| NGXConf1More]);
  ("ssl_session_cache", [
    NGXHttpMainConf .| NGXHttpSrvConf .| NGXConfTake12;
    NGXMailMainConf .| NGXMailSrvConf .| NGXConfTake12;
    NGXStreamMainConf .| NGXStreamSrvConf .| NGXConfTake12]);
  ("ssl_session_ticket_key", [
    NGXHttpMainConf .| NGXHttpSrvConf .| NGXConfTake1;
    NGXMailMainConf .| NGXMailSrvConf .| NGXConfTake1;
    NGXStreamMainConf .| NGXStreamSrvConf .| NGXConfTake1]);
  ("ssl_session_tickets", [
    NGXHttpMainConf .| NGXHttpSrvConf .| NGXConfFlag;
    NGXMailMainConf .| NGXMailSrvConf .| NGXConfFlag;
    NGXStreamMainConf .| NGXStreamSrvConf .| NGXConfFlag]);
  ("ssl_session_timeout", [
    NGXHttpMainConf .| NGXHttpSrvConf .| NGXConfTake1;
    NGXMailMainConf .| NGXMailSrvConf .| NGXConfTake1;
    NGXStreamMainConf .| NGXStreamSrvConf .| NGXConfTake1]);
  ("ssl_stapling", [
    NGXHttpMainConf .| NGXHttpSrvConf .| NGXConfFlag]);
  ("ssl_stapling_file", [
    NGXHttpMainConf .| NGXHttpSrvConf .| NGXConfTake1]);
  ("ssl_stapling_responder", [
    NGXHttpMainConf .| NGXHttpSrvConf .| NGXConfTake1]);
  ("ssl_stapling_verify", [
    NGXHttpMainConf .| NGXHttpSrvConf .| NGXConfFlag]);
  ("ssl_trusted_certificate", [
    NGXHttpMainConf .| NGXHttpSrvConf .| NGXConfTake1;
    NGXMailMainConf .| NGXMailSrvConf .| NGXConfTake1;
    NGXStreamMainConf .| NGXStreamSrvConf .| NGXConfTake1]);
  ("ssl_verify_client", [
    NGXHttpMainConf .| NGXHttpSrvConf .| NGXConfTake1;
    NGXMailMainConf .| NGXMailSrvConf .| NGXConfTake1;
    NGXStreamMainConf .| NGXStreamSrvConf .| NGXConfTake1]);
  ("ssl_verify_depth", [
    NGXHttpMainConf .| NGXHttpSrvConf .| NGXConfTake1;
    NGXMailMainConf .| NGXMailSrvConf .| NGXConfTake1;
    NGXStreamMainConf .| NGXStreamSrvConf .| NGXConfTake1]);
  ("starttls", [
    NGXMailMainConf .| NGXMailSrvConf .| NGXConfTake1]);
  ("stream", [
    NGXMainConf .| NGXConfBlock .| NGXConfNoArgs]);
  ("stub_status", [
    NGXHttpSrvConf .| NGXHttpLocConf .| NGXConfNoArgs .| NGXConfTake1]);
  ("sub_filter", [
    NGXHttpMainConf .| NGXHttpSrvConf .| NGXHttpLocConf .| NGXConfTake2]);
  ("sub_filter_last_modified", [
    NGXHttpMainConf .| NGXHttpSrvConf .| NGXHttpLocConf .| NGXConfFlag]);
  ("sub_filter_once", [
    NGXHttpMainConf .| NGXHttpSrvConf .| NGXHttpLocConf .| NGXConfFlag]);
  ("sub_filter_types", [
    NGXHttpMainConf .| NGXHttpSrvConf .| NGXHttpLocConf .| NGXConf1More]);
  ("subrequest_output_buffer_size", [
    NGXHttpMainConf .| NGXHttpSrvConf .| NGXHttpLocConf .| NGXConfTake1]);
  ("tcp_nodelay", [
    NGXHttpMainConf .| NGXHttpSrvConf .| NGXHttpLocConf .| NGXConfFlag;
    NGXStreamMainConf .| NGXStreamSrvConf .| NGXConfFlag]);
  ("tcp_nopush", [
    NGXHttpMainConf .| NGXHttpSrvConf .| NGXHttpLocConf .| NGXConfFlag]);
  ("thread_pool", [
    NGXMainConf .| NGXDirectConf .| NGXConfTake23]);
  ("timeout", [
    NGXMailMainConf .| NGXMailSrvConf .| NGXConfTake1])].

(** Lines 1102-1250: from [timer_resolution] to [uwsgi_store_access]. *)
Definition directives_8 : list (string * list Z) := [
  ("timer_resolution", [
    NGXMainConf .| NGXDirectConf .| NGXConfTake1]);
  ("try_files", [
    NGXHttpSrvConf .| NGXHttpLocConf .| NGXConf2More]);
  ("types", [
    NGXHttpMainConf .| NGXHttpSrvConf .| NGXHttpLocConf .| NGXConfBlock .| NGXConfNoArgs]);
  ("types_hash_bucket_size", [
    NGXHttpMainConf .| NGXHttpSrvConf .| NGXHttpLocConf .| NGXConfTake1]);
  ("types_hash_max_size", [
    NGXHttpMainConf .| NGXHttpSrvConf .| NGXHttpLocConf .| NGXConfTake1]);
  ("underscores_in_headers", [
    NGXHttpMainConf .| NGXHttpSrvConf .| NGXConfFlag]);
  ("uninitialized_variable_warn", [
    NGXHttpMainConf .| NGXHttpSrvConf .| NGXHttpSifConf .| NGXHttpLocConf .| NGXHttpLifConf .| NGXConfFlag]);
  ("upstream", [
    NGXHttpMainConf .| NGXConfBlock .| NGXConfTake1;
    NGXStreamMainConf .| NGXConfBlock .| NGXConfTake1]);
  ("use", [
    NGXEventConf .| NGXConfTake1]);
  ("user", [
    NGXMainConf .| NGXDirectConf .| NGXConfTake12]);
  ("userid", [
    NGXHttpMainConf .| NGXHttpSrvConf .| NGXHttpLocConf .| NGXConfTake1]);
  ("userid_domain", [
    NGXHttpMainConf .| NGXHttpSrvConf .| NGXHttpLocConf .| NGXConfTake1]);
  ("userid_expires", [
    NGXHttpMainConf .| NGXHttpSrvConf .| NGXHttpLocConf .| NGXConfTake1]);
  ("userid_mark", [
    NGXHttpMainConf .| NGXHttpSrvConf .| NGXHttpLocConf .| NGXConfTake1]);
  ("userid_name", [
    NGXHttpMainConf .| NGXHttpSrvConf .| NGXHttpLocConf .| NGXConfTake1]);
  ("userid_p3p", [
    NGXHttpMainConf .| NGXHttpSrvConf .| NGXHttpLocConf .| NGXConfTake1]);
  ("userid_path", [
    NGXHttpMainConf .| NGXHttpSrvConf .| NGXHttpLocConf .| NGXConfTake1]);
  ("userid_service", [
    NGXHttpMainConf .| NGXHttpSrvConf .| NGXHttpLocConf .| NGXConfTake1]);
  ("uwsgi_bind", [
    NGXHttpMainConf .| NGXHttpSrvConf .| NGXHttpLocConf .| NGXConfTake12]);
  ("uwsgi_buffer_size", [
    NGXHttpMainConf .| NGXHttpSrvConf .| NGXHttpLocConf .| NGXConfTake1]);
  ("uwsgi_buffering", [
    NGXHttpMainConf .| NGXHttpSrvConf .| NGXHttpLocConf .| NGXConfFlag]);
  ("uwsgi_buffers", [
    NGXHttpMainConf .| NGXHttpSrvConf .| NGXHttpLocConf .| NGXConfTake2]);
  ("uwsgi_busy_buffers_size", [
    NGXHttpMainConf .| NGXHttpSrvConf .| NGXHttpLocConf .| NGXConfTake1]);
  ("uwsgi_cache", [
    NGXHttpMainConf .| NGXHttpSrvConf .| NGXHttpLocConf .| NGXConfTake1]);
  ("uwsgi_cache_background_update", [
    NGXHttpMainConf .| NGXHttpSrvConf .| NGXHttpLocConf .| NGXConfTake1]);
  ("uwsgi_cache_bypass", [
    NGXHttpMainConf .| NGXHttpSrvConf .| NGXHttpLocConf .| NGXConf1More]);
  ("uwsgi_cache_key", [
    NGXHttpMainConf .| NGXHttpSrvConf .| NGXHttpLocConf .| NGXConfTake1]);
  ("uwsgi_cache_lock", [
    NGXHttpMainConf .| NGXHttpSrvConf .| NGXHttpLocConf .| NGXConfFlag]);
  ("uwsgi_cache_lock_age", [
    NGXHttpMainConf .| NGXHttpSrvConf .| NGXHttpLocConf .| NGXConfTake1]);
  ("uwsgi_cache_lock_timeout", [
    NGXHttpMainConf .| NGXHttpSrvConf .| NGXHttpLocConf .| NGXConfTake1]);
  ("uwsgi_cache_max_range_offset", [
    NGXHttpMainConf .| NGXHttpSrvConf .| NGXHttpLocConf .| NGXConfTake1]);
  ("uwsgi_cache_methods", [
    NGXHttpMainConf .| NGXHttpSrvConf .| NGXHttpLocConf .| NGXConf1More]);
  ("uwsgi_cache_min_uses", [
    NGXHttpMainConf .| NGXHttpSrvConf .| NGXHttpLocConf .| NGXConfTake1]);
  ("uwsgi_cache_path", [
    NGXHttpMainConf .| NGXConf2More]);
  ("uwsgi_cache_revalidate", [
    NGXHttpMainConf .| NGXHttpSrvConf .| NGXHttpLocConf .| NGXConfFlag]);
  ("uwsgi_cache_use_stale", [
    NGXHttpMainConf .| NGXHttpSrvConf .| NGXHttpLocConf .| NGXConf1More]);
  ("uwsgi_cache_valid", [
    NGXHttpMainConf .| NGXHttpSrvConf .| NGXHttpLocConf .| NGXConf1More]);
  ("uwsgi_connect_timeout", [
    NGXHttpMainConf .| NGXHttpSrvConf .| NGXHttpLocConf .| NGXConfTake1]);
  ("uwsgi_force_ranges", [
    NGXHttpMainConf .| NGXHttpSrvConf .| NGXHttpLocConf .| NGXConfFlag]);
  ("uwsgi_hide_header", [
    NGXHttpMainConf .| NGXHttpSrvConf .| NGXHttpLocConf .| NGXConfTake1]);
  ("uwsgi_ignore_client_abort", [
    NGXHttpMainConf .| NGXHttpSrvConf .| NGXHttpLocConf .| NGXConfFlag]);
  ("uwsgi_ignore_headers", [
    NGXHttpMainConf .| NGXHttpSrvConf .| NGXHttpLocConf .| NGXConf1More]);
  ("uwsgi_intercept_errors", [
    NGXHttpMainConf .| NGXHttpSrvConf .| NGXHttpLocConf .| NGXConfFlag]);
  ("uwsgi_limit_rate", [
    NGXHttpMainConf .| NGXHttpSrvConf .| NGXHttpLocConf .| NGXConfTake1]);
  ("uwsgi_max_temp_file_size", [
    NGXHttpMainConf .| NGXHttpSrvConf .| NGXHttpLocConf .| NGXConfTake1]);
  ("uwsgi_modifier1", [
    NGXHttpMainConf .| NGXHttpSrvConf .| NGXHttpLocConf .| NGXConfTake1]);
  ("uwsgi_modifier2", [
    NGXHttpMainConf .| NGXHttpSrvConf .| NGXHttpLocConf .| NGXConfTake1]);
  ("uwsgi_next_upstream", [
    NGXHttpMainConf .| NGXHttpSrvConf .| NGXHttpLocConf .| NGXConf1More]);
  ("uwsgi_next_upstream_timeout", [
    NGXHttpMainConf .| NGXHttpSrvConf .| NGXHttpLocConf .| NGXConfTake1]);
  ("uwsgi_next_upstream_tries", [
    NGXHttpMainConf .| NGXHttpSrvConf .| NGXHttpLocConf .| NGXConfTake1]);
  ("uwsgi_no_cache", [
    NGXHttpMainConf .| NGXHttpSrvConf .| NGXHttpLocConf .| NGXConf1More]);
  ("uwsgi_param", [
    NGXHttpMainConf .| NGXHttpSrvConf .| NGXHttpLocConf .| NGXConfTake23]);
  ("uwsgi_pass", [
    NGXHttpLocConf .| NGXHttpLifConf .| NGXConfTake1]);
  ("uwsgi_pass_header", [
    NGXHttpMainConf .| NGXHttpSrvConf .| NGXHttpLocConf .| NGXConfTake1]);
  ("uwsgi_pass_request_body", [
    NGXHttpMainConf .| NGXHttpSrvConf .| NGXHttpLocConf .| NGXConfFlag]);
  ("uwsgi_pass_request_headers", [
    NGXHttpMainConf .| NGXHttpSrvConf .| NGXHttpLocConf .| NGXConfFlag]);
  ("uwsgi_read_timeout", [
    NGXHttpMainConf .| NGXHttpSrvConf .| NGXHttpLocConf .| NGXConfTake1]);
  ("uwsgi_request_buffering", [
    NGXHttpMainConf .| NGXHttpSrvConf .| NGXHttpLocConf .| NGXConfFlag]);
  ("uwsgi_send_timeout", [
    NGXHttpMainConf .| NGXHttpSrvConf .| NGXHttpLocConf .| NGXConfTake1]);
  ("uwsgi_socket_keepalive", [
    NGXHttpMainConf .| NGXHttpSrvConf .| NGXHttpLocConf .| NGXConfFlag]);
  ("uwsgi_ssl_certificate", [
    NGXHttpMainConf .| NGXHttpSrvConf .| NGXHttpLocConf .| NGXConfTake1]);
  ("uwsgi_ssl_certificate_key", [
    NGXHttpMainConf .| NGXHttpSrvConf .| NGXHttpLocConf .| NGXConfTake1]);
  ("uwsgi_ssl_ciphers", [
    NGXHttpMainConf .| NGXHttpSrvConf .| NGXHttpLocConf .| NGXConfTake1]);
  ("uwsgi_ssl_crl", [
    NGXHttpMainConf .| NGXHttpSrvConf .| NGXHttpLocConf .| NGXConfTake1]);
  ("uwsgi_ssl_name", [
    NGXHttpMainConf .| NGXHttpSrvConf .| NGXHttpLocConf .| NGXConfTake1]);
  ("uwsgi_ssl_password_file", [
    NGXHttpMainConf .| NGXHttpSrvConf .| NGXHttpLocConf .| NGXConfTake1]);
  ("uwsgi_ssl_protocols", [
    NGXHttpMainConf .| NGXHttpSrvConf .| NGXHttpLocConf .| NGXConf1More]);
  ("uwsgi_ssl_server_name", [
    NGXHttpMainConf .| NGXHttpSrvConf .| NGXHttpLocConf .| NGXConfFlag]);
  ("uwsgi_ssl_session_reuse", [
    NGXHttpMainConf .| NGXHttpSrvConf .| NGXHttpLocConf .| NGXConfFlag]);
  ("uwsgi_ssl_trusted_certificate", [
    NGXHttpMainConf .| NGXHttpSrvConf .| NGXHttpLocConf .| NGXConfTake1]);
  ("uwsgi_ssl_verify", [
    NGXHttpMainConf .| NGXHttpSrvConf .| NGXHttpLocConf .| NGXConfFlag]);
  ("uwsgi_ssl_verify_depth", [
    NGXHttpMainConf .| NGXHttpSrvConf .| NGXHttpLocConf .| NGXConfTake1]);
  ("uwsgi_store", [
    NGXHttpMainConf .| NGXHttpSrvConf .| NGXHttpLocConf .| NGXConfTake1]);
  ("uwsgi_store_access", [
    NGXHttpMainConf .| NGXHttpSrvConf .| NGXHttpLocConf .| NGXConfTake123])].

(** Lines 1251-1400: from [uwsgi_temp_file_write_size] to [sticky]. *)
Definition directives_9 : list (string * list Z) := [
  ("uwsgi_temp_file_write_size", [
    NGXHttpMainConf .| NGXHttpSrvConf .| NGXHttpLocConf .| NGXConfTake1]);
  ("uwsgi_temp_path", [
    NGXHttpMainConf .| NGXHttpSrvConf .| NGXHttpLocConf .| NGXConfTake1234]);
  ("valid_referers", [
    NGXHttpSrvConf .| NGXHttpLocConf .| NGXConf1More]);
  ("variables_hash_bucket_size", [
    NGXHttpMainConf .| NGXConfTake1;
    NGXStreamMainConf .| NGXConfTake1]);
  ("variables_hash_max_size", [
    NGXHttpMainConf .| NGXConfTake1;
    NGXStreamMainConf .| NGXConfTake1]);
  ("worker_aio_requests", [
    NGXEventConf .| NGXConfTake1]);
  ("worker_connections", [
    NGXEventConf .| NGXConfTake1]);
  ("worker_cpu_affinity", [
    NGXMainConf .| NGXDirectConf .| NGXConf1More]);
  ("worker_priority", [
    NGXMainConf .| NGXDirectConf .| NGXConfTake1]);
  ("worker_processes", [
    NGXMainConf .| NGXDirectConf .| NGXConfTake1]);
  ("worker_rlimit_core", [
    NGXMainConf .| NGXDirectConf .| NGXConfTake1]);
  ("worker_rlimit_nofile", [
    NGXMainConf .| NGXDirectConf .| NGXConfTake1]);
  ("worker_shutdown_timeout", [
    NGXMainConf .| NGXDirectConf .| NGXConfTake1]);
  ("working_directory", [
    NGXMainConf .| NGXDirectConf .| NGXConfTake1]);
  ("xclient", [
    NGXMailMainConf .| NGXMailSrvConf .| NGXConfFlag]);
  ("xml_entities", [
    NGXHttpMainConf .| NGXHttpSrvConf .| NGXHttpLocConf .| NGXConfTake1]);
  ("xslt_last_modified", [
    NGXHttpMainConf .| NGXHttpSrvConf .| NGXHttpLocConf .| NGXConfFlag]);
  ("xslt_param", [
    NGXHttpMainConf .| NGXHttpSrvConf .| NGXHttpLocConf .| NGXConfTake2]);
  ("xslt_string_param", [
    NGXHttpMainConf .| NGXHttpSrvConf .| NGXHttpLocConf .| NGXConfTake2]);
  ("xslt_stylesheet", [
    NGXHttpLocConf .| NGXConf1More]);
  ("xslt_types", [
    NGXHttpMainConf .| NGXHttpSrvConf .| NGXHttpLocConf .| NGXConf1More]);
  ("zone", [
    NGXHttpUpsConf .| NGXConfTake12;
    NGXStreamUpsConf .| NGXConfTake12]);
  ("api", [
    NGXHttpLocConf .| NGXConfNoArgs .| NGXConfTake1]);
  ("auth_jwt", [
    NGXHttpMainConf .| NGXHttpSrvConf .| NGXHttpLocConf .| NGXConfTake12]);
  ("auth_jwt_claim_set", [
    NGXHttpMainConf .| NGXConf2More]);
  ("auth_jwt_header_set", [
    NGXHttpMainConf .| NGXConf2More]);
  ("auth_jwt_key_file", [
    NGXHttpMainConf .| NGXHttpSrvConf .| NGXHttpLocConf .| NGXConfTake1]);
  ("auth_jwt_key_request", [
    NGXHttpMainConf .| NGXHttpSrvConf .| NGXHttpLocConf .| NGXConfTake1]);
  ("auth_jwt_leeway", [
    NGXHttpMainConf .| NGXHttpSrvConf .| NGXHttpLocConf .| NGXConfTake1]);
  ("f4f", [
    NGXHttpLocConf .| NGXConfNoArgs]);
  ("f4f_buffer_size", [
    NGXHttpMainConf .| NGXHttpSrvConf .| NGXHttpLocConf .| NGXConfTake1]);
  ("fastcgi_cache_purge", [
    NGXHttpMainConf .| NGXHttpSrvConf .| NGXHttpLocConf .| NGXConf1More]);
  ("health_check", [
    NGXHttpLocConf .| NGXConfAny;
    NGXStreamSrvConf .| NGXConfAny]);
  ("health_check_timeout", [
    NGXStreamMainConf .| NGXStreamSrvConf .| NGXConfTake1]);
  ("hls", [
    NGXHttpLocConf .| NGXConfNoArgs]);
  ("hls_buffers", [
    NGXHttpMainConf .| NGXHttpSrvConf .| NGXHttpLocConf .| NGXConfTake2]);
  ("hls_forward_args", [
    NGXHttpMainConf .| NGXHttpSrvConf .| NGXHttpLocConf .| NGXConfFlag]);
  ("hls_fragment", [
    NGXHttpMainConf .| NGXHttpSrvConf .| NGXHttpLocConf .| NGXConfTake1]);
  ("hls_mp4_buffer_size", [
    NGXHttpMainConf .| NGXHttpSrvConf .| NGXHttpLocConf .| NGXConfTake1]);
  ("hls_mp4_max_buffer_size", [
    NGXHttpMainConf .| NGXHttpSrvConf .| NGXHttpLocConf .| NGXConfTake1]);
  ("js_access", [
    NGXStreamMainConf .| NGXStreamSrvConf .| NGXConfTake1]);
  ("js_content", [
    NGXHttpLocConf .| NGXHttpLmtConf .| NGXConfTake1]);
  ("js_filter", [
    NGXStreamMainConf .| NGXStreamSrvConf .| NGXConfTake1]);
  ("js_include", [
    NGXHttpMainConf .| NGXConfTake1;
    NGXStreamMainConf .| NGXConfTake1]);
  ("js_path", [
    NGXHttpMainConf .| NGXConfTake1]);
  ("js_preread", [
    NGXStreamMainConf .| NGXStreamSrvConf .| NGXConfTake1]);
  ("js_set", [
    NGXHttpMainConf .| NGXConfTake2;
    NGXStreamMainConf .| NGXConfTake2]);
  ("keyval", [
    NGXHttpMainConf .| NGXConfTake3;
    NGXStreamMainConf .| NGXConfTake3]);
  ("keyval_zone", [
    NGXHttpMainConf .| NGXConf1More;
    NGXStreamMainConf .| NGXConf1More]);
  ("least_time", [
    NGXHttpUpsConf .| NGXConfTake12;
    NGXStreamUpsConf .| NGXConfTake12]);
  ("limit_zone", [
    NGXHttpMainConf .| NGXConfTake3]);
  ("match", [
    NGXHttpMainConf .| NGXConfBlock .| NGXConfTake1;
    NGXStreamMainConf .| NGXConfBlock .| NGXConfTake1]);
  ("memcached_force_ranges", [
    NGXHttpMainConf .| NGXHttpSrvConf .| NGXHttpLocConf .| NGXConfFlag]);
  ("mp4_limit_rate", [
    NGXHttpMainConf .| NGXHttpSrvConf .| NGXHttpLocConf .| NGXConfTake1]);
  ("mp4_limit_rate_after", [
    NGXHttpMainConf .| NGXHttpSrvConf .| NGXHttpLocConf .| NGXConfTake1]);
  ("ntlm", [
    NGXHttpUpsConf .| NGXConfNoArgs]);
  ("proxy_cache_purge", [
    NGXHttpMainConf .| NGXHttpSrvConf .| NGXHttpLocConf .| NGXConf1More]);
  ("queue", [
    NGXHttpUpsConf .| NGXConfTake12]);
  ("scgi_cache_purge", [
    NGXHttpMainConf .| NGXHttpSrvConf .| NGXHttpLocConf .| NGXConf1More]);
  ("session_log", [
    NGXHttpMainConf .| NGXHttpSrvConf .| NGXHttpLocConf .| NGXConfTake1]);
  ("session_log_format", [
    NGXHttpMainConf .| NGXConf2More]);
  ("session_log_zone", [
    NGXHttpMainConf .| NGXConfTake23 .| NGXConfTake4 .| NGXConfTake5 .| NGXConfTake6]);
  ("state", [
    NGXHttpUpsConf .| NGXConfTake1;
    NGXStreamUpsConf .| NGXConfTake1]);
  ("status", [
    NGXHttpLocConf .| NGXConfNoArgs]);
  ("status_format", [
    NGXHttpMainConf .| NGXHttpSrvConf .| NGXHttpLocConf .| NGXConfTake12]);
  ("status_zone", [
    NGXHttpSrvConf .| NGXConfTake1;
    NGXStreamSrvConf .| NGXConfTake1;
    NGXHttpLocConf .| NGXConfTake1;
    NGXHttpLifConf .| NGXConfTake1]);
  ("sticky", [
    NGXHttpUpsConf .| NGXConf1More])].

(** Lines 1401-1446: from [sticky_cookie_insert] to [zone_sync_timeout]. *)
Definition directives_10 : list (string * list Z) := [
  ("sticky_cookie_insert", [
    NGXHttpUpsConf .| NGXConfTake1234]);
  ("upstream_conf", [
    NGXHttpLocConf .| NGXConfNoArgs]);
  ("uwsgi_cache_purge", [
    NGXHttpMainConf .| NGXHttpSrvConf .| NGXHttpLocConf .| NGXConf1More]);
  ("zone_sync", [
    NGXStreamSrvConf .| NGXConfNoArgs]);
  ("zone_sync_buffers", [
    NGXStreamMainConf .| NGXStreamSrvConf .| NGXConfTake2]);
  ("zone_sync_connect_retry_interval", [
    NGXStreamMainConf .| NGXStreamSrvConf .| NGXConfTake1]);
  ("zone_sync_connect_timeout", [
    NGXStreamMainConf .| NGXStreamSrvConf .| NGXConfTake1]);
  ("zone_sync_interval", [
    NGXStreamMainConf .| NGXStreamSrvConf .| NGXConfTake1]);
  ("zone_sync_recv_buffer_size", [
    NGXStreamMainConf .| NGXStreamSrvConf .| NGXConfTake1]);
  ("zone_sync_server", [
    NGXStreamSrvConf .| NGXConfTake12]);
  ("zone_sync_ssl", [
    NGXStreamMainConf .| NGXStreamSrvConf .| NGXConfFlag]);
  ("zone_sync_ssl_certificate", [
    NGXStreamMainConf .| NGXStreamSrvConf .| NGXConfTake1]);
  ("zone_sync_ssl_certificate_key", [
    NGXStreamMainConf .| NGXStreamSrvConf .| NGXConfTake1]);
  ("zone_sync_ssl_ciphers", [
    NGXStreamMainConf .| NGXStreamSrvConf .| NGXConfTake1]);
  ("zone_sync_ssl_crl", [
    NGXStreamMainConf .| NGXStreamSrvConf .| NGXConfTake1]);
  ("zone_sync_ssl_name", [
    NGXStreamMainConf .| NGXStreamSrvConf .| NGXConfTake1]);
  ("zone_sync_ssl_password_file", [
    NGXStreamMainConf .| NGXStreamSrvConf .| NGXConfTake1]);
  ("zone_sync_ssl_protocols", [
    NGXStreamMainConf .| NGXStreamSrvConf .| NGXConf1More]);
  ("zone_sync_ssl_server_name", [
    NGXStreamMainConf .| NGXStreamSrvConf .| NGXConfFlag]);
  ("zone_sync_ssl_trusted_certificate", [
    NGXStreamMainConf .| NGXStreamSrvConf .| NGXConfTake1]);
  ("zone_sync_ssl_verify", [
    NGXStreamMainConf .| NGXStreamSrvConf .| NGXConfFlag]);
  ("zone_sync_ssl_verify_depth", [
    NGXStreamMainConf .| NGXStreamSrvConf .| NGXConfTake1]);
  ("zone_sync_timeout", [
    NGXStreamMainConf .| NGXStreamSrvConf .| NGXConfTake1])].
Definition directivesList : list (string * list Z) :=
  directives_1 ++ directives_2 ++ directives_3 ++ directives_4 ++ directives_5 ++
  directives_6 ++ directives_7 ++ directives_8 ++ directives_9 ++ directives_10.

(** The value of the global variable [directives] at start-up. *)
Definition directives : gmap string (list Z) := list_to_map directivesList.

(** ** The table of contexts *)

Definition toCtx (s : list string) : string := Join s ",".

Definition contexts : gmap string Z := list_to_map [
  (toCtx [], NGXMainConf);
  (toCtx ["events"], NGXEventConf);
  (toCtx ["mail"], NGXMailMainConf);
  (toCtx ["mail"; "server"], NGXMailSrvConf);
  (toCtx ["stream"], NGXStreamMainConf);
  (toCtx ["stream"; "server"], NGXStreamSrvConf);
  (toCtx ["stream"; "upstream"], NGXStreamUpsConf);
  (toCtx ["http"], NGXHttpMainConf);
  (toCtx ["http"; "server"], NGXHttpSrvConf);
  (toCtx ["http"; "location"], NGXHttpLocConf);
  (toCtx ["http"; "upstream"], NGXHttpUpsConf);
  (toCtx ["http"; "server"; "if"], NGXHttpSifConf);
  (toCtx ["http"; "location"; "if"], NGXHttpLifConf);
  (toCtx ["http"; "location"; "limit_except"], NGXHttpLmtConf);
  (toCtx ["http"; "oauth2"], NGXHttpOauth2Conf)].

Definition inDirective (name : string) : bool := bool_decide (is_Some (directives !! name)).

Definition inContext (ctx : list string) : bool :=
  bool_decide (is_Some (contexts !! toCtx ctx)).
