(* ===== verification/Stmt.v ===== *)
(** * Statements (src/config_parse.go, type Stmt)

    The tree the parser builds and the printer prints.  [Blocks] is [None] for
    Go's nil slice and [Some []] for an empty block; the code tells them
    apart.  [Includes] is tested against nil only and is nil exactly when it is
    empty, so a list is enough; of [Args] only the length is ever tested. *)

From S2P Require Import Prelude GoStrings.

#[local] Open Scope Z_scope.

#[warnings="-register-all"]
Inductive Stmt : Type := mkStmt {
  Directive : string;
  Filename : string;
  Line : Z;
  Args : list string;
  Comment : string;
  Includes : list nat;
  Blocks : option (list Stmt);
}.

(** Induction over a statement with the hypothesis for the statements of its
    block. *)
Section StmtInd.
Context (P : Stmt → Prop).
Hypothesis HP : ∀ s, (∀ b, Blocks s = Some b → Forall P b) → P s.

Fixpoint Stmt_nested_ind (s : Stmt) : P s :=
  HP s
    match s as s0 return ∀ b, Blocks s0 = Some b → Forall P b with
    | mkStmt _ _ _ _ _ _ None => λ b H, match H with eq_refl => I end
    | mkStmt _ _ _ _ _ _ (Some l) => λ b H,
        match H in _ = o return match o with Some b => Forall P b | None => True end with
        | eq_refl =>
          (fix go (l : list Stmt) : Forall P l :=
             match l with
             | [] => Forall_nil_2 P
             | x :: l' => Forall_cons_2 P x l' (Stmt_nested_ind x) (go l')
             end) l
        end
    end.
End StmtInd.

Definition set_Directive (d : string) (s : Stmt) : Stmt :=
  mkStmt d (Filename s) (Line s) (Args s) (Comment s) (Includes s) (Blocks s).
Definition set_Args (a : list string) (s : Stmt) : Stmt :=
  mkStmt (Directive s) (Filename s) (Line s) a (Comment s) (Includes s) (Blocks s).
Definition set_Comment (c : string) (s : Stmt) : Stmt :=
  mkStmt (Directive s) (Filename s) (Line s) (Args s) c (Includes s) (Blocks s).
Definition set_Includes (i : list nat) (s : Stmt) : Stmt :=
  mkStmt (Directive s) (Filename s) (Line s) (Args s) (Comment s) i (Blocks s).
Definition set_Blocks (b : option (list Stmt)) (s : Stmt) : Stmt :=
  mkStmt (Directive s) (Filename s) (Line s) (Args s) (Comment s) (Includes s) b.

(** The number of statements in a tree. *)
Fixpoint stmtSize (s : Stmt) : nat :=
  S (match Blocks s with
     | None => 0
     | Some b => foldr (λ x n, stmtSize x + n)%nat 0%nat b
     end).
