(* ===== verification/Analyze.v ===== *)
(** * Directive analysis (src/config_analyze.go, lines 1467-1572)

    [analyze] checks one statement against the directive table.  The table is
    a global variable whose slices the function reverses in place, so the
    table is state: [analyze] takes it and gives it back. *)

From S2P Require Import Prelude GoStrings Lexer Directives Stmt.

#[local] Open Scope Z_scope.

(** What [fmt.Sprintf] gives for a format outside the part spelled out below. *)
Class Fmt := { sprintfSlow : string → string → string }.

Section Analyze.
Context `{U : Unicode} `{F : Fmt}.

(** ** [fmt.Sprintf] with one string operand

    The verbs that follow their percent sign directly are spelled out; what
    the library does with flags, widths, precisions and operand indices, which
    only a configuration text with a percent sign in a flag argument can bring
    into a format, is [sprintfSlow]. *)

Definition hexBytes (upper : bool) (s : string) : string :=
  let d v := if upper && (9 <? v) then zbyte (55 + v) else hexDigit v in
  (fix go s := match s with
     | "" => ""
     | String a s' => String (d (byteZ a / 16)) (String (d (byteZ a mod 16)) (go s'))
     end) s.

(** The text of one verb, the operand being already used or not. *)
Definition formatVerb (verb : Ascii.ascii) (arg : string) (used : bool) : string * bool :=
  let v := String verb "" in
  if (v =? "%")%string then ("%", used)
  else if used then ("%!" +:+ v +:+ "(MISSING)", true)
  else if (v =? "s")%string || (v =? "v")%string then (arg, true)
  else if (v =? "q")%string then (Quote arg, true)
  else if (v =? "x")%string then (hexBytes false arg, true)
  else if (v =? "X")%string then (hexBytes true arg, true)
  else if (v =? "T")%string then ("string", true)
  else ("%!" +:+ v +:+ "(string=" +:+ arg +:+ ")", true).

Fixpoint sprintfGo (fmt arg : string) (used : bool) : string :=
  match fmt with
  | "" => if used then "" else "%!(EXTRA string=" +:+ arg +:+ ")"
  | String a fmt' =>
    if byteZ a =? 37 then
      match fmt' with
      | "" => "%!(NOVERB)" +:+ (if used then "" else "%!(EXTRA string=" +:+ arg +:+ ")")
      | String verb fmt'' =>
        let '(t, used') := formatVerb verb arg used in
        t +:+ sprintfGo fmt'' arg used'
      end
    else String a (sprintfGo fmt' arg used)
  end.

(** Every percent sign is followed by an ASCII letter or a percent sign. *)
Fixpoint plainFormat (fmt : string) : bool :=
  match fmt with
  | "" => true
  | String a fmt' =>
    if byteZ a =? 37 then
      match fmt' with
      | "" => true
      | String v fmt'' =>
        let z := byteZ v in
        ((z =? 37) || ((65 <=? z) && (z <=? 90)) || ((97 <=? z) && (z <=? 122)))
        && plainFormat fmt''
      end
    else plainFormat fmt'
  end.

Definition Sprintf (fmt arg : string) : string :=
  if plainFormat fmt then sprintfGo fmt arg false else sprintfSlow fmt arg.

(** ** The checks *)

Definition hasBit (mask bits : Z) : bool := negb (Z.land mask bits =? 0).

(** [validFlag]. *)
Definition validFlag (s : string) : bool :=
  (ToLower s =? "on")%string || (ToLower s =? "off")%string.

(** The swap loop of [reverse] on a slice: two indices that move towards each
    other. *)
Fixpoint reverseLoop (fuel i j : nat) (a : list Z) : list Z :=
  match fuel with
  | O => a
  | S n =>
    if decide (i < j)%nat then
      match a !! i, a !! j with
      | Some x, Some y => reverseLoop n (S i) (pred j) (<[i := y]> (<[j := x]> a))
      | _, _ => a
      end
    else a
  end.

(** [reverse]: the slice after the call, which is also what it returns. *)
Definition reverse (a : list Z) : list Z :=
  reverseLoop (length a) 0 (pred (length a)) a.

(** The loop over the masks that looks for the context. *)
Fixpoint ctxLoop (masks : list Z) (ctxMask : Z) (pass : bool) : bool :=
  match masks with
  | [] => pass
  | m :: ms => if hasBit m ctxMask then true else ctxLoop ms ctxMask pass
  end.

(** The condition under which a mask accepts [n] arguments. *)
Definition acceptsArgs (mask : Z) (args : list string) : bool :=
  let n := Z.of_nat (length args) in
  (negb (Z.land (Z.shiftr mask n) 1 =? 0) && (n <=? 7)) ||
  (hasBit mask NGXConfFlag && (n =? 1) &&
     match args with a :: _ => validFlag a | [] => false end) ||
  (hasBit mask NGXConfAny && (0 <=? n)) ||
  (hasBit mask NGXConf1More && (1 <=? n)) ||
  (hasBit mask NGXConf2More && (2 <=? n)).

(** The loop over the masks that looks for one that fits: [None] when it finds
    one, otherwise the reasons collected, as format strings. *)
Fixpoint argsLoop (masks : list Z) (term : string) (args : list string)
    (reason : list string) : option (list string) :=
  match masks with
  | [] => Some reason
  | mask :: ms =>
    if hasBit mask NGXConfBlock && negb (term =? "{")%string then
      argsLoop ms term args (reason ++ ["directive %q has no opening {"])
    else if negb (hasBit mask NGXConfBlock) && negb (term =? ";")%string then
      argsLoop ms term args (reason ++ ["directive %q is not terminated by ;"])
    else if acceptsArgs mask args then None
    else
      match args with
      | [a] =>
        if hasBit mask NGXConfFlag && negb (validFlag a) then
          argsLoop ms term args
            (reason ++ ["invalid value " +:+ a +:+ " in %s directive ,it must be on or off"])
        else argsLoop ms term args (reason ++ ["invalid number of arguments in %q directive"])
      | _ => argsLoop ms term args (reason ++ ["invalid number of arguments in %q directive"])
      end
  end.

(** [for i := range reason { reason[i] = fmt.Sprintf(reason[0], directive) }]:
    the slot that is read is the one the first turn overwrites. *)
Definition formatReasons (reason : list string) (directive : string) : list string :=
  match reason with
  | [] => []
  | r0 :: rs =>
    let first := Sprintf r0 directive in
    first :: (const (Sprintf first directive) <$> rs)
  end.

(** [analyze]: the error, if any, and the directive table after the call. *)
Definition analyze (dirs : gmap string (list Z)) (filename : string) (stmt : Stmt)
    (term : string) (ctx : list string) (strict checkCtx checkArgs : bool)
    : option error * gmap string (list Z) :=
  let masks := dirs !! Directive stmt in
  match strict, masks with
  | true, None =>
    (Some (NgxParserDirectiveUnknownError
       (newError (Sprintf "unknown directive %q" (Directive stmt)) (Line stmt) filename)), dirs)
  | _, _ =>
    match contexts !! toCtx ctx, masks with
    | Some ctxMask, Some masks =>
      if checkCtx && negb (ctxLoop masks ctxMask true) then
        (Some (NgxParserDirectiveUnknownError
           (newError (Sprintf "%q directive is not allowed here" (Directive stmt))
              (Line stmt) filename)), dirs)
      else if negb checkArgs then (None, dirs)
      else
        let masks := reverse masks in
        let dirs := <[Directive stmt := masks]> dirs in
        match argsLoop masks term (Args stmt) [] with
        | None => (None, dirs)
        | Some [] => (None, dirs)
        | Some reason =>
          (Some (NgxParserDirectiveUnknownError
             (newError (Join (formatReasons reason (Directive stmt)) ",")
                (Line stmt) filename)), dirs)
        end
    | _, _ => (None, dirs)
    end
  end.

End Analyze.

#[export] Instance noFmt : Fmt := { sprintfSlow := λ fmt _, fmt }.

(** ** The in-place reversal *)

Lemma reverseLoop_spec fuel (a : list Z) i j :
  (j - i ≤ fuel)%nat → (i + j)%nat = pred (length a) →
  (length a ≠ 0)%nat →
  ∀ k, reverseLoop fuel i j a !! k =
    if decide (i ≤ k ∧ k ≤ j)%nat then a !! (i + j - k)%nat else a !! k.
Proof.
  revert a i j. induction fuel as [|n IH]; intros a i j Hf Hij Hl k; simpl.
  - case_decide; [|done]. f_equal; lia.
  - case_decide as Hlt; [|case_decide; [f_equal; lia|done]].
    destruct (lookup_lt_is_Some_2 a i) as [x Hx]; [lia|].
    destruct (lookup_lt_is_Some_2 a j) as [y Hy]; [lia|].
    rewrite Hx, Hy, IH by (rewrite ?length_insert; lia).
    destruct (decide (k = i)) as [->|]; [|destruct (decide (k = j)) as [->|]].
    + rewrite decide_False, decide_True, list_lookup_insert_eq by (rewrite ?length_insert; lia).
      by replace (i + j - i)%nat with j by lia.
    + rewrite decide_False, decide_True, list_lookup_insert_ne, list_lookup_insert_eq by lia.
      by replace (i + j - j)%nat with i by lia.
    + repeat case_decide; rewrite ?list_lookup_insert_ne by lia; try done; try lia;
        f_equal; lia.
Qed.

Lemma reverse_reverse (a : list Z) : reverse a = list.reverse a.
Proof.
  unfold reverse. destruct a as [|z a]; [done|]. apply list_eq. intros k.
  rewrite reverseLoop_spec by (simpl; lia). case_decide.
  - rewrite reverse_lookup by (simpl in *; lia). f_equal; simpl; lia.
  - simpl in *. rewrite !lookup_ge_None_2; [done|rewrite length_reverse; simpl; lia|simpl; lia].
Qed.

Lemma reverse_perm (a : list Z) : reverse a ≡ₚ a.
Proof. rewrite reverse_reverse. apply reverse_Permutation. Qed.

(** ** What the argument check accepts *)

Section Verdict.
Context `{U : Unicode} `{F : Fmt}.

(** One mask fits a statement: the terminator is the one the mask asks for and
    the number of arguments is one the mask admits. *)
Definition maskFits (term : string) (args : list string) (mask : Z) : bool :=
  (if hasBit mask NGXConfBlock then term =? "{" else term =? ";")%string
  && acceptsArgs mask args.

Lemma argsLoop_None masks term args r :
  argsLoop masks term args r = None ↔ existsb (maskFits term args) masks = true.
Proof.
  revert r. induction masks as [|m ms IH]; intros r; simpl; [done|].
  unfold maskFits at 1. rewrite orb_true_iff, andb_true_iff.
  destruct (hasBit m NGXConfBlock) eqn:Hb; simpl.
  - destruct (term =? "{")%string; simpl; [|rewrite IH; intuition congruence].
    destruct (acceptsArgs m args); [tauto|].
    destruct args as [|a [|b l]]; try case_match; rewrite IH; intuition congruence.
  - destruct (term =? ";")%string; simpl; [|rewrite IH; intuition congruence].
    destruct (acceptsArgs m args); [tauto|].
    destruct args as [|a [|b l]]; try case_match; rewrite IH; intuition congruence.
Qed.

Lemma argsLoop_length masks term args r r' :
  argsLoop masks term args r = Some r' → length r' = (length r + length masks)%nat.
Proof.
  revert r. induction masks as [|m ms IH]; intros r; simpl.
  - intros [= ->]. lia.
  - intros H. repeat case_match; try discriminate; apply IH in H;
      rewrite length_app in H; simpl in H; lia.
Qed.

(** The verdict of [analyze] as a predicate, with no loop and no state. *)
Definition analyzeAccepts (dirs : gmap string (list Z)) (stmt : Stmt) (term : string)
    (ctx : list string) (strict checkArgs : bool) : Prop :=
  match dirs !! Directive stmt with
  | None => strict = false
  | Some masks =>
    inContext ctx = true → checkArgs = true → masks ≠ [] →
    Exists (λ m, maskFits term (Args stmt) m = true) masks
  end.

Lemma existsb_Exists_perm {A} (f : A → bool) (l l' : list A) :
  l ≡ₚ l' → existsb f l = true ↔ Exists (λ x, f x = true) l'.
Proof.
  intros Hp. rewrite <- Hp, existsb_exists, Exists_exists.
  by setoid_rewrite <- list_elem_of_In.
Qed.

Lemma argsLoop_verdict masks masks' term args :
  masks ≡ₚ masks' →
  (argsLoop masks term args [] = None ∨ argsLoop masks term args [] = Some []) ↔
  (masks' ≠ [] → Exists (λ m, maskFits term args m = true) masks').
Proof.
  intros Hp. rewrite argsLoop_None, (existsb_Exists_perm _ _ _ Hp). split.
  - intros [H|H] Hne; [done|]. apply argsLoop_length in H. destruct Hne.
    destruct masks; [by apply Permutation_nil|done].
  - intros H. destruct masks' as [|m ms]; [|left; by apply H].
    right. symmetry in Hp. apply Permutation_nil in Hp as ->. done.
Qed.

(** The context loop starts from [pass := true] and so never fails. *)
Lemma ctxLoop_true masks ctxMask : ctxLoop masks ctxMask true = true.
Proof. induction masks; simpl; [done|by destruct (hasBit _ _)]. Qed.

Lemma analyze_accepts dirs filename stmt term ctx strict checkCtx checkArgs :
  fst (analyze dirs filename stmt term ctx strict checkCtx checkArgs) = None ↔
  analyzeAccepts dirs stmt term ctx strict checkArgs.
Proof.
  unfold analyze, analyzeAccepts, inContext.
  destruct (dirs !! Directive stmt) as [masks|].
  - pose proof (argsLoop_verdict _ _ term (Args stmt) (reverse_perm masks)) as Hv.
    destruct (contexts !! toCtx ctx) as [cm|]; [|destruct strict; simpl; intuition congruence].
    rewrite ctxLoop_true, andb_false_r. destruct checkArgs; [|destruct strict; simpl; intuition congruence].
    destruct (argsLoop (reverse masks) term (Args stmt) []) as [[|]|]; destruct strict; simpl in *;
      intuition congruence.
  - destruct strict; [done|]. by destruct (contexts !! _).
Qed.

(** ** The table as state

    Two tables that hold the same masks in some order. *)

Definition sameMasks (d d' : gmap string (list Z)) : Prop :=
  ∀ k, option_Forall2 Permutation (d !! k) (d' !! k).

#[export] Instance sameMasks_equiv : Equivalence sameMasks.
Proof.
  split.
  - intros d k. apply reflexivity.
  - intros d d' H k. apply symmetry, H.
  - intros d1 d2 d3 H1 H2 k. eapply transitivity; [apply H1|apply H2].
Qed.

#[export] Instance analyzeAccepts_proper :
  Proper (sameMasks ==> eq ==> eq ==> eq ==> eq ==> eq ==> iff) analyzeAccepts.
Proof.
  intros d d' Hd s ? <- t ? <- c ? <- st ? <- ca ? <-. unfold analyzeAccepts.
  destruct (Hd (Directive s)) as [a b Hab|]; [|done].
  assert (a ≠ [] ↔ b ≠ []) as ->; [|by rewrite Hab].
  split; intros Hne ->; [by apply Permutation_nil_r in Hab|by apply Permutation_nil_l in Hab].
Qed.

Lemma analyze_sameMasks d filename stmt term ctx strict checkCtx checkArgs :
  sameMasks (snd (analyze d filename stmt term ctx strict checkCtx checkArgs)) d.
Proof.
  unfold analyze.
  destruct (d !! Directive stmt) as [masks|] eqn:E;
    destruct strict; destruct (contexts !! toCtx ctx); try reflexivity;
    rewrite ctxLoop_true, andb_false_r; destruct checkArgs; try reflexivity;
    (assert (sameMasks (<[Directive stmt:=reverse masks]> d) d);
     [intros k; destruct (decide (k = Directive stmt)) as [->|];
      [rewrite lookup_insert_eq, E; constructor; apply reverse_perm
      |by rewrite lookup_insert_ne]
     |by destruct (argsLoop _ _ _ _) as [[|]|]]).
Qed.

(** One call of [analyze] as the parser makes it. *)
Record call := mkCall {
  c_filename : string; c_stmt : Stmt; c_term : string; c_ctx : list string;
  c_strict : bool; c_checkCtx : bool; c_checkArgs : bool }.

Definition runCall (d : gmap string (list Z)) (c : call) : option error * gmap string (list Z) :=
  analyze d (c_filename c) (c_stmt c) (c_term c) (c_ctx c) (c_strict c) (c_checkCtx c) (c_checkArgs c).

(** The table after a sequence of calls. *)
Definition runCalls (d : gmap string (list Z)) (cs : list call) : gmap string (list Z) :=
  foldl (λ d c, snd (runCall d c)) d cs.

Lemma runCalls_sameMasks cs d : sameMasks (runCalls d cs) d.
Proof.
  revert d. induction cs as [|c cs IH]; intros d; simpl; [reflexivity|].
  etransitivity; [apply IH|]. apply analyze_sameMasks.
Qed.

(** C5: whether [analyze] accepts a statement is decided by the statement, its
    terminator, the context and the masks of the table as the program starts
    with them: the in-place reversals that the calls made so far have done to
    the table change nothing, and neither does the [checkCtx] option. *)
Theorem analyze_verdict (history : list call) filename stmt term ctx strict checkCtx checkArgs :
  fst (analyze (runCalls directives history) filename stmt term ctx strict checkCtx checkArgs) = None ↔
  analyzeAccepts directives stmt term ctx strict checkArgs.
Proof. by rewrite analyze_accepts, (runCalls_sameMasks history directives). Qed.

(** ** The error text *)

Lemma no_percent_cons a s :
  Contains (String a s) "%" = false → (byteZ a =? 37) = false ∧ Contains s "%" = false.
Proof.
  simpl. rewrite orb_false_iff. intros [H ?]. split; [|done].
  destruct (Z.eqb_spec (byteZ a) 37) as [He|]; [|done].
  assert (a = zbyte 37) as -> by (by rewrite <- He, zbyte_byteZ). by destruct s.
Qed.

Lemma sprintfGo_no_verb fmt arg used :
  Contains fmt "%" = false →
  sprintfGo fmt arg used = fmt +:+ (if used then "" else "%!(EXTRA string=" +:+ arg +:+ ")").
Proof.
  induction fmt as [|a fmt IH]; intros H; [done|].
  apply no_percent_cons in H as [Ha H]. simpl. by rewrite Ha, IH, string_app_cons.
Qed.

Lemma plainFormat_no_verb fmt : Contains fmt "%" = false → plainFormat fmt = true.
Proof.
  induction fmt as [|a fmt IH]; intros H; [done|].
  apply no_percent_cons in H as [Ha H]. simpl. rewrite Ha. auto.
Qed.

(** The text of a rejection. Every reason but the first is the first
    reason, already formatted, formatted once more, so that it ends with the
    complaint of the formatter about an operand too many; what the later masks
    had to say is lost. *)
Theorem analyze_message dirs filename stmt term ctx strict checkCtx r0 rs masks :
  dirs !! Directive stmt = Some masks →
  inContext ctx = true →
  argsLoop (reverse masks) term (Args stmt) [] = Some (r0 :: rs) →
  Contains (Sprintf r0 (Directive stmt)) "%" = false →
  fst (analyze dirs filename stmt term ctx strict checkCtx true) =
  Some (NgxParserDirectiveUnknownError (newError
    (Join (Sprintf r0 (Directive stmt) ::
           ((λ _, Sprintf r0 (Directive stmt) +:+
                  "%!(EXTRA string=" +:+ Directive stmt +:+ ")") <$> rs)) ",")
    (Line stmt) filename)).
Proof.
  intros Hm Hc Ha Hn. unfold analyze, inContext in *.
  apply bool_decide_eq_true in Hc as [cm Hc].
  assert (HS : Sprintf (Sprintf r0 (Directive stmt)) (Directive stmt) =
    Sprintf r0 (Directive stmt) +:+ "%!(EXTRA string=" +:+ Directive stmt +:+ ")").
  { unfold Sprintf at 1. rewrite plainFormat_no_verb by done. by rewrite sprintfGo_no_verb. }
  rewrite Hm, Hc, ctxLoop_true, andb_false_r. simpl. rewrite Ha. unfold formatReasons.
  destruct strict; simpl; by rewrite <- HS.
Qed.
End Verdict.

(** ** The table *)

(** Some terminator and some number of arguments below eight, all of them the
    word on, fit a list of masks. *)
Definition usableMasks (masks : list Z) : option (string * nat) :=
  list_find (λ '(t, n), Exists (λ m, maskFits t (replicate n "on") m = true) masks)
    (list_prod [";"; "{"] (seq 0 8)) ≫= λ '(_, p), Some p.

Lemma directives_usable_all :
  forallb (λ '(_, masks), bool_decide (masks = [] ∨ is_Some (usableMasks masks))) directivesList = true.
Proof. vm_compute. reflexivity. Qed.

Lemma directives_listed k masks : directives !! k = Some masks → (k, masks) ∈ directivesList.
Proof. apply elem_of_list_to_map_2. Qed.

(** No entry of the table is dead. Every directive it lists has a
    terminator and an argument list with which [analyze] accepts it, in every
    context and after any sequence of earlier calls. *)
Theorem directive_usable `{U : Unicode} `{F : Fmt} k masks :
  directives !! k = Some masks →
  ∃ term args, ∀ history filename stmt ctx strict checkCtx checkArgs,
    Directive stmt = k → Args stmt = args →
    fst (analyze (runCalls directives history) filename stmt term ctx strict checkCtx checkArgs)
    = None.
Proof.
  intros Hk. pose proof directives_usable_all as H. rewrite forallb_forall in H.
  pose proof (directives_listed _ _ Hk) as Hin. apply list_elem_of_In, H in Hin.
  apply bool_decide_eq_true in Hin as [->|[[t n] Hu]].
  { exists ";", []. intros * Hd Ha. rewrite analyze_accepts, (runCalls_sameMasks history directives).
    unfold analyzeAccepts. rewrite Hd, Hk. intros _ _ Hne. by destruct Hne. }
  unfold usableMasks in Hu. apply bind_Some in Hu as ([i [t' n']] & Hf & [= <- <-]).
  apply list_find_Some in Hf as (_ & Hex & _).
  exists t', (replicate n' "on"). intros history filename stmt ctx strict checkCtx checkArgs Hd Ha.
  rewrite analyze_accepts, (runCalls_sameMasks history directives).
  unfold analyzeAccepts. rewrite Hd, Hk, Ha. intros _ _ _. exact Hex.
Qed.

#[local] Existing Instance asciiOnly.

Lemma directive_usable_witness :
  ∃ term args, ∀ history filename stmt ctx strict checkCtx checkArgs,
    Directive stmt = "listen" → Args stmt = args →
    fst (analyze (runCalls directives history) filename stmt term ctx strict checkCtx checkArgs)
    = None.
Proof.
  apply (directive_usable "listen"
    [NGXHttpSrvConf .| NGXConf1More; NGXMailSrvConf .| NGXConf1More;
     NGXStreamSrvConf .| NGXConf1More]%go).
  vm_compute. reflexivity.
Defined.

Lemma analyze_message_witness :
  let stmt := mkStmt "listen" "nginx.conf" 7 [] "" [] None in
  fst (analyze directives "nginx.conf" stmt ";" ["http"; "server"] true true true) =
  Some (NgxParserDirectiveUnknownError (newError
    (Join ["invalid number of arguments in " +:+ Quote "listen" +:+ " directive";
           "invalid number of arguments in " +:+ Quote "listen" +:+
             " directive%!(EXTRA string=listen)";
           "invalid number of arguments in " +:+ Quote "listen" +:+
             " directive%!(EXTRA string=listen)"] ",") 7 "nginx.conf")).
Proof.
  apply (analyze_message directives "nginx.conf" (mkStmt "listen" "nginx.conf" 7 [] "" [] None)
    ";" ["http"; "server"] true true
    "invalid number of arguments in %q directive"
    ["invalid number of arguments in %q directive"; "invalid number of arguments in %q directive"]
    [NGXHttpSrvConf .| NGXConf1More; NGXMailSrvConf .| NGXConf1More;
     NGXStreamSrvConf .| NGXConf1More]%go);
  vm_compute; reflexivity.
Defined.
