(* ===== verification/Parse.v ===== *)
(** * The configuration parser (src/config_parse.go)

    [parse] reads a file, follows its includes and gives a [payload].  The
    objects the code shares by pointer (the options with the queue of
    includes, the payload that the error handler fills, the context of the
    file at hand, the directive table) are the components of one explicit
    state, [world]. *)

From S2P Require Import Prelude GoStrings Lexer Directives Stmt Analyze.

#[local] Open Scope Z_scope.

(** ** The file system

    What the parser asks of the operating system: opening a file gives its
    content or the text of an error, and [filepath.Glob] the names that match
    a pattern. *)
Class FileSystem := {
  fs_Open : string → string + string;
  Glob : string → list string + string;
}.

(** ** [path/filepath] on Unix *)

Definition IsAbs (path : string) : bool := startsWithByte path 47.

(** One element of a path on the stack that [Clean] keeps, last one first. *)
Definition cleanElem (rooted : bool) (stack : list string) (e : string) : list string :=
  if (e =? "")%string || (e =? ".")%string then stack
  else if (e =? "..")%string then
    match stack with
    | [] => if rooted then [] else [".."]
    | top :: rest => if (top =? "..")%string then ".." :: stack else rest
    end
  else e :: stack.

Definition Clean (path : string) : string :=
  let rooted := IsAbs path in
  let out := Join (rev (foldl (cleanElem rooted) [] (Split path 47))) "/" in
  if rooted then "/" +:+ out else if (out =? "")%string then "." else out.

(** The part of a path up to and with its last slash. *)
Fixpoint dirPart (path : string) : string :=
  match path with
  | "" => ""
  | String a p => if Contains path "/" then String a (dirPart p) else ""
  end.

Definition Dir (path : string) : string := Clean (dirPart path).

(** [filepath.Join(a, b)]. *)
Definition JoinPath (a b : string) : string :=
  if negb (a =? "")%string then Clean (Join [a; b] "/")
  else if negb (b =? "")%string then Clean b else "".

(** [sort.Strings]: bytewise order. *)
Fixpoint stringLe (a b : string) : bool :=
  match a, b with
  | "", _ => true
  | String _ _, "" => false
  | String x a', String y b' =>
    (byteZ x <? byteZ y) || ((byteZ x =? byteZ y) && stringLe a' b')
  end.

Definition stringOrder (a b : string) : Prop := stringLe a b = true.
#[export] Instance stringOrder_dec : RelDecision stringOrder.
Proof. unfold stringOrder. intros a b. apply _. Defined.

Definition sortStrings (l : list string) : list string := merge_sort stringOrder l.

(** [err.Error()]. *)
Definition error_Error (e : error) : string :=
  match e with
  | ErrNgx e | NgxParserDirectiveUnknownError e
  | NgxParserDirectiveContextError e | NgxParserDirectiveArgumentsError e => NgxError_Error e
  | io_EOF => "EOF"
  | ErrOS msg => msg
  end.

(** ** Data *)

Record fileCtx := mkFileCtx { name : string; fctx : list string }.

(** [parsingContext]; the options it points to are part of [world]. *)
Record parsingContext := mkParsing {
  File : string;
  Status : string;
  Errors : list error;
  Parsed : list Stmt;
}.

(** [payload]; a configuration that could not be read is a nil pointer. *)
Record payload := mkPayload {
  pld_Status : string;
  pld_Errors : list error;
  Config : list (option parsingContext);
}.

(** [parseOpts]; the only error handler the program installs is the one of
    [parse], and [errHandler] says whether it is there. *)
Record parseOpts := mkOpts {
  catchErr : bool;
  ignore : option (string → bool);
  single : bool;
  strict : bool;
  comments : bool;
  combine : bool;
  checkCtx : bool;
  checkArgs : bool;
  configDir : string;
  includes : list fileCtx;
  included : gmap string nat;
  errHandler : bool;
}.

Definition defaultParseOpts : parseOpts :=
  {| catchErr := true; ignore := Some (λ _, false); single := false; strict := false;
     comments := false; combine := false; checkCtx := true; checkArgs := true;
     configDir := ""; includes := []; included := ∅; errHandler := false |}.

Definition set_includes (f : list fileCtx) (m : gmap string nat) (o : parseOpts) : parseOpts :=
  {| catchErr := catchErr o; ignore := ignore o; single := single o; strict := strict o;
     comments := comments o; combine := combine o; checkCtx := checkCtx o;
     checkArgs := checkArgs o; configDir := configDir o; includes := f; included := m;
     errHandler := errHandler o |}.

(** [tokenIter]: the tokens that [next] has not returned yet. *)
Definition tokenIter : Type := list token.

Record world := mkWorld {
  w_tokens : tokenIter;
  w_parsing : parsingContext;
  w_opts : parseOpts;
  w_pld : payload;
  w_dirs : gmap string (list Z);
}.

Definition set_w_tokens (t : tokenIter) (w : world) : world :=
  mkWorld t (w_parsing w) (w_opts w) (w_pld w) (w_dirs w).
Definition set_w_opts (o : parseOpts) (w : world) : world :=
  mkWorld (w_tokens w) (w_parsing w) o (w_pld w) (w_dirs w).
Definition set_w_dirs (d : gmap string (list Z)) (w : world) : world :=
  mkWorld (w_tokens w) (w_parsing w) (w_opts w) (w_pld w) d.

(** ** Helpers of the parser *)

(** The error handler of [parse]. *)
Definition payload_fail (err : error) (p : payload) : payload :=
  mkPayload "failed" (pld_Errors p ++ [err]) (Config p).

(** [parsingContext.handleErr]. *)
Definition handleErr (err : error) (w : world) : world :=
  let p := w_parsing w in
  mkWorld (w_tokens w)
    (mkParsing (File p) "failed" (Errors p ++ [err]) (Parsed p))
    (w_opts w)
    (if errHandler (w_opts w) then payload_fail err (w_pld w) else w_pld w)
    (w_dirs w).

Definition checkTerminal (txt : string) : bool :=
  (txt =? "{")%string || (txt =? ";")%string || (txt =? "}")%string.

Definition inDirArgs (tok : token) : bool := negb (checkTerminal (text tok)) || quote tok.

(** An unquoted token that starts with a hash sign. *)
Definition isComment (tok : token) : bool := startsWithByte (text tok) r_hash && negb (quote tok).

(** The loop that collects the arguments of a directive and the comments among
    them.  At the end of the tokens the code dereferences a nil token. *)
Fixpoint dirArgs (it : tokenIter) (args commentsInArgs : list string)
    : res (token * tokenIter * list string * list string) :=
  match it with
  | [] => Panic NilDereference
  | tok :: it' =>
    if inDirArgs tok then
      if isComment tok then dirArgs it' args (commentsInArgs ++ [tailString (text tok)])
      else dirArgs it' (args ++ [text tok]) commentsInArgs
    else Ok (tok, it', args, commentsInArgs)
  end.

Definition enterBlock (stmt : Stmt) (ctx : list string) : list string :=
  match ctx with
  | c :: _ =>
    if (c =? "http")%string && (Directive stmt =? "location")%string then ["http"; "location"]
    else ctx ++ [Directive stmt]
  | [] => [Directive stmt]
  end.

(** [prepareIfArgs]. *)
Definition prepareIfArgs (stmt : Stmt) : Stmt :=
  match Args stmt, last (Args stmt) with
  | a0 :: _, Some al =>
    if HasPrefix a0 "(" && HasSuffix al ")" then
      let args := <[0%nat := TrimLeft a0 40]> (Args stmt) in
      let l := pred (length args) in
      let args := alter (λ a, TrimRight a 41) l args in
      set_Args (filter (λ v, v ≠ "") args) stmt
    else stmt
  | _, _ => stmt
  end.

Section Parse.
Context `{U : Unicode} `{F : Fmt} `{FS : FileSystem}.

(** The files an include directive stands for, and the error to report. *)
Definition includeFiles (o : parseOpts) (file : string) (ln : Z) (pattern : string)
    : list string * option error :=
  let fail msg := ErrNgx (mkNgxError msg ln file) in
  match fs_Open pattern with
  | inl _ => ([pattern], None)
  | inr _ =>
    let pattern := if IsAbs pattern then pattern else JoinPath (configDir o) pattern in
    if Contains pattern "*" then
      match Glob pattern with
      | inr err => ([], Some (fail err))
      | inl n => (sortStrings n, None)
      end
    else
      match fs_Open pattern with
      | inr err => ([], Some (fail err))
      | inl _ =>
        match Glob pattern with
        | inr err => ([], Some (fail err))
        | inl n => (n, None)
        end
      end
  end.

(** The loop over the file names: each gets a place in the queue. *)
Fixpoint enqueueFiles (filenames : list string) (ctx : list string) (o : parseOpts) (acc : list nat)
    : parseOpts * list nat :=
  match filenames with
  | [] => (o, acc)
  | n :: ns =>
    let included' := <[n := length (includes o)]> (included o) in
    enqueueFiles ns ctx
      (set_includes (includes o ++ [mkFileCtx n ctx]) included' o)
      (acc ++ [default 0%nat (included' !! n)])
  end.

(** The part of [parseInternal] for the include directive. *)
Definition handleInclude (stmt : Stmt) (ctx : list string) (w : world) : res (Stmt * world) :=
  if negb (single (w_opts w)) && (Directive stmt =? "include")%string then
    pattern ← go_index (Args stmt) 0;
    let '(filenames, err) := includeFiles (w_opts w) (File (w_parsing w)) (Line stmt) pattern in
    let w := match err with Some e => handleErr e w | None => w end in
    let '(o, idxs) := enqueueFiles filenames ctx (w_opts w) (Includes stmt) in
    Ok (set_Includes idxs stmt, set_w_opts o w)
  else Ok (stmt, w).

Definition ignored (o : parseOpts) (d : string) : bool :=
  match ignore o with Some f => f d | None => false end.

Definition isOpen (tok : token) : bool := (text tok =? "{")%string && negb (quote tok).
Definition isClose (tok : token) : bool := (text tok =? "}")%string && negb (quote tok).

(** The statement made from the first token of a directive. *)
Definition newStmt (w : world) (tok : token) : Stmt :=
  mkStmt (text tok) (if combine (w_opts w) then File (w_parsing w) else "") (line tok)
    [] "" [] None.

(** The statements that follow a directive for the comments in its arguments. *)
Definition argComment (ln : Z) (comment : string) : Stmt :=
  mkStmt "#" "" ln [] comment [] None.

(** The call of [analyze] with the report of its error. *)
Definition analyzeStmt (stmt : Stmt) (term : string) (ctx : list string) (w : world) : world :=
  let o := w_opts w in
  let '(err, dirs) :=
    analyze (w_dirs w) (File (w_parsing w)) stmt term ctx (strict o) (checkCtx o) (checkArgs o) in
  let w := set_w_dirs dirs w in
  match err with Some e => handleErr e w | None => w end.

(** The loop of [parseInternal]: [parsed] is what it has so far. *)
Fixpoint parseLoop (fuel : nat) (w : world) (ctx : list string) (consume : bool)
    (parsed : list Stmt) : res (list Stmt * world) :=
  match fuel with
  | O => OutOfFuel
  | S n =>
    match w_tokens w with
    | [] => Ok (parsed, w)
    | tok :: it =>
      let w := set_w_tokens it w in
      if isClose tok then Ok (parsed, w)
      else if consume && isOpen tok then
        '(_, w) ← parseLoop n w [] true [];
        parseLoop n w ctx consume parsed
      else
        let stmt := newStmt w tok in
        if isComment tok then
          let parsed :=
            if comments (w_opts w)
            then parsed ++ [set_Comment (tailString (text tok)) (set_Directive "#" stmt)]
            else parsed in
          parseLoop n w ctx consume parsed
        else
          '(tok, it, args, commentsInArgs) ← dirArgs (w_tokens w) [] [];
          let w := set_w_tokens it w in
          let stmt := set_Args args stmt in
          if ignored (w_opts w) (Directive stmt) then
            if isOpen tok then
              '(_, w) ← parseLoop n w [] true [];
              parseLoop n w ctx consume parsed
            else parseLoop n w ctx consume parsed
          else
            let stmt := if (Directive stmt =? "if")%string then prepareIfArgs stmt else stmt in
            let w := analyzeStmt stmt (text tok) ctx w in
            '(stmt, w) ← handleInclude stmt ctx w;
            '(stmt, w) ←
              (if isOpen tok then
                 '(blocks, w) ← parseLoop n w (enterBlock stmt ctx) false [];
                 Ok (set_Blocks (Some blocks) stmt, w)
               else Ok (stmt, w));
            parseLoop n w ctx consume
              (parsed ++ stmt :: (argComment (Line stmt) <$> commentsInArgs))
    end
  end.

Definition parseInternal (fuel : nat) (w : world) (ctx : list string) (consume : bool)
    : res (list Stmt * world) := parseLoop fuel w ctx consume [].

(** ** Files *)

(** [parseInclude]: the context of the file, or a nil pointer and an error. *)
Definition parseInclude (fuel : nat) (o : parseOpts) (pld : payload) (dirs : gmap string (list Z))
    (f : fileCtx) : res ((parsingContext + error) * parseOpts * payload * gmap string (list Z)) :=
  match fs_Open (name f) with
  | inr msg => Ok (inr (ErrOS msg), o, pld, dirs)
  | inl content =>
    toks ← lex fuel content (name f);
    match toks with
    | inr err => Ok (inr err, o, pld, dirs)
    | inl tokens =>
      let parsing := mkParsing (name f) "ok" [] [] in
      '(parsed, w) ← parseInternal fuel (mkWorld tokens parsing o pld dirs) (fctx f) false;
      let p := w_parsing w in
      Ok (inl (mkParsing (File p) (Status p) (Errors p) parsed), w_opts w, w_pld w, w_dirs w)
    end
  end.

(** The state of the loop of [parse]: [includeIter.idx] and the shared objects. *)
Record parseState := mkParseState {
  st_idx : nat; st_opts : parseOpts; st_pld : payload; st_dirs : gmap string (list Z) }.

(** One turn: the next file of the queue, which the turn itself may extend. *)
Definition parseStep (fuel : nat) (s : parseState)
    : res (parseState + parseState) :=
  match includes (st_opts s) !! st_idx s with
  | None => Ok (inr s)
  | Some f =>
    '(r, o, pld, dirs) ← parseInclude fuel (st_opts s) (st_pld s) (st_dirs s) f;
    let pld := match r with inl _ => pld | inr err => payload_fail err pld end in
    let parsing := match r with inl p => Some p | inr _ => None end in
    Ok (inl (mkParseState (S (st_idx s)) o
      (mkPayload (pld_Status pld) (pld_Errors pld) (Config pld ++ [parsing])) dirs))
  end.

Definition parseFiles : nat → parseState → res parseState := go_for parseStep.

(** ** The combination of the files into one *)

(** A slice that starts as nil and is only appended to. *)
Definition nilSlice {A} (l : list A) : option (list A) :=
  match l with [] => None | _ => Some l end.

(** [performInclude]: the include statements replaced by the statements of the
    files they stand for, throughout the block. *)
Fixpoint performInclude (fuel : nat) (config : list (option parsingContext)) (block : list Stmt)
    : res (list Stmt) :=
  match fuel with
  | O => OutOfFuel
  | S n =>
    go_concat_map (λ stmt,
      stmt ← match Blocks stmt with
             | Some b => b' ← performInclude n config b; Ok (set_Blocks (nilSlice b') stmt)
             | None => Ok stmt
             end;
      if decide (Includes stmt = []) then Ok [stmt]
      else
        go_concat_map (λ idx,
          c ← go_index config idx;
          match c with
          | None => Panic NilDereference
          | Some p => performInclude n config (Parsed p)
          end) (Includes stmt)) block
  end.

(** The loop over the contexts: a nil one is dereferenced. *)
Fixpoint combineErrors (config : list (option parsingContext)) (errs : list error) (status : string)
    : res (list error * string) :=
  match config with
  | [] => Ok (errs, status)
  | None :: _ => Panic NilDereference
  | Some c :: cs =>
    combineErrors cs (errs ++ Errors c)
      (if (Status c =? "failed")%string then "failed" else status)
  end.

Definition combineParsedConfig (fuel : nat) (p : payload) : res payload :=
  c0 ← go_index (Config p) 0;
  match c0 with
  | None => Panic NilDereference
  | Some c0 =>
    '(errs, status) ← combineErrors (Config p) [] "ok";
    parsed ← performInclude fuel (Config p) (Parsed c0);
    Ok (mkPayload (pld_Status p) (pld_Errors p)
          [Some (mkParsing (File c0) status errs parsed)])
  end.

(** [parse]: the payload, and the options and the table as it leaves them. *)
Definition parseInit (filename : string) (o : parseOpts) (dirs : gmap string (list Z)) : parseState :=
  mkParseState 0
    {| catchErr := catchErr o; ignore := ignore o; single := single o; strict := strict o;
       comments := comments o; combine := combine o; checkCtx := checkCtx o;
       checkArgs := checkArgs o; configDir := Dir filename;
       includes := includes o ++ [mkFileCtx filename []];
       included := {[ "filename" := 0%nat ]}; errHandler := true |}
    (mkPayload "ok" [] []) dirs.

Definition parse (fuel : nat) (filename : string) (o : parseOpts) (dirs : gmap string (list Z))
    : res (payload * parseOpts * gmap string (list Z)) :=
  s ← parseFiles fuel (parseInit filename o dirs);
  pld ← (if combine (st_opts s) then combineParsedConfig fuel (st_pld s) else Ok (st_pld s));
  Ok (pld, st_opts s, st_dirs s).
End Parse.
