(* ===== verification/ParseFacts.v ===== *)
(** * The parser: termination, the grammar it implements, includes

    [parseLoop] reads at least one token per turn, so a fuel above the number
    of tokens is always enough.  On the token sequences of the configuration
    grammar it gives exactly the tree that the grammar assigns.  The place an
    include directive gets in the queue is always new, so that putting the
    files together ends. *)

From S2P Require Import Prelude GoStrings Lexer Directives Stmt Analyze Parse.

#[local] Open Scope Z_scope.

Section Facts.
Context `{U : Unicode} `{F : Fmt} `{FS : FileSystem}.

(** ** Reading arguments *)

Lemma dirArgs_suffix it a c tok it' a' c' :
  dirArgs it a c = Ok (tok, it', a', c') →
  ∃ pre, it = pre ++ tok :: it' ∧ Forall (λ t, inDirArgs t = true) pre ∧ inDirArgs tok = false.
Proof.
  revert a c. induction it as [|t it IH]; intros a c H; simpl in H; [done|].
  destruct (inDirArgs t) eqn:Et.
  - assert (∃ pre, it = pre ++ tok :: it' ∧ Forall (λ t, inDirArgs t = true) pre
      ∧ inDirArgs tok = false) as (pre & -> & Hp & Ht).
    { destruct (isComment t); eauto. }
    exists (t :: pre). auto.
  - injection H as <- <- <- <-. by exists [].
Qed.

Lemma dirArgs_shrinks it a c tok it' a' c' :
  dirArgs it a c = Ok (tok, it', a', c') → (length it' < length it)%nat ∧ it' `suffix_of` it.
Proof.
  intros (pre & -> & _)%dirArgs_suffix. split.
  - rewrite length_app. simpl. lia.
  - exists (pre ++ [tok]). by rewrite <- (assoc_L app).
Qed.

(** The arguments and the comments of a sequence of argument tokens. *)
Definition argTexts (ts : list token) : list string :=
  text <$> filter (λ t, isComment t = false) ts.
Definition commentTexts (ts : list token) : list string :=
  (tailString ∘ text) <$> filter (λ t, isComment t = true) ts.

Lemma dirArgs_args ts term it a c :
  Forall (λ t, inDirArgs t = true) ts → inDirArgs term = false →
  dirArgs (ts ++ term :: it) a c = Ok (term, it, a ++ argTexts ts, c ++ commentTexts ts).
Proof.
  intros Hts Ht. revert a c. induction Hts as [|t ts Hh Hts IH]; intros a c; simpl.
  - rewrite Ht. unfold argTexts, commentTexts. simpl. by rewrite !app_nil_r.
  - rewrite Hh. unfold argTexts, commentTexts. rewrite !filter_cons.
    destruct (isComment t); simpl; rewrite IH, <- (assoc_L app); done.
Qed.

(** ** An induction principle for the parser

    A preorder on the states that every action of the loop respects, an
    invariant of the states and a property of statements that both keep. *)

Section Principle.
Context (R : relation world) `{!PreOrder R} (I : world → Prop)
  (G : world → Stmt → Prop).
Hypothesis I_mono : ∀ w w', R w w' → I w → I w'.
Hypothesis R_tokens : ∀ w it, it `suffix_of` w_tokens w → R w (set_w_tokens it w).
Hypothesis R_analyze : ∀ s t ctx w, R w (analyzeStmt s t ctx w).
Hypothesis R_include : ∀ s ctx w s' w', I w → Includes s = [] → Blocks s = None →
  handleInclude s ctx w = Ok (s', w') → R w w' ∧ G w' s' ∧ Blocks s' = None.
Hypothesis G_mono : ∀ w w' s, R w w' → G w s → G w' s.
Hypothesis G_leaf : ∀ w s, Includes s = [] → Blocks s = None → G w s.
Hypothesis G_block : ∀ w s b, Blocks s = None → G w s → Forall (G w) b →
  G w (set_Blocks (Some b) s).

Lemma prepareIfArgs_shape s :
  Includes (prepareIfArgs s) = Includes s ∧ Blocks (prepareIfArgs s) = Blocks s ∧
  Directive (prepareIfArgs s) = Directive s ∧ Line (prepareIfArgs s) = Line s.
Proof. unfold prepareIfArgs. repeat case_match; done. Qed.

Lemma argComments_good w ln cs : Forall (G w) (argComment ln <$> cs).
Proof. apply Forall_fmap, Forall_true. intros c. by apply G_leaf. Qed.

Lemma Forall_mono w w' ss : R w w' → Forall (G w) ss → Forall (G w') ss.
Proof. intros HR H. eapply Forall_impl; [exact H|]. eauto. Qed.

Lemma parseLoop_inv n w ctx consume parsed r w' :
  I w → Forall (G w) parsed → parseLoop n w ctx consume parsed = Ok (r, w') →
  R w w' ∧ Forall (G w') r.
Proof.
  revert w ctx consume parsed r w'.
  induction n as [|n IH]; intros w ctx consume parsed r w' HI HG H; [done|].
  simpl in H. destruct (w_tokens w) as [|tok it] eqn:Et; [injection H as <- <-; done|].
  assert (HR : R w (set_w_tokens it w)) by (apply R_tokens; rewrite Et; by exists [tok]).
  destruct (isClose tok); [injection H as <- <-; eauto using Forall_mono|].
  destruct (consume && isOpen tok).
  { inv_bind. destruct a as [r1 w1]. apply IH in H0 as [HR1 _]; [|eauto|constructor].
    assert (R w w1) by (by etransitivity). apply IH in H as [? ?]; [|eauto|eauto using Forall_mono].
    split; [by etransitivity|done]. }
  destruct (isComment tok).
  { apply IH in H as [? ?]; [|eauto|].
    - split; [by etransitivity|done].
    - destruct (comments _); [|eauto using Forall_mono].
      apply Forall_app; split; [eauto using Forall_mono|]. constructor; [by apply G_leaf|done]. }
  inv_bind. destruct a as [[[term it'] args] cms]. simpl in H0.
  apply dirArgs_shrinks in H0 as [_ Hsuf].
  set (w1 := set_w_tokens it' _) in *.
  assert (HR1 : R w w1) by (etransitivity; [exact HR|by apply R_tokens]).
  destruct (ignored _ _).
  { destruct (isOpen term); inv_bind.
    - destruct a as [r2 w2]. apply IH in H0 as [HR2 _]; [|eauto|constructor].
      assert (R w w2) by (by etransitivity). apply IH in H as [? ?]; [|eauto|eauto using Forall_mono].
      split; [by etransitivity|done].
    - apply IH in H as [? ?]; [|eauto|eauto using Forall_mono]. split; [by etransitivity|done]. }
  inv_bind. destruct a as [s2 w2]. inv_bind. destruct a as [s3 w3].
  match type of H0 with handleInclude ?s _ ?w = _ => set (s1 := s) in *; set (wa := w) in * end.
  assert (Hs1 : Includes s1 = [] ∧ Blocks s1 = None).
  { subst s1. destruct (_ =? "if")%string; [|done]. match goal with |- context [prepareIfArgs ?s] =>
      destruct (prepareIfArgs_shape s) as (-> & -> & _) end. done. }
  apply R_include in H0 as (HR2 & HG2 & Hb2); [|eauto|tauto..].
  assert (HR2' : R w w2) by (etransitivity; [exact HR1|etransitivity; [apply R_analyze|exact HR2]]).
  assert (R w2 w3 ∧ G w3 s3) as [HR3 HG3].
  { destruct (isOpen term); inv_bind; [|split; [reflexivity|done]].
    destruct a as [bs w4]. injection H1 as <- <-. apply IH in H0 as [HR4 HG4]; [|eauto|constructor].
    split; [done|]. eauto. }
  apply IH in H as [? ?]; [|eauto|].
  - split; [etransitivity; [exact HR2'|by etransitivity]|done].
  - apply Forall_app; split; [apply (Forall_mono w); [by etransitivity|done]|].
    constructor; [done|]. apply argComments_good.
Qed.
End Principle.

(** ** Termination *)

Lemma handleErr_tokens e w : w_tokens (handleErr e w) = w_tokens w.
Proof. done. Qed.

Lemma analyzeStmt_frame s t ctx w :
  w_tokens (analyzeStmt s t ctx w) = w_tokens w ∧ w_opts (analyzeStmt s t ctx w) = w_opts w ∧
  File (w_parsing (analyzeStmt s t ctx w)) = File (w_parsing w) ∧
  sameMasks (w_dirs (analyzeStmt s t ctx w)) (w_dirs w).
Proof.
  unfold analyzeStmt.
  pose proof (analyze_sameMasks (w_dirs w) (File (w_parsing w)) s t ctx (strict (w_opts w))
    (checkCtx (w_opts w)) (checkArgs (w_opts w))) as H.
  destruct (analyze _ _ _ _ _ _ _ _) as [[e|] d]; done.
Qed.

(** An accepted statement is not reported. *)
Lemma analyzeStmt_accepts s t ctx w :
  analyzeAccepts (w_dirs w) s t ctx (strict (w_opts w)) (checkArgs (w_opts w)) →
  w_pld (analyzeStmt s t ctx w) = w_pld w.
Proof.
  intros H. apply (analyze_accepts _ (File (w_parsing w)) _ _ _ _ (checkCtx (w_opts w))) in H.
  unfold analyzeStmt. destruct (analyze _ _ _ _ _ _ _ _) as [[e|] d]; done.
Qed.

(** What [enqueueFiles] does: one new place per file, at the end of the queue. *)
Lemma enqueueFiles_spec fs ctx o acc :
  let k := length (includes o) in
  let '(o', idxs) := enqueueFiles fs ctx o acc in
  includes o' = includes o ++ ((λ n, mkFileCtx n ctx) <$> fs) ∧
  idxs = acc ++ seq k (length fs) ∧
  o' = set_includes (includes o') (included o') o.
Proof.
  revert o acc. induction fs as [|f fs IH]; intros o acc; simpl.
  - rewrite !app_nil_r. by destruct o.
  - specialize (IH (set_includes (includes o ++ [mkFileCtx f ctx])
      (<[f:=length (includes o)]> (included o)) o)
      (acc ++ [default 0%nat (<[f:=length (includes o)]> (included o) !! f)])).
    destruct (enqueueFiles _ _ _ _) as [o' idxs]. destruct IH as (H1 & H2 & H3). simpl in *.
    rewrite H1. rewrite H1 in H3. rewrite H2, length_app, lookup_insert_eq, <- !(assoc_L app).
    simpl. rewrite Nat.add_1_r. rewrite <- (assoc_L app) in H3. repeat split; [done..|]. exact H3.
Qed.

Lemma handleInclude_frame s ctx w s' w' :
  Includes s = [] → handleInclude s ctx w = Ok (s', w') →
  w_tokens w' = w_tokens w ∧ w_dirs w' = w_dirs w ∧ File (w_parsing w') = File (w_parsing w) ∧
  Blocks s' = Blocks s ∧ Line s' = Line s ∧
  ∃ ext m, w_opts w' = set_includes (includes (w_opts w) ++ ext) m (w_opts w) ∧
    Includes s' = seq (length (includes (w_opts w))) (length ext).
Proof.
  intros Hi. unfold handleInclude.
  destruct (_ && _).
  2: { intros [= <- <-]. repeat split. exists [], (included (w_opts w)).
    rewrite app_nil_r. split; [by destruct (w_opts w)|done]. }
  intros H. inv_bind. destruct (includeFiles _ _ _ _) as [fs err].
  set (w1 := match err with Some e => handleErr e w | None => w end) in *.
  assert (w_opts w1 = w_opts w ∧ w_tokens w1 = w_tokens w ∧ w_dirs w1 = w_dirs w ∧
    File (w_parsing w1) = File (w_parsing w)) as (Ho & Ht & Hd & Hf) by (subst w1; by destruct err).
  pose proof (enqueueFiles_spec fs ctx (w_opts w1) (Includes s)) as HE.
  destruct (enqueueFiles _ _ _ _) as [o' idxs]. destruct HE as (E1 & E2 & E3).
  injection H as <- <-. repeat split; [done..|].
  exists ((λ n, mkFileCtx n ctx) <$> fs), (included o'). rewrite <- Ho, <- E1.
  split; [done|]. simpl. by rewrite E2, Hi, length_fmap.
Qed.

Definition fewerTokens (w w' : world) : Prop := (length (w_tokens w') ≤ length (w_tokens w))%nat.

#[export] Instance fewerTokens_preorder : PreOrder fewerTokens.
Proof. unfold fewerTokens. split; [by intros w|intros w1 w2 w3; lia]. Qed.

Lemma parseLoop_shrinks n w ctx consume parsed r w' :
  parseLoop n w ctx consume parsed = Ok (r, w') → fewerTokens w w'.
Proof.
  intros H. eapply (parseLoop_inv fewerTokens (λ _, True) (λ _ _, True)) in H as [? _]; try done.
  - intros w0 it. apply suffix_length.
  - intros. unfold fewerTokens. by destruct (analyzeStmt_frame s t ctx0 w0) as (-> & _).
  - intros * _ Hi Hb H1. apply handleInclude_frame in H1 as (Ht & _ & _ & Hb' & _); [|done].
    unfold fewerTokens. rewrite Ht, Hb', Hb. done.
  - by apply Forall_true.
Qed.

Lemma dirArgs_finished it a c : finished (dirArgs it a c) = true.
Proof.
  revert a c. induction it as [|t it IH]; intros a c; simpl; [done|].
  destruct (inDirArgs t); [|done]. destruct (isComment t); auto.
Qed.

Lemma handleInclude_finished s ctx w : finished (handleInclude s ctx w) = true.
Proof.
  unfold handleInclude. destruct (_ && _); [|done]. unfold go_index.
  destruct (_ !! _); [|done]. simpl. destruct (includeFiles _ _ _ _), (enqueueFiles _ _ _ _). done.
Qed.

Lemma parseLoop_finishes n w ctx consume parsed :
  (length (w_tokens w) < n)%nat → finished (parseLoop n w ctx consume parsed) = true.
Proof.
  revert w ctx consume parsed. induction n as [|n IH]; intros w ctx consume parsed Hn; [lia|].
  simpl. destruct (w_tokens w) as [|tok it] eqn:Et; [done|]. simpl in Hn.
  destruct (isClose tok); [done|].
  assert (Hrec : ∀ w1 ctx' c' p' ctx2 c2 p2, (length (w_tokens w1) ≤ length it)%nat →
    finished (parseLoop n w1 ctx' c' p' ≫= λ '(_, w2), parseLoop n w2 ctx2 c2 p2) = true).
  { intros * Hl. apply bind_finished; [apply IH; lia|]. intros [r2 w2] H2.
    apply parseLoop_shrinks in H2. unfold fewerTokens in H2. apply IH. lia. }
  destruct (consume && isOpen tok); [by apply Hrec|].
  destruct (isComment tok); [apply IH; simpl; lia|].
  apply bind_finished; [apply dirArgs_finished|]. intros [[[term it'] args] cms] HA.
  simpl in HA. apply dirArgs_shrinks in HA as [HA _].
  destruct (ignored _ _); [destruct (isOpen term); [apply Hrec|apply IH]; simpl; lia|].
  apply bind_finished; [apply handleInclude_finished|]. intros [s2 w2] H2.
  apply handleInclude_frame in H2 as (Ht & _).
  2: { destruct (_ =? "if")%string; [|done]. match goal with |- context [prepareIfArgs ?s] =>
      by destruct (prepareIfArgs_shape s) as (-> & _) end. }
  rewrite (proj1 (analyzeStmt_frame _ _ _ _)) in Ht. simpl in Ht.
  destruct (isOpen term); simpl; [|apply IH; rewrite Ht; lia].
  rewrite res_bind_assoc. apply bind_finished; [apply IH; rewrite Ht; lia|].
  intros [bs w3] H3. simpl. apply parseLoop_shrinks in H3. unfold fewerTokens in H3.
  apply IH. rewrite Ht in H3. lia.
Qed.

(** ** The grammar

    [gram keep fname one ts ss]: the tokens [ts] are a sequence of directives,
    blocks and comments and stand for the statements [ss].  [keep] says
    whether comments are kept, [fname] is the file name noted in the
    statements, and [one] whether includes are left alone. *)

Definition stmtOf (fname : string) (d : token) (args : list token) : Stmt :=
  let s := mkStmt (text d) fname (line d) (argTexts args) "" [] None in
  if (text d =? "if")%string then prepareIfArgs s else s.

Definition commentOf (fname : string) (t : token) : Stmt :=
  mkStmt "#" fname (line t) [] (tailString (text t)) [] None.

(** A token that can start a directive. *)
Definition startsDirective (one : bool) (d : token) : Prop :=
  isClose d = false ∧ isComment d = false ∧ (one = true ∨ text d ≠ "include").

Definition isSemi (t : token) : bool := (text t =? ";")%string && negb (quote t).

Inductive gram (keep : bool) (fname : string) (one : bool) : list token → list Stmt → Prop :=
| gram_end : gram keep fname one [] []
| gram_comment t ts ss :
    isComment t = true → gram keep fname one ts ss →
    gram keep fname one (t :: ts) (if keep then commentOf fname t :: ss else ss)
| gram_simple d args t ts ss :
    startsDirective one d → Forall (λ a, inDirArgs a = true) args → isSemi t = true →
    gram keep fname one ts ss →
    gram keep fname one (d :: args ++ t :: ts)
      (stmtOf fname d args :: (argComment (line d) <$> commentTexts args) ++ ss)
| gram_block d args t inner bs c ts ss :
    startsDirective one d → Forall (λ a, inDirArgs a = true) args → isOpen t = true →
    gram keep fname one inner bs → isClose c = true →
    gram keep fname one ts ss →
    gram keep fname one (d :: args ++ t :: inner ++ c :: ts)
      (set_Blocks (Some bs) (stmtOf fname d args) ::
       (argComment (line d) <$> commentTexts args) ++ ss).

(** Where a sequence ends: the end of the file or a closing brace, which the
    loop takes. *)
Inductive seqEnd : list token → list token → Prop :=
| seqEnd_eof : seqEnd [] []
| seqEnd_close c rest : isClose c = true → seqEnd (c :: rest) rest.

(** ** Which statements are accepted

    A statement and those in its block, each in its context; the terminator is
    what the statement shows. *)

Definition termOf (s : Stmt) : string := match Blocks s with Some _ => "{" | None => ";" end.

Fixpoint stmtAccepts (dirs : gmap string (list Z)) (strict checkArgs : bool) (ctx : list string) (s : Stmt) : Prop :=
  analyzeAccepts dirs s (termOf s) ctx strict checkArgs ∧
  match Blocks s with
  | Some b => foldr (λ x P, stmtAccepts dirs strict checkArgs (enterBlock s ctx) x ∧ P) True b
  | None => True
  end.

Definition blockAccepts (dirs : gmap string (list Z)) (strict checkArgs : bool) (ctx : list string) (b : list Stmt) : Prop :=
  Forall (stmtAccepts dirs strict checkArgs ctx) b.

Lemma foldr_and {A} (P : A → Prop) l : foldr (λ x Q, P x ∧ Q) True l ↔ Forall P l.
Proof. induction l as [|x l IH]; simpl; [by split|]. by rewrite Forall_cons, IH. Qed.

Lemma stmtAccepts_eq dirs strict checkArgs ctx s : stmtAccepts dirs strict checkArgs ctx s ↔
  analyzeAccepts dirs s (termOf s) ctx strict checkArgs ∧
  ∀ b, Blocks s = Some b → blockAccepts dirs strict checkArgs (enterBlock s ctx) b.
Proof.
  destruct s as [d f l a c i [b|]]; simpl; [|naive_solver].
  rewrite foldr_and. unfold blockAccepts. simpl. naive_solver.
Qed.

#[export] Instance stmtAccepts_proper : Proper (sameMasks ==> eq ==> eq ==> eq ==> eq ==> iff) stmtAccepts.
Proof.
  intros d d' Hd st ? <- ca ? <- ctx ? <- s ? <-. revert ctx.
  induction s as [s IH] using Stmt_nested_ind. intros ctx. rewrite !stmtAccepts_eq, Hd.
  assert (Hb : ∀ b, Blocks s = Some b → blockAccepts d st ca (enterBlock s ctx) b ↔ blockAccepts d' st ca (enterBlock s ctx) b);
    [|naive_solver].
  intros b Eb. specialize (IH b Eb). unfold blockAccepts. rewrite !Forall_forall. rewrite Forall_forall in IH.
  split; intros H x Hx; apply IH; auto.
Qed.

#[export] Instance blockAccepts_proper : Proper (sameMasks ==> eq ==> eq ==> eq ==> eq ==> iff) blockAccepts.
Proof.
  intros d d' Hd st ? <- ca ? <- ctx ? <- b ? <-. unfold blockAccepts.
  split; intros H; (eapply Forall_impl; [exact H|]); intros x; by rewrite Hd.
Qed.

(** What the parser does not change when it follows no includes; of the table it
    only changes the order of the masks. *)
Definition sameFrame (w w' : world) : Prop :=
  w_opts w' = w_opts w ∧ File (w_parsing w') = File (w_parsing w) ∧ sameMasks (w_dirs w') (w_dirs w).

#[export] Instance sameFrame_preorder : PreOrder sameFrame.
Proof.
  split; [by intros w|].
  intros w1 w2 w3 (? & ? & ?) (? & ? & ?); split_and!; [congruence..|by etransitivity].
Qed.

Definition fnameOf (w : world) : string := if combine (w_opts w) then File (w_parsing w) else "".

Lemma fnameOf_frame w w' : sameFrame w w' → fnameOf w' = fnameOf w.
Proof. intros (Ho & Hf & _). unfold fnameOf. by rewrite Ho, Hf. Qed.

Lemma handleInclude_skip one s ctx w :
  single (w_opts w) = one → (one = true ∨ Directive s ≠ "include") →
  handleInclude s ctx w = Ok (s, w).
Proof.
  intros <- H. unfold handleInclude. destruct (single (w_opts w)); [done|].
  destruct H as [|H]; [done|]. apply String.eqb_neq in H. by rewrite H.
Qed.

(** One directive of the grammar, up to its terminator. *)
Lemma parseLoop_directive n w ctx parsed d args t rest :
  (∀ x, ignored (w_opts w) x = false) →
  startsDirective (single (w_opts w)) d → Forall (λ a, inDirArgs a = true) args →
  inDirArgs t = false → w_tokens w = d :: args ++ t :: rest →
  ∃ w1, sameFrame w w1 ∧ w_tokens w1 = rest ∧
    (analyzeAccepts (w_dirs w) (stmtOf (fnameOf w) d args) (text t) ctx (strict (w_opts w)) (checkArgs (w_opts w)) →
     w_pld w1 = w_pld w) ∧
    parseLoop (S n) w ctx false parsed =
    ('(stmt, w2) ←
       (if isOpen t then
          '(blocks, w2) ← parseLoop n w1 (enterBlock (stmtOf (fnameOf w) d args) ctx) false [];
          Ok (set_Blocks (Some blocks) (stmtOf (fnameOf w) d args), w2)
        else Ok (stmtOf (fnameOf w) d args, w1));
     parseLoop n w2 ctx false
       (parsed ++ stmt :: (argComment (line d) <$> commentTexts args))).
Proof.
  intros Hig (Hc & Hh & Hinc) Hargs Ht Htok.
  cbn [parseLoop]. rewrite Htok, Hc, Hh. cbn [andb].
  change (w_tokens (set_w_tokens (args ++ t :: rest) w)) with (args ++ t :: rest).
  rewrite dirArgs_args by done. cbn [mbind res_bind app].
  rewrite Hig.
  change (if (_ =? "if")%string then _ else _) with (stmtOf (fnameOf w) d args).
  set (w1 := analyzeStmt _ _ _ _).
  destruct (analyzeStmt_frame (stmtOf (fnameOf w) d args) (text t) ctx
    (set_w_tokens rest (set_w_tokens (args ++ t :: rest) w))) as (E1 & E2 & E3 & E4).
  fold w1 in E1, E2, E3, E4. simpl in E1, E2, E3, E4.
  assert (Hd : Directive (stmtOf (fnameOf w) d args) = text d ∧
    Line (stmtOf (fnameOf w) d args) = line d).
  { unfold stmtOf. destruct (_ =? "if")%string; [|done].
    match goal with |- context [prepareIfArgs ?s] =>
      by destruct (prepareIfArgs_shape s) as (_ & _ & -> & ->) end. }
  exists w1. split; [done|]. split; [done|]. split.
  { exact (analyzeStmt_accepts _ _ _ (set_w_tokens rest (set_w_tokens (args ++ t :: rest) w))). }
  rewrite (handleInclude_skip (single (w_opts w))) by (rewrite ?E2, ?(proj1 Hd); done).
  cbn [mbind res_bind]. destruct (isOpen t); cbn [mbind res_bind].
  - destruct (parseLoop n w1 _ false []) as [[bs w2]| |]; [|done..]. cbn [mbind res_bind].
    simpl. by rewrite (proj2 Hd).
  - by rewrite (proj2 Hd).
Qed.

Lemma termOf_stmtOf fname d args : termOf (stmtOf fname d args) = ";".
Proof.
  unfold stmtOf. destruct (_ =? "if")%string; [|done].
  match goal with |- context [prepareIfArgs ?s] => destruct (prepareIfArgs_shape s) as (_ & Hb & _) end.
  unfold termOf. by rewrite Hb.
Qed.

Lemma isOpen_terminal t : isOpen t = true → inDirArgs t = false.
Proof. unfold isOpen, inDirArgs, checkTerminal. intros; reflect_bools. by rewrite H, H0. Qed.

Lemma isSemi_terminal t : isSemi t = true → inDirArgs t = false ∧ isOpen t = false.
Proof. unfold isSemi, isOpen, inDirArgs, checkTerminal. intros; reflect_bools. by rewrite H, H0. Qed.

Lemma seqEnd_length rest rest' : seqEnd rest rest' → (length rest' ≤ length rest)%nat.
Proof. destruct 1; simpl; lia. Qed.

(** [ts] parses to [ss]: whatever surrounds the tokens, the loop goes through
    them, adds the statements and stops at the end of the sequence. *)
Definition parsesTo (keep : bool) (fname : string) (one : bool) (ts : list token) (ss : list Stmt) : Prop :=
  ∀ n w ctx parsed rest rest',
    (∀ x, ignored (w_opts w) x = false) →
    keep = comments (w_opts w) → fname = fnameOf w → one = single (w_opts w) →
    w_tokens w = ts ++ rest → seqEnd rest rest' → (length (ts ++ rest) < n)%nat →
    ∃ w', parseLoop n w ctx false parsed = Ok (parsed ++ ss, w') ∧
      sameFrame w w' ∧ w_tokens w' = rest' ∧
      (blockAccepts (w_dirs w) (strict (w_opts w)) (checkArgs (w_opts w)) ctx ss → w_pld w' = w_pld w).

(** The same from a state that an earlier part of the run has reached. *)
Lemma parsesTo_frame keep fname one ts ss n w w1 ctx parsed rest rest' :
  parsesTo keep fname one ts ss → sameFrame w w1 →
  (∀ x, ignored (w_opts w) x = false) →
  keep = comments (w_opts w) → fname = fnameOf w → one = single (w_opts w) →
  w_tokens w1 = ts ++ rest → seqEnd rest rest' → (length (ts ++ rest) < n)%nat →
  ∃ w', parseLoop n w1 ctx false parsed = Ok (parsed ++ ss, w') ∧
    sameFrame w w' ∧ w_tokens w' = rest' ∧
    (blockAccepts (w_dirs w) (strict (w_opts w)) (checkArgs (w_opts w)) ctx ss → w_pld w' = w_pld w1).
Proof.
  intros H Hw Hig Hkeep Hfn Hone Htok Hend Hn. pose proof Hw as (Ho & _ & Hd).
  destruct (H n w1 ctx parsed rest rest') as (w' & H1 & H2 & H3 & H4);
    [by rewrite Ho|by rewrite Ho|by rewrite (fnameOf_frame w w1 Hw)|by rewrite Ho|done..|].
  exists w'. split_and!; [done|by etransitivity|done|]. intros Hb. apply H4. by rewrite Hd, Ho.
Qed.

Lemma parsesTo_nil keep fname one : parsesTo keep fname one [] [].
Proof.
  intros [|n] w ctx parsed rest rest' _ _ _ _ Htok Hend Hn; [lia|].
  rewrite app_nil_r. simpl in Htok. cbn [parseLoop]. rewrite Htok.
  destruct Hend as [|c rest Hc]; [by exists w|]. rewrite Hc. eexists. split; [done|]. done.
Qed.

Lemma isComment_not_close t : isComment t = true → isClose t = false.
Proof.
  unfold isComment, isClose. intros Hc. reflect_bools. destruct (text t =? "}")%string eqn:E; [|done].
  reflect_bools. rewrite E in H. vm_compute in H. done.
Qed.

Lemma parsesTo_comment keep fname one t ts ss : isComment t = true →
  parsesTo keep fname one ts ss →
  parsesTo keep fname one (t :: ts) (if keep then commentOf fname t :: ss else ss).
Proof.
  intros Hc IH [|n] w ctx parsed rest rest' Hig Hkeep Hfn Hone Htok Hend Hn; [simpl in Hn; lia|].
  cbn [parseLoop]. rewrite Htok. simpl. rewrite Hc, (isComment_not_close t Hc). simpl in Hn. rewrite <- Hkeep.
  destruct (IH n (set_w_tokens (ts ++ rest) w) ctx
    (if keep then parsed ++ [commentOf fname t] else parsed) rest rest') as (w' & H1 & H2 & H3 & H4);
    try done; [lia|].
  exists w'. split; [|split_and!; [done..|]].
  - destruct keep; [|done]. rewrite <- (assoc_L app), Hfn in H1. rewrite Hfn. exact H1.
  - intros Hb. apply H4. destruct keep; [by inversion Hb|done].
Qed.

Lemma parsesTo_simple keep fname one d args t ts ss :
  startsDirective one d → Forall (λ a, inDirArgs a = true) args → isSemi t = true →
  parsesTo keep fname one ts ss →
  parsesTo keep fname one (d :: args ++ t :: ts)
    (stmtOf fname d args :: (argComment (line d) <$> commentTexts args) ++ ss).
Proof.
  intros Hd Ha Ht IH [|n] w ctx parsed rest rest' Hig Hkeep Hfn Hone Htok Hend Hn; [simpl in Hn; lia|].
  assert (Ht3 : text t = termOf (stmtOf fname d args)) by (rewrite termOf_stmtOf; unfold isSemi in Ht; by reflect_bools).
  apply isSemi_terminal in Ht as [Ht1 Ht2]. rewrite <- app_comm_cons, <- (assoc_L app) in Htok.
  destruct (parseLoop_directive n w ctx parsed d args t (ts ++ rest)) as (w1 & Hw1 & Htk1 & Hp1 & ->);
    [done|by rewrite <- Hone|done..|].
  rewrite Ht2. cbn [mbind res_bind]. rewrite <- Hfn. simpl in Hn. rewrite !length_app in Hn. simpl in Hn.
  destruct (parsesTo_frame keep fname one ts ss n w w1 ctx
    (parsed ++ stmtOf fname d args :: (argComment (line d) <$> commentTexts args)) rest rest')
    as (w' & H1 & H2 & H3 & H4); try done; [rewrite length_app; lia|].
  exists w'. rewrite H1, <- (assoc_L app). split_and!; [done..|].
  intros [[Hs _]%stmtAccepts_eq [_ Hb]%Forall_app]%Forall_cons. rewrite H4 by done. apply Hp1. by rewrite <- Hfn, Ht3.
Qed.

Lemma parsesTo_block keep fname one d args t inner bs c ts ss :
  startsDirective one d → Forall (λ a, inDirArgs a = true) args → isOpen t = true →
  parsesTo keep fname one inner bs → isClose c = true → parsesTo keep fname one ts ss →
  parsesTo keep fname one (d :: args ++ t :: inner ++ c :: ts)
    (set_Blocks (Some bs) (stmtOf fname d args) :: (argComment (line d) <$> commentTexts args) ++ ss).
Proof.
  intros Hd Ha Ht IHin Hcl IH [|n] w ctx parsed rest rest' Hig Hkeep Hfn Hone Htok Hend Hn; [simpl in Hn; lia|].
  assert (Htok' : w_tokens w = d :: args ++ t :: inner ++ c :: ts ++ rest).
  { rewrite Htok. simpl. f_equal. rewrite <- (assoc_L app). simpl. by rewrite <- (assoc_L app). }
  destruct (parseLoop_directive n w ctx parsed d args t (inner ++ c :: ts ++ rest))
    as (w1 & Hw1 & Htk1 & Hp1 & ->); [done|by rewrite <- Hone|done|by apply isOpen_terminal|done|].
  rewrite Ht, <- Hfn.
  assert (Hlen : (length inner + S (length ts + length rest) < n)%nat).
  { simpl in Hn. rewrite !length_app in Hn. simpl in Hn. rewrite !length_app in Hn. simpl in Hn. lia. }
  destruct (parsesTo_frame keep fname one inner bs n w w1 (enterBlock (stmtOf fname d args) ctx) []
    (c :: ts ++ rest) (ts ++ rest)) as (w2 & H1 & H2 & H3 & Hp2); try done;
    [by constructor|rewrite length_app; simpl; rewrite length_app; lia|].
  rewrite H1. cbn [mbind res_bind].
  destruct (parsesTo_frame keep fname one ts ss n w w2 ctx (parsed ++ set_Blocks (Some bs) (stmtOf fname d args) ::
    (argComment (line d) <$> commentTexts args)) rest rest') as (w' & H4 & H5 & H6 & Hp3); try done;
    [rewrite length_app; lia|].
  exists w'. simpl. rewrite H4, <- (assoc_L app). split_and!; [done..|].
  intros [[Hs Hin]%stmtAccepts_eq [_ Hb]%Forall_app]%Forall_cons. rewrite Hp3 by done. rewrite Hp2 by (by apply Hin).
  apply Hp1. rewrite <- Hfn. unfold isOpen in Ht. reflect_bools.
  match goal with H : text t = "{" |- _ => by rewrite H end.
Qed.

Lemma parseLoop_gram keep fname one ts ss : gram keep fname one ts ss → parsesTo keep fname one ts ss.
Proof.
  induction 1; [apply parsesTo_nil|by apply parsesTo_comment|by apply parsesTo_simple|by apply parsesTo_block].
Qed.

(** C2: [parseInternal] implements the grammar. On the tokens of a sequence of
    statements, with any context and after any earlier calls, it returns (it
    neither panics nor runs on) with exactly the statements the grammar
    assigns, having read all the tokens. *)
Theorem parseInternal_grammar ts ss n w ctx :
  (∀ x, ignored (w_opts w) x = false) →
  gram (comments (w_opts w)) (fnameOf w) (single (w_opts w)) ts ss →
  w_tokens w = ts → (length ts < n)%nat →
  ∃ w', parseInternal n w ctx false = Ok (ss, w') ∧ w_tokens w' = [] ∧ w_opts w' = w_opts w.
Proof.
  intros Hig HG Ht Hn.
  destruct (parseLoop_gram _ _ _ ts ss HG n w ctx [] [] []) as (w' & H1 & [H2 _] & H3 & _);
    [done..|by rewrite app_nil_r|constructor|by rewrite app_nil_r|]. by exists w'.
Qed.

(** The parser always stops: with fuel above the number of tokens it
    returns or panics, whatever the tokens, options and files are. *)
Theorem parseInternal_terminates n w ctx consume :
  (length (w_tokens w) < n)%nat → finished (parseInternal n w ctx consume) = true.
Proof. apply parseLoop_finishes. Qed.

(** A directive that the end of the file cuts off is a crash, not a
    reported error: when no unquoted terminator follows it, the parser
    dereferences a nil token. *)
Theorem parseInternal_unterminated n w ctx d args :
  isClose d = false → isComment d = false → Forall (λ a, inDirArgs a = true) args →
  w_tokens w = d :: args →
  parseInternal (S n) w ctx false = Panic NilDereference.
Proof.
  intros Hc Hh Ha Ht. unfold parseInternal. simpl. rewrite Ht, Hc, Hh. simpl.
  assert (∀ a c, dirArgs args a c = Panic NilDereference) as ->; [|done]. clear Ht.
  induction Ha as [|t args Ha _ IH]; intros a c; simpl; [done|].
  rewrite Ha. destruct (isComment t); apply IH.
Qed.
End Facts.

(** ** The theorems at work *)

Definition noFiles : FileSystem := {| fs_Open _ := inr "no such file"; Glob _ := inl [] |}.

Definition startWorld (ts : list token) : world :=
  mkWorld ts (mkParsing "a.conf" "ok" [] []) defaultParseOpts (mkPayload "ok" [] []) directives.

Definition word (s : string) : token := mkToken s 1 false.

Lemma parseInternal_grammar_witness :
  let ts := [word "server"; word "{"; word "listen"; word "80"; word ";"; word "}"] in
  ∃ w', @parseInternal asciiOnly noFmt noFiles 7 (startWorld ts) ["http"] false =
    Ok ([mkStmt "server" "" 1 [] "" [] (Some [mkStmt "listen" "" 1 ["80"] "" [] None])], w') ∧
    w_tokens w' = [] ∧ w_opts w' = defaultParseOpts.
Proof.
  apply (@parseInternal_grammar asciiOnly noFmt noFiles
    [word "server"; word "{"; word "listen"; word "80"; word ";"; word "}"]
    [mkStmt "server" "" 1 [] "" [] (Some [mkStmt "listen" "" 1 ["80"] "" [] None])] 7
    (startWorld [word "server"; word "{"; word "listen"; word "80"; word ";"; word "}"]) ["http"]).
  - intros x. reflexivity.
  - refine (gram_block false "" false (word "server") [] (word "{")
      [word "listen"; word "80"; word ";"] [mkStmt "listen" "" 1 ["80"] "" [] None] (word "}") [] []
      _ _ _ _ _ _).
    + split; [reflexivity|]. split; [reflexivity|]. right. discriminate.
    + apply Forall_nil. exact I.
    + reflexivity.
    + refine (gram_simple false "" false (word "listen") [word "80"] (word ";") [] [] _ _ _ _).
      * split; [reflexivity|]. split; [reflexivity|]. right. discriminate.
      * apply Forall_cons. split; [reflexivity|]. apply Forall_nil. exact I.
      * reflexivity.
      * apply gram_end.
    + reflexivity.
    + apply gram_end.
  - reflexivity.
  - simpl. lia.
Defined.

Lemma parseInternal_terminates_witness :
  finished (@parseInternal asciiOnly noFmt noFiles 4
    (startWorld [word "}"; word "a"; word ";"]) [] true) = true.
Proof. apply (@parseInternal_terminates asciiOnly noFmt noFiles). simpl. lia. Defined.

Lemma parseInternal_unterminated_witness :
  @parseInternal asciiOnly noFmt noFiles 9 (startWorld [word "listen"; word "80"]) [] false =
  Panic NilDereference.
Proof.
  apply (@parseInternal_unterminated asciiOnly noFmt noFiles 8
    (startWorld [word "listen"; word "80"]) [] (word "listen") [word "80"]);
    [reflexivity|reflexivity| |reflexivity].
  apply Forall_cons. split; [reflexivity|]. apply Forall_nil. exact I.
Defined.
