(* ===== verification/Combine.v ===== *)
(** * Includes: the queue of files and their combination

    The places that include directives get in the queue are new, so the files
    form a forest ordered by their index; [performInclude] unfolds it. *)

From S2P Require Import Prelude GoStrings Lexer Directives Stmt Analyze Parse ParseFacts.

#[local] Open Scope nat_scope.

(** ** Where include indices lie *)

(** Every include index in the tree of the statement is at least [lo] and
    below [hi]. *)
#[warnings="-register-all"]
Inductive inclIn (lo hi : nat) (s : Stmt) : Prop :=
| inclIn_intro :
    Forall (λ i, lo ≤ i < hi) (Includes s) →
    (∀ b, Blocks s = Some b → Forall (inclIn lo hi) b) →
    inclIn lo hi s.

Lemma inclIn_mono lo lo' hi hi' s : lo' ≤ lo → hi ≤ hi' → inclIn lo hi s → inclIn lo' hi' s.
Proof.
  intros Hl Hh. induction s as [s IH] using Stmt_nested_ind. intros [Hi Hb]. split.
  - eapply Forall_impl; [exact Hi|]. simpl. lia.
  - intros b Eb. specialize (IH b Eb). specialize (Hb b Eb).
    rewrite Forall_forall in *. auto.
Qed.

Section Queue.
Context `{U : Unicode} `{F : Fmt} `{FS : FileSystem}.

(** The queue only grows, and nothing else of the options changes. *)
Definition queueGrows (o o' : parseOpts) : Prop :=
  ∃ ext m, o' = set_includes (includes o ++ ext) m o.

#[export] Instance queueGrows_preorder : PreOrder queueGrows.
Proof.
  split.
  - intros o. exists [], (included o). rewrite app_nil_r. by destruct o.
  - intros o1 o2 o3 (e1 & m1 & ->) (e2 & m2 & ->). exists (e1 ++ e2), m2.
    unfold set_includes. simpl. by rewrite (assoc_L app).
Qed.

Definition queueGrowsW (w w' : world) : Prop := queueGrows (w_opts w) (w_opts w').

#[export] Instance queueGrowsW_preorder : PreOrder queueGrowsW.
Proof.
  unfold queueGrowsW. split.
  - intros w. reflexivity.
  - intros w1 w2 w3 H1 H2. by etransitivity.
Qed.

Lemma queueGrows_length o o' : queueGrows o o' → length (includes o) ≤ length (includes o').
Proof. intros (e & m & ->). simpl. rewrite length_app. lia. Qed.

Lemma parseInternal_queue n w ctx consume r w' base :
  base ≤ length (includes (w_opts w)) →
  parseInternal n w ctx consume = Ok (r, w') →
  queueGrows (w_opts w) (w_opts w') ∧
  Forall (inclIn base (length (includes (w_opts w')))) r.
Proof.
  intros Hb H.
  apply (parseLoop_inv queueGrowsW (λ w, base ≤ length (includes (w_opts w)))
    (λ w, inclIn base (length (includes (w_opts w))))) in H; try done.
  - intros w0 w1 HR. apply queueGrows_length in HR. lia.
  - intros w0 it _. unfold queueGrowsW. reflexivity.
  - intros s t ctx0 w0. unfold queueGrowsW. destruct (analyzeStmt_frame s t ctx0 w0) as (_ & -> & _). reflexivity.
  - intros s ctx0 w0 s' w1 HI Hi Hbl H1.
    apply handleInclude_frame in H1 as (_ & _ & _ & Hb' & _ & ext & m & Ho & Hs); [|done].
    unfold queueGrowsW. rewrite Ho, Hb', Hbl. split; [by eexists _, _|]. split; [|done].
    split; [|by rewrite Hb', Hbl]. rewrite Hs. apply Forall_forall. intros i Hin.
    apply elem_of_seq in Hin. simpl. rewrite length_app. lia.
  - intros w0 w1 s HR. apply inclIn_mono; [done|]. by apply queueGrows_length.
  - intros w0 s Hi Hbl. split; [by rewrite Hi|by rewrite Hbl].
  - intros w0 s b Hbl [Hi _] Hf. split; [done|]. by intros b' [= <-].
Qed.

(** ** The loop over the files *)

(** Each file read so far includes only files behind it in the queue. *)
Definition configForward (hi : nat) (config : list (option parsingContext)) : Prop :=
  ∀ i p, config !! i = Some (Some p) → Forall (inclIn (S i) hi) (Parsed p).

Definition parseInv (s : parseState) : Prop :=
  length (Config (st_pld s)) = st_idx s ∧ st_idx s ≤ length (includes (st_opts s)) ∧
  0 < length (includes (st_opts s)) ∧
  configForward (length (includes (st_opts s))) (Config (st_pld s)).

Lemma handleErr_config e w : Config (w_pld (handleErr e w)) = Config (w_pld w).
Proof. unfold handleErr. simpl. by destruct (errHandler _). Qed.

Definition sameConfig (w w' : world) : Prop := Config (w_pld w') = Config (w_pld w).

#[export] Instance sameConfig_preorder : PreOrder sameConfig.
Proof. unfold sameConfig. split; [by intros w|intros w1 w2 w3 -> ->; done]. Qed.

Lemma parseInternal_config n w ctx consume r w' :
  parseInternal n w ctx consume = Ok (r, w') → Config (w_pld w') = Config (w_pld w).
Proof.
  intros H. apply (parseLoop_inv sameConfig (λ _, True) (λ _ _, True)) in H as [? _]; try done.
  - intros s t ctx0 w0. unfold sameConfig, analyzeStmt.
    destruct (analyze _ _ _ _ _ _ _ _) as [[e|] d]; [|done]. by rewrite handleErr_config.
  - intros s ctx0 w0 s' w1 _ Hi Hb H1. split.
    2: { apply handleInclude_frame in H1 as (_ & _ & _ & -> & _); done. }
    unfold handleInclude in H1. destruct (_ && _); [|by injection H1 as <- <-].
    inv_bind. destruct (includeFiles _ _ _ _) as [fs [e|]], (enqueueFiles _ _ _ _);
      injection H1 as <- <-; unfold sameConfig; simpl; [apply handleErr_config|done].
Qed.

Lemma parseInclude_queue n o pld dirs f r o' pld' dirs' :
  parseInclude n o pld dirs f = Ok (r, o', pld', dirs') →
  queueGrows o o' ∧ Config pld' = Config pld ∧
  ∀ p, r = inl p → Forall (inclIn (length (includes o)) (length (includes o'))) (Parsed p).
Proof.
  unfold parseInclude. destruct (fs_Open (name f)) as [content|msg].
  2: { intros [= <- <- <- <-]. split; [reflexivity|done]. }
  intros H. inv_bind. destruct a as [toks|err].
  2: { injection H as <- <- <- <-. split; [reflexivity|done]. }
  inv_bind. destruct a as [parsed w]. injection H as <- <- <- <-.
  pose proof (parseInternal_config _ _ _ _ _ _ H1) as Hc.
  apply (parseInternal_queue _ _ _ _ _ _ (length (includes o))) in H1 as [Hq Hf]; [|done].
  split; [done|]. split; [done|]. intros p [= <-]. done.
Qed.

Lemma parseStep_inv n s s' : parseInv s → parseStep n s = Ok (inl s') → parseInv s'.
Proof.
  intros (Hl & Hi & _ & Hf). unfold parseStep.
  destruct (includes (st_opts s) !! st_idx s) as [f|] eqn:Ef; [|done].
  apply lookup_lt_Some in Ef. intros H. inv_bind. destruct a as [[[r o] pld] dirs].
  injection H as <-. apply parseInclude_queue in H0 as (Hq & Hc & Hp).
  apply queueGrows_length in Hq. unfold parseInv. simpl.
  assert (Hpc : Config (match r with inl _ => pld | inr err => payload_fail err pld end)
    = Config (st_pld s)) by (by destruct r). rewrite Hpc, length_app. simpl.
  split; [lia|]. split; [lia|]. split; [lia|].
  intros i p Hlk. apply lookup_app_Some in Hlk as [Hlk|[Hge Hlk]].
  - eapply Forall_impl; [by apply Hf|]. intros x. apply inclIn_mono; lia.
  - apply list_lookup_singleton_Some in Hlk as [Hz [= Hr]]. destruct r as [p'|]; [|done].
    injection Hr as ->. eapply Forall_impl; [by apply Hp|]. intros x. apply inclIn_mono; lia.
Qed.

Lemma parseFiles_inv n s s' : parseInv s → parseFiles n s = Ok s' →
  parseInv s' ∧ st_idx s' = length (includes (st_opts s')).
Proof.
  apply (go_for_invariant _ parseInv (λ s', parseInv s' ∧ st_idx s' = length (includes (st_opts s')))).
  - intros k s0 s1. apply parseStep_inv.
  - intros k s0 s1 HI H. unfold parseStep in H.
    destruct (includes (st_opts s0) !! st_idx s0) eqn:E; [inv_bind; by destruct a as [[[? ?] ?] ?]|].
    injection H as <-. split; [done|]. apply lookup_ge_None in E. destruct HI as (_ & ? & _). lia.
Qed.

Lemma parseInit_inv filename o dirs : parseInv (parseInit filename o dirs).
Proof.
  split; [done|]. split; simpl; [lia|]. split; [rewrite length_app; simpl; lia|].
  intros i p H. done.
Qed.
End Queue.

(** ** The unfolding of includes *)

(** How deep the blocks of a statement are nested. *)
Fixpoint stmtDepth (s : Stmt) : nat :=
  match Blocks s with
  | None => 0
  | Some b => S (foldr (λ x m, stmtDepth x `max` m) 0 b)
  end.
Definition blockDepth (b : list Stmt) : nat := foldr (λ x m, stmtDepth x `max` m) 0 b.

Lemma blockDepth_elem s b : s ∈ b → stmtDepth s ≤ blockDepth b.
Proof. induction 1; simpl; lia. Qed.

Lemma stmtDepth_block s b : Blocks s = Some b → stmtDepth s = S (blockDepth b).
Proof. destruct s. simpl. by intros ->. Qed.

(** No statement of the tree stands for other files. *)
Definition inclFree : Stmt → Prop := inclIn 0 0.

(** [expands config s out]: the statement [s] becomes the statements [out]
    when every include is replaced by the files it stands for. *)
#[warnings="-register-all"]
Inductive expands (config : list (option parsingContext)) : Stmt → list Stmt → Prop :=
| expands_plain s : Includes s = [] → Blocks s = None → expands config s [s]
| expands_block s b outs :
    Includes s = [] → Blocks s = Some b → Forall2 (expands config) b outs →
    expands config s [set_Blocks (nilSlice (concat outs)) s]
| expands_files s ps outs :
    Includes s ≠ [] →
    Forall2 (λ i p, config !! i = Some (Some p)) (Includes s) ps →
    Forall2 (λ p out, ∃ os, Forall2 (expands config) (Parsed p) os ∧ out = concat os) ps outs →
    expands config s (concat outs).

Lemma nilSlice_Some {A} (l b : list A) : nilSlice l = Some b → b = l.
Proof. by destruct l; intros [= <-]. Qed.

Section Unfold.
Context (config : list (option parsingContext)) (D : nat).
Hypothesis all_read : Forall is_Some config.
Hypothesis forward : configForward (length config) config.
Hypothesis D_bound : ∀ i p, config !! i = Some (Some p) → blockDepth (Parsed p) < D.

Definition unfolded (b out : list Stmt) : Prop :=
  ∃ outs, Forall2 (expands config) b outs ∧ out = concat outs ∧ Forall inclFree out.

Lemma unfolded_of b outs :
  Forall2 (λ s o, expands config s o ∧ Forall inclFree o) b outs → unfolded b (concat outs).
Proof.
  intros H. exists outs. split; [|split; [done|]].
  - eapply Forall2_impl; [exact H|]. naive_solver.
  - apply Forall_concat. induction H; constructor; naive_solver.
Qed.

Lemma performInclude_total n lo block :
  Forall (inclIn lo (length config)) block →
  (length config - lo) * D + blockDepth block < n →
  ∃ out, performInclude n config block = Ok out ∧ unfolded block out.
Proof.
  revert lo block. induction n as [|n IH]; intros lo block Hb Hn; [by apply Nat.nlt_0_r in Hn|].
  cbn [performInclude].
  match goal with |- context [go_concat_map ?f block] =>
    destruct (go_concat_map_Ok f (λ s o, expands config s o ∧ Forall inclFree o) block)
      as (outs & -> & H) end; [|eauto using unfolded_of].
  apply Forall_forall. intros s Hs. rewrite Forall_forall in Hb. destruct (Hb s Hs) as [Hi HB].
  assert (∃ s', match Blocks s with
     | Some b => b' ← performInclude n config b; Ok (set_Blocks (nilSlice b') s)
     | None => Ok s end = Ok s' ∧ Includes s' = Includes s ∧
     (Includes s = [] → expands config s [s'] ∧ inclFree s')) as (s' & Hs' & Hi' & He).
  { destruct (Blocks s) as [b|] eqn:Eb.
    - destruct (IH lo b) as (out & Ho & outs & HF & -> & Hfree); [by apply HB| |].
      { pose proof (blockDepth_elem s block Hs). rewrite (stmtDepth_block s b Eb) in H. lia. }
      rewrite Ho. simpl. eexists. split; [done|]. split; [done|]. intros Hn0.
      split; [by eapply expands_block|]. split; simpl; [by rewrite Hn0|].
      intros b' Hb'. apply nilSlice_Some in Hb' as ->. done.
    - exists s. split; [done|]. split; [done|]. intros Hn0.
      split; [by constructor|]. split; [by rewrite Hn0|by rewrite Eb]. }
  rewrite Hs'. cbn [mbind res_bind]. rewrite Hi'. case_decide as Hd.
  { destruct (He Hd). exists [s']. auto. }
  match goal with |- context [go_concat_map ?f (Includes s)] =>
    destruct (go_concat_map_Ok f (λ i o, ∃ p, config !! i = Some (Some p) ∧ unfolded (Parsed p) o)
      (Includes s)) as (outs2 & -> & H) end.
  { eapply Forall_impl; [exact Hi|]. simpl. intros i Hrange. unfold go_index.
    destruct (lookup_lt_is_Some_2 config i) as [c Hc]; [lia|]. rewrite Hc. simpl.
    pose proof (Forall_lookup_1 _ _ _ _ all_read Hc) as [p ->].
    pose proof (D_bound _ _ Hc).
    assert (S (length config - S i) * D ≤ (length config - lo) * D)
      by (apply Nat.mul_le_mono_r; lia).
    destruct (IH (S i) (Parsed p)) as (out & Ho & HU); [by apply forward|lia|eauto]. }
  exists (concat outs2). split; [done|]. split.
  - assert (∃ ps, Forall2 (λ i p, config !! i = Some (Some p)) (Includes s) ps ∧
      Forall2 (λ p out, ∃ os, Forall2 (expands config) (Parsed p) os ∧ out = concat os) ps outs2)
      as (ps & H1 & H2); [|by eapply expands_files].
    clear -H. induction H as [|i o idxs outs (p & Hp & os & HF & -> & _) _ (ps & H1 & H2)].
    + by exists [].
    + exists (p :: ps). split; constructor; eauto.
  - apply Forall_concat. clear -H.
    induction H as [|i o idxs outs (p & Hp & os & HF & -> & Hf) _ IHl]; constructor; auto.
Qed.
End Unfold.

(** ** The whole of [parse] *)

Section Whole.
Context `{U : Unicode} `{F : Fmt} `{FS : FileSystem}.

(** Fuel that is enough to put the files together. *)
Definition combineFuel (config : list (option parsingContext)) : nat :=
  let D := S (foldr (λ c m, match c with Some p => blockDepth (Parsed p) `max` m | None => m end)
                0 config) in
  S (length config * D + D).

Lemma combineErrors_Ok config errs status :
  Forall is_Some config → ∃ r, combineErrors config errs status = Ok r.
Proof.
  intros H. revert errs status. induction H as [|c cs [p ->] _ IH]; intros errs status; simpl; eauto.
Qed.

Lemma combineErrors_fails config errs status :
  ¬ Forall is_Some config → combineErrors config errs status = Panic NilDereference.
Proof.
  revert errs status. induction config as [|[p|] cs IH]; intros errs status H; simpl.
  - by destruct H.
  - apply IH. intros H1. apply H. by constructor.
  - done.
Qed.

Lemma blockDepth_config config i p :
  config !! i = Some (Some p) →
  blockDepth (Parsed p) <
  S (foldr (λ c m, match c with Some p => blockDepth (Parsed p) `max` m | None => m end) 0 config).
Proof.
  revert i. induction config as [|c cs IH]; intros i H; [done|]. destruct i as [|i]; simpl in *.
  - injection H as ->. lia.
  - apply IH in H. destruct c; lia.
Qed.

(** C4: with the combine option, when every file of the queue could be read,
    the files are put together into one context: [combineParsedConfig] returns
    (its recursion through the files ends, and no index or pointer is out of
    place), the statements are the unfolding of the main file, and no include
    that stands for files is left anywhere in them. *)
Theorem parse_combined n filename o dirs s fuel :
  parseFiles n (parseInit filename o dirs) = Ok s →
  Forall is_Some (Config (st_pld s)) →
  combineFuel (Config (st_pld s)) ≤ fuel →
  ∃ c0 errs status out,
    head (Config (st_pld s)) = Some (Some c0) ∧
    combineParsedConfig fuel (st_pld s) =
      Ok (mkPayload (pld_Status (st_pld s)) (pld_Errors (st_pld s))
            [Some (mkParsing (File c0) status errs out)]) ∧
    unfolded (Config (st_pld s)) (Parsed c0) out.
Proof.
  intros HP Hall Hfuel.
  apply parseFiles_inv in HP as [(Hl & _ & Hpos & Hfw) Hend]; [|apply parseInit_inv].
  rewrite <- Hend, <- Hl in Hfw, Hpos.
  set (config := Config (st_pld s)) in *.
  destruct config as [|[c0|] cs] eqn:Ec; [simpl in Hpos; lia| |by inversion Hall as [|? ? []]].
  rewrite <- Ec in *. clear Hl.
  destruct (combineErrors_Ok config [] "ok" Hall) as [[errs status] HE].
  assert (H0 : config !! 0 = Some (Some c0)) by (by rewrite Ec).
  destruct (performInclude_total config _ Hall Hfw (blockDepth_config config) fuel 1 (Parsed c0))
    as (out & Ho & HU); [by apply Hfw| |].
  { pose proof (blockDepth_config config 0 c0 H0). unfold combineFuel in Hfuel. nia. }
  exists c0, errs, status, out. split; [by rewrite Ec|]. split; [|done].
  unfold combineParsedConfig. subst config. unfold go_index. rewrite H0. simpl. rewrite HE. simpl.
  by rewrite Ho.
Qed.

(** An include that cannot be read turns the combination into a crash:
    when some file of the queue gave an error, [combineParsedConfig]
    dereferences the nil context that was recorded for it. *)
Theorem parse_combine_unreadable fuel p :
  ¬ Forall is_Some (Config p) → combineParsedConfig fuel p = Panic NilDereference.
Proof.
  intros H. pose proof (combineErrors_fails (Config p) [] "ok" H) as HE.
  unfold combineParsedConfig, go_index.
  destruct (Config p) as [|[c0|] cs]; [by destruct H| |done].
  cbn -[combineErrors]. by rewrite HE.
Qed.
End Whole.

(** ** A file that includes itself *)

Section SelfInclude.
Context `{U : Unicode} `{F : Fmt} `{FS : FileSystem}.
Definition selfText : string := "include loop.conf;" +:+ runeString r_nl.
Hypothesis self_content : fs_Open "loop.conf" = inl selfText.

Definition selfQueue (s : parseState) : Prop :=
  (∃ ctx, includes (st_opts s) !! st_idx s = Some (mkFileCtx "loop.conf" ctx)) ∧
  length (includes (st_opts s)) = S (st_idx s) ∧
  single (st_opts s) = false ∧ ignored (st_opts s) "include" = false.

Definition selfTokens : list token :=
  [mkToken "include" 1 false; mkToken "loop.conf" 1 false; mkToken ";" 1 false].

Lemma selfText_tokens n :
  lex n selfText "loop.conf" = OutOfFuel ∨ lex n selfText "loop.conf" = Ok (inl selfTokens).
Proof.
  destruct (finished (lex n selfText "loop.conf")) eqn:Hf.
  - right. transitivity (lex 40 selfText "loop.conf"); [|vm_compute; reflexivity].
    apply (stable_agree (λ n (_ : unit), lex n selfText "loop.conf") n 40 tt);
      [apply lex_stable|done|vm_compute; reflexivity].
  - left. by destruct (lex n selfText "loop.conf").
Qed.

Lemma selfStep n s : selfQueue s →
  parseStep n s = OutOfFuel ∨ ∃ s', parseStep n s = Ok (inl s') ∧ selfQueue s'.
Proof.
  intros ((ctx & Hq) & Hlen & Hs & Hig). unfold parseStep. rewrite Hq.
  unfold parseInclude. simpl. rewrite self_content.
  destruct (selfText_tokens n) as [->| ->]; [by left|]. simpl.
  destruct n as [|[|n]]; [by left|..].
  all: unfold parseInternal; cbn [parseLoop w_tokens selfTokens].
  all: simpl; rewrite Hig; unfold analyzeStmt; simpl.
  all: destruct (analyze _ _ _ _ _ _ _ _) as [e d].
  all: unfold handleInclude; destruct e; simpl; rewrite Hs; simpl; unfold includeFiles; rewrite self_content; simpl.
  1, 2: by left.
  all: right; eexists; split; [done|].
  all: split; [exists ctx; simpl; by rewrite list_lookup_middle|].
  all: split; [simpl; rewrite length_app; simpl; lia|done].
Qed.

(** A configuration file that includes itself is never parsed: every turn
    of the loop over the queue puts the file at the end of the queue again, so
    that no fuel is enough. The map of files already included is written and
    never consulted. *)
Theorem parse_self_include_diverges n o dirs :
  single o = false → ignored o "include" = false → includes o = [] →
  parse n "loop.conf" o dirs = OutOfFuel.
Proof.
  intros Hs Hig Hi. unfold parse, parseFiles.
  assert (go_for parseStep n (parseInit "loop.conf" o dirs) = OutOfFuel) as ->; [|done].
  apply (stuck_diverges parseStep selfQueue selfStep).
  unfold parseInit. rewrite Hi. split; [by exists []|]. done.
Qed.
End SelfInclude.

(** A file system with that one file. *)
Definition selfFS : FileSystem := {|
  fs_Open f := if (f =? "loop.conf")%string then inl selfText else inr "no such file";
  Glob p := inl [] |}.

Lemma parse_self_include_diverges_witness :
  @parse asciiOnly noFmt selfFS 1000 "loop.conf" defaultParseOpts directives = OutOfFuel.
Proof.
  apply (@parse_self_include_diverges asciiOnly noFmt selfFS); reflexivity.
Defined.

(** Two files, the first of which includes the second. *)
Definition twoFiles : FileSystem := {|
  fs_Open f := if (f =? "main.conf")%string then inl "http { include inner.conf; }"
               else if (f =? "inner.conf")%string then inl "server { listen 80; }"
               else inr "no such file";
  Glob p := inl [] |}.

Definition combineOpts : parseOpts :=
  {| catchErr := true; ignore := None; single := false; strict := false; comments := false;
     combine := true; checkCtx := true; checkArgs := true; configDir := ""; includes := [];
     included := ∅; errHandler := false |}.

Definition twoFilesState : parseState :=
  match @parseFiles asciiOnly noFmt twoFiles 60 (parseInit "main.conf" combineOpts ∅) with
  | Ok s => s
  | _ => parseInit "main.conf" combineOpts ∅
  end.

Lemma parse_combined_witness :
  ∃ c0 errs status out,
    head (Config (st_pld twoFilesState)) = Some (Some c0) ∧
    combineParsedConfig 100 (st_pld twoFilesState) =
      Ok (mkPayload (pld_Status (st_pld twoFilesState)) (pld_Errors (st_pld twoFilesState))
            [Some (mkParsing (File c0) status errs out)]) ∧
    unfolded (Config (st_pld twoFilesState)) (Parsed c0) out.
Proof.
  apply (@parse_combined asciiOnly noFmt twoFiles 60 "main.conf" combineOpts ∅ twoFilesState 100).
  - vm_compute. reflexivity.
  - apply forallb_Forall_is_Some. vm_compute. reflexivity.
  - vm_compute. lia.
Defined.

Lemma parse_combine_unreadable_witness :
  combineParsedConfig 10 (mkPayload "failed" [io_EOF] [None]) = Panic NilDereference.
Proof.
  apply parse_combine_unreadable. intros H. simpl in H. apply Forall_cons in H as [[p Hp] _].
  discriminate Hp.
Defined.
