(* ===== verification/Build.v ===== *)
(** * The printer (src/config_build.go and luaLexer.build of src/config_lex.go)

    [build] prints statements as a configuration file. *)

From S2P Require Import Prelude GoStrings Lexer Directives Stmt.

#[local] Open Scope Z_scope.

(** ** Rune iterators *)

(** [runeIter]: the runes that [next] has not returned yet. *)
Definition runeIter : Type := list rune.

(** [runeIter.next] and [runeIter.peek]; [true] stands for [io.EOF]. *)
Definition runeIter_next (r : runeIter) : rune * bool * runeIter :=
  match r with [] => (0, true, []) | ch :: r' => (ch, false, r') end.
Definition runeIter_peek (r : runeIter) : rune * bool :=
  match r with [] => (0, true) | ch :: _ => (ch, false) end.

(** ** Quoting *)

(** The loop of [escape] over the runes of the source. *)
Fixpoint escapeLoop (src : list rune) (prev ch : rune) (buf : list rune) : rune * list rune :=
  match src with
  | [] => (ch, buf)
  | ch :: src =>
    if (prev =? r_bslash) || ((ch =? r_lbrace) && (prev =? r_dollar)) then
      escapeLoop src ch ch (buf ++ [prev; ch])
    else
      let buf := if prev =? r_dollar then buf ++ [prev] else buf in
      let buf := if negb (ch =? r_bslash) && negb (ch =? r_dollar) then buf ++ [ch] else buf in
      escapeLoop src ch ch buf
  end.

Definition escape (src : string) : list rune :=
  let '(ch, buf) := escapeLoop (utf8Decode src) 0 0 [] in
  if (ch =? r_bslash) || (ch =? r_dollar) then buf ++ [ch] else buf.

Definition escapeToIter (s : string) : runeIter := escape s.

Definition check01 (ch : rune) : bool :=
  IsSpace ch || ((ch =? r_lbrace) || (ch =? r_rbrace) || (ch =? r_semi) ||
                 (ch =? r_dquote) || (ch =? r_squote)).

Definition check002 (it : runeIter) (ch : rune) (expanding : bool) : bool :=
  if expanding then (ch =? r_dollar) && (fst (runeIter_peek it) =? r_dollar)
  else ch =? r_rbrace.

Definition check003 (it : runeIter) (ch : rune) (expanding : bool) : bool :=
  if expanding then ch =? r_rbrace
  else (ch =? r_dollar) && (fst (runeIter_peek it) =? r_dollar).

(** The loop of [needsQuote], from the point where the next rune is read.  At
    the end the rune in hand is the zero that [next] returns with [io.EOF]. *)
Fixpoint needsQuoteLoop (it : runeIter) (expanding : bool) : bool :=
  match it with
  | [] =>
    let ch := fst (fst (runeIter_next [])) in
    if (ch =? r_bslash) || (ch =? r_dollar) then true else expanding
  | ch :: it =>
    if check01 ch then true
    else if check002 it ch expanding then true
    else needsQuoteLoop it (if check003 it ch expanding then negb expanding else expanding)
  end.

Definition needsQuote (s : string) : bool :=
  if (s =? "")%string then true
  else
    let '(ch, err, it) := runeIter_next (escapeToIter s) in
    if (err : bool) then false
    else if check01 ch then true
    else if (ch =? r_dollar) && (fst (runeIter_peek it) =? r_lbrace) then true
    else needsQuoteLoop it false.

(** [n] backslashes. *)
Fixpoint bslashes (n : nat) : string :=
  match n with O => "" | S n' => str1 r_bslash +:+ bslashes n' end.

Section Build.
Context `{U : Unicode}.

Definition enquote (arg : string) : string :=
  if negb (needsQuote arg) then arg
  else Quote (Replace arg (bslashes 4) (bslashes 2)).

(** ** Blocks *)

Definition defaultCustomBuilder : gmap string customLexer :=
  foldl (λ m directive, <[directive := luaLexer]> m) ∅ luaLexer_directives.

(** [luaLexer.build]. *)
Definition luaLexer_build (buf : string) (stmt : Stmt) : string :=
  let buf := buf +:+ Directive stmt in
  if (Directive stmt =? "set_by_lua_block")%string then
    let buf := match Args stmt with a0 :: _ => buf +:+ " " +:+ a0 | [] => buf end in
    match Args stmt with
    | _ :: a1 :: _ => buf +:+ " {" +:+ a1 +:+ "}"
    | _ => buf
    end
  else
    match Args stmt with
    | a0 :: _ => buf +:+ " {" +:+ a0 +:+ "}"
    | [] => buf
    end.

Definition customBuilder_build (c : customLexer) (buf : string) (stmt : Stmt) : string :=
  match c with luaLexer => luaLexer_build buf stmt end.

(** [margin]. *)
Fixpoint spaces (n : nat) : string :=
  match n with O => "" | S n' => String (zbyte r_sp) (spaces n') end.
Definition margin (padding depth : Z) : string := spaces (Z.to_nat (padding * depth)).

Definition newline : string := runeString r_nl.

(** A directive and its arguments, without its terminator. *)
Definition buildHead (directive : string) (args : list string) : string :=
  let args := enquote <$> args in
  if (directive =? "if")%string then " if" +:+ Join args " " +:+ ")"
  else match args with
       | [] => directive
       | _ => directive +:+ " " +:+ Join args " "
       end.

(** The loop of [buildBlock]; [built] gives the text of a statement that is
    not a comment. *)
Section Loop.
Context (built : Stmt → string) (m : string).

Fixpoint buildLoop (block : list Stmt) (output : string) (lastLine : Z) : string :=
  match block with
  | [] => output
  | stmt :: rest =>
    let directive := enquote (Directive stmt) in
    if (directive =? "#")%string && (Line stmt =? lastLine) then
      buildLoop rest (output +:+ " #" +:+ Comment stmt) lastLine
    else
      let text := if (directive =? "#")%string then " #" +:+ Comment stmt else built stmt in
      let output := if (output =? "")%string then output else output +:+ newline in
      buildLoop rest (output +:+ m +:+ text) (Line stmt)
  end.
End Loop.

(** The text of a statement that is not a comment: a custom builder's, or the
    directive with its block or a semicolon. *)
Fixpoint buildStmt (custom : gmap string customLexer) (padding depth : Z) (stmt : Stmt) : string :=
  let directive := enquote (Directive stmt) in
  match custom !! directive with
  | Some c => customBuilder_build c "" stmt
  | None =>
    let built := buildHead directive (Args stmt) in
    match Blocks stmt with
    | Some b =>
      buildLoop (buildStmt custom padding (depth + 1)) (margin padding (depth + 1))
        b (built +:+ " {") (Line stmt)
        +:+ newline +:+ margin padding depth +:+ "}"
    | None => built +:+ ";"
    end
  end.

Definition buildBlock (output : string) (custom : gmap string customLexer) (block : list Stmt)
    (padding depth lastLine : Z) : string :=
  buildLoop (buildStmt custom padding depth) (margin padding depth) block output lastLine.

Definition headerText : string :=
  "# This config was built from JSON using NGINX crossplane." +:+ newline +:+
  str1 9 +:+ str1 9 +:+ "# If you encounter any bugs please report them here:" +:+ newline +:+
  str1 9 +:+ str1 9 +:+ "# https://github.com/nginxinc/crossplane/issues" +:+ newline +:+
  str1 9 +:+ str1 9.

Definition build (p : list Stmt) (indent : Z) (header : bool) : string :=
  let o := if header then headerText else "" in
  buildBlock o defaultCustomBuilder p indent 0 0.
End Build.
