(* ===== verification/Quoting.v ===== *)
(** * Quoting (src/config_build.go: escape, needsQuote, enquote)

    What [enquote] does with a text without backslashes: it leaves the text
    alone when no rune of it has a meaning in the syntax, and otherwise puts it
    between double quotes. *)

From S2P Require Import Prelude GoStrings Lexer Stmt Build.

#[local] Open Scope Z_scope.

(** ** Bytes of a text *)

Lemma hasByte_runes c rs :
  0 ≤ c < 128 → hasByte c (runesString rs) = false → Forall (λ r, r ≠ c) rs.
Proof.
  intros Hc. induction rs as [|r rs IH]; [constructor|].
  rewrite runesString_cons, hasByte_app, orb_false_iff. intros [H1 H2].
  constructor; [|auto]. intros ->. unfold runeString in H1.
  replace ((0 <=? c) && (c <=? 0x7F)) with true in H1 by lia. simpl in H1.
  rewrite byteZ_zbyte, Z.eqb_refl in H1 by lia. done.
Qed.

Lemma runes_length rs : (length rs ≤ String.length (runesString rs))%nat.
Proof.
  induction rs as [|r rs IH]; [simpl; lia|]. rewrite runesString_cons, string_length_app.
  pose proof (runeString_nonempty r). destruct (runeString r); simpl in *; [done|lia].
Qed.

(** ** [strings.Replace] *)

Lemma replaceAll_absent n s new k :
  hasByte r_bslash s = false → replaceAll n s (bslashes (S k)) new = s.
Proof.
  revert s. induction n as [|n IH]; intros s H; [done|]. destruct s as [|a s]; [done|].
  simpl in H. apply orb_false_iff in H as [Ha H]. cbn [replaceAll].
  assert (HasPrefix (String a s) (bslashes (S k)) = false) as ->; [|by rewrite IH].
  cbn [bslashes]. unfold str1. rewrite string_app_cons. cbn [HasPrefix].
  rewrite byteZ_zbyte by lia. by rewrite Z.eqb_sym, Ha.
Qed.

Lemma Replace_absent s new k :
  hasByte r_bslash s = false → Replace s (bslashes (S k)) new = s.
Proof. apply replaceAll_absent. Qed.

(** ** [escape] *)

Definition dollarTail (r : rune) : list rune := if r =? r_dollar then [r] else [].

Lemma escapeLoop_spec src prev buf :
  Forall (λ r, r ≠ r_bslash) src → prev ≠ r_bslash →
  let '(ch, buf') := escapeLoop src prev prev buf in
  ch ≠ r_bslash ∧ buf' ++ dollarTail ch = buf ++ dollarTail prev ++ src.
Proof.
  intros Hs. revert prev buf. induction Hs as [|ch src Hch Hs IH]; intros prev buf Hp; simpl.
  - by rewrite app_nil_r.
  - rewrite (proj2 (Z.eqb_neq prev _) Hp), (proj2 (Z.eqb_neq ch r_bslash) Hch). simpl.
    destruct ((ch =? r_lbrace) && (prev =? r_dollar)) eqn:E.
    + reflect_bools. subst. specialize (IH r_lbrace (buf ++ [r_dollar; r_lbrace]) Hch).
      destruct (escapeLoop _ _ _ _). destruct IH as [? ->]. split; [done|].
      simpl. by rewrite <- (assoc_L app).
    + specialize (IH ch (if negb (ch =? r_dollar)
        then (if prev =? r_dollar then buf ++ [prev] else buf) ++ [ch]
        else if prev =? r_dollar then buf ++ [prev] else buf) Hch).
      destruct (escapeLoop _ _ _ _). destruct IH as [? ->]. split; [done|].
      unfold dollarTail. destruct (ch =? r_dollar), (prev =? r_dollar); simpl;
        rewrite <- ?(assoc_L app); done.
Qed.

Lemma escape_plain s :
  validText s → hasByte r_bslash s = false → escape s = utf8Decode s.
Proof.
  intros Hv Hb. destruct Hv as (rs & Hrs & ->). unfold escape.
  rewrite utf8Decode_runesString by done. apply hasByte_runes in Hb; [|lia].
  pose proof (escapeLoop_spec rs 0 [] Hb ltac:(done)) as H.
  destruct (escapeLoop rs 0 0 []) as [ch buf]. destruct H as [Hch H]. simpl in H.
  rewrite (proj2 (Z.eqb_neq ch _) Hch). simpl. rewrite <- H. unfold dollarTail.
  destruct (ch =? r_dollar); [done|]. by rewrite app_nil_r.
Qed.

(** ** [needsQuote] *)

Lemma needsQuoteLoop_false it e :
  needsQuoteLoop it e = false → Forall (λ r, check01 r = false) it.
Proof.
  revert e. induction it as [|ch it IH]; intros e H; [constructor|]. simpl in H.
  destruct (check01 ch) eqn:E; [done|]. destruct (check002 it ch e); [done|]. constructor; eauto.
Qed.

(** A text that is left unquoted has no rune with a meaning in the syntax. *)
Lemma needsQuote_false s :
  validText s → hasByte r_bslash s = false → needsQuote s = false →
  utf8Decode s ≠ [] ∧ Forall (λ r, check01 r = false) (utf8Decode s).
Proof.
  intros Hv Hb. unfold needsQuote, escapeToIter. rewrite escape_plain by done.
  destruct (s =? "")%string eqn:E; [done|]. reflect_bools.
  destruct (utf8Decode s) as [|ch it] eqn:Ed; simpl.
  - destruct Hv as (rs & Hrs & ->). rewrite utf8Decode_runesString in Ed by done. by subst.
  - destruct (check01 ch) eqn:Ec; [done|]. destruct (_ && _); [done|].
    intros H. split; [done|]. constructor; [done|]. by eapply needsQuoteLoop_false.
Qed.

(** ** [strconv.Quote] *)

Section Quote.
Context `{U : Unicode}.

(** What [Quote] writes for a printable rune other than the backslash. *)
Definition quoteRunes (r : rune) : list rune :=
  if r =? r_dquote then [r_bslash; r_dquote] else [r].

Lemma decodeWidths_valid n rs :
  Forall (λ r, validRune r = true) rs → (length rs ≤ n)%nat →
  decodeWidths n (runesString rs) = inl <$> rs.
Proof.
  intros H. revert n. induction H as [|r rs Hr Hrs IH]; intros n Hn; [by destruct n|].
  destruct n as [|n]; [simpl in Hn; lia|]. simpl in Hn. rewrite runesString_cons.
  pose proof (runeString_nonempty r) as Hne.
  assert (Hd : utf8Decode (runeString r +:+ runesString rs) = r :: rs).
  { rewrite utf8Decode_runeString by done. by rewrite utf8Decode_runesString. }
  pose proof (skipString_app (runeString r) (runesString rs)) as Hskip.
  pose proof (HasPrefix_app (runeString r) (runesString rs)) as Hpre.
  destruct (runeString r +:+ runesString rs) as [|b s'] eqn:Es.
  { apply string_app_eq_nil in Es as [? _]. done. }
  cbn [decodeWidths]. rewrite Hd.
  assert ((r =? 0xFFFD) && negb (HasPrefix (String b s') (runeString 0xFFFD)) = false) as ->.
  { destruct (Z.eqb_spec r 0xFFFD) as [->|]; [|done]. by rewrite Hpre. }
  rewrite Hskip, IH by lia. done.
Qed.

Lemma escapedRune_printable r :
  IsPrint r = true → r ≠ r_bslash → escapedRune r = runesString (quoteRunes r).
Proof.
  intros Hp Hb. unfold escapedRune, quoteRunes.
  rewrite (proj2 (Z.eqb_neq r r_bslash) Hb), orb_false_r.
  destruct (Z.eqb_spec r r_dquote) as [->|]; [done|]. rewrite Hp. simpl. by rewrite string_app_nil_r.
Qed.

Lemma Quote_printable rs :
  Forall (λ r, validRune r = true) rs →
  Forall (λ r, IsPrint r = true ∧ r ≠ r_bslash) rs →
  Quote (runesString rs) = runesString (r_dquote :: (rs ≫= quoteRunes) ++ [r_dquote]).
Proof.
  intros Hv Hp. unfold Quote. rewrite decodeWidths_valid by (done || apply runes_length).
  rewrite runesString_cons, runesString_app. change (str1 r_dquote) with (runeString r_dquote).
  f_equal. change (runesString [r_dquote]) with (runeString r_dquote +:+ "").
  rewrite string_app_nil_r. f_equal. clear Hv.
  induction Hp as [|r rs [Hr Hb] _ IH]; [done|].
  rewrite fmap_cons, bind_cons, runesString_app. cbn [foldr]. rewrite IH. f_equal.
  by apply escapedRune_printable.
Qed.

(** A text that is printed in a form that the lexer reads back: no backslash,
    printable when it has to be quoted, and not taken for a comment when it
    has not. *)
Definition argOK (s : string) : Prop :=
  validText s ∧ hasByte r_bslash s = false ∧
  if needsQuote s then Forall (λ r, IsPrint r = true) (utf8Decode s)
  else head (utf8Decode s) ≠ Some r_hash.

(** The two shapes of a printed text. *)
Lemma enquote_cases s : argOK s →
  (needsQuote s = false ∧ enquote s = runesString (utf8Decode s)) ∨
  (needsQuote s = true ∧
   enquote s = runesString (r_dquote :: (utf8Decode s ≫= quoteRunes) ++ [r_dquote])).
Proof.
  intros (Hv & Hb & Hq). unfold enquote. destruct (needsQuote s) eqn:E; cbn [negb]; [right|left].
  - split; [done|]. rewrite (Replace_absent s _ 3) by done.
    destruct (validText_decode s Hv) as [Hr Hs]. rewrite <- Hs at 1. apply Quote_printable; [done|].
    rewrite <- Hs in Hb. apply hasByte_runes in Hb; [|lia]. by apply Forall_and.
  - split; [done|]. by destruct (validText_decode s Hv) as [_ ->].
Qed.
End Quote.
