(* ===== verification/LexSteps.v ===== *)
(** * The lexer, one item at a time

    What the main loop of the lexer does on a word, on white space, on a
    terminator, on a quoted text and on a comment, as steps between states. *)

From S2P Require Import Prelude GoStrings Lexer Directives Stmt Build Quoting.

#[local] Open Scope Z_scope.

(** A state of the lexer: the pending token, the tokens so far, the directive
    flag, the line of the token, the current line and the runes to read. *)
Definition st (tok : string) (acc : list token) (d : bool) (l ln : Z) (rs : list rune) : lexer :=
  mkLexer tok acc l d (mkLineCounter (mkIter rs) ln) defaultCustomLexers.

(** [lexes lx lx']: with enough fuel the run from [lx] passes through [lx']. *)
Definition lexes (lx lx' : lexer) : Prop :=
  ∃ k b, ∀ n, (b ≤ n)%nat → lexer_lex (k + n) lx = lexer_lex n lx'.

#[export] Instance lexes_preorder : PreOrder lexes.
Proof.
  split.
  - intros lx. by exists 0%nat, 0%nat.
  - intros l1 l2 l3 (k1 & b1 & H1) (k2 & b2 & H2). exists (k1 + k2)%nat, (b1 `max` b2)%nat.
    intros n Hn. rewrite <- Nat.add_assoc, H1, H2 by lia. done.
Qed.

Lemma lexes_pass lx lx' b :
  (∀ n, (b ≤ n)%nat → lexPass n lx = Ok (inl lx')) → lexes lx lx'.
Proof. intros H. exists 1%nat, b. intros n Hn. unfold lexer_lex. simpl. by rewrite H. Qed.

Lemma lexes_same lx lx' b :
  (∀ n, (b ≤ n)%nat → lexPass n lx = lexPass n lx') → lexes lx lx'.
Proof.
  intros H. exists 0%nat, (S b). intros n Hn. destruct n as [|n]; [lia|].
  unfold lexer_lex. simpl. by rewrite H by lia.
Qed.

(** A run that passes through a state with no end has no end. *)
Lemma lexes_diverges lx lx' :
  lexes lx lx' → (∀ n, lexer_lex n lx' = OutOfFuel) → ∀ n, lexer_lex n lx = OutOfFuel.
Proof.
  intros (k & b & H) Hd n. destruct (finished (lexer_lex n lx)) eqn:E; [|by destruct (lexer_lex n lx)].
  pose proof (lexer_lex_stable n (k + (n `max` b))%nat lx ltac:(lia) E) as Hs.
  rewrite H, Hd in Hs by lia. by rewrite <- Hs.
Qed.

(** The line after a rune. *)
Definition bump (r : rune) (ln : Z) : Z := if r =? r_nl then ln + 1 else ln.

Lemma Next_cons r rs ln :
  lineCounter_Next (mkLineCounter (mkIter (r :: rs)) ln) =
  (r, bump r ln, false, mkLineCounter (mkIter rs) (bump r ln)).
Proof. done. Qed.

Lemma Next_nil ln :
  lineCounter_Next (mkLineCounter (mkIter []) ln) = (0, 0, true, mkLineCounter (mkIter []) ln).
Proof. done. Qed.

Lemma check01_false r : check01 r = false →
  IsSpace r = false ∧ isQuoteRune r = false ∧ isTerminalRune r = false ∧ (r =? r_lbrace) = false ∧
  bump r = id.
Proof.
  unfold check01, isQuoteRune, isTerminalRune, bump. intros H.
  repeat match goal with H : _ || _ = false |- _ => apply orb_false_iff in H as [? ?] end.
  repeat split; try (repeat (apply orb_false_iff; split); done).
  destruct (Z.eqb_spec r r_nl) as [->|]; done.
Qed.

(** ** Words *)

Lemma lexes_rune tok acc d l ln r rs :
  check01 r = false → r ≠ r_bslash → (tok = "" → r ≠ r_hash) →
  lexes (st tok acc d l ln (r :: rs))
        (st (tok +:+ runeString r) acc d (if (tok =? "")%string then ln else l) ln rs).
Proof.
  intros Hc Hb Hh. apply (lexes_pass _ _ 0). intros n _.
  destruct (check01_false r Hc) as (Hs & Hq & Ht & Hl & Hbu).
  unfold lexPass. cbn [lx_iter st]. rewrite Next_cons, Hbu. cbn [id].
  unfold lexSpace. rewrite Hs. cbn [mbind res_bind].
  change (lx_token (set_iter _ (st tok acc d l ln _))) with tok.
  assert (((tok =? "")%string && (r =? r_hash)) = false) as ->.
  { destruct (String.eqb_spec tok ""); [|done]. simpl. apply Z.eqb_neq. auto. }
  rewrite (proj2 (Z.eqb_neq r r_bslash) Hb). unfold lexRune.
  change (lx_token (set_iter _ (st tok acc d l ln _))) with tok.
  rewrite Hl, andb_false_r. cbn [mbind res_bind]. rewrite Hq, Ht.
  destruct (tok =? "")%string; done.
Qed.

Lemma lexes_runes tok acc d l ln w rs :
  tok ≠ "" → Forall (λ r, check01 r = false ∧ r ≠ r_bslash) w →
  lexes (st tok acc d l ln (w ++ rs)) (st (tok +:+ runesString w) acc d l ln rs).
Proof.
  intros Ht Hw. revert tok Ht. induction Hw as [|r w [Hc Hb] _ IH]; intros tok Ht.
  - simpl. rewrite string_app_nil_r. reflexivity.
  - etransitivity; [by apply lexes_rune|]. rewrite (proj2 (String.eqb_neq tok "") Ht).
    rewrite runesString_cons, string_app_assoc. apply IH.
    intros [H _]%string_app_eq_nil. done.
Qed.

Lemma lexes_word acc d l ln w rs :
  w ≠ [] → head w ≠ Some r_hash → Forall (λ r, check01 r = false ∧ r ≠ r_bslash) w →
  lexes (st "" acc d l ln (w ++ rs)) (st (runesString w) acc d ln ln rs).
Proof.
  intros Hne Hh Hw. destruct Hw as [|r w [Hc Hb] Hw]; [done|].
  etransitivity; [apply lexes_rune; [done|done|]; intros _ ->; done|].
  rewrite string_app_nil_l, runesString_cons. apply lexes_runes; [apply runeString_nonempty|done].
Qed.

(** ** White space *)

(** The tokens with the pending one, if there is any. *)
Definition flush (tok : string) (l : Z) (acc : list token) : list token :=
  if (tok =? "")%string then acc else acc ++ [mkTok tok l false].

(** A text that starts no custom lexer. *)
Definition notLua (s : string) : Prop := defaultCustomLexers !! s = None.

Lemma bump_nonspace r ln : IsSpace r = false → bump r ln = ln.
Proof. unfold bump. destruct (Z.eqb_spec r r_nl) as [->|]; done. Qed.

Lemma skipSpace_run sps c rs ch ln0 e ln n :
  IsSpace ch = true → Forall (λ r, IsSpace r = true) sps → IsSpace c = false →
  (length sps + 2 ≤ n)%nat →
  ∃ ln', skipSpace n (ch, ln0, e, mkLineCounter (mkIter (sps ++ c :: rs)) ln) =
         Ok (c, ln', false, mkLineCounter (mkIter rs) ln').
Proof.
  intros Hch Hsp Hc. revert ch ln0 e ln n Hch.
  induction Hsp as [|s sps Hs _ IH]; intros ch ln0 e ln n Hch Hn;
    (destruct n as [|n]; [simpl in Hn; lia|]);
    unfold skipSpace; rewrite go_while_S; unfold skipSpaceStep at 1; rewrite Hch.
  - rewrite app_nil_l, Next_cons, bump_nonspace by done.
    destruct n as [|n]; [simpl in Hn; lia|]. rewrite go_while_S. unfold skipSpaceStep at 1.
    rewrite Hc. eauto.
  - simpl in Hn. rewrite <- app_comm_cons, Next_cons. apply IH; [done|lia].
Qed.

Lemma lexes_space tok acc d l ln sp sps c rs :
  IsSpace sp = true → Forall (λ r, IsSpace r = true) sps → IsSpace c = false →
  (tok ≠ "" → d = true → notLua tok) →
  ∃ ln', lexes (st tok acc d l ln (sp :: sps ++ c :: rs))
               (st "" (flush tok l acc) (if (tok =? "")%string then d else false) l ln' (c :: rs)).
Proof.
  intros Hsp Hsps Hc Hlua.
  destruct (skipSpace_run sps c rs sp (bump sp ln) false (bump sp ln) (length sps + 2))
    as (ln' & Hln); [done..|].
  exists ln'. apply (lexes_same _ _ (length sps + 2)). intros n Hn.
  assert (Hskip : skipSpace n (sp, bump sp ln, false,
      mkLineCounter (mkIter (sps ++ c :: rs)) (bump sp ln)) =
    Ok (c, ln', false, mkLineCounter (mkIter rs) ln')).
  { rewrite <- Hln. apply skipSpace_stable; [done|]. by rewrite Hln. }
  unfold lexPass. cbn [lx_iter st]. rewrite !Next_cons, (bump_nonspace c) by done.
  set (lx1 := set_iter _ (st tok acc d l ln _)).
  assert (Hlx1 : lx1 = st tok acc d l (bump sp ln) (sps ++ c :: rs)) by done. clearbody lx1.
  subst lx1. unfold lexSpace at 1. rewrite Hsp. cbn [lx_token lx_line st]. unfold flush.
  destruct (String.eqb_spec tok "") as [->|Hne]; cbn [negb].
  - cbn [mbind res_bind lx_iter st]. rewrite Hskip. cbn [mbind res_bind].
    unfold lexSpace. rewrite Hc. done.
  - match goal with |- context [lexer_custom ?a ?b] => assert (lexer_custom a b = None) as -> end.
    { unfold lexer_custom. cbn. destruct d; [by apply Hlua|done]. }
    cbn [mbind res_bind lx_iter set_token set_directive append_tokens st].
    rewrite Hskip. cbn [mbind res_bind]. unfold lexSpace. rewrite Hc. done.
Qed.

(** ** Terminators *)

Lemma terminal_facts t : isTerminalRune t = true →
  IsSpace t = false ∧ (t =? r_hash) = false ∧ (t =? r_bslash) = false ∧ isQuoteRune t = false.
Proof.
  unfold isTerminalRune. rewrite !orb_true_iff, !Z.eqb_eq. by intros [[-> | ->] | ->].
Qed.

Lemma lexes_terminal tok acc d l ln t rs :
  isTerminalRune t = true → (tok = "" ∨ t = r_semi) →
  ∃ l', lexes (st tok acc d l ln (t :: rs))
              (st "" (flush tok l acc ++ [mkTok (runeString t) ln false]) true l' ln rs).
Proof.
  intros Ht Hcase. destruct (terminal_facts t Ht) as (Hs & Hh & Hb & Hq).
  exists (if (tok =? "")%string then ln else l). apply (lexes_pass _ _ 0). intros n _.
  unfold lexPass. cbn [lx_iter st]. rewrite Next_cons, (bump_nonspace t) by done.
  unfold lexSpace. rewrite Hs. cbn [mbind res_bind]. rewrite Hh, Hb, andb_false_r.
  unfold lexRune. change (lx_token (set_iter _ (st tok acc d l ln _))) with tok.
  set (lx1 := if (tok =? "")%string then _ else _).
  assert (Hlx1 : lx1 = st tok acc d (if (tok =? "")%string then ln else l) ln rs)
    by (subst lx1; by destruct (tok =? "")%string).
  clearbody lx1. subst lx1. cbn [lx_token st].
  assert (endsWithByte tok r_dollar && (t =? r_lbrace) = false) as ->
    by (destruct Hcase as [-> | ->]; [done|by rewrite andb_false_r]).
  cbn [mbind res_bind]. rewrite Hq, Ht. unfold lexTerminal. cbn [lx_token st]. unfold flush.
  by destruct (String.eqb_spec tok "") as [->|].
Qed.

(** ** Quoted texts *)

Lemma Next_app w x rest ln :
  ∃ ch it, lineCounter_Next (mkLineCounter (mkIter (w ++ x :: rest)) ln) = (ch, bump ch ln, false, it).
Proof. destruct w; simpl; rewrite Next_cons; eauto. Qed.

Lemma quoteLoop_run rs rest tok ln ch it n :
  Forall (λ r, r ≠ r_bslash) rs →
  lineCounter_Next (mkLineCounter (mkIter ((rs ≫= quoteRunes) ++ r_dquote :: rest)) ln) =
    (ch, bump ch ln, false, it) →
  (length rs < n)%nat →
  ∃ ln', quoteLoop r_dquote n (tok, ch, it) =
         Ok (tok +:+ runesString rs, mkLineCounter (mkIter rest) ln').
Proof.
  intros Hrs. revert tok ln ch it n. induction Hrs as [|r rs Hb _ IH]; intros tok ln ch it n Hn Hf;
    (destruct n as [|n]; [simpl in Hf; lia|]); unfold quoteLoop; rewrite go_while_S.
  - change ([] ≫= quoteRunes) with (@nil rune) in Hn. rewrite app_nil_l, Next_cons in Hn.
    inversion Hn; subst; clear Hn. unfold quoteStep at 1. rewrite Z.eqb_refl.
    simpl. rewrite string_app_nil_r. eauto.
  - simpl in Hf. rewrite bind_cons, <- (assoc_L app) in Hn. unfold quoteRunes at 1 in Hn.
    rewrite runesString_cons, string_app_assoc.
    destruct (Z.eqb_spec r r_dquote) as [->|Hq]; simpl in Hn; rewrite Next_cons in Hn;
      inversion Hn; subst; clear Hn; unfold quoteStep at 1.
    + simpl (r_bslash =? _). rewrite Next_cons. simpl (r_dquote =? _).
      destruct (Next_app (rs ≫= quoteRunes) r_dquote rest (bump r_dquote (bump r_bslash ln)))
        as (ch' & it' & EN). rewrite EN. eapply IH; [exact EN|lia].
    + rewrite (proj2 (Z.eqb_neq ch r_dquote) Hq), (proj2 (Z.eqb_neq ch r_bslash) Hb).
      destruct (Next_app (rs ≫= quoteRunes) r_dquote rest (bump ch ln)) as (ch' & it' & EN).
      rewrite EN. eapply IH; [exact EN|lia].
Qed.

Lemma lexes_quoted acc d l ln rs rest :
  Forall (λ r, r ≠ r_bslash) rs → (d = true → notLua (runesString rs)) →
  ∃ ln', lexes (st "" acc d l ln (r_dquote :: (rs ≫= quoteRunes) ++ r_dquote :: rest))
    (st "" (acc ++ [mkTok (runesString rs) ln true]) false ln ln' rest).
Proof.
  intros Hrs Hlua.
  destruct (Next_app (rs ≫= quoteRunes) r_dquote rest ln) as (ch & it & EN).
  destruct (quoteLoop_run rs rest "" ln ch it (S (length rs)) Hrs EN) as (ln' & HL); [lia|].
  exists ln'. apply (lexes_pass _ _ (S (length rs))). intros n Hn.
  assert (HL' : quoteLoop r_dquote n ("", ch, it) = Ok (runesString rs, mkLineCounter (mkIter rest) ln')).
  { rewrite (quoteLoop_stable r_dquote (S (length rs)) n), HL; [done|lia|by rewrite HL]. }
  unfold lexPass. cbn [lx_iter st]. rewrite Next_cons. change (bump r_dquote ln) with ln.
  unfold lexSpace. change (IsSpace r_dquote) with false. cbn [mbind res_bind lx_token set_iter st].
  change (r_dquote =? r_hash) with false. change (r_dquote =? r_bslash) with false. cbn [andb].
  rewrite andb_false_r. unfold lexRune. cbn [mbind res_bind lx_token set_iter set_line st].
  change (endsWithByte "" r_dollar) with false. cbn [andb mbind res_bind].
  change (isQuoteRune r_dquote) with true. unfold lexQuote. cbn -[lineCounter_Next quoteLoop lexer_custom].
  rewrite EN, HL'. cbn -[lexer_custom].
  match goal with |- context [lexer_custom ?a ?b] => assert (lexer_custom a b = None) as -> end.
  { unfold lexer_custom. cbn. destruct d; [by apply Hlua|done]. }
  done.
Qed.

(** ** Comments *)

Lemma commentLoop_run c rest tok ch ln n :
  Forall (λ r, r ≠ r_nl) (ch :: c) → (length c + 2 ≤ n)%nat →
  commentLoop n (tok, ch, mkLineCounter (mkIter (c ++ r_nl :: rest)) ln) =
  Ok (tok +:+ runesString (ch :: c), mkLineCounter (mkIter rest) (ln + 1)).
Proof.
  revert tok ch n. induction c as [|r c IH]; intros tok ch n Hall Hn;
    apply Forall_cons in Hall as [Hch Hall]; (destruct n as [|n]; [simpl in Hn; lia|]);
    unfold commentLoop; rewrite go_while_S; unfold commentStep at 1;
    rewrite (proj2 (Z.eqb_neq ch r_nl) Hch).
  - rewrite app_nil_l, Next_cons. destruct n as [|n]; [simpl in Hn; lia|].
    rewrite go_while_S. simpl. by rewrite string_app_nil_r.
  - apply Forall_cons in Hall as [Hr Hall]. simpl in Hn. rewrite <- app_comm_cons, Next_cons.
    unfold bump. rewrite (proj2 (Z.eqb_neq r r_nl) Hr).
    rewrite (runesString_cons ch), string_app_assoc. apply IH; [by constructor|lia].
Qed.

Lemma lexes_comment acc d l ln c rest :
  Forall (λ r, r ≠ r_nl) c →
  lexes (st "" acc d l ln (r_hash :: c ++ r_nl :: rest))
        (st "" (acc ++ [mkTok (runesString (r_hash :: c)) ln false]) d l (ln + 1) rest).
Proof.
  intros Hc. apply (lexes_pass _ _ (length c + 2)). intros n Hn.
  unfold lexPass. cbn [lx_iter st]. rewrite Next_cons. change (bump r_hash ln) with ln.
  unfold lexSpace. change (IsSpace r_hash) with false. cbn [mbind res_bind lx_token set_iter st lx_iter].
  change ((""=? "")%string && (r_hash =? r_hash)) with true. cbn iota.
  rewrite commentLoop_run by (done || by constructor). done.
Qed.
