(* ===== verification/RoundTrip.v ===== *)
(** * Printing and reading back

    The text that [build] prints for a well-formed block is lexed to the
    tokens of the block, and parsed to the block itself, up to the line numbers
    and file names that the parser fills in. *)

From S2P Require Import Prelude GoStrings Lexer Directives Stmt Analyze Parse ParseFacts Build Quoting LexSteps.

#[local] Open Scope Z_scope.

(** ** The tokens of a block *)

(** A token without its line. *)
Definition view (t : token) : string * bool := (text t, quote t).

Definition argTok (s : string) : string * bool := (s, needsQuote s).

Fixpoint stmtToks (s : Stmt) : list (string * bool) :=
  if (Directive s =? "#")%string then [("#" +:+ Comment s, false)]
  else
    argTok (Directive s) :: (argTok <$> Args s) ++
    match Blocks s with
    | None => [(";", false)]
    | Some b => ("{", false) :: foldr (λ x l, stmtToks x ++ l) [] b ++ [("}", false)]
    end.

Definition blockToks (b : list Stmt) : list (string * bool) := foldr (λ x l, stmtToks x ++ l) [] b.

(** ** Well-formed statements *)

Definition isCommentStmt (s : Stmt) : bool := (Directive s =? "#")%string.

(** Two comments that follow each other are not on the same line. *)
Fixpoint commentsApart (b : list Stmt) : Prop :=
  match b with
  | s1 :: ((s2 :: _) as rest) =>
    ¬ (isCommentStmt s1 = true ∧ isCommentStmt s2 = true ∧ Line s1 = Line s2) ∧ commentsApart rest
  | _ => True
  end.

Section WellFormed.
Context `{U : Unicode}.

#[warnings="-register-all"]
Inductive stmtOK (s : Stmt) : Prop :=
| commentOK :
    Directive s = "#" → Args s = [] → Includes s = [] → Blocks s = None →
    validText (Comment s) → hasByte r_nl (Comment s) = false → stmtOK s
| directiveOK :
    argOK (Directive s) → notLua (Directive s) →
    Directive s ≠ "#" → Directive s ≠ "if" → Directive s ≠ "include" →
    Forall argOK (Args s) → Comment s = "" → Includes s = [] →
    (∀ b, Blocks s = Some b → Forall stmtOK b ∧ commentsApart b) → stmtOK s.

(** ** The same as a boolean *)

Definition validTextb (s : string) : bool :=
  forallb validRune (utf8Decode s) && (runesString (utf8Decode s) =? s)%string.

Lemma validTextb_sound s : validTextb s = true → validText s.
Proof.
  unfold validTextb. intros H. reflect_bools. exists (utf8Decode s). split; [|done].
  by apply forallb_Forall.
Qed.

Definition argOKb (s : string) : bool :=
  validTextb s && negb (hasByte r_bslash s) &&
  (if needsQuote s then forallb IsPrint (utf8Decode s)
   else negb (bool_decide (head (utf8Decode s) = Some r_hash))).

Lemma argOKb_sound s : argOKb s = true → argOK s.
Proof.
  unfold argOKb, argOK. intros H. reflect_bools. split; [by apply validTextb_sound|]. split; [done|].
  destruct (needsQuote s).
  - by apply forallb_Forall.
  - reflect_bools. done.
Qed.

Fixpoint commentsApartb (b : list Stmt) : bool :=
  match b with
  | s1 :: ((s2 :: _) as rest) =>
    negb (isCommentStmt s1 && isCommentStmt s2 && (Line s1 =? Line s2)) && commentsApartb rest
  | _ => true
  end.

Lemma commentsApartb_sound b : commentsApartb b = true → commentsApart b.
Proof.
  induction b as [|s1 b IH]; [done|]. destruct b as [|s2 b]; [done|]. cbn [commentsApartb commentsApart].
  intros H. reflect_bools. split; [|by apply IH]. intros (H1 & H2 & H3%Z.eqb_eq).
  by rewrite H1, H2, H3 in H.
Qed.

Fixpoint stmtOKb (s : Stmt) : bool :=
  bool_decide (Includes s = []) &&
  if (Directive s =? "#")%string then
    bool_decide (Args s = []) && validTextb (Comment s) && negb (hasByte r_nl (Comment s)) &&
    match Blocks s with None => true | Some _ => false end
  else
    argOKb (Directive s) && bool_decide (notLua (Directive s)) &&
    negb (Directive s =? "if")%string && negb (Directive s =? "include")%string &&
    forallb argOKb (Args s) && (Comment s =? "")%string &&
    match Blocks s with None => true | Some b => forallb stmtOKb b && commentsApartb b end.

Lemma stmtOKb_sound s : stmtOKb s = true → stmtOK s.
Proof.
  induction s as [s IH] using Stmt_nested_ind. intros H.
  assert (E : stmtOKb s = (bool_decide (Includes s = []) &&
    if (Directive s =? "#")%string then
      bool_decide (Args s = []) && validTextb (Comment s) && negb (hasByte r_nl (Comment s)) &&
      match Blocks s with None => true | Some _ => false end
    else
      argOKb (Directive s) && bool_decide (notLua (Directive s)) &&
      negb (Directive s =? "if")%string && negb (Directive s =? "include")%string &&
      forallb argOKb (Args s) && (Comment s =? "")%string &&
      match Blocks s with None => true | Some b => forallb stmtOKb b && commentsApartb b end))
    by (by destruct s).
  rewrite E in H. clear E. apply andb_true_iff in H as [Hi H].
  destruct (Directive s =? "#")%string eqn:Ed.
  - destruct (Blocks s) eqn:Eb; [by rewrite andb_false_r in H|]. reflect_bools.
    apply commentOK; auto using validTextb_sound.
  - reflect_bools. apply directiveOK; auto using argOKb_sound.
    + eapply Forall_impl; [apply forallb_Forall; eassumption|]. apply argOKb_sound.
    + intros b Hb. rewrite Hb in *. reflect_bools. split; [|by apply commentsApartb_sound].
      specialize (IH b eq_refl).
      match goal with H : forallb stmtOKb b = true |- _ => apply forallb_Forall in H; revert IH H end.
      rewrite !Forall_forall. auto.
Qed.

(** ** Texts and their runes *)

Lemma validText_runes rs : Forall (λ r, validRune r = true) rs → validText (runesString rs).
Proof. intros. by exists rs. Qed.

Lemma validText_spaces n : validText (spaces n) ∧ utf8Decode (spaces n) = replicate n r_sp.
Proof.
  induction n as [|n [IH1 IH2]]; [split; [apply validText_nil|done]|].
  change (spaces (S n)) with (runeString r_sp +:+ spaces n). split.
  - apply validText_app; [by apply validText_rune|done].
  - rewrite utf8Decode_runeString by done. by rewrite IH2.
Qed.

Lemma quoteRunes_valid rs :
  Forall (λ r, validRune r = true) rs → Forall (λ r, validRune r = true) (rs ≫= quoteRunes).
Proof.
  induction 1 as [|r rs Hr _ IH]; [constructor|]. rewrite bind_cons. apply Forall_app; split; [|done].
  unfold quoteRunes. case_match; by repeat constructor.
Qed.

(** The runes of a printed text. *)
Definition argRunes (s : string) : list rune :=
  if needsQuote s then r_dquote :: (utf8Decode s ≫= quoteRunes) ++ [r_dquote] else utf8Decode s.

Lemma enquote_runes s : argOK s →
  validText (enquote s) ∧ utf8Decode (enquote s) = argRunes s.
Proof.
  intros Hs. pose proof Hs as (Hv & _ & _). destruct (validText_decode s Hv) as [Hr _].
  unfold argRunes. destruct (enquote_cases s Hs) as [[-> ->]|[-> ->]].
  - split; [by apply validText_runes|by apply utf8Decode_runesString].
  - assert (Forall (λ r, validRune r = true) (r_dquote :: (utf8Decode s ≫= quoteRunes) ++ [r_dquote])).
    { constructor; [done|]. apply Forall_app; split; [by apply quoteRunes_valid|by repeat constructor]. }
    split; [by apply validText_runes|by apply utf8Decode_runesString].
Qed.

Lemma argRunes_first s : argOK s → ∃ r rs, argRunes s = r :: rs ∧ IsSpace r = false.
Proof.
  intros (Hv & Hb & _). unfold argRunes. destruct (needsQuote s) eqn:E; [eauto|].
  destruct (needsQuote_false s Hv Hb E) as [Hne Hc].
  destruct (utf8Decode s) as [|r rs]; [done|]. apply Forall_cons in Hc as [Hc _].
  exists r, rs. split; [done|]. by apply check01_false in Hc as [? _].
Qed.

(** ** Items *)

(** The lexer after a directive or an argument: the token may be pending, and
    what follows cannot be taken for a Lua block. *)
Definition afterItem (rest : list rune) (out : list (string * bool)) (lx : lexer) : Prop :=
  ∃ tok acc d l ln, lx = st tok acc d l ln rest ∧ view <$> flush tok l acc = out ∧
    (tok = "" → d = false) ∧ (tok ≠ "" → d = true → notLua tok).

Lemma lexes_item s acc d l ln rest :
  argOK s → (d = true → notLua s) →
  ∃ lx, lexes (st "" acc d l ln (argRunes s ++ rest)) lx ∧
        afterItem rest ((view <$> acc) ++ [argTok s]) lx.
Proof.
  intros Hs Hlua. pose proof Hs as (Hv & Hb & Hq). destruct (validText_decode s Hv) as [Hr Hd].
  assert (Hnb : Forall (λ r, r ≠ r_bslash) (utf8Decode s)).
  { apply hasByte_runes; [lia|]. by rewrite Hd. }
  unfold argRunes, argTok. destruct (needsQuote s) eqn:E.
  - destruct (lexes_quoted acc d l ln (utf8Decode s) rest) as (ln' & H); [done|by rewrite Hd|].
    eexists. rewrite <- app_comm_cons, <- (assoc_L app). split; [exact H|].
    eexists _, _, _, _, _. split; [done|]. rewrite Hd. unfold flush. simpl.
    rewrite fmap_app. done.
  - destruct (needsQuote_false s Hv Hb E) as [Hne Hc].
    eexists. split; [apply lexes_word; [done|done|by apply Forall_and]|].
    eexists _, _, _, _, _. split; [done|]. rewrite Hd.
    assert (s ≠ "") by (intros ->; done).
    unfold flush. rewrite (proj2 (String.eqb_neq s "") H). rewrite fmap_app. done.
Qed.

Lemma lexes_afterItem_space rest out lx c sps rs :
  rest = r_sp :: sps ++ c :: rs → Forall (λ r, IsSpace r = true) sps → IsSpace c = false →
  afterItem rest out lx →
  ∃ acc l ln, lexes lx (st "" acc false l ln (c :: rs)) ∧ view <$> acc = out.
Proof.
  intros -> Hsp Hc (tok & acc & d & l & ln & -> & Hv & Hd & Hlua).
  destruct (lexes_space tok acc d l ln r_sp sps c rs) as (ln' & H); [done..|].
  eexists _, _, _. split; [|exact Hv].
  destruct (String.eqb_spec tok "") as [->|]; [rewrite Hd in H |- * by done|]; exact H.
Qed.

Definition argsRunes (args : list string) : list rune := args ≫= λ a, r_sp :: argRunes a.

Lemma lexes_args args rest out lx :
  Forall argOK args → afterItem (argsRunes args ++ rest) out lx →
  ∃ lx', lexes lx lx' ∧ afterItem rest (out ++ (argTok <$> args)) lx'.
Proof.
  intros Ha. revert out lx. induction Ha as [|a args Ha _ IH]; intros out lx H.
  - rewrite app_nil_r. exists lx. split; [reflexivity|done].
  - destruct (argRunes_first a Ha) as (r & rs & Er & Hr).
    assert (Et : argsRunes (a :: args) ++ rest = r_sp :: [] ++ r :: rs ++ argsRunes args ++ rest).
    { unfold argsRunes. rewrite bind_cons, Er. simpl. by rewrite <- (assoc_L app). }
    destruct (lexes_afterItem_space _ out lx r [] _ Et ltac:(constructor) Hr H)
      as (acc & l & ln & H1 & Hv).
    destruct (lexes_item a acc false l ln (argsRunes args ++ rest)) as (lx2 & H2 & Hi); [done..|].
    rewrite Er in H2. simpl in H2. rewrite Hv in Hi.
    destruct (IH _ _ Hi) as (lx3 & H3 & Hi3). exists lx3. split; [by do 2 (etransitivity; [eassumption|])|].
    by rewrite <- (assoc_L app) in Hi3.
Qed.

Lemma lexes_semi rest out lx :
  afterItem (r_semi :: rest) out lx →
  ∃ acc l ln, lexes lx (st "" acc true l ln rest) ∧ view <$> acc = out ++ [(";", false)].
Proof.
  intros (tok & acc & d & l & ln & -> & Hv & _).
  destruct (lexes_terminal tok acc d l ln r_semi rest) as (l' & H); [done|by right|].
  eexists _, _, _. split; [exact H|]. by rewrite fmap_app, Hv.
Qed.

Lemma lexes_open rest out lx :
  afterItem (r_sp :: r_lbrace :: rest) out lx →
  ∃ acc l ln, lexes lx (st "" acc true l ln rest) ∧ view <$> acc = out ++ [("{", false)].
Proof.
  intros H. destruct (lexes_afterItem_space _ out lx r_lbrace [] rest eq_refl
    ltac:(constructor) eq_refl H) as (acc & l & ln & H1 & Hv).
  destruct (lexes_terminal "" acc false l ln r_lbrace rest) as (l' & H2); [done|by left|].
  eexists _, _, _. split; [etransitivity; [exact H1|exact H2]|]. unfold flush. simpl.
  by rewrite fmap_app, Hv.
Qed.

(** White space before an item, also none. *)
Lemma lexes_blank acc d l ln sps c rs :
  Forall (λ r, IsSpace r = true) sps → IsSpace c = false →
  ∃ ln', lexes (st "" acc d l ln (sps ++ c :: rs)) (st "" acc d l ln' (c :: rs)).
Proof.
  intros Hs Hc. destruct Hs as [|sp sps Hsp Hs]; [exists ln; reflexivity|].
  destruct (lexes_space "" acc d l ln sp sps c rs) as (ln' & H); [done..|]. by exists ln'.
Qed.

Lemma lexes_close acc d l ln sps rest :
  Forall (λ r, IsSpace r = true) sps →
  ∃ acc' l' ln', lexes (st "" acc d l ln (sps ++ r_rbrace :: rest)) (st "" acc' true l' ln' rest) ∧
    view <$> acc' = (view <$> acc) ++ [("}", false)].
Proof.
  intros Hs. destruct (lexes_blank acc d l ln sps r_rbrace rest Hs eq_refl) as (ln' & H1).
  destruct (lexes_terminal "" acc d l ln' r_rbrace rest) as (l' & H2); [done|by left|].
  eexists _, _, _. split; [etransitivity; [exact H1|exact H2]|]. unfold flush. simpl.
  by rewrite fmap_app.
Qed.

(** ** The text of a directive *)

Lemma Join_runes a args :
  argOK a → Forall argOK args →
  validText (Join (enquote <$> a :: args) " ") ∧
  utf8Decode (Join (enquote <$> a :: args) " ") = argRunes a ++ argsRunes args.
Proof.
  intros Ha Hargs. revert a Ha. induction Hargs as [|b args Hb _ IH]; intros a Ha;
    destruct (enquote_runes a Ha) as [Hv Hr].
  - split; [done|]. simpl. by rewrite Hr, app_nil_r.
  - destruct (IH b Hb) as [Hv2 Hr2].
    change (Join (enquote <$> a :: b :: args) " ")
      with (enquote a +:+ runeString r_sp +:+ Join (enquote <$> b :: args) " "). split.
    + auto using validText_app, validText_rune.
    + rewrite utf8Decode_app, utf8Decode_runeString, Hr, Hr2 by done. done.
Qed.

Lemma buildHead_runes d args :
  argOK d → d ≠ "if" → Forall argOK args →
  validText (buildHead (enquote d) args) ∧
  utf8Decode (buildHead (enquote d) args) = argRunes d ++ argsRunes args.
Proof.
  intros Hd Hif Ha. destruct (enquote_runes d Hd) as [Hv Hr]. unfold buildHead.
  assert ((enquote d =? "if")%string = false) as ->.
  { apply String.eqb_neq. intros He. destruct (enquote_cases d Hd) as [[_ H]|[_ H]].
    - rewrite H in He. destruct Hd as (Hvd & _). by rewrite (proj2 (validText_decode d Hvd)) in He.
    - rewrite H, runesString_cons in He. done. }
  destruct Ha as [|a args Ha Hargs]; [by rewrite app_nil_r|].
  destruct (Join_runes a args Ha Hargs) as [Hvj Hrj]. rewrite fmap_cons. rewrite <- fmap_cons.
  change " " with (runeString r_sp) at 1 3. split.
  - auto using validText_app, validText_rune.
  - rewrite utf8Decode_app, utf8Decode_runeString by done. by rewrite Hr, Hrj.
Qed.

(** ** The text of a block *)

Lemma enquote_hash s : stmtOK s → (enquote (Directive s) =? "#")%string = isCommentStmt s.
Proof.
  unfold isCommentStmt. intros [-> _ _ _ _ _|Hd _ Hne _ _ _ _ _ _]; [done|].
  rewrite (proj2 (String.eqb_neq _ _) Hne). apply String.eqb_neq. intros He.
  destruct (enquote_cases _ Hd) as [[_ H]|[_ H]]; rewrite H in He.
  - destruct Hd as (Hv & _). by rewrite (proj2 (validText_decode _ Hv)) in He.
  - by rewrite runesString_cons in He.
Qed.

Section Loop.
Context (built : Stmt → string) (m : string).

(** What the loop of [buildBlock] adds to the output; [ne] says whether the
    output is non-empty. *)
Fixpoint loopText (ne : bool) (block : list Stmt) (lastLine : Z) : string :=
  match block with
  | [] => ""
  | stmt :: rest =>
    if isCommentStmt stmt && (Line stmt =? lastLine) then
      runeString r_sp +:+ runeString r_hash +:+ Comment stmt +:+ loopText true rest lastLine
    else
      (if ne then newline else "") +:+ m +:+
      (if isCommentStmt stmt then runeString r_sp +:+ runeString r_hash +:+ Comment stmt
       else built stmt) +:+
      loopText true rest (Line stmt)
  end.

(** A statement that is printed as the lexer reads it. *)
Definition printsOK (s : Stmt) : Prop :=
  validText (built s) ∧
  (∃ r rs, utf8Decode (built s) = r :: rs ∧ IsSpace r = false) ∧
  ∀ acc d l ln rest, ∃ acc' l' ln',
    lexes (st "" acc d l ln (utf8Decode (built s) ++ rest)) (st "" acc' true l' ln' rest) ∧
    view <$> acc' = (view <$> acc) ++ stmtToks s.

Definition partOK (s : Stmt) : Prop := stmtOK s ∧ (isCommentStmt s = false → printsOK s).

Lemma printed_nonempty s : printsOK s → built s ≠ "".
Proof. intros (_ & (r & rs & H & _) & _) He. by rewrite He in H. Qed.

Lemma string_eqb_app_l s1 s2 : s1 ≠ "" → (s1 +:+ s2 =? "")%string = false.
Proof. intros H. apply String.eqb_neq. by intros [? _]%string_app_eq_nil. Qed.

Lemma string_eqb_app_r s1 s2 : s2 ≠ "" → (s1 +:+ s2 =? "")%string = false.
Proof. intros H. apply String.eqb_neq. by intros [_ ?]%string_app_eq_nil. Qed.

Lemma buildLoop_text block output lastLine :
  Forall partOK block →
  buildLoop built m block output lastLine =
  output +:+ loopText (negb (output =? "")%string) block lastLine.
Proof.
  intros H. revert output lastLine. induction H as [|s block [Hs Hp] _ IH]; intros output ll; simpl.
  - by rewrite string_app_nil_r.
  - rewrite enquote_hash by done. change " #" with (runeString r_sp +:+ runeString r_hash).
    destruct (isCommentStmt s) eqn:Ec; [destruct (Line s =? ll)|]; simpl; rewrite IH.
    + rewrite string_eqb_app_r by done. simpl. by rewrite <- !string_app_assoc.
    + rewrite string_eqb_app_r.
      2: { intros [_ Hx]%string_app_eq_nil. done. }
      destruct (String.eqb_spec output "") as [->|]; simpl; by rewrite <- !string_app_assoc.
    + rewrite string_eqb_app_r.
      2: { intros [_ Hx]%string_app_eq_nil. by apply printed_nonempty in Hx; [|apply Hp]. }
      destruct (String.eqb_spec output "") as [->|]; simpl; by rewrite <- !string_app_assoc.
Qed.

Hypothesis m_valid : validText m.

Lemma comment_valid s : stmtOK s → isCommentStmt s = true →
  validText (Comment s) ∧ Forall (λ r, r ≠ r_nl) (utf8Decode (Comment s)) ∧
  stmtToks s = [(runesString (r_hash :: utf8Decode (Comment s)), false)].
Proof.
  unfold isCommentStmt. intros [Hd _ _ _ Hv Hn|_ _ Hne _ _ _ _ _ _] Hc; reflect_bools; [|done].
  destruct (validText_decode _ Hv) as [_ Hr]. split; [done|]. split.
  - apply hasByte_runes; [lia|]. by rewrite Hr.
  - destruct s. simpl in *. subst. simpl. by rewrite Hr.
Qed.

Lemma loopText_valid block ne ll : Forall partOK block → validText (loopText ne block ll).
Proof.
  intros H. revert ne ll. induction H as [|s block [Hs Hp] _ IH]; intros ne ll; simpl;
    [apply validText_nil|].
  destruct (isCommentStmt s) eqn:Ec.
  - apply comment_valid in Hs as [Hv _]; [|done].
    destruct (Line s =? ll), ne; simpl; eauto 10 using validText_app, validText_rune, validText_nil.
  - destruct (Hp eq_refl) as [Hv _].
    destruct ne; simpl; eauto 10 using validText_app, validText_rune, validText_nil.
Qed.

Context (sps : list rune).
Hypothesis m_runes : utf8Decode m = sps.
Hypothesis m_spaces : Forall (λ r, IsSpace r = true) sps.

(** The runes of one part of the text: blanks, then a comment or a statement. *)
Lemma loopText_runes_comment s block ne ll :
  Forall partOK (s :: block) → isCommentStmt s = true →
  ∃ blanks, Forall (λ r, IsSpace r = true) blanks ∧
    ((Line s =? ll) = false → ne = true → ∃ b', blanks = r_nl :: b') ∧
    utf8Decode (loopText ne (s :: block) ll) =
    blanks ++ r_sp :: r_hash :: utf8Decode (Comment s) ++ utf8Decode (loopText true block (Line s)).
Proof.
  intros HF Hc. apply Forall_cons in HF as [[Hs _] HF].
  destruct (comment_valid s Hs Hc) as (Hv & _). cbn [loopText]. rewrite Hc. cbn [andb].
  destruct (Z.eqb_spec (Line s) ll) as [<-|Hl].
  - exists []. split; [constructor|]. split; [done|].
    rewrite !utf8Decode_runeString, utf8Decode_app by done. done.
  - exists ((if ne then [r_nl] else []) ++ sps). split; [destruct ne; by repeat constructor|].
    split; [intros _ ->; by eexists|].
    destruct ne; unfold newline;
      rewrite ?utf8Decode_runeString, ?string_app_nil_l, utf8Decode_app by done;
      rewrite <- !string_app_assoc, !utf8Decode_runeString, utf8Decode_app, m_runes by done; done.
Qed.

Lemma loopText_runes_stmt s block ne ll :
  Forall partOK (s :: block) → isCommentStmt s = false →
  ∃ blanks, Forall (λ r, IsSpace r = true) blanks ∧
    (ne = true → ∃ b', blanks = r_nl :: b') ∧
    utf8Decode (loopText ne (s :: block) ll) =
    blanks ++ utf8Decode (built s) ++ utf8Decode (loopText true block (Line s)).
Proof.
  intros HF Hc. apply Forall_cons in HF as [[Hs Hp] HF].
  destruct (Hp Hc) as (Hv & _). cbn [loopText]. rewrite Hc. cbn [andb].
  exists ((if ne then [r_nl] else []) ++ sps). split; [destruct ne; by repeat constructor|].
  split; [intros ->; by eexists|].
  destruct ne; unfold newline;
    rewrite ?utf8Decode_runeString, ?string_app_nil_l, utf8Decode_app by done;
    rewrite utf8Decode_app, m_runes by done; done.
Qed.

(** What can follow a block: a new line, or anything when the block does not
    end with a comment. *)
Definition followOK (block : list Stmt) (F : list rune) : Prop :=
  (∃ F', F = r_nl :: F') ∨ (∀ s, last block = Some s → isCommentStmt s = false).

Lemma followOK_tail s block F : block ≠ [] → followOK (s :: block) F → followOK block F.
Proof.
  intros Hne [?|H]; [by left|]. right. intros s' Hs'. apply H.
  destruct block as [|s2 block]; [done|]. by rewrite last_cons_cons.
Qed.

(** After a comment there is a new line. *)
Lemma after_comment s block F :
  Forall partOK block → isCommentStmt s = true → commentsApart (s :: block) →
  followOK (s :: block) F →
  ∃ Y, utf8Decode (loopText true block (Line s)) ++ F = r_nl :: Y.
Proof.
  intros HF Hc Hap Hfo. destruct block as [|s2 block].
  - destruct Hfo as [[F' ->]|H]; [by exists F'|]. by rewrite (H s) in Hc.
  - destruct (isCommentStmt s2) eqn:Ec2.
    + destruct (loopText_runes_comment s2 block true (Line s) HF Ec2) as (bl & _ & Hb & ->).
      destruct Hb as [b' ->]; [|done|by eexists].
      apply Z.eqb_neq. intros He. destruct Hap as [Hap _]. by apply Hap.
    + destruct (loopText_runes_stmt s2 block true (Line s) HF Ec2) as (bl & _ & Hb & ->).
      destruct Hb as [b' ->]; [done|by eexists].
Qed.

Lemma commentsApart_tail s block : commentsApart (s :: block) → commentsApart block.
Proof. destruct block; [done|]. by intros [_ ?]. Qed.

(** The blanks before an item, with or without the newline that the item before
    has already taken. *)
Lemma leading_blanks (ne : bool) bl r X R : Forall (λ r, IsSpace r = true) bl → r ≠ r_nl →
  (R = bl ++ r :: X ∨ (ne = true ∧ r_nl :: R = bl ++ r :: X)) →
  ∃ bl', Forall (λ r, IsSpace r = true) bl' ∧ R = bl' ++ r :: X.
Proof.
  intros Hbl Hr [->|[_ HR]]; [by exists bl|].
  destruct bl as [|b bl]; simpl in HR; injection HR as HR1 HR2; [by symmetry in HR1|].
  apply Forall_cons in Hbl as [_ Hbl]. by exists bl.
Qed.

Lemma lexes_block block : ∀ ne ll F R acc d l ln,
  Forall partOK block → commentsApart block → followOK block F →
  (R = utf8Decode (loopText ne block ll) ++ F ∨
   (ne = true ∧ r_nl :: R = utf8Decode (loopText ne block ll) ++ F)) →
  ∃ acc' d' l' ln' F', lexes (st "" acc d l ln R) (st "" acc' d' l' ln' F') ∧
    (F' = F ∨ r_nl :: F' = F) ∧ view <$> acc' = (view <$> acc) ++ blockToks block.
Proof.
  induction block as [|s block IH]; intros ne ll F R acc d l ln HF Hap Hfo HR.
  - simpl in HR. exists acc, d, l, ln, R. split; [reflexivity|].
    split; [destruct HR as [->|[_ <-]]; auto|]. simpl. by rewrite app_nil_r.
  - pose proof (Forall_cons_1 _ _ _ HF) as [[Hs Hp] HF'].
    destruct (isCommentStmt s) eqn:Ec.
    + destruct (loopText_runes_comment s block ne ll HF Ec) as (bl & Hbl & _ & Ht).
      destruct (comment_valid s Hs Ec) as (_ & Hnl & Htok).
      destruct (after_comment s block F HF' Ec Hap Hfo) as (Y & HY).
      rewrite Ht, <- (assoc_L app) in HR. simpl in HR. rewrite <- (assoc_L app), HY, cons_middle, (assoc_L app) in HR.
      destruct (leading_blanks ne (bl ++ [r_sp]) r_hash (utf8Decode (Comment s) ++ r_nl :: Y) R)
        as (bl' & Hbl' & ->); [|done|exact HR|].
      { apply Forall_app; split; [done|by repeat constructor]. }
      destruct (lexes_blank acc d l ln bl' r_hash (utf8Decode (Comment s) ++ r_nl :: Y))
        as (ln1 & H1); [done..|].
      pose proof (lexes_comment acc d l ln1 _ Y Hnl) as H2.
      destruct block as [|s2 block].
      * simpl in HY. subst F. eexists _, _, _, _, Y. split; [by etransitivity|].
        split; [by right|]. rewrite fmap_app. simpl. by rewrite Htok.
      * destruct (IH true (Line s) F Y (acc ++ [mkTok (runesString (r_hash :: utf8Decode (Comment s))) ln1 false])
          d l (ln1 + 1)) as (acc' & d' & l' & ln' & F' & H3 & HF2 & Hv);
          [done|by eapply commentsApart_tail|by eapply followOK_tail|by right|].
        exists acc', d', l', ln', F'. split; [etransitivity; [exact H1|by etransitivity]|].
        split; [done|]. rewrite Hv, fmap_app, <- (assoc_L app). f_equal.
        change (blockToks (s :: s2 :: block)) with (stmtToks s ++ blockToks (s2 :: block)).
        by rewrite Htok.
    + destruct (loopText_runes_stmt s block ne ll HF Ec) as (bl & Hbl & _ & Ht).
      destruct (Hp eq_refl) as (_ & (r & rs & Er & Hr) & Hlex).
      set (T' := utf8Decode (loopText true block (Line s)) ++ F) in *.
      rewrite Ht, Er, <- !(assoc_L app) in HR. simpl in HR. fold T' in HR.
      destruct (leading_blanks ne bl r (rs ++ T') R) as (bl' & Hbl' & ->); [done| |exact HR|].
      { intros ->. by vm_compute in Hr. }
      destruct (lexes_blank acc d l ln bl' r (rs ++ T')) as (ln1 & H1); [done..|].
      destruct (Hlex acc d l ln1 T') as (acc2 & l2 & ln2 & H2 & Hv2).
      rewrite Er in H2.
      destruct (IH true (Line s) F T' acc2 true l2 ln2)
        as (acc' & d' & l' & ln' & F' & H3 & HF2 & Hv);
        [done|by eapply commentsApart_tail| |by left|].
      { destruct block; [|by eapply followOK_tail]. by right. }
      exists acc', d', l', ln', F'. split; [etransitivity; [exact H1|by etransitivity]|].
      split; [done|]. by rewrite Hv, Hv2, <- (assoc_L app).
Qed.
End Loop.

(** ** Statements *)

Lemma lua_lookup k c : defaultCustomLexers !! k = Some c → k ∈ luaLexer_directives.
Proof.
  intros H. unfold defaultCustomLexers, luaLexer_directives in *. cbn [foldl] in H.
  repeat (apply lookup_insert_Some in H as [[<- _]|[_ H]]; [set_solver|]).
  by rewrite lookup_empty in H.
Qed.

Lemma notLua_enquote d : argOK d → notLua d → defaultCustomBuilder !! enquote d = None.
Proof.
  intros Hd Hn. change defaultCustomBuilder with defaultCustomLexers.
  destruct (enquote_cases d Hd) as [[_ H]|[_ H]]; rewrite H.
  - destruct Hd as (Hv & _). by rewrite (proj2 (validText_decode d Hv)).
  - destruct (defaultCustomLexers !! _) eqn:E; [|done]. apply lua_lookup in E.
    exfalso. unfold luaLexer_directives in E.
    apply list_elem_of_In in E. unfold In in E.
    rewrite runesString_cons in E.
    repeat (destruct E as [E|E]; [apply (f_equal firstByte) in E; vm_compute in E; discriminate E|]).
    done.
Qed.

Lemma margin_runes padding depth :
  validText (margin padding depth) ∧
  Forall (λ r, IsSpace r = true) (utf8Decode (margin padding depth)).
Proof.
  unfold margin. destruct (validText_spaces (Z.to_nat (padding * depth))) as [? ->].
  split; [done|]. by apply Forall_replicate.
Qed.

Lemma buildStmt_eq padding depth s :
  stmtOK s → isCommentStmt s = false →
  buildStmt defaultCustomBuilder padding depth s =
  match Blocks s with
  | Some b =>
    buildLoop (buildStmt defaultCustomBuilder padding (depth + 1)) (margin padding (depth + 1))
      b (buildHead (enquote (Directive s)) (Args s) +:+ " {") (Line s)
      +:+ newline +:+ margin padding depth +:+ "}"
  | None => buildHead (enquote (Directive s)) (Args s) +:+ ";"
  end.
Proof.
  unfold isCommentStmt. intros [Hd _ _ _ _ _|Hd Hl _ _ _ _ _ _ _] Hc.
  - rewrite Hd in Hc. done.
  - pose proof (notLua_enquote _ Hd Hl). destruct s. simpl in *. by rewrite H.
Qed.

(** The directive and its arguments, up to the terminator. *)
Lemma lexes_head s acc d l ln rest :
  argOK (Directive s) → notLua (Directive s) → Forall argOK (Args s) →
  ∃ lx, lexes (st "" acc d l ln (argRunes (Directive s) ++ argsRunes (Args s) ++ rest)) lx ∧
    afterItem rest ((view <$> acc) ++ argTok (Directive s) :: (argTok <$> Args s)) lx.
Proof.
  intros Hd Hl Ha.
  destruct (lexes_item (Directive s) acc d l ln (argsRunes (Args s) ++ rest)) as (lx1 & H1 & Hi1);
    [done..|].
  destruct (lexes_args (Args s) rest _ lx1 Ha Hi1) as (lx2 & H2 & Hi2).
  exists lx2. split; [by etransitivity|]. by rewrite <- (assoc_L app) in Hi2.
Qed.

Lemma stmtToks_directive s : isCommentStmt s = false →
  stmtToks s = (argTok (Directive s) :: (argTok <$> Args s)) ++
    match Blocks s with
    | None => [(";", false)]
    | Some b => ("{", false) :: blockToks b ++ [("}", false)]
    end.
Proof. unfold isCommentStmt. destruct s. simpl. by intros ->. Qed.

(** A printed directive that ends with a semicolon. *)
Lemma simple_prints s padding depth : stmtOK s → isCommentStmt s = false → Blocks s = None →
  printsOK (buildStmt defaultCustomBuilder padding depth) s.
Proof.
  intros Hs Hc Eb. pose proof (buildStmt_eq padding depth s Hs Hc) as Hb.
  destruct Hs as [Hd _ _ _ _ _|Hd Hl Hne Hif Hinc Ha Hcm Hincl Hbl].
  { unfold isCommentStmt in Hc. by rewrite Hd in Hc. }
  destruct (buildHead_runes (Directive s) (Args s) Hd Hif Ha) as [Hhv Hhr].
  destruct (argRunes_first (Directive s) Hd) as (r0 & rs0 & Er0 & Hr0).
  unfold printsOK. rewrite Hb, (stmtToks_directive s Hc), Eb. clear Hb.
  change ";" with (runeString r_semi) at 1 2 3.
  rewrite (utf8Decode_app _ (runeString r_semi)) by done. rewrite Hhr.
  change (utf8Decode (runeString r_semi)) with [r_semi].
  split; [by auto using validText_app, validText_rune|]. split; [rewrite Er0; simpl; eauto|].
  intros acc d l ln rest. rewrite <- !(assoc_L app).
  destruct (lexes_head s acc d l ln ([r_semi] ++ rest) Hd Hl Ha) as (lx & H1 & Hi).
  apply lexes_semi in Hi as (acc2 & l2 & ln2 & H2 & Hv).
  eexists _, _, _. split; [by etransitivity|]. by rewrite Hv, <- (assoc_L app).
Qed.

(** The runes of a printed block. *)
Lemma block_runes h hr T M : validText h → utf8Decode h = hr → validText T → validText M →
  utf8Decode ((h +:+ runeString r_sp +:+ runeString r_lbrace) +:+ T +:+
    runeString r_nl +:+ M +:+ runeString r_rbrace) =
  hr ++ r_sp :: r_lbrace :: utf8Decode T ++ r_nl :: utf8Decode M ++ [r_rbrace].
Proof.
  intros Hh <- HT HM. rewrite <- !string_app_assoc, utf8Decode_app, !utf8Decode_runeString by done.
  by rewrite (utf8Decode_app T), utf8Decode_runeString, utf8Decode_app by done.
Qed.

(** What is left before the closing brace of a block. *)
Lemma before_close F' M rest : Forall (λ r, IsSpace r = true) M →
  F' = r_nl :: M ++ r_rbrace :: rest ∨ r_nl :: F' = r_nl :: M ++ r_rbrace :: rest →
  ∃ sps, F' = sps ++ r_rbrace :: rest ∧ Forall (λ r, IsSpace r = true) sps.
Proof.
  intros HM [->|[= ->]]; [|by exists M]. exists (r_nl :: M). split; [done|by constructor].
Qed.

(** A printed block, when its statements print well. *)
Lemma block_prints s b padding depth : stmtOK s → isCommentStmt s = false → Blocks s = Some b →
  Forall (partOK (buildStmt defaultCustomBuilder padding (depth + 1))) b →
  printsOK (buildStmt defaultCustomBuilder padding depth) s.
Proof.
  intros Hs Hc Eb HF. pose proof (buildStmt_eq padding depth s Hs Hc) as Hb.
  destruct Hs as [Hd _ _ _ _ _|Hd Hl Hne Hif Hinc Ha Hcm Hincl Hbl].
  { unfold isCommentStmt in Hc. by rewrite Hd in Hc. }
  destruct (buildHead_runes (Directive s) (Args s) Hd Hif Ha) as [Hhv Hhr].
  destruct (argRunes_first (Directive s) Hd) as (r0 & rs0 & Er0 & Hr0).
  unfold printsOK. rewrite Hb, (stmtToks_directive s Hc), Eb. clear Hb.
  destruct (Hbl b Eb) as [_ Hap].
  destruct (margin_runes padding (depth + 1)) as [Hm1v Hm1s].
  destruct (margin_runes padding depth) as [Hmv Hms].
  rewrite buildLoop_text, string_eqb_app_r by done. cbn [negb].
  pose proof (loopText_valid _ (margin padding (depth + 1)) Hm1v b true (Line s) HF) as HTv.
  set (T := loopText _ _ true b (Line s)) in *.
  change " {" with (runeString r_sp +:+ runeString r_lbrace).
  change "}" with (runeString r_rbrace) at 1 2 3. unfold newline.
  rewrite <- (string_app_assoc _ T), (block_runes _ _ T _ Hhv Hhr HTv Hmv).
  set (M := utf8Decode (margin padding depth)) in *.
  split; [auto 10 using validText_app, validText_rune|]. split; [rewrite Er0; simpl; eauto|].
  intros acc d l ln rest. repeat (rewrite <- !(assoc_L app); simpl).
  destruct (lexes_head s acc d l ln (r_sp :: r_lbrace :: utf8Decode T ++ r_nl :: M ++ r_rbrace :: rest)
    Hd Hl Ha) as (lx & H1 & Hi).
  apply lexes_open in Hi as (acc2 & l2 & ln2 & H2 & Hv2).
  destruct (lexes_block (buildStmt defaultCustomBuilder padding (depth + 1)) _ Hm1v _ eq_refl Hm1s b true (Line s)
    (r_nl :: M ++ r_rbrace :: rest) (utf8Decode T ++ r_nl :: M ++ r_rbrace :: rest) acc2 true l2 ln2)
    as (acc3 & d3 & l3 & ln3 & F' & H3 & HF' & Hv3); [done|done|left; eauto|by left|].
  destruct (before_close F' M rest Hms HF') as (sps & -> & Hsps).
  destruct (lexes_close acc3 d3 l3 ln3 sps rest Hsps) as (acc4 & l4 & ln4 & H4 & Hv4).
  eexists _, _, _. split; [etransitivity; [exact H1|etransitivity; [exact H2|by etransitivity]]|].
  rewrite Hv4, Hv3, Hv2. by rewrite <- !(assoc_L app).
Qed.

Lemma stmt_prints s : stmtOK s → isCommentStmt s = false →
  ∀ padding depth, printsOK (buildStmt defaultCustomBuilder padding depth) s.
Proof.
  induction s as [s IH] using Stmt_nested_ind. intros Hs Hc padding depth.
  destruct (Blocks s) as [b|] eqn:Eb; [|by apply simple_prints].
  apply (block_prints s b); [done..|].
  destruct Hs as [Hd _ _ _ _ _|Hd Hl Hne Hif Hinc Ha Hcm Hincl Hbl].
  { unfold isCommentStmt in Hc. by rewrite Hd in Hc. }
  destruct (Hbl b Eb) as [Hbok _]. specialize (IH b eq_refl). rewrite Forall_forall in IH, Hbok |- *.
  intros x Hx. split; [by apply Hbok|]. intros Hcx. apply IH; auto.
Qed.

(** ** The tokens read back *)

(** A statement without its line and its file name. *)
Fixpoint erase (s : Stmt) : Stmt :=
  mkStmt (Directive s) "" 0 (Args s) (Comment s) (Includes s) (fmap (map erase) (Blocks s)).

(** What the parser makes of a token that was printed as a directive or an
    argument. *)
Lemma argTok_token s t : argOK s → argTok s = view t →
  text t = s ∧ inDirArgs t = true ∧ isComment t = false ∧ isClose t = false ∧ isOpen t = false.
Proof.
  intros (Hv & Hb & Hq) [= Hs Hquote]. subst s.
  assert (Hterm : ∀ x, x = "{" ∨ x = "}" ∨ x = ";" → text t = x → quote t = true).
  { intros x Hx Ht. rewrite Ht in Hquote. rewrite <- Hquote. by destruct Hx as [->|[->| ->]]. }
  split; [done|]. unfold inDirArgs, isComment, isClose, isOpen, checkTerminal.
  assert (Hne : quote t = false → (text t =? "{")%string = false ∧ (text t =? ";")%string = false
    ∧ (text t =? "}")%string = false).
  { intros Hf. repeat split; apply String.eqb_neq; intros He;
      (assert (quote t = true) by (eapply Hterm; [|exact He]; auto)); congruence. }
  destruct (quote t) eqn:Eq; simpl; rewrite ?andb_false_r, ?orb_true_r, ?andb_true_r; [done|].
  destruct (Hne eq_refl) as (-> & -> & ->). repeat split.
  rewrite Hquote in Hq.
  destruct (startsWithByte (text t) r_hash) eqn:E; [|done]. exfalso. apply Hq.
  unfold startsWithByte, firstByte in E. destruct (text t) as [|a s']; [done|].
  cbn [utf8Decode]. apply Z.eqb_eq in E. by rewrite E.
Qed.

Lemma argToks_tokens args ts : Forall argOK args → argTok <$> args = view <$> ts →
  argTexts ts = args ∧ commentTexts ts = [] ∧ Forall (λ t, inDirArgs t = true) ts.
Proof.
  intros Ha. revert ts. induction Ha as [|a args Ha _ IH]; intros ts H.
  - symmetry in H. apply fmap_nil_inv in H as ->. done.
  - symmetry in H. rewrite fmap_cons in H. apply fmap_cons_inv in H as (t & ts' & Ht & Hts & ->).
    destruct (argTok_token a t Ha Ht) as (Htx & Hd & Hc & _).
    destruct (IH ts' Hts) as (H1 & H2 & H3). unfold argTexts, commentTexts in *.
    rewrite filter_cons_True by done. rewrite filter_cons_False by congruence.
    rewrite fmap_cons, H1, H2, Htx. auto.
Qed.

Lemma view_terminal t x : (x, false) = view t → text t = x ∧ quote t = false.
Proof. by intros [= -> ->]. Qed.

Lemma comment_token s t : stmtOK s → isCommentStmt s = true → [view t] = stmtToks s →
  isComment t = true ∧ erase (commentOf "" t) = erase s.
Proof.
  intros Hs Hc. destruct (comment_valid s Hs Hc) as (Hv & _ & ->).
  destruct Hs as [Hd Hargs Hi Hb _ _|]; [|unfold isCommentStmt in Hc; by reflect_bools].
  destruct (validText_decode _ Hv) as [_ Hr]. rewrite runesString_cons, Hr.
  change (runeString r_hash) with (String (zbyte r_hash) ""). rewrite string_app_cons, string_app_nil_l.
  intros [= Ht Hq]. unfold isComment. rewrite Ht, Hq. split; [done|].
  unfold commentOf. rewrite Ht. destruct s. simpl in *. by subst.
Qed.

(** The tokens of a statement are a statement of the grammar. *)
Definition readsBack (one : bool) (s : Stmt) : Prop :=
  ∀ ts1 ts ss, stmtToks s = view <$> ts1 → gram true "" one ts ss →
  ∃ s', gram true "" one (ts1 ++ ts) (s' :: ss) ∧ erase s' = erase s.

Lemma block_gram one b ts1 :
  Forall (readsBack one) b → blockToks b = view <$> ts1 →
  ∃ ss, gram true "" one ts1 ss ∧ map erase ss = map erase b.
Proof.
  intros HF. revert ts1. induction HF as [|s b Hs _ IH]; intros ts1 H.
  - symmetry in H. apply fmap_nil_inv in H as ->. exists []. split; [constructor|done].
  - symmetry in H. apply fmap_app_inv in H as (k1 & k2 & H1 & H2 & ->).
    destruct (IH k2 H2) as (ss & HG & He). destruct (Hs k1 k2 ss H1 HG) as (s' & HG' & He').
    exists (s' :: ss). split; [done|]. simpl. by rewrite He', He.
Qed.

Lemma stmtOf_plain fname d args :
  text d ≠ "if" → stmtOf fname d args = mkStmt (text d) fname (line d) (argTexts args) "" [] None.
Proof. intros H. unfold stmtOf. by rewrite (proj2 (String.eqb_neq _ _) H). Qed.

Lemma stmt_gram one s : stmtOK s → readsBack one s.
Proof.
  induction s as [s IH] using Stmt_nested_ind. intros Hs ts1 ts ss Ht HG.
  destruct (isCommentStmt s) eqn:Ec.
  { destruct (comment_valid s Hs Ec) as (_ & _ & E). rewrite E in Ht.
    symmetry in Ht. apply fmap_cons_inv in Ht as (t & l & Hvt & Hn & ->).
    symmetry in Hn. apply fmap_nil_inv in Hn as ->.
    destruct (comment_token s t Hs Ec) as [Hcm He]; [by rewrite E, Hvt|].
    exists (commentOf "" t). split; [|done]. by apply (gram_comment true "" one t ts ss). }
  rewrite (stmtToks_directive s Ec) in Ht.
  destruct Hs as [Hd _ _ _ _ _|Hd Hl Hne Hif Hinc Ha Hcm Hincl Hbl].
  { unfold isCommentStmt in Ec. by rewrite Hd in Ec. }
  symmetry in Ht. rewrite <- app_comm_cons in Ht.
  apply fmap_cons_inv in Ht as (d & l1 & Hvd & Hrest & ->). symmetry in Hrest.
  apply fmap_app_inv in Hrest as (targs & l2 & Hta & Hl2 & ->).
  destruct (argTok_token _ d Hd Hvd) as (Htd & _ & Hdc & Hdcl & _).
  destruct (argToks_tokens _ targs Ha Hta) as (Hat & Hct & Hin).
  assert (Hst : startsDirective one d) by (split; [done|split; [done|right; by rewrite Htd]]).
  destruct (Blocks s) as [b|] eqn:Eb.
  - symmetry in Hl2. apply fmap_cons_inv in Hl2 as (o & l3 & Hvo & Hl3 & ->).
    symmetry in Hl3. apply fmap_app_inv in Hl3 as (inner & l4 & Hinn & Hl4 & ->).
    symmetry in Hl4. apply fmap_cons_inv in Hl4 as (c & l5 & Hvc & Hl5 & ->).
    symmetry in Hl5. apply fmap_nil_inv in Hl5 as ->.
    destruct (Hbl b eq_refl) as [Hbok _].
    destruct (block_gram one b inner) as (bs & HGb & Heb); [|done|].
    { specialize (IH b eq_refl). rewrite Forall_forall in IH, Hbok |- *. auto. }
    apply view_terminal in Hvo as [Hot Hoq]. apply view_terminal in Hvc as [Hcl Hcq].
    eexists. split.
    + simpl. rewrite <- (assoc_L app). simpl. rewrite <- (assoc_L app). simpl.
      pose proof (gram_block true "" one d targs o inner bs c ts ss Hst Hin) as HGr.
      rewrite Hct in HGr. apply HGr; [|done| |done].
      * unfold isOpen. by rewrite Hot, Hoq.
      * unfold isClose. by rewrite Hcl, Hcq.
    + rewrite stmtOf_plain by (by rewrite Htd). rewrite Hat, Htd. destruct s. simpl in *.
      subst. simpl. by rewrite Heb.
  - symmetry in Hl2. apply fmap_cons_inv in Hl2 as (o & l3 & Hvo & Hl3 & ->).
    symmetry in Hl3. apply fmap_nil_inv in Hl3 as ->. apply view_terminal in Hvo as [Hot Hoq].
    eexists. split.
    + simpl. rewrite <- (assoc_L app). simpl.
      pose proof (gram_simple true "" one d targs o ts ss Hst Hin) as HGr.
      rewrite Hct in HGr. apply HGr; [|done]. unfold isSemi. by rewrite Hot, Hoq.
    + rewrite stmtOf_plain by (by rewrite Htd). rewrite Hat, Htd. destruct s. simpl in *. by subst.
Qed.

(** The braces of a block are balanced. *)
Definition balanced (out : list (string * bool)) : Prop :=
  ∀ ts rest f dp ln, out = view <$> ts → 0 ≤ dp →
  ∃ ln', balanceLoop (ts ++ rest) f dp ln = balanceLoop rest f dp ln'.

Lemma balanced_nil : balanced [].
Proof. intros ts rest f dp ln H _. symmetry in H. apply fmap_nil_inv in H as ->. eauto. Qed.

Lemma balanced_app o1 o2 : balanced o1 → balanced o2 → balanced (o1 ++ o2).
Proof.
  intros H1 H2 ts rest f dp ln H Hd. symmetry in H.
  apply fmap_app_inv in H as (k1 & k2 & Hk1 & Hk2 & ->). rewrite <- (assoc_L app).
  destruct (H1 k1 (k2 ++ rest) f dp ln Hk1 Hd) as (ln1 & ->).
  apply (H2 k2 rest f dp ln1 Hk2 Hd).
Qed.

Lemma balanced_other x q : (q = true ∨ x ≠ "{" ∧ x ≠ "}") → balanced [(x, q)].
Proof.
  intros Hx ts rest f dp ln H Hd. symmetry in H. apply fmap_cons_inv in H as (t & l & Hvt & Hn & ->).
  symmetry in Hn. apply fmap_nil_inv in Hn as ->. injection Hvt as -> ->. simpl.
  assert ((text t =? "}")%string && negb (quote t) = false ∧
          (text t =? "{")%string && negb (quote t) = false) as [-> ->].
  { destruct Hx as [->|[H1%String.eqb_neq H2%String.eqb_neq]]; [by rewrite !andb_false_r|].
    by rewrite H1, H2. }
  replace (dp <? 0) with false by lia. eauto.
Qed.

Lemma balanced_braces o : balanced o → balanced (("{", false) :: o ++ [("}", false)]).
Proof.
  intros Ho ts rest f dp ln H Hd. symmetry in H. apply fmap_cons_inv in H as (t & l & Hvt & Hn & ->).
  symmetry in Hn. apply fmap_app_inv in Hn as (k1 & k2 & Hk1 & Hk2 & ->).
  symmetry in Hk2. apply fmap_cons_inv in Hk2 as (c & l2 & Hvc & Hn & ->).
  symmetry in Hn. apply fmap_nil_inv in Hn as ->.
  apply view_terminal in Hvt as [Ht Hq]. apply view_terminal in Hvc as [Hc Hcq].
  rewrite <- app_comm_cons, <- (assoc_L app). cbn [balanceLoop]. rewrite Ht, Hq. simpl.
  replace (dp + 1 <? 0) with false by lia.
  destruct (Ho k1 (c :: rest) f (dp + 1) (line t) Hk1 ltac:(lia)) as (ln1 & ->).
  cbn [balanceLoop]. rewrite Hc, Hcq. simpl.
  replace (dp + 1 - 1) with dp by lia. replace (dp <? 0) with false by lia. eauto.
Qed.

Lemma balanced_arg s : balanced [argTok s].
Proof.
  apply balanced_other. destruct (needsQuote s) eqn:E; [by left|]. right.
  split; intros ->; vm_compute in E; done.
Qed.

Lemma balanced_args args : balanced (argTok <$> args).
Proof.
  induction args as [|a args IH]; [apply balanced_nil|].
  apply (balanced_app [argTok a]); [apply balanced_arg|done].
Qed.

Lemma balanced_block b : Forall (λ s, balanced (stmtToks s)) b → balanced (blockToks b).
Proof. induction 1; [apply balanced_nil|]. by apply balanced_app. Qed.

Lemma balanced_stmt s : stmtOK s → balanced (stmtToks s).
Proof.
  induction s as [s IH] using Stmt_nested_ind. intros Hs.
  destruct (isCommentStmt s) eqn:Ec.
  { destruct (comment_valid s Hs Ec) as (_ & _ & ->). apply balanced_other. right.
    rewrite runesString_cons. split; intros H; apply (f_equal firstByte) in H; vm_compute in H; done. }
  rewrite (stmtToks_directive s Ec).
  destruct Hs as [Hd _ _ _ _ _|_ _ _ _ _ _ _ _ Hbl].
  { unfold isCommentStmt in Ec. by rewrite Hd in Ec. }
  apply balanced_app; [apply (balanced_app [argTok (Directive s)]);
    [apply balanced_arg|apply balanced_args]|].
  destruct (Blocks s) as [b|]; [|by apply balanced_other; right].
  apply balanced_braces, balanced_block. destruct (Hbl b eq_refl) as [Hb _].
  specialize (IH b eq_refl). rewrite Forall_forall in IH, Hb |- *. auto.
Qed.

Lemma balanceBraces_block b ts filename :
  Forall stmtOK b → view <$> ts = blockToks b → balanceBraces ts filename = None.
Proof.
  intros Hb Hv. unfold balanceBraces. rewrite <- (app_nil_r ts).
  destruct (balanced_block b) with (ts := ts) (rest := @nil token) (f := filename) (dp := 0) (ln := 0)
    as (ln' & ->); [|done|done|done].
  eapply Forall_impl; [exact Hb|]. intros s. apply balanced_stmt.
Qed.

(** ** A whole file *)

(** The lexer reads a printed block as the tokens of the block. *)
Lemma lex_build b padding filename :
  Forall stmtOK b → commentsApart b → (∀ s, last b = Some s → isCommentStmt s = false) →
  ∃ n ts, lex n (build b padding false) filename = Ok (inl ts) ∧ view <$> ts = blockToks b.
Proof.
  intros Hb Hap Hlast. unfold build, buildBlock.
  assert (HF : Forall (partOK (buildStmt defaultCustomBuilder padding 0)) b).
  { rewrite Forall_forall in Hb |- *. intros x Hx. split; [auto|]. intros. apply stmt_prints; auto. }
  destruct (margin_runes padding 0) as [Hmv Hms]. rewrite buildLoop_text by done.
  rewrite string_app_nil_l. cbn [negb String.eqb].
  destruct (lexes_block (buildStmt defaultCustomBuilder padding 0) _ Hmv _ eq_refl Hms b false 0 []
    (utf8Decode (loopText (buildStmt defaultCustomBuilder padding 0) (margin padding 0) false b 0))
    [] false 0 1) as (acc & d & l & ln & F' & (k & bd & Hlex) & HF' & Hv);
    [done|done|by right|left; by rewrite app_nil_r|].
  destruct HF' as [->|]; [|done]. simpl in Hv.
  exists (k + S bd)%nat, acc. split; [|done].
  unfold lex, newIter, newLexer. specialize (Hlex (S bd) ltac:(lia)). unfold st in Hlex at 1.
  rewrite Hlex. unfold lexer_lex. cbn [go_for]. unfold lexPass. cbn [lx_iter st].
  rewrite Next_nil. cbn -[balanceBraces]. by rewrite (balanceBraces_block b acc filename Hb Hv).
Qed.

(** The text of a block in two parts. *)
Lemma loopText_app built m b1 b2 ne ll :
  loopText built m ne (b1 ++ b2) ll =
  loopText built m ne b1 ll +:+
  loopText built m (ne || negb (bool_decide (b1 = []))) b2 (default ll (Line <$> last b1)).
Proof.
  revert ne ll. induction b1 as [|s b1 IH]; intros ne ll; [simpl; by rewrite orb_false_r|].
  assert (Hl : ∀ ll', ll' = Line s →
    default ll' (Line <$> last b1) = default ll (Line <$> last (s :: b1))).
  { intros ll' ->. destruct b1 as [|s2 b1]; [done|]. rewrite last_cons_cons.
    destruct (last (s2 :: b1)) eqn:E; [done|]. by apply last_None in E. }
  rewrite (bool_decide_eq_false_2 (s :: b1 = [])) by done. rewrite orb_true_r. cbn [loopText app].
  destruct (isCommentStmt s && (Line s =? ll)) eqn:E.
  - rewrite IH. reflect_bools. rewrite Hl by done. by rewrite <- !string_app_assoc.
  - rewrite IH, Hl by done. by rewrite <- !string_app_assoc.
Qed.

Lemma commentsApart_last b c : commentsApart (b ++ [c]) → isCommentStmt c = true →
  ∀ s, last b = Some s → isCommentStmt s = true → Line s ≠ Line c.
Proof.
  induction b as [|s1 b IH]; intros Hap Hc s Hs Hcs; [done|]. destruct b as [|s2 b].
  - injection Hs as <-. destruct Hap as [Hap _]. intros He. by apply Hap.
  - rewrite last_cons_cons in Hs. destruct Hap as [_ Hap]. by apply IH.
Qed.

Lemma lexer_comment_diverges acc d l ln blanks c n :
  Forall (λ r, IsSpace r = true) blanks → Forall (λ r, r ≠ r_nl) c →
  lexer_lex n (st "" acc d l ln (blanks ++ r_hash :: c)) = OutOfFuel.
Proof.
  intros Hb Hc. destruct (lexes_blank acc d l ln blanks r_hash c Hb eq_refl) as (ln' & H).
  revert n. apply (lexes_diverges _ _ H). intros n. destruct n as [|n]; [done|].
  unfold lexer_lex. cbn [go_for]. unfold lexPass. cbn [lx_iter st]. rewrite Next_cons.
  cbn -[commentLoop go_for]. by rewrite commentLoop_diverges by (constructor; done).
Qed.

(** A file that ends with a comment is printed as a text that is never
    read back: [build] writes no newline after the last statement, and the
    lexer then looks for the end of the comment for ever. *)
Lemma build_final_comment_diverges b c padding filename n :
  Forall stmtOK (b ++ [c]) → commentsApart (b ++ [c]) → isCommentStmt c = true →
  lex n (build (b ++ [c]) padding false) filename = OutOfFuel.
Proof.
  intros Hb Hap Hc. unfold build, buildBlock.
  assert (HF : Forall (partOK (buildStmt defaultCustomBuilder padding 0)) (b ++ [c])).
  { rewrite Forall_forall in Hb |- *. intros x Hx. split; [auto|]. intros. apply stmt_prints; auto. }
  destruct (margin_runes padding 0) as [Hmv Hms]. rewrite buildLoop_text by done.
  rewrite string_app_nil_l. cbn [negb String.eqb]. rewrite loopText_app.
  apply Forall_app in HF as [HFb HFc]. set (ne := _ || _). set (ll := default _ _).
  destruct (loopText_runes_comment _ _ Hmv _ eq_refl Hms c [] ne ll HFc Hc)
    as (bl & Hbl & Hnl & Ht).
  pose proof (Forall_cons_1 _ _ _ HFc) as [[Hsc _] _].
  destruct (comment_valid c Hsc Hc) as (_ & Hcnl & _). simpl (utf8Decode (loopText _ _ true [] _)) in Ht.
  rewrite app_nil_r in Ht.
  set (F := utf8Decode (loopText _ _ ne [c] ll)) in *.
  destruct (lexes_block (buildStmt defaultCustomBuilder padding 0) _ Hmv _ eq_refl Hms b false 0 F
    (utf8Decode (loopText (buildStmt defaultCustomBuilder padding 0) (margin padding 0) false b 0) ++ F)
    [] false 0 1) as (acc & d & l & ln & F' & Hlex & HF' & _).
  - done.
  - clear -Hap. induction b as [|s1 b IH]; [done|]. destruct b as [|s2 b]; [done|].
    destruct Hap as [? Hap]. split; [done|by apply IH].
  - destruct (last b) as [s|] eqn:El; [|right; intros s; by rewrite El].
    destruct (isCommentStmt s) eqn:Ecs; [|right; intros s'; rewrite El; by intros [= <-]].
    left. destruct Hnl as [b' ->]; [| |rewrite Ht; by eexists].
    + subst ll. simpl. apply Z.eqb_neq. intros He.
      by apply (commentsApart_last b c Hap Hc s El Ecs).
    + subst ne. destruct b; [done|]. by rewrite bool_decide_eq_false_2.
  - by left.
  - unfold lex, newIter, newLexer. rewrite utf8Decode_app by (by apply loopText_valid).
    fold F. unfold st in Hlex at 1.
    erewrite (lexes_diverges _ _ Hlex); [done|].
    intros k. assert (∃ bl', F' = bl' ++ r_hash :: utf8Decode (Comment c) ∧
      Forall (λ r, IsSpace r = true) bl') as (bl' & -> & Hbl').
    { assert (Hbl2 : Forall (λ r, IsSpace r = true) (bl ++ [r_sp]))
        by (apply Forall_app; split; [done|by repeat constructor]).
      replace (bl ++ r_sp :: r_hash :: utf8Decode (Comment c))
        with ((bl ++ [r_sp]) ++ r_hash :: utf8Decode (Comment c)) in Ht by (by rewrite <- (assoc_L app)).
      rewrite Ht in HF'. destruct HF' as [->|HF']; [eauto|].
      destruct (bl ++ [r_sp]) as [|x bl']; [done|]. injection HF' as _ ->.
      apply Forall_cons in Hbl2 as [_ ?]. eauto. }
    by apply lexer_comment_diverges.
Qed.

(** The text of a block is read back with any fuel above the number of its
    tokens. *)
Lemma build_reads `{F : Fmt} `{FS : FileSystem} b padding filename w ctx :
  Forall stmtOK b → commentsApart b → (∀ s, last b = Some s → isCommentStmt s = false) →
  comments (w_opts w) = true → combine (w_opts w) = false →
  (∀ x, ignored (w_opts w) x = false) →
  ∃ k ts ss,
    lex k (build b padding false) filename = Ok (inl ts) ∧ map erase ss = map erase b ∧
    ∀ n, (length ts < n)%nat → ∃ w', parseInternal n (set_w_tokens ts w) ctx false = Ok (ss, w') ∧
      w_opts w' = w_opts w ∧
      (blockAccepts (w_dirs w) (strict (w_opts w)) (checkArgs (w_opts w)) ctx ss → w_pld w' = w_pld w).
Proof.
  intros Hb Hap Hlast Hcm Hcb Hig.
  destruct (lex_build b padding filename Hb Hap Hlast) as (k & ts & Hlex & Hv).
  destruct (block_gram (single (w_opts w)) b ts) as (ss & HG & He).
  { eapply Forall_impl; [exact Hb|]. intros s. apply stmt_gram. }
  { done. }
  exists k, ts, ss. split_and!; [done..|]. intros n Hn.
  destruct (parseLoop_gram _ _ _ ts ss HG n (set_w_tokens ts w) ctx [] [] [])
    as (w' & HP & [Ho _] & _ & Ha);
    [done|done|unfold fnameOf; simpl; by rewrite Hcb|done|by rewrite app_nil_r|constructor|rewrite app_nil_r; lia|].
  by exists w'.
Qed.

(** C1: printing and reading back. For a block of well-formed statements, the
    text that [build] prints (any indentation, no header) is lexed without
    error and parsed without a crash to the same statements: directives,
    arguments, comments and nested blocks, up to the line numbers. Arguments may hold
    any printable text without a backslash; those the syntax gives a meaning to
    are quoted on the way out and unquoted on the way back. *)
Theorem build_roundtrip `{F : Fmt} `{FS : FileSystem} b padding filename w ctx :
  Forall stmtOK b → commentsApart b → (∀ s, last b = Some s → isCommentStmt s = false) →
  comments (w_opts w) = true → combine (w_opts w) = false →
  (∀ x, ignored (w_opts w) x = false) →
  ∃ ts ss w',
    lex (lexFuel (build b padding false)) (build b padding false) filename = Ok (inl ts) ∧
    parseInternal (S (length ts)) (set_w_tokens ts w) ctx false = Ok (ss, w') ∧
    map erase ss = map erase b.
Proof.
  intros Hb Hap Hlast Hcm Hcb Hig.
  destruct (build_reads b padding filename w ctx Hb Hap Hlast Hcm Hcb Hig) as (k & ts & ss & Hlex & He & HP).
  destruct (HP (S (length ts)) ltac:(lia)) as (w' & HP' & _). exists ts, ss, w'. split; [by eapply lex_enough|]. done.
Qed.
End WellFormed.

(** A block with nested blocks, a comment, and arguments that need quoting. *)
Definition sampleBlock : list Stmt :=
  let dir d l args bl := mkStmt d "" l args "" [] bl in
  [dir "worker_processes" 1 ["auto"] None;
   dir "http" 2 []
     (Some [mkStmt "#" "" 2 [] " the site" [] None;
            dir "server" 3 []
              (Some [dir "listen" 4 ["127.0.0.1:80"] None;
                     dir "location" 5 ["~"; "a b"]
                       (Some [dir "return" 6 ["200"; "{ok};"; "$host"; ""] None]);
                     mkStmt "#" "" 9 [] " end" [] None])]);
   dir "events" 12 [] (Some [])].

Definition keepComments : parseOpts :=
  {| catchErr := true; ignore := None; single := true; strict := false; comments := true;
     combine := false; checkCtx := true; checkArgs := true; configDir := ""; includes := [];
     included := ∅; errHandler := false |}.

Lemma build_roundtrip_witness :
  ∃ ts ss w',
    lex (lexFuel (@build asciiOnly sampleBlock 4 false)) (@build asciiOnly sampleBlock 4 false)
      "nginx.conf" = Ok (inl ts) ∧
    @parseInternal asciiOnly noFmt {| fs_Open _ := inr "none"; Glob _ := inl [] |} (S (length ts))
      (mkWorld ts (mkParsing "nginx.conf" "ok" [] []) keepComments (mkPayload "ok" [] []) directives)
      [] false = Ok (ss, w') ∧
    map erase ss = map erase sampleBlock.
Proof.
  apply (@build_roundtrip asciiOnly noFmt {| fs_Open _ := inr "none"; Glob _ := inl [] |}
    sampleBlock 4 "nginx.conf"
    (mkWorld [] (mkParsing "nginx.conf" "ok" [] []) keepComments (mkPayload "ok" [] []) directives) []).
  - repeat (apply Forall_cons; split; [apply stmtOKb_sound; vm_compute; reflexivity|]).
    apply Forall_nil. exact I.
  - apply commentsApartb_sound. vm_compute. reflexivity.
  - intros s [= <-]. reflexivity.
  - reflexivity.
  - reflexivity.
  - intros x. reflexivity.
Defined.
