(* ===== verification/Verdict.v ===== *)
(** * The verdict on a whole block

    [parseInternal] analyses each statement as it reads it.  Which blocks it
    reads without reporting an error is [blockAccepts], a predicate on the
    statements alone: it does not depend on the order of the calls, on the lines
    or on the in-place reversals of the directive table. *)

From S2P Require Import Prelude GoStrings Lexer Directives Stmt Analyze Parse ParseFacts Quoting Build LexSteps RoundTrip Combine.

#[local] Open Scope Z_scope.

Section Verdict.
Context `{U : Unicode} `{F : Fmt} `{FS : FileSystem}.

(** ** What the parser keeps while it reports errors *)

(** The checks that are on, the masks, and the errors reported so far. *)
Definition reportsMore (w w' : world) : Prop :=
  queueGrows (w_opts w) (w_opts w') ∧ sameMasks (w_dirs w') (w_dirs w) ∧
  (pld_Errors (w_pld w) `prefix_of` pld_Errors (w_pld w')).

#[export] Instance reportsMore_preorder : PreOrder reportsMore.
Proof.
  split; [intros w; split_and!; reflexivity|].
  intros w1 w2 w3 (? & ? & ?) (? & ? & ?); split_and!; by etransitivity.
Qed.

Lemma handleErr_reports e w : reportsMore w (handleErr e w).
Proof.
  split_and!; [reflexivity..|]. simpl. destruct (errHandler _); [|reflexivity]. by eexists.
Qed.

Lemma analyzeStmt_reports s t ctx w : reportsMore w (analyzeStmt s t ctx w).
Proof.
  unfold analyzeStmt.
  pose proof (analyze_sameMasks (w_dirs w) (File (w_parsing w)) s t ctx (strict (w_opts w))
    (checkCtx (w_opts w)) (checkArgs (w_opts w))) as H.
  destruct (analyze _ _ _ _ _ _ _ _) as [e d]. simpl in H.
  assert (reportsMore w (set_w_dirs d w)) by (split_and!; [reflexivity|done|reflexivity]).
  destruct e as [e|]; [|done]. etransitivity; [done|apply handleErr_reports].
Qed.

Lemma handleInclude_reports s ctx w s' w' :
  handleInclude s ctx w = Ok (s', w') → reportsMore w w' ∧ s' = set_Includes (Includes s') s.
Proof.
  unfold handleInclude. destruct (_ && _).
  2: { intros [= <- <-]. split; [reflexivity|by destruct s]. }
  intros H. inv_bind. destruct (includeFiles _ _ _ _) as [fs err].
  set (w1 := match err with Some e => handleErr e w | None => w end) in *.
  assert (H1 : reportsMore w w1) by (destruct err; [apply handleErr_reports|reflexivity]).
  pose proof (enqueueFiles_spec fs ctx (w_opts w1) (Includes s)) as HE.
  destruct (enqueueFiles _ _ _ _) as [o' idxs]. destruct HE as (E1 & _ & E3).
  injection H as <- <-. split; [|done]. etransitivity; [exact H1|].
  split_and!; [|reflexivity..]. simpl. rewrite E3, E1. by eexists _, _.
Qed.

Lemma parseLoop_reports n w ctx consume parsed r w' :
  parseLoop n w ctx consume parsed = Ok (r, w') → reportsMore w w'.
Proof.
  intros H. eapply (parseLoop_inv reportsMore (λ _, True) (λ _ _, True)) in H as [? _]; try done.
  - intros. apply analyzeStmt_reports.
  - intros * _ Hi Hb H1. apply handleInclude_reports in H1 as [? Es]. by rewrite Es.
  - by apply Forall_true.
Qed.

(** ** Reading without an error *)

(** A statement that is analysed without a new error is accepted. *)
Lemma analyzeStmt_silent s t ctx w :
  errHandler (w_opts w) = true →
  pld_Errors (w_pld (analyzeStmt s t ctx w)) = pld_Errors (w_pld w) →
  analyzeAccepts (w_dirs w) s t ctx (strict (w_opts w)) (checkArgs (w_opts w)).
Proof.
  intros He. rewrite <- (analyze_accepts _ (File (w_parsing w)) _ _ _ _ (checkCtx (w_opts w))).
  unfold analyzeStmt. destruct (analyze _ _ _ _ _ _ _ _) as [[e|] d]; [|done].
  simpl. rewrite He. simpl. intros H%(f_equal length). rewrite length_app in H. simpl in H. lia.
Qed.

(** The shape of the statement does not say whether a semicolon or a brace ended
    it, but a statement that a brace ends is only accepted where any is. *)
Lemma analyzeAccepts_term dirs s t ctx st ca :
  inDirArgs t = false → isOpen t = false →
  analyzeAccepts dirs s (text t) ctx st ca → analyzeAccepts dirs s ";" ctx st ca.
Proof.
  unfold analyzeAccepts. intros Ht Ho. destruct (dirs !! Directive s) as [masks|]; [|done].
  intros H Hc Ha Hne. specialize (H Hc Ha Hne). eapply Exists_impl; [exact H|]. clear H. intros m.
  unfold inDirArgs, isOpen, checkTerminal, maskFits in *.
  destruct (quote t); [by rewrite orb_true_r in Ht|]. rewrite orb_false_r, andb_true_r in *.
  destruct (String.eqb_spec (text t) ";") as [->|Hs]; [done|]. rewrite Ho.
  by destruct (hasBit m NGXConfBlock).
Qed.

Lemma analyzeAccepts_ext dirs s s' t ctx st ca : Directive s = Directive s' → Args s = Args s' →
  analyzeAccepts dirs s t ctx st ca → analyzeAccepts dirs s' t ctx st ca.
Proof. unfold analyzeAccepts. by intros -> ->. Qed.

Lemma enterBlock_ext s s' ctx : Directive s = Directive s' → enterBlock s ctx = enterBlock s' ctx.
Proof. unfold enterBlock. by intros ->. Qed.

(** A comment is accepted where unknown directives are. *)
Lemma comment_accepts dirs ca ctx s :
  dirs !! "#" = None → Directive s = "#" → Blocks s = None → stmtAccepts dirs false ca ctx s.
Proof.
  intros Hd Hs Hb. rewrite stmtAccepts_eq. split; [unfold analyzeAccepts; by rewrite Hs, Hd|].
  intros b. by rewrite Hb.
Qed.

Lemma sameMasks_None d d' k : sameMasks d d' → d' !! k = None → d !! k = None.
Proof. intros H Hk. specialize (H k). rewrite Hk in H. by inversion H. Qed.

(** The checks of a run: no directive is skipped, errors are collected, unknown
    directives pass. *)
Definition lenient (w : world) : Prop :=
  (∀ x, ignored (w_opts w) x = false) ∧ errHandler (w_opts w) = true ∧ strict (w_opts w) = false ∧
  w_dirs w !! "#" = None.

Lemma lenient_mono w w' : reportsMore w w' → lenient w → lenient w'.
Proof.
  intros ((e & m & Ho) & Hd & _) (H1 & H2 & H3 & H4). unfold lenient. rewrite Ho. split_and!; [done..|].
  by eapply sameMasks_None.
Qed.

Lemma reportsMore_checkArgs w w' : reportsMore w w' → checkArgs (w_opts w') = checkArgs (w_opts w).
Proof. intros ((e & m & ->) & _). done. Qed.

(** Errors that did not grow over two parts of a run grew over neither. *)
Lemma reportsMore_silent w w1 w2 : reportsMore w w1 → reportsMore w1 w2 →
  pld_Errors (w_pld w2) = pld_Errors (w_pld w) →
  pld_Errors (w_pld w1) = pld_Errors (w_pld w) ∧ pld_Errors (w_pld w2) = pld_Errors (w_pld w1).
Proof.
  intros (_ & _ & H1) (_ & _ & H2) He. rewrite He in *.
  assert (pld_Errors (w_pld w1) = pld_Errors (w_pld w)) as ->; [|done].
  by apply (anti_symm prefix).
Qed.

(** A run with no new error adds accepted statements. *)
Definition silent (n : nat) : Prop := ∀ w ctx parsed r w',
  lenient w → parseLoop n w ctx false parsed = Ok (r, w') →
  pld_Errors (w_pld w') = pld_Errors (w_pld w) →
  ∃ new, r = parsed ++ new ∧ blockAccepts (w_dirs w) false (checkArgs (w_opts w)) ctx new.

(** The same for the rest of a run, after [w] became [w1]. *)
Lemma silent_rest n w w1 w' ctx parsed s r :
  silent n → lenient w → reportsMore w w1 →
  parseLoop n w1 ctx false (parsed ++ s) = Ok (r, w') →
  pld_Errors (w_pld w') = pld_Errors (w_pld w) →
  blockAccepts (w_dirs w) false (checkArgs (w_opts w)) ctx s →
  ∃ new, r = parsed ++ new ∧ blockAccepts (w_dirs w) false (checkArgs (w_opts w)) ctx new.
Proof.
  intros IH Hl HR H He Hs. pose proof (parseLoop_reports _ _ _ _ _ _ _ H) as HR'.
  destruct (reportsMore_silent _ _ _ HR HR' He) as [_ He'].
  destruct (IH _ _ _ _ _ (lenient_mono _ _ HR Hl) H He') as (new & -> & Hn).
  rewrite (reportsMore_checkArgs _ _ HR) in Hn. destruct HR as (_ & Hd & _). rewrite Hd in Hn.
  exists (s ++ new). split; [by rewrite (assoc_L app)|]. by apply Forall_app.
Qed.

Lemma parseLoop_silent n : silent n.
Proof.
  induction n as [|n IH]; intros w ctx parsed r w' Hl H He; [done|].
  pose proof Hl as (Hig & Hh & Hst & Hd). cbn [parseLoop] in H.
  destruct (w_tokens w) as [|tok it]; [injection H as <- <-; exists []; rewrite app_nil_r; split; [done|constructor]|].
  assert (HR : ∀ it, reportsMore w (set_w_tokens it w)) by (intros it2; split_and!; reflexivity).
  destruct (isClose tok); [injection H as <- <-; exists []; rewrite app_nil_r; split; [done|constructor]|].
  cbn [andb] in H. destruct (isComment tok).
  { destruct (comments _); [|rewrite <- (app_nil_r parsed) in H];
      (eapply silent_rest; [exact IH|exact Hl|apply HR|exact H|exact He|]); [|constructor].
    constructor; [by apply comment_accepts|constructor]. }
  inv_bind. destruct a as [[[term it'] args] cms]. apply dirArgs_suffix in H0 as (_ & _ & _ & Hterm).
  set (w1 := set_w_tokens it' _) in *. replace (ignored (w_opts w1)) with (ignored (w_opts w)) in H by done.
  rewrite Hig in H. inv_bind. destruct a as [s2 w2]. inv_bind. destruct a as [s3 w3].
  match type of H0 with handleInclude ?s _ _ = _ => set (s1 := s) in * end.
  apply handleInclude_reports in H0 as [HR2 Hs2].
  assert (HR1 : reportsMore w (analyzeStmt s1 (text term) ctx w1)).
  { etransitivity; [apply HR|]. apply (analyzeStmt_reports s1 (text term) ctx w1). }
  assert (HRw2 : reportsMore w w2) by (by etransitivity).
  pose proof (parseLoop_reports _ _ _ _ _ _ _ H) as HR'.
  assert (HR3 : reportsMore w2 w3).
  { destruct (isOpen term); [|by injection H1 as <- <-]. inv_bind. destruct a as [b w4].
    injection H1 as <- <-. by eapply parseLoop_reports. }
  destruct (reportsMore_silent w w2 w' HRw2) as [He2 He2']; [by etransitivity|done|].
  destruct (reportsMore_silent w2 w3 w' HR3 HR' He2') as [He3 _].
  destruct (reportsMore_silent w _ w2 HR1 HR2 He2) as [He1 _].
  assert (Ha : analyzeAccepts (w_dirs w) s2 (text term) ctx false (checkArgs (w_opts w))).
  { rewrite <- Hst. apply (analyzeAccepts_ext _ s1); [by rewrite Hs2..|].
    by apply (analyzeStmt_silent s1 (text term) ctx w1). }
  eapply silent_rest; [exact IH|exact Hl|by etransitivity|exact H|exact He|].
  constructor; [|apply Forall_fmap, Forall_true; intros c; by apply comment_accepts].
  rewrite stmtAccepts_eq. destruct (isOpen term) eqn:Eo.
  - inv_bind. destruct a as [b w4]. injection H1 as <- <-. split.
    + apply (analyzeAccepts_ext _ s2); [done..|]. unfold isOpen in Eo. reflect_bools.
      match goal with H : text term = "{" |- _ => by rewrite H in Ha end.
    + intros b' [= <-]. destruct (IH _ _ _ _ _ (lenient_mono _ _ HRw2 Hl) H0 He3) as (new & -> & Hn).
      rewrite (reportsMore_checkArgs _ _ HRw2) in Hn. destruct HRw2 as (_ & Hd2 & _). rewrite Hd2 in Hn. done.
  - injection H1 as <- <-.
    assert (Hb : Blocks s2 = None).
    { rewrite Hs2. simpl. subst s1. destruct (_ =? "if")%string; [|done].
      match goal with |- context [prepareIfArgs ?s] => by destruct (prepareIfArgs_shape s) as (_ & -> & _) end. }
    unfold termOf. rewrite Hb. split; [|done]. by eapply analyzeAccepts_term.
Qed.

(** C6: what is reported.  On the tokens of a sequence of statements, after any
    earlier calls that left the table with its masks in some order, the parser
    returns the statements, and it has reported no error exactly when the table
    admits every statement of every nested block: with its arguments, its
    terminator and the context of the blocks around it. *)
Theorem parse_verdict ts ss n w ctx :
  (∀ x, ignored (w_opts w) x = false) → errHandler (w_opts w) = true → strict (w_opts w) = false →
  sameMasks (w_dirs w) directives →
  gram (comments (w_opts w)) (fnameOf w) (single (w_opts w)) ts ss →
  w_tokens w = ts → (length ts < n)%nat →
  ∃ w', parseInternal n w ctx false = Ok (ss, w') ∧
    (pld_Errors (w_pld w') = pld_Errors (w_pld w) ↔
     blockAccepts directives false (checkArgs (w_opts w)) ctx ss).
Proof.
  intros Hig Hh Hst Hd HG Ht Hn.
  destruct (parseLoop_gram _ _ _ ts ss HG n w ctx [] [] []) as (w' & H1 & _ & _ & Ha);
    [done..|by rewrite app_nil_r|constructor|by rewrite app_nil_r|].
  exists w'. split; [done|]. rewrite <- Hd. split; [|rewrite <- Hst; by intros ->%Ha].
  intros He. destruct (parseLoop_silent n w ctx [] ss w') as (new & -> & Hnew); [|done..].
  split_and!; [done..|]. by eapply sameMasks_None.
Qed.

(** ** Acceptance and lines *)

Lemma erase_inj_parts s s' : erase s = erase s' →
  Directive s = Directive s' ∧ Args s = Args s' ∧ map erase <$> Blocks s = map erase <$> Blocks s'.
Proof. destruct s, s'. simpl. by intros [= ? ? ? ? ?]. Qed.

Lemma map_erase_Forall2 b b' : map erase b = map erase b' → Forall2 (λ s s', erase s = erase s') b b'.
Proof. revert b'. induction b as [|x b IH]; intros [|x' b']; simpl; try done. intros [= ? ?]. constructor; auto. Qed.

Lemma stmtAccepts_erase d st ca ctx s s' :
  erase s = erase s' → stmtAccepts d st ca ctx s → stmtAccepts d st ca ctx s'.
Proof.
  revert ctx s'. induction s as [s IH] using Stmt_nested_ind. intros ctx s' He.
  apply erase_inj_parts in He as (Hd & Ha & Hb). rewrite !stmtAccepts_eq. intros [H1 H2]. split.
  - unfold termOf in *. destruct (Blocks s), (Blocks s'); try done; by eapply analyzeAccepts_ext.
  - intros b' Eb'. rewrite Eb' in Hb. destruct (Blocks s) as [b|] eqn:Eb; [|done]. injection Hb as Hb.
    specialize (IH b eq_refl). specialize (H2 b eq_refl). rewrite (enterBlock_ext _ _ ctx Hd) in H2.
    apply map_erase_Forall2 in Hb. clear -IH H2 Hb. unfold blockAccepts in *.
    induction Hb as [|x x' b b' Hx Hb IHb]; [constructor|].
    apply Forall_cons in IH as [Hi IH]. apply Forall_cons in H2 as [H H2]. constructor; [by apply Hi|by apply IHb].
Qed.

Lemma blockAccepts_erase d st ca ctx b b' :
  map erase b = map erase b' → blockAccepts d st ca ctx b → blockAccepts d st ca ctx b'.
Proof.
  intros He%map_erase_Forall2 H. unfold blockAccepts in *. induction He as [|x x' b b' Hx _ IH]; [constructor|].
  apply Forall_cons in H as [H H2]. constructor; [by eapply stmtAccepts_erase|by apply IH].
Qed.

(** ** A configuration read without errors *)

Lemma parseInclude_reports n o pld dirs f r o' pld' dirs' :
  parseInclude n o pld dirs f = Ok (r, o', pld', dirs') → pld_Errors pld `prefix_of` pld_Errors pld'.
Proof.
  unfold parseInclude. destruct (fs_Open (name f)); [|by intros [= <- <- <- <-]].
  intros H. inv_bind. destruct a; [|by injection H as <- <- <- <-].
  inv_bind. destruct a as [parsed w]. injection H as <- <- <- <-.
  by apply parseLoop_reports in H1 as (_ & _ & ?).
Qed.

(** The statements of a file that was read without a new error are accepted. *)
Lemma parseInclude_silent n o pld dirs f cfg o' pld' dirs' :
  (∀ x, ignored o x = false) → errHandler o = true → strict o = false → dirs !! "#" = None →
  parseInclude n o pld dirs f = Ok (inl cfg, o', pld', dirs') → pld_Errors pld' = pld_Errors pld →
  blockAccepts dirs false (checkArgs o) (fctx f) (Parsed cfg).
Proof.
  intros Hig Hh Hst Hd. unfold parseInclude. destruct (fs_Open (name f)); [|done].
  intros H He. inv_bind. destruct a; [|done]. inv_bind. destruct a as [parsed w]. injection H as <- <- <- <-.
  apply parseLoop_silent in H1 as (new & -> & Hn); done.
Qed.

(** The first file is accepted, unless an error was reported. *)
Definition headAccepted (dirs : gmap string (list Z)) (ca : bool) (pld : payload) : Prop :=
  Config pld ≠ [] ∧
  (pld_Errors pld = [] → ∀ cfg, head (Config pld) = Some (Some cfg) → blockAccepts dirs false ca [] (Parsed cfg)).

Lemma parseStep_accepted dirs ca n s s' :
  headAccepted dirs ca (st_pld s) → parseStep n s = Ok (inl s') → headAccepted dirs ca (st_pld s').
Proof.
  intros [Hc Ha]. unfold parseStep. destruct (includes (st_opts s) !! st_idx s) as [f|]; [|done].
  intros H. inv_bind. destruct a as [[[r o] pld] d]. injection H as <-.
  pose proof (parseInclude_reports _ _ _ _ _ _ _ _ _ H0) as Hp. apply parseInclude_queue in H0 as (_ & Hcf & _).
  unfold headAccepted. simpl.
  assert (Hcf' : Config (match r with inl _ => pld | inr err => payload_fail err pld end) = Config (st_pld s))
    by (by destruct r). rewrite Hcf'. destruct (Config (st_pld s)) as [|c cs]; [done|]. split; [done|].
  intros He. apply Ha. destruct r; simpl in He; [|by destruct (pld_Errors pld)].
  rewrite He in Hp. by apply prefix_nil_inv.
Qed.

Lemma parseStep_first_accepted filename o dirs n s' :
  (∀ x, ignored o x = false) → strict o = false → dirs !! "#" = None → includes o = [] →
  parseStep n (parseInit filename o dirs) = Ok (inl s') → headAccepted dirs (checkArgs o) (st_pld s').
Proof.
  intros Hig Hst Hd Hi. unfold parseStep. simpl. rewrite Hi. simpl.
  intros H. inv_bind. destruct a as [[[r o'] pld] d]. injection H as <-.
  pose proof (parseInclude_queue _ _ _ _ _ _ _ _ _ H0) as (_ & Hcf & _). simpl in Hcf. split; simpl.
  - by intros [_ ?]%app_eq_nil.
  - intros He cfg. destruct r as [cfg'|err]; [|simpl in He; by apply app_eq_nil in He as [_ ?]]. rewrite Hcf. simpl. intros [= ->].
    simpl in He. by eapply parseInclude_silent in H0; [|done..].
Qed.

Lemma parseStep_combine n s s' : parseStep n s = Ok (inl s') → combine (st_opts s') = combine (st_opts s).
Proof.
  unfold parseStep. destruct (includes (st_opts s) !! st_idx s) as [f|]; [|done].
  intros H. inv_bind. destruct a as [[[r o] pld] d]. injection H as <-.
  apply parseInclude_queue in H0 as [(e & m & ->) _]. done.
Qed.

Lemma parseStep_done n s s' : parseStep n s = Ok (inr s') → s' = s.
Proof.
  unfold parseStep. destruct (includes (st_opts s) !! st_idx s) as [f|]; [|by intros [= <-]].
  intros H. inv_bind. by destruct a as [[[? ?] ?] ?].
Qed.

(** The first file of a configuration that is read without errors is accepted. *)
Lemma parse_silent n filename o dirs p o' dirs' cfg :
  (∀ x, ignored o x = false) → strict o = false → combine o = false → dirs !! "#" = None → includes o = [] →
  parse n filename o dirs = Ok (p, o', dirs') → pld_Errors p = [] → head (Config p) = Some (Some cfg) →
  blockAccepts dirs false (checkArgs o) [] (Parsed cfg).
Proof.
  intros Hig Hst Hcb Hd Hi H. unfold parse in H. inv_bind. rename a into s.
  assert (HQ : headAccepted dirs (checkArgs o) (st_pld s) ∧ combine (st_opts s) = false).
  { clear H1. revert H0. apply (go_for_invariant _ (λ s, combine (st_opts s) = false ∧
      (s = parseInit filename o dirs ∨ headAccepted dirs (checkArgs o) (st_pld s)))
      (λ s, headAccepted dirs (checkArgs o) (st_pld s) ∧ combine (st_opts s) = false)).
    - intros k s0 s1 [Hc HP] H1. split; [by rewrite (parseStep_combine _ _ _ H1)|]. right.
      destruct HP as [->|HP]; [by eapply parseStep_first_accepted|by eapply parseStep_accepted].
    - intros k s0 s1 [Hc HP] H1. destruct HP as [->|HP].
      + unfold parseStep in H1. simpl in H1. rewrite Hi in H1. simpl in H1. inv_bind. by destruct a as [[[? ?] ?] ?].
      + by rewrite (parseStep_done _ _ _ H1).
    - split; [done|by left]. }
  destruct HQ as [[_ HQ] Hcs]. rewrite Hcs in H1. injection H1 as <-. intros He Hh. by apply HQ.
Qed.
End Verdict.

(** ** Printing without comments

    Only a comment looks at the line numbers, so without comments what [build]
    prints does not depend on them. *)

Fixpoint plainStmt (s : Stmt) : bool :=
  negb (isCommentStmt s) && match Blocks s with Some b => forallb plainStmt b | None => true end.

Section Plain.
Context `{U : Unicode}.

Lemma enquote_is_hash d : (enquote d =? "#")%string = true → d = "#".
Proof.
  unfold enquote. destruct (needsQuote d); simpl; [|by intros ?%String.eqb_eq].
  done.
Qed.

Lemma buildLoop_plain (f g : Stmt → string) m b b' out l l' :
  Forall2 (λ s s', isCommentStmt s = false ∧ isCommentStmt s' = false ∧ f s = g s') b b' →
  buildLoop f m b out l = buildLoop g m b' out l'.
Proof.
  intros H. revert out l l'. induction H as [|s s' b b' (Hs & Hs' & Hf) _ IH]; intros out l l'; simpl; [done|].
  assert (∀ x, isCommentStmt x = false → (enquote (Directive x) =? "#")%string = false) as Hq.
  { intros x Hx. apply not_true_is_false. intros E%enquote_is_hash. unfold isCommentStmt in Hx. by rewrite E in Hx. }
  rewrite (Hq s Hs), (Hq s' Hs'), Hf. simpl. apply IH.
Qed.

Lemma plainStmt_eq s : plainStmt s = negb (isCommentStmt s) && match Blocks s with Some b => forallb plainStmt b | None => true end.
Proof. by destruct s. Qed.

Lemma plainStmt_erase s s' : erase s = erase s' → plainStmt s = true → plainStmt s' = true.
Proof.
  revert s'. induction s as [s IH] using Stmt_nested_ind. intros s' He. rewrite !plainStmt_eq.
  apply erase_inj_parts in He as (Hd & _ & Hb). unfold isCommentStmt. rewrite Hd, !andb_true_iff.
  intros [? Hp]. split; [done|]. destruct (Blocks s) as [b|] eqn:Eb, (Blocks s') as [b'|]; try done.
  injection Hb as Hb%map_erase_Forall2. specialize (IH b eq_refl). clear -IH Hp Hb.
  induction Hb as [|x x' b b' Hx Hb IHb]; [done|]. simpl in *. apply andb_true_iff in Hp as [Hp Hp2].
  apply Forall_cons in IH as [Hi IH]. rewrite (Hi x') by done. by apply IHb.
Qed.

Lemma plain_pairs b b' (P : Stmt → Stmt → Prop) :
  map erase b = map erase b' → forallb plainStmt b = true →
  (∀ s s', s ∈ b → plainStmt s = true → erase s = erase s' → P s s') →
  Forall2 (λ s s', isCommentStmt s = false ∧ isCommentStmt s' = false ∧ P s s') b b'.
Proof.
  intros He%map_erase_Forall2 Hp HP. induction He as [|x x' b b' Hx _ IH]; [constructor|].
  simpl in Hp. apply andb_true_iff in Hp as [Hp Hp2]. constructor.
  - pose proof (plainStmt_erase _ _ Hx Hp) as Hp'.
    split_and!; [..|apply HP; [by left|done..]]; rewrite plainStmt_eq in *; reflect_bools; done.
  - apply IH; [done|]. intros s s' Hs. apply HP. by right.
Qed.

Lemma buildStmt_plain custom padding depth s s' :
  erase s = erase s' → plainStmt s = true →
  buildStmt custom padding depth s = buildStmt custom padding depth s'.
Proof.
  revert s' depth. induction s as [s IH] using Stmt_nested_ind. intros s' depth He Hp.
  rewrite plainStmt_eq in Hp. apply andb_true_iff in Hp as [_ Hp].
  apply erase_inj_parts in He as (Hd & Ha & Hb).
  assert (Hbuild : ∀ x, buildStmt custom padding depth x =
    match custom !! enquote (Directive x) with
    | Some c => customBuilder_build c "" x
    | None =>
      match Blocks x with
      | Some b => buildLoop (buildStmt custom padding (depth + 1)) (margin padding (depth + 1)) b
          (buildHead (enquote (Directive x)) (Args x) +:+ " {") (Line x) +:+ newline +:+ margin padding depth +:+ "}"
      | None => buildHead (enquote (Directive x)) (Args x) +:+ ";"
      end
    end) by (by intros []).
  rewrite !Hbuild, <- Hd, <- Ha. destruct (custom !! _) as [[]|].
  { simpl. unfold luaLexer_build. by rewrite Hd, Ha. }
  destruct (Blocks s) as [b|] eqn:Eb, (Blocks s') as [b'|]; try done. injection Hb as Hb.
  f_equal. apply buildLoop_plain, plain_pairs; [done..|]. intros x x' Hx Hpx Hex.
  specialize (IH b eq_refl). rewrite Forall_forall in IH. by apply IH.
Qed.

(** Statements that differ in their lines only are printed alike. *)
Lemma build_plain b b' padding header :
  map erase b = map erase b' → forallb plainStmt b = true → build b padding header = build b' padding header.
Proof.
  intros He Hp. unfold build, buildBlock. apply buildLoop_plain, plain_pairs; [done..|].
  intros s s' _ Hs Hx. by apply buildStmt_plain.
Qed.

Lemma plain_last b : forallb plainStmt b = true →
  commentsApart b ∧ ∀ s, last b = Some s → isCommentStmt s = false.
Proof.
  intros H. apply forallb_Forall in H.
  assert (Hc : Forall (λ s, isCommentStmt s = false) b).
  { eapply Forall_impl; [exact H|]. intros s. cbv beta. rewrite plainStmt_eq. intros; by reflect_bools. }
  clear H. split.
  - induction Hc as [|x b Hx Hc IH]; [done|]. destruct b; [done|]. split; [|done]. rewrite Hx. by intros [? _].
  - intros s Hs%last_Some_elem_of. rewrite Forall_forall in Hc. auto.
Qed.
End Plain.

(** ** The theorem at work *)

Definition reportingOpts : parseOpts :=
  {| catchErr := true; ignore := None; single := true; strict := false; comments := true;
     combine := false; checkCtx := true; checkArgs := true; configDir := ""; includes := [];
     included := ∅; errHandler := true |}.

Definition reportingWorld (ts : list token) : world :=
  mkWorld ts (mkParsing "a.conf" "ok" [] []) reportingOpts (mkPayload "ok" [] []) directives.

Lemma parse_verdict_witness :
  let ts := [word "server"; word "{"; word "listen"; word "80"; word ";"; word "}"] in
  let ss := [mkStmt "server" "" 1 [] "" [] (Some [mkStmt "listen" "" 1 ["80"] "" [] None])] in
  ∃ w', @parseInternal asciiOnly noFmt noFiles 7 (reportingWorld ts) ["http"] false = Ok (ss, w') ∧
    (pld_Errors (w_pld w') = [] ↔ blockAccepts directives false true ["http"] ss).
Proof.
  intros ts ss.
  apply (@parse_verdict asciiOnly noFmt noFiles ts ss 7 (reportingWorld ts) ["http"]).
  - intros x. reflexivity.
  - reflexivity.
  - reflexivity.
  - reflexivity.
  - refine (gram_block true "" true (word "server") [] (word "{")
      [word "listen"; word "80"; word ";"] [mkStmt "listen" "" 1 ["80"] "" [] None] (word "}") [] []
      _ _ _ _ _ _).
    + split; [reflexivity|]. split; [reflexivity|]. left. reflexivity.
    + apply Forall_nil. exact I.
    + reflexivity.
    + refine (gram_simple true "" true (word "listen") [word "80"] (word ";") [] [] _ _ _ _).
      * split; [reflexivity|]. split; [reflexivity|]. left. reflexivity.
      * apply Forall_cons. split; [reflexivity|]. apply Forall_nil. exact I.
      * reflexivity.
      * apply gram_end.
    + reflexivity.
    + apply gram_end.
  - reflexivity.
  - simpl. lia.
Defined.
