(* ===== verification/Routing.v ===== *)
(** * Routing (src/ngx_startup.go: rule, locationMatch, handlerMatch, alice)

    The rule tree made from the statements, the choice of the server for a host
    name and of the location for a path, and the chain of handlers.  A pointer
    to a rule is the path of child indices that leads to it from the root; the
    regular expression engine is a parameter. *)

From S2P Require Import Prelude GoStrings Lexer Directives Stmt Parse.

#[local] Open Scope nat_scope.

(** ** The rule tree *)

#[warnings="-register-all"]
Inductive rule : Type := mkRule {
  rule_name : string;
  rule_args : list string;
  rule_children : list rule;
}.

(** [ruleFromStmt]; the parent pointer is in the path of the rule. *)
Fixpoint ruleFromStmt (stmt : Stmt) : rule :=
  mkRule (Directive stmt) (Args stmt)
    match Blocks stmt with None => [] | Some b => map ruleFromStmt b end.

(** The rule at a path. *)
Fixpoint ruleAt (root : rule) (path : list nat) : option rule :=
  match path with
  | [] => Some root
  | i :: p => r ← rule_children root !! i; ruleAt r p
  end.

(** The children of the rule at a path, each with its own path: the pointers
    that [r.children] holds. *)
Definition kids (path : list nat) (r : rule) : list (list nat * rule) :=
  imap (λ i c, (path ++ [i], c)) (rule_children r).
Definition childrenAt (root : rule) (path : list nat) : list (list nat * rule) :=
  match ruleAt root path with Some r => kids path r | None => [] end.

(** [rule.collect], upwards along the parent pointers; [depth] is the length of
    the path and [n] the child the call comes from. *)
Fixpoint collectFrom (depth : nat) (root : rule) (path : list nat) (n : option nat)
    : list (list nat * rule) :=
  let v := match n with
           | None => childrenAt root path
           | Some i => take i (childrenAt root path)
           end in
  match depth with
  | O => v
  | S d => collectFrom d root (take d path) (path !! d) ++ v
  end.

Definition collect (root : rule) (path : list nat) (n : option nat) : list (list nat * rule) :=
  collectFrom (length path) root path n.

Definition overide (rules : list (list nat * rule)) : list (list nat * rule) := rules.

(** [rule.key]: the names from the root, joined by dots. *)
Fixpoint keyFrom (depth : nat) (root : rule) (path : list nat) : string :=
  let nm := match ruleAt root path with Some r => rule_name r | None => "" end in
  match depth with
  | O => nm
  | S d => keyFrom d root (take d path) +:+ "." +:+ nm
  end.
Definition key (root : rule) (path : list nat) : string := keyFrom (length path) root path.

(** ** Wildcards *)

(** The loop of [matchWildCard]: [wp[widx]] can be out of range. *)
Fixpoint wildLoop (sp wp : list string) (widx : nat) : res bool :=
  match sp with
  | [] => Ok true
  | s :: sp' =>
    w ← go_index wp widx;
    if (w =? "*")%string then wildLoop sp' wp widx
    else if negb (bool_decide (widx < length wp) && (s =? w)%string) then Ok false
    else wildLoop sp' wp (S widx)
  end.

Definition matchWildCard (s wild : string) : res bool :=
  let wp := Split wild 46 in
  let sp := Split s 46 in
  if bool_decide (length sp < length wp) then Ok false else wildLoop sp wp 0.

Definition isWildCard (w : string) : bool :=
  Contains w "*" && (HasPrefix w "*." || HasSuffix w ".*").

(** ** Locations *)

Inductive matchKind := matchExact | matchCaret | matchPrefix | matchRegexp.

#[global] Instance matchKind_eq_dec : EqDecision matchKind.
Proof. solve_decision. Defined.

(** Package regexp: compilation, which can fail, and matching. *)
Class Regexp := {
  regexp : Type;
  Compile : string → option regexp;
  MatchString : regexp → string → bool;
}.

Section Locations.
Context `{R : Regexp}.

(** [match]: the rule with its path below the server. *)
Record locRule := mkLoc {
  kind : matchKind;
  loc_path : list nat;
  loc_rule : rule;
  re : option regexp;
}.

Definition loc_args (l : locRule) : list string := rule_args (loc_rule l).

Definition MustCompile (s : string) : res regexp :=
  match Compile s with Some r => Ok r | None => Panic ExplicitPanic end.

(** One turn of the loop of [locationMatch.load]. *)
Definition loadChild (path : list nat) (i : nat) (ch : rule) : res (list locRule) :=
  let mk k := mkLoc k (path ++ [i]) ch None in
  if (rule_name ch =? "location")%string then
    match rule_args ch with
    | [_] => Ok [mk matchPrefix]
    | [a0; a1] =>
      if (a0 =? "=")%string then Ok [mk matchExact]
      else if (a0 =? "~")%string then
        r ← MustCompile a1; Ok [mkLoc matchRegexp (path ++ [i]) ch (Some r)]
      else if (a0 =? "~*")%string then
        r ← MustCompile ("(?i)" +:+ a1); Ok [mkLoc matchRegexp (path ++ [i]) ch (Some r)]
      else if (a0 =? "^~")%string then Ok [mk matchCaret]
      else Ok []
    | _ => Ok []
    end
  else Ok [].

Definition load (path : list nat) (srv : rule) : res (list locRule) :=
  go_concat_map (λ '(i, ch), loadChild path i ch) (imap pair (rule_children srv)).

(** [re.MatchString(path)]; only rules of the kind [matchRegexp] have an
    expression. *)
Definition reMatches (l : locRule) (path : string) : res bool :=
  match re l with Some r => Ok (MatchString r path) | None => Panic NilDereference end.

(** The first loop of [locationMatch.match]. *)
Fixpoint exactLoop (rules : list locRule) (path : string) : res (option locRule) :=
  match rules with
  | [] => Ok None
  | l :: ls =>
    if decide (kind l = matchExact) then
      a ← go_index (loc_args l) 1;
      if (a =? path)%string then Ok (Some l) else exactLoop ls path
    else exactLoop ls path
  end.

(** The second loop: the rules whose prefix fits. *)
Fixpoint prefixLoop (rules : list locRule) (path : string) : res (list locRule) :=
  match rules with
  | [] => Ok []
  | l :: ls =>
    fits ← match kind l with
           | matchPrefix => a ← go_index (loc_args l) 0; Ok (HasPrefix path a)
           | matchCaret => a ← go_index (loc_args l) 1; Ok (HasPrefix path a)
           | _ => Ok false
           end;
    rest ← prefixLoop ls path;
    Ok (if fits : bool then l :: rest else rest)
  end.

(** The comparison passed to [sort.Slice]: it indexes the arguments of the
    [i]-th rule with the positions [i] and [j]. *)
Definition locLess (m : list locRule) (i j : nat) : res bool :=
  mi ← go_index m i;
  x ← go_index (loc_args mi) i;
  y ← go_index (loc_args mi) j;
  Ok (negb (stringLe x y)).

(** [sort.Slice] of Go 1.13 on at most twelve elements: a pass with gap six
    when there are more than six, then insertion. *)
Definition swap (m : list locRule) (i j : nat) : list locRule :=
  match m !! i, m !! j with
  | Some x, Some y => <[i := y]> (<[j := x]> m)
  | _, _ => m
  end.

Fixpoint sinkDown (m : list locRule) (j : nat) : res (list locRule) :=
  match j with
  | O => Ok m
  | S j' =>
    b ← locLess m j j';
    if b : bool then sinkDown (swap m j j') j' else Ok m
  end.

Definition insertionSort (m : list locRule) : res (list locRule) :=
  foldl (λ acc i, m ← acc; sinkDown m i) (Ok m) (seq 1 (length m - 1)).

Definition gapPass (m : list locRule) : res (list locRule) :=
  foldl (λ acc i, m ← acc; b ← locLess m i (i - 6); Ok (if b : bool then swap m i (i - 6) else m))
    (Ok m) (seq 6 (length m - 6)).

(** What [sort.Slice] does with more than twelve elements. *)
Context (sortLarge : list locRule → res (list locRule)).

Definition sortSlice (m : list locRule) : res (list locRule) :=
  if decide (12 < length m) then sortLarge m
  else m ← gapPass m; insertionSort m.

(** The loop over the regular expressions of the selected location. *)
Fixpoint regexLoop (rules : list locRule) (path : string) : res (option locRule) :=
  match rules with
  | [] => Ok None
  | l :: ls =>
    if decide (kind l = matchRegexp) then
      b ← reMatches l path; if b : bool then Ok (Some l) else regexLoop ls path
    else regexLoop ls path
  end.

(** The loop that counts up to the number of rules of the selected location but
    indexes the rules of the server. *)
Fixpoint regexIndexLoop (rules : list locRule) (path : string) (i n : nat) : res (option locRule) :=
  match n with
  | O => Ok None
  | S n' =>
    l ← go_index rules i;
    if decide (kind l = matchRegexp) then
      b ← reMatches l path;
      if b : bool then Ok (Some l) else regexIndexLoop rules path (S i) n'
    else regexIndexLoop rules path (S i) n'
  end.

(** [locationMatch.match]. *)
Definition locationMatch_match (rules : list locRule) (path : string) : res (option locRule) :=
  e ← exactLoop rules path;
  match e with
  | Some l => Ok (Some l)
  | None =>
    m ← prefixLoop rules path;
    match m with
    | [] => Ok None
    | _ =>
      m ← sortSlice m;
      selected ← go_index m 0;
      if decide (kind selected = matchCaret) then Ok (Some selected)
      else
        up ← load (loc_path selected) (loc_rule selected);
        r ← regexLoop up path;
        match r with
        | Some l => Ok (Some l)
        | None =>
          r ← regexIndexLoop rules path 0 (length up);
          match r with
          | Some l => Ok (Some l)
          | None => Ok (Some selected)
          end
        end
    end
  end.
End Locations.

(** ** Servers *)

Section Servers.
Context `{R : Regexp}.

(** A server block is named by its position among the servers of an address. *)
Record handlerMatch := mkHandlerMatch {
  hm_regExp : list (regexp * nat);
  hm_exact : gmap string (list nat);
  hm_wild : gmap string nat;
  hm_default : option nat;
}.

(** One name of a server. *)
Definition addName (srv : nat) (h : handlerMatch) (a : string) : res handlerMatch :=
  match a with
  | "" => Panic IndexOutOfRange
  | String c a' =>
    if (byteZ c =? 126)%Z then
      match Compile a' with
      | Some r => Ok (mkHandlerMatch (hm_regExp h ++ [(r, srv)]) (hm_exact h) (hm_wild h) (hm_default h))
      | None => Panic ExplicitPanic
      end
    else if isWildCard a then
      Ok (mkHandlerMatch (hm_regExp h) (hm_exact h) (<[a := srv]> (hm_wild h)) (hm_default h))
    else
      Ok (mkHandlerMatch (hm_regExp h)
        (<[a := default [] (hm_exact h !! a) ++ [srv]]> (hm_exact h)) (hm_wild h) (hm_default h))
  end.

(** The names of a server: only its first [server_name] directive counts. *)
Definition serverNames (srv : rule) : list string :=
  match list_find (λ ch, rule_name ch = "server_name") (rule_children srv) with
  | Some (_, ch) => rule_args ch
  | None => []
  end.

(** [handlerMatch.init]. *)
Definition handlerMatch_init (servers : list rule) (defaultServer : option nat) : res handlerMatch :=
  foldl (λ acc '(i, srv), h ← acc; foldl (λ acc a, h ← acc; addName i h a) (Ok h) (serverNames srv))
    (Ok (mkHandlerMatch [] ∅ ∅ defaultServer)) (imap pair servers).

(** The loop over the wildcards; [order] is the order in which the map is
    walked, which the language does not fix. *)
Fixpoint wildFind (order : list string) (nm best : string) : res string :=
  match order with
  | [] => Ok best
  | w :: ws =>
    b ← matchWildCard nm w;
    wildFind ws nm (if (b : bool) && negb (stringLe w best) then w else best)
  end.

(** [handlerMatch.find]; [order] and [reOrder] are the orders in which the two
    maps are walked. *)
Definition handlerMatch_find (h : handlerMatch) (order : list string)
    (reOrder : list (regexp * nat)) (nm : string) : res (option nat) :=
  match hm_exact h !! nm with
  | Some r => s ← go_index r 0; Ok (Some s)
  | None =>
    best ← wildFind order nm "";
    if negb (best =? "")%string then Ok (hm_wild h !! best)
    else
      match list_find (λ p, MatchString (fst p) nm = true) reOrder with
      | Some (_, (_, s)) => Ok (Some s)
      | None => Ok (hm_default h)
      end
  end.

(** The choice of the server in [vinceHandler]: the position of the server. *)
Definition selectServer (servers : list rule) (h : handlerMatch) (order : list string)
    (reOrder : list (regexp * nat)) (host : string) : res nat :=
  if decide (length servers = 1) then Ok 0
  else
    s ← handlerMatch_find h order reOrder host;
    match s with Some i => Ok i | None => _ ← go_index servers 0; Ok 0 end.
End Servers.

(** ** The chain of handlers *)

(** [alice.then]: the loop over the indices wraps from the last function to
    the first. *)
Fixpoint aliceLoop {H} (a : list (H → H)) (h : H) (n : nat) : res H :=
  match n with
  | O => Ok h
  | S n' =>
    let i := length a - n in
    f ← go_index a (length a - 1 - i);
    aliceLoop a (f h) n'
  end.

Definition alice_then {H} (notFound : H) (a : list (H → H)) (h : option H) : res H :=
  aliceLoop a (default notFound h) (length a).
