(* ===== verification/RoutingFacts.v ===== *)
(** * Routing: theorems *)

From S2P Require Import Prelude GoStrings Lexer Directives Stmt Parse Routing.

#[local] Open Scope nat_scope.

(** ** The order in which directives take effect *)

(** The directives that are in force at a path, walking down from the root: at
    every level those that stand before the block that is entered, and at the
    end all of them. *)
Fixpoint inForceFrom (pre : list nat) (r : rule) (path : list nat) : list (list nat * rule) :=
  match path with
  | [] => kids pre r
  | i :: p =>
    take i (kids pre r) ++
    match rule_children r !! i with Some c => inForceFrom (pre ++ [i]) c p | None => [] end
  end.
Definition inForce (root : rule) (path : list nat) : list (list nat * rule) := inForceFrom [] root path.

(** The directives before the block that is entered, at every level. *)
Fixpoint beforeBlock (pre : list nat) (r : rule) (path : list nat) : list (list nat * rule) :=
  match path with
  | [] => []
  | i :: p =>
    take i (kids pre r) ++
    match rule_children r !! i with Some c => beforeBlock (pre ++ [i]) c p | None => [] end
  end.

Lemma ruleAt_app root p q : ruleAt root (p ++ q) = ruleAt root p ≫= λ r, ruleAt r q.
Proof.
  revert root. induction p as [|i p IH]; intros root; simpl; [done|].
  destruct (rule_children root !! i); simpl; [apply IH|done].
Qed.

(** The children at [p] below a rule whose own path is [pre]. *)
Definition kidsAt (pre : list nat) (r : rule) (p : list nat) : list (list nat * rule) :=
  match ruleAt r p with Some c => kids (pre ++ p) c | None => [] end.

Lemma kidsAt_cons pre r i p :
  kidsAt pre r (i :: p) =
  match rule_children r !! i with Some c => kidsAt (pre ++ [i]) c p | None => [] end.
Proof.
  unfold kidsAt. simpl. destruct (rule_children r !! i); simpl; [|done]. by rewrite <- (assoc_L app).
Qed.

Lemma inForce_before pre r p : inForceFrom pre r p = beforeBlock pre r p ++ kidsAt pre r p.
Proof.
  revert pre r. induction p as [|i p IH]; intros pre r.
  - unfold kidsAt. simpl. by rewrite app_nil_r.
  - rewrite kidsAt_cons. simpl. rewrite <- (assoc_L app). f_equal.
    destruct (rule_children r !! i); simpl; [apply IH|done].
Qed.

Lemma beforeBlock_snoc pre r p i :
  beforeBlock pre r (p ++ [i]) = beforeBlock pre r p ++ take i (kidsAt pre r p).
Proof.
  revert pre r. induction p as [|j p IH]; intros pre r.
  - unfold kidsAt. simpl. rewrite (app_nil_r pre). destruct (rule_children r !! i); by rewrite app_nil_r.
  - rewrite kidsAt_cons. simpl. rewrite <- (assoc_L app). f_equal.
    destruct (rule_children r !! j); simpl; [apply IH|by rewrite take_nil].
Qed.

Lemma collectFrom_before root p n :
  collectFrom (length p) root p n =
  beforeBlock [] root p ++
  match n with None => kidsAt [] root p | Some i => take i (kidsAt [] root p) end.
Proof.
  revert n. induction p as [|i p IH] using rev_ind; intros n; [done|].
  rewrite length_app. simpl. rewrite Nat.add_1_r. cbn [collectFrom].
  rewrite take_app_length, (list_lookup_middle p []), IH, beforeBlock_snoc by done. done.
Qed.

(** [collect], which climbs the parent pointers, gives the directives in
    document order: at every level from the root those before the block that
    leads to the rule, and last the rule's own. *)
Theorem collect_document_order root path : collect root path None = inForce root path.
Proof. unfold collect, inForce. by rewrite collectFrom_before, inForce_before. Qed.

(** ** Handlers *)

Lemma aliceLoop_foldr {H} (a : list (H → H)) n h :
  n ≤ length a → aliceLoop a h n = Ok (foldr (λ f x, f x) h (take n a)).
Proof.
  revert h. induction n as [|n IH]; intros h Hn; [done|]. cbn [aliceLoop].
  destruct (lookup_lt_is_Some_2 a n) as [f Hf]; [lia|].
  replace (length a - 1 - (length a - S n)) with n by lia. unfold go_index. rewrite Hf. simpl.
  rewrite IH by lia. rewrite (take_S_r a n f) by done. by rewrite foldr_app.
Qed.

(** The chain of handlers: the first function of the list is the outermost
    and sees the request first; its successors are wrapped inside, around the
    final handler. *)
Theorem alice_then_order {H} (notFound : H) (a : list (H → H)) h :
  alice_then notFound a h = Ok (foldr (λ f x, f x) (default notFound h) a).
Proof. unfold alice_then. rewrite aliceLoop_foldr by lia. by rewrite firstn_all. Qed.

(** ** Wildcards *)

Lemma wildLoop_star sp wp widx : wp !! widx = Some "*" → wildLoop sp wp widx = Ok true.
Proof.
  intros H. induction sp as [|s sp IH]; [done|]. simpl. unfold go_index. rewrite H. simpl. done.
Qed.

(** The labels before the first star are compared; nothing else is. *)
Lemma wildLoop_spec pre post sp dn :
  Forall (λ w, w ≠ "*") pre →
  wildLoop sp (dn ++ pre ++ "*" :: post) (length dn) =
  Ok (bool_decide (take (length pre) sp = take (length sp) pre)).
Proof.
  intros Hp. revert sp dn. induction Hp as [|w pre Hw _ IH]; intros sp dn.
  - rewrite app_nil_l, wildLoop_star by (by rewrite list_lookup_middle).
    simpl. rewrite take_nil. done.
  - destruct sp as [|s sp]; [done|]. cbn [wildLoop]. unfold go_index.
    rewrite <- app_comm_cons, list_lookup_middle by done. simpl.
    rewrite (proj2 (String.eqb_neq w "*") Hw).
    rewrite bool_decide_true by (rewrite length_app; simpl; lia). simpl.
    destruct (String.eqb_spec s w) as [->|Hs]; simpl.
    + replace (dn ++ w :: pre ++ "*" :: post) with ((dn ++ [w]) ++ pre ++ "*" :: post)
        by (by rewrite <- (assoc_L app)).
      replace (S (length dn)) with (length (dn ++ [w])) by (rewrite length_app; simpl; lia).
      rewrite IH. f_equal. apply bool_decide_ext. split; [by intros ->|by intros [=]].
    + rewrite bool_decide_false; [done|]. by intros [=].
Qed.

Lemma HasSuffix_split s p : HasSuffix s p = true → ∃ x, s = x +:+ p.
Proof.
  unfold HasSuffix. intros H. apply HasPrefix_split in H as [x Hx]. exists (stringRev x).
  by rewrite <- (stringRev_involutive s), Hx, stringRev_app, stringRev_involutive.
Qed.

Lemma wildcard_star w : isWildCard w = true → "*" ∈ Split w 46.
Proof.
  unfold isWildCard. intros H. reflect_bools. apply orb_true_iff in H0 as [H0|H0].
  - apply HasPrefix_split in H0 as [x ->]. simpl. set_solver.
  - apply HasSuffix_split in H0 as [x ->].
    change ".*" with (String (zbyte 46) "*"). rewrite Split_app by lia. simpl. set_solver.
Qed.

(** The first star splits a list of labels. *)
Lemma first_star wp : "*" ∈ wp → ∃ pre post, wp = pre ++ "*" :: post ∧ Forall (λ w, w ≠ "*") pre.
Proof.
  induction wp as [|w wp IH]; [by intros H%elem_of_nil|]. intros Hin.
  destruct (decide (w = "*")) as [->|Hne]; [by exists [], wp|].
  destruct IH as (pre & post & -> & Hp); [set_solver|]. exists (w :: pre), post. auto.
Qed.

Lemma matchWildCard_pre s w : isWildCard w = true →
  ∃ pre post, Split w 46 = pre ++ "*" :: post ∧ Forall (λ x, x ≠ "*") pre ∧
    matchWildCard s w = Ok (bool_decide (length (Split w 46) ≤ length (Split s 46) ∧
                                         take (length pre) (Split s 46) = pre)).
Proof.
  intros Hw. destruct (first_star _ (wildcard_star w Hw)) as (pre & post & E & Hp).
  exists pre, post. split; [done|]. split; [done|]. unfold matchWildCard. rewrite E.
  case_bool_decide as Hlt.
  - rewrite bool_decide_false; [done|]. intros [? _]. lia.
  - rewrite (wildLoop_spec pre post _ []) by done. f_equal. apply bool_decide_ext.
    rewrite length_app in Hlt. simpl in Hlt. rewrite (take_ge pre) by lia.
    rewrite length_app. simpl. split; [intros H; split; [lia|done]|by intros [_ ?]].
Qed.

(** What a wildcard name matches. For a name that the program treats as a
    wildcard, the comparison never runs out of the pattern, and it accepts
    exactly the host names that have at least as many labels and agree with it
    on the labels before the first star. *)
Theorem matchWildCard_meaning s w :
  isWildCard w = true →
  ∃ pre post, Split w 46 = pre ++ "*" :: post ∧ Forall (λ x, x ≠ "*") pre ∧
    matchWildCard s w = Ok (bool_decide (length (Split w 46) ≤ length (Split s 46) ∧
                                         take (length pre) (Split s 46) = pre)).
Proof. apply matchWildCard_pre. Qed.

(** A leading wildcard ignores its domain: the star is never passed, so
    that a pattern such as star-dot-example-dot-org matches every host name
    with enough labels. *)
Theorem leading_wildcard_matches_all s domain :
  (length (Split domain 46) < length (Split s 46)) →
  matchWildCard s ("*." +:+ domain) = Ok true.
Proof.
  intros H. unfold matchWildCard.
  change (Split ("*." +:+ domain) 46) with ("*" :: Split domain 46).
  rewrite bool_decide_false by (simpl; lia). by apply wildLoop_star.
Qed.

Lemma matchWildCard_meaning_witness :
  ∃ pre post, Split "www.*" 46 = pre ++ "*" :: post ∧ Forall (λ x, x ≠ "*") pre ∧
    matchWildCard "www.example.org" "www.*" =
    Ok (bool_decide (length (Split "www.*" 46) ≤ length (Split "www.example.org" 46) ∧
                     take (length pre) (Split "www.example.org" 46) = pre)).
Proof. apply (matchWildCard_meaning "www.example.org" "www.*"). vm_compute. reflexivity. Defined.

Lemma leading_wildcard_matches_all_witness :
  matchWildCard "bank.attacker.net" ("*." +:+ "example.org") = Ok true.
Proof. apply (leading_wildcard_matches_all "bank.attacker.net" "example.org"). vm_compute. lia. Defined.

(** ** Locations *)

Section Locations.
Context `{R : Regexp} (sortLarge : list locRule → res (list locRule)).

(** What [load] guarantees of a rule: the number of arguments fits its kind,
    and a regular expression is there when the kind says so. *)
Definition locOK (l : locRule) : Prop :=
  match kind l with
  | matchPrefix => length (loc_args l) = 1
  | matchExact | matchCaret => length (loc_args l) = 2
  | matchRegexp => length (loc_args l) = 2 ∧ is_Some (re l)
  end.

Lemma MustCompile_Ok s r : MustCompile s = Ok r → Compile s = Some r.
Proof. unfold MustCompile. by destruct (Compile s); intros [= ->]. Qed.

Lemma loadChild_OK path i ch ls : loadChild path i ch = Ok ls → Forall locOK ls.
Proof.
  unfold loadChild. intros H.
  destruct (rule_name ch =? "location")%string; [|by injection H as <-].
  destruct (rule_args ch) as [|a0 [|a1 [|]]] eqn:Ea; try (by injection H as <-).
  - injection H as <-. constructor; [|done]. unfold locOK, loc_args. simpl. by rewrite Ea.
  - assert (HA : ∀ k ro, k ≠ matchPrefix → (k = matchRegexp → is_Some ro) →
      locOK (mkLoc k (path ++ [i]) ch ro)).
    { intros k ro Hk Hre. unfold locOK, loc_args. simpl. rewrite Ea. destruct k; try done. auto. }
    destruct (a0 =? "=")%string; [injection H as <-; constructor; [by apply HA|done]|].
    destruct (a0 =? "~")%string; [inv_bind; constructor; [apply HA; eauto|done]|].
    destruct (a0 =? "~*")%string; [inv_bind; constructor; [apply HA; eauto|done]|].
    destruct (a0 =? "^~")%string; injection H as <-; [constructor; [by apply HA|done]|done].
Qed.

Lemma go_concat_map_Forall {A B} (f : A → res (list B)) (P : B → Prop) l out :
  (∀ x o, f x = Ok o → Forall P o) → go_concat_map f l = Ok out → Forall P out.
Proof.
  intros Hf. revert out. induction l as [|x l IH]; intros out H; simpl in H.
  - injection H as <-. constructor.
  - inv_bind. apply Forall_app. eauto.
Qed.

Lemma load_OK path srv ls : load path srv = Ok ls → Forall locOK ls.
Proof. apply go_concat_map_Forall. intros [i ch] o. apply loadChild_OK. Qed.

(** An exact rule for the path. *)
Definition isExactFor (path : string) (l : locRule) : bool :=
  bool_decide (kind l = matchExact) && bool_decide (loc_args l !! 1 = Some path).

(** A prefix or caret rule whose prefix the path has. *)
Definition prefixFits (path : string) (l : locRule) : bool :=
  match kind l with
  | matchPrefix => match loc_args l !! 0 with Some a => HasPrefix path a | None => false end
  | matchCaret => match loc_args l !! 1 with Some a => HasPrefix path a | None => false end
  | _ => false
  end.

Lemma exactLoop_spec rules path :
  Forall locOK rules → exactLoop rules path = Ok (List.find (isExactFor path) rules).
Proof.
  induction 1 as [|l rules Hl _ IH]; [done|]. simpl. unfold isExactFor at 1.
  case_decide as Hk; [|by rewrite bool_decide_false].
  rewrite (bool_decide_true _ Hk). unfold locOK in Hl. rewrite Hk in Hl.
  destruct (loc_args l) as [|a0 [|a1 [|]]]; try done. simpl.
  destruct (String.eqb_spec a1 path) as [->|Hne]; [by rewrite bool_decide_true|].
  rewrite bool_decide_false; [done|]. congruence.
Qed.

Lemma prefixLoop_spec rules path :
  Forall locOK rules → prefixLoop rules path = Ok (List.filter (prefixFits path) rules).
Proof.
  induction 1 as [|l rules Hl _ IH]; [done|]. simpl. unfold prefixFits at 1. unfold locOK in Hl.
  destruct (kind l); simpl; rewrite ?IH; simpl; try done;
    destruct (loc_args l) as [|a0 [|a1 l']]; try done; simpl; by destruct (HasPrefix path _).
Qed.

(** The location chosen when an exact one is there: the first location
    with the equals modifier and the path of the request wins over all others,
    and the others are not looked at. *)
Theorem location_exact path0 srv rules path l :
  load path0 srv = Ok rules → List.find (isExactFor path) rules = Some l →
  locationMatch_match sortLarge rules path = Ok (Some l).
Proof.
  intros Hl Hf. apply load_OK in Hl. unfold locationMatch_match.
  rewrite exactLoop_spec by done. by rewrite Hf.
Qed.

(** Without a prefix location that fits, regular expressions are not
    tried: the request has no location, whatever the expressions of the server
    say. *)
Theorem location_regex_needs_prefix path0 srv rules path :
  load path0 srv = Ok rules → List.find (isExactFor path) rules = None →
  List.filter (prefixFits path) rules = [] →
  locationMatch_match sortLarge rules path = Ok None.
Proof.
  intros Hl Hf Hp. apply load_OK in Hl. unfold locationMatch_match.
  rewrite exactLoop_spec, Hf by done. simpl. rewrite prefixLoop_spec, Hp by done. done.
Qed.

Lemma sortSlice_one l : sortSlice sortLarge [l] = Ok [l].
Proof. done. Qed.

Lemma regexLoop_spec rules path :
  Forall locOK rules →
  regexLoop rules path = Ok (List.find (λ l,
    match kind l, re l with matchRegexp, Some r => MatchString r path | _, _ => false end) rules).
Proof.
  induction 1 as [|l rules Hl _ IH]; [done|]. simpl. unfold locOK in Hl. unfold reMatches.
  destruct (kind l) eqn:Ek; rewrite ?decide_False by done; try done.
  rewrite decide_True by done. destruct Hl as [_ [r Hr]]. rewrite Hr. simpl.
  by destruct (MatchString r path).
Qed.

(** C33: one location that fits. When it is the only prefix that fits and has
    the caret modifier it is chosen; when it is a plain prefix without nested
    locations it is chosen as well, and no regular expression of the server is
    tried; with nested locations the first of their expressions that matches is
    preferred. *)
Theorem location_single path0 srv rules path l up :
  load path0 srv = Ok rules → List.find (isExactFor path) rules = None →
  List.filter (prefixFits path) rules = [l] →
  load (loc_path l) (loc_rule l) = Ok up →
  let nested := List.find (λ l',
    match kind l', re l' with matchRegexp, Some r => MatchString r path | _, _ => false end) up in
  locationMatch_match sortLarge rules path =
  if decide (kind l = matchCaret) then Ok (Some l)
  else match nested with
       | Some l' => Ok (Some l')
       | None =>
         r ← regexIndexLoop rules path 0 (length up);
         Ok (Some (default l r))
       end.
Proof.
  intros Hl Hf Hp Hup nested. apply load_OK in Hl. apply load_OK in Hup as HupOK.
  unfold locationMatch_match.
  rewrite exactLoop_spec, Hf by done. cbn [mbind res_bind].
  rewrite prefixLoop_spec, Hp by done. cbn [mbind res_bind]. rewrite sortSlice_one.
  unfold go_index. simpl. case_decide; [done|]. rewrite Hup. simpl.
  rewrite regexLoop_spec by done. fold nested. cbn [mbind res_bind].
  destruct nested; [done|]. by destruct (regexIndexLoop rules path 0 (length up)) as [[|]| |].
Qed.

(** The comparison fails on two plain prefixes. *)
Lemma locLess_panics m i j :
  Forall (λ l, length (loc_args l) = 1) m → i < length m → (1 ≤ i ∨ 1 ≤ j) →
  locLess m i j = Panic IndexOutOfRange.
Proof.
  intros Hm Hi Hij. unfold locLess, go_index.
  destruct (lookup_lt_is_Some_2 m i Hi) as [l Hl]. rewrite Hl. simpl.
  pose proof (Forall_lookup_1 _ _ _ _ Hm Hl) as Ha. simpl in Ha.
  destruct (loc_args l) as [|a [|]]; try done.
  destruct i as [|i]; simpl; [|done]. destruct j as [|j]; [lia|done].
Qed.

Lemma foldl_panic {A B} (f : A → B → res A) l p :
  foldl (λ acc i, m ← acc; f m i) (Panic p) l = Panic p.
Proof. induction l; simpl; auto. Qed.

Lemma sortSlice_panics m :
  Forall (λ l, length (loc_args l) = 1) m → 2 ≤ length m ≤ 12 →
  sortSlice sortLarge m = Panic IndexOutOfRange.
Proof.
  intros Hm Hlen. unfold sortSlice. rewrite decide_False by lia. unfold gapPass.
  destruct (decide (length m ≤ 6)) as [H6|H6].
  - replace (length m - 6) with 0 by lia. cbn [seq foldl mbind res_bind]. unfold insertionSort.
    destruct (length m - 1) as [|n] eqn:E; [lia|]. cbn [seq foldl mbind res_bind sinkDown].
    rewrite locLess_panics by (done || lia). cbn [mbind res_bind]. apply foldl_panic.
  - destruct (length m - 6) as [|n] eqn:E; [lia|]. cbn [seq foldl mbind res_bind].
    rewrite locLess_panics by (done || lia). cbn [mbind res_bind].
    by rewrite (foldl_panic (λ m i, b ← locLess m i (i - 6);
      Ok (if b : bool then swap m i (i - 6) else m))).
Qed.

(** Two plain prefix locations that both fit a request crash the handler:
    the comparison that is to find the longest prefix indexes the arguments of
    a location, of which there is one, with the positions of the locations in
    the list. A root location beside any other prefix is enough. *)
Theorem location_two_prefixes_crash path0 srv rules path :
  load path0 srv = Ok rules → List.find (isExactFor path) rules = None →
  Forall (λ l, kind l = matchPrefix) (List.filter (prefixFits path) rules) →
  2 ≤ length (List.filter (prefixFits path) rules) ≤ 12 →
  locationMatch_match sortLarge rules path = Panic IndexOutOfRange.
Proof.
  intros Hl Hf Hk Hlen. apply load_OK in Hl. unfold locationMatch_match.
  rewrite exactLoop_spec, Hf by done. cbn [mbind res_bind]. rewrite prefixLoop_spec by done.
  cbn [mbind res_bind]. destruct (List.filter (prefixFits path) rules) as [|l m] eqn:E; [simpl in Hlen; lia|].
  rewrite <- E in *. rewrite sortSlice_panics; [done| |done].
  apply Forall_forall. intros x Hx. rewrite Forall_forall in Hk, Hl. specialize (Hk x Hx).
  assert (x ∈ rules) as Hin.
  { apply list_elem_of_In in Hx. apply filter_In in Hx as [Hx _]. by apply list_elem_of_In. }
  specialize (Hl x Hin). unfold locOK in Hl. by rewrite Hk in Hl.
Qed.
End Locations.

(** A server with a root location, a prefix, an exact location and a regular
    expression; no expression ever matches. *)
#[local] Instance noRegexp : Regexp :=
  {| regexp := unit; Compile _ := Some tt; MatchString _ _ := false |}.

Definition location (args : list string) : rule := mkRule "location" args [].
Definition sampleServer : rule :=
  mkRule "server" [] [location ["/"]; location ["/api"]; location ["="; "/api"]; location ["~"; "php"]].
Definition sampleRules : list locRule :=
  match load [0] sampleServer with Ok ls => ls | _ => [] end.

Definition noSort : list locRule → res (list locRule) := λ m, Ok m.

Lemma location_exact_witness :
  locationMatch_match noSort sampleRules "/api" =
  Ok (Some (mkLoc matchExact [0; 2] (location ["="; "/api"]) None)).
Proof. apply (location_exact noSort [0] sampleServer); vm_compute; reflexivity. Defined.

Lemma location_two_prefixes_crash_witness :
  locationMatch_match noSort sampleRules "/api/users" = Panic IndexOutOfRange.
Proof.
  apply (location_two_prefixes_crash noSort [0] sampleServer).
  - vm_compute. reflexivity.
  - vm_compute. reflexivity.
  - vm_compute. repeat (apply Forall_cons; split; [reflexivity|]). apply Forall_nil. exact I.
  - vm_compute. lia.
Defined.

Lemma location_single_witness :
  locationMatch_match noSort sampleRules "/web" =
  Ok (Some (mkLoc matchPrefix [0; 0] (location ["/"]) None)).
Proof.
  apply (location_single noSort [0] sampleServer sampleRules "/web"
    (mkLoc matchPrefix [0; 0] (location ["/"]) None) []); vm_compute; reflexivity.
Defined.

Lemma location_regex_needs_prefix_witness :
  locationMatch_match noSort
    (match load [0] (mkRule "server" [] [location ["~"; "php"]]) with Ok ls => ls | _ => [] end)
    "/index.php" = Ok None.
Proof.
  apply (location_regex_needs_prefix noSort [0] (mkRule "server" [] [location ["~"; "php"]]));
    vm_compute; reflexivity.
Defined.
