(* ===== verification/Servers.v ===== *)
(** * Choosing the server (src/ngx_startup.go: handlerMatch)

    The exact names of the servers take precedence, in the order of the
    configuration; among the wildcard names that match the greatest is chosen,
    whatever the order in which the map is walked. *)

From S2P Require Import Prelude GoStrings Lexer Directives Stmt Parse Routing RoutingFacts.

#[local] Open Scope nat_scope.

(** ** The order on strings *)

Lemma stringLe_refl a : stringLe a a = true.
Proof. induction a as [|x a IH]; [done|]. simpl. rewrite Z.eqb_refl, IH. by rewrite orb_true_r. Qed.

Lemma stringLe_total a b : stringLe a b = false → stringLe b a = true.
Proof.
  revert b. induction a as [|x a IH]; intros [|y b] H; simpl in *; try done.
  apply orb_false_iff in H as [H1 H2]. apply Z.ltb_ge in H1.
  destruct (Z.eqb_spec (byteZ x) (byteZ y)) as [E|E].
  - rewrite E, Z.eqb_refl. simpl in H2. rewrite IH by done. by rewrite orb_true_r.
  - replace (byteZ y <? byteZ x)%Z with true by lia. done.
Qed.

Lemma stringLe_antisym a b : stringLe a b = true → stringLe b a = true → a = b.
Proof.
  revert b. induction a as [|x a IH]; intros [|y b] H1 H2; simpl in *; try done.
  apply orb_true_iff in H1 as [H1|H1], H2 as [H2|H2]; reflect_bools; try lia.
  f_equal; [|by apply IH]. by rewrite <- (zbyte_byteZ x), <- (zbyte_byteZ y), H1.
Qed.

Lemma stringLe_trans a b c : stringLe a b = true → stringLe b c = true → stringLe a c = true.
Proof.
  revert b c. induction a as [|x a IH]; intros [|y b] [|z c] H1 H2; simpl in *; try done.
  apply orb_true_iff in H1 as [H1|H1], H2 as [H2|H2]; reflect_bools; apply orb_true_iff.
  - left. lia.
  - left. lia.
  - left. lia.
  - right. apply andb_true_iff. split; [lia|]. by eapply IH.
Qed.

Section Servers.
Context `{R : Regexp}.

(** ** Wildcards in any order *)

(** The answer of the comparison, once it is known not to fail. *)
Definition wildFits (nm w : string) : bool :=
  match matchWildCard nm w with Ok b => b | _ => false end.

Definition better (nm best w : string) : string :=
  if wildFits nm w && negb (stringLe w best) then w else best.

Lemma wildFind_foldl order nm best :
  Forall (λ w, isWildCard w = true) order →
  wildFind order nm best = Ok (foldl (better nm) best order).
Proof.
  intros H. revert best. induction H as [|w order Hw _ IH]; intros best; [done|]. simpl.
  unfold better at 2, wildFits.
  destruct (matchWildCard_pre nm w Hw) as (pre & post & _ & _ & ->). simpl. apply IH.
Qed.

Lemma better_swap nm best a b : better nm (better nm best a) b = better nm (better nm best b) a.
Proof.
  unfold better. destruct (wildFits nm a), (wildFits nm b); simpl; try done.
  destruct (stringLe a best) eqn:Ea, (stringLe b best) eqn:Eb; simpl; rewrite ?Ea, ?Eb; simpl; try done.
  - apply stringLe_total in Eb. by rewrite (stringLe_trans a best b).
  - apply stringLe_total in Ea. by rewrite (stringLe_trans b best a).
  - destruct (stringLe b a) eqn:E1, (stringLe a b) eqn:E2; simpl; try done.
    + by apply stringLe_antisym.
    + by apply stringLe_total in E1; rewrite E1 in E2.
Qed.

Lemma foldl_better_perm nm o1 o2 best :
  o1 ≡ₚ o2 → foldl (better nm) best o1 = foldl (better nm) best o2.
Proof.
  intros H. revert best. induction H as [|x l l' _ IH|x y l|l1 l2 l3 _ IH1 _ IH2];
    intros best; simpl; auto.
  - by rewrite better_swap.
  - by rewrite IH1.
Qed.

(** ** The names of the servers *)

(** The names of all servers in order, with the position of their server. *)
Definition allNames (servers : list rule) : list (nat * string) :=
  concat (imap (λ i srv, pair i <$> serverNames srv) servers).

Definition addNames (names : list (nat * string)) (acc : res handlerMatch) : res handlerMatch :=
  foldl (λ acc '(i, a), h ← acc; addName i h a) acc names.

Lemma addNames_app n1 n2 acc : addNames (n1 ++ n2) acc = addNames n2 (addNames n1 acc).
Proof. unfold addNames. by rewrite foldl_app. Qed.

Lemma foldl_bind_names i names acc :
  (h ← acc; foldl (λ acc a, h ← acc; addName i h a) (Ok h) names) = addNames (pair i <$> names) acc.
Proof.
  assert (Hp : ∀ p, addNames (pair i <$> names) (Panic p) = Panic p).
  { intros p. unfold addNames. induction names; simpl; auto. }
  assert (Ho : addNames (pair i <$> names) OutOfFuel = OutOfFuel).
  { unfold addNames. induction names; simpl; auto. }
  destruct acc as [h| |]; simpl; [|by rewrite Hp|by rewrite Ho]. clear.
  revert h. assert (∀ acc, foldl (λ acc a, h ← acc; addName i h a) acc names =
    addNames (pair i <$> names) acc) as H; [|intros h; apply H].
  unfold addNames. induction names as [|a names IH]; intros acc; simpl; [done|]. apply IH.
Qed.

Lemma handlerMatch_init_names servers d :
  handlerMatch_init servers d = addNames (allNames servers) (Ok (mkHandlerMatch [] ∅ ∅ d)).
Proof.
  unfold handlerMatch_init, allNames. generalize (Ok (mkHandlerMatch [] ∅ ∅ d)).
  assert (H : ∀ k acc, foldl (λ acc '(i, srv), h ← acc;
      foldl (λ acc a, h ← acc; addName i h a) (Ok h) (serverNames srv)) acc
      (imap (λ i srv, (k + i, srv)) servers) =
    addNames (concat (imap (λ i srv, pair (k + i) <$> serverNames srv) servers)) acc).
  { induction servers as [|srv servers IH]; intros k acc; [done|]. rewrite !imap_cons. simpl.
    rewrite addNames_app, foldl_bind_names, Nat.add_0_r.
    assert (imap ((λ i srv, (k + i, srv)) ∘ S) servers = imap (λ i srv, (S k + i, srv)) servers) as ->
      by (apply imap_ext; intros; simpl; f_equal; lia).
    assert (imap ((λ i srv, pair (k + i) <$> serverNames srv) ∘ S) servers =
      imap (λ i srv, pair (S k + i) <$> serverNames srv) servers) as ->
      by (apply imap_ext; intros; simpl; by rewrite Nat.add_succ_r).
    apply IH. }
  intros acc. apply (H 0 acc).
Qed.

(** A name that is neither a regular expression nor a wildcard. *)
Definition isExactName (a : string) : bool :=
  negb (startsWithByte a 126) && negb (isWildCard a).

(** The wildcard keys are wildcards, and the exact table lists, for a name, the
    servers that have it, in order. *)
Definition hmOK (names : list (nat * string)) (h : handlerMatch) : Prop :=
  (∀ w s, hm_wild h !! w = Some s → isWildCard w = true) ∧
  ∀ a, isExactName a = true →
    default [] (hm_exact h !! a) = fst <$> filter (λ p, p.2 = a) names ∧
    (hm_exact h !! a = Some [] → False).

Lemma addName_OK names h i a h' :
  hmOK names h → addName i h a = Ok h' → hmOK (names ++ [(i, a)]) h'.
Proof.
  intros [Hw He] H. destruct a as [|c a']; [done|]. cbn [addName] in H. set (a := String c a') in *.
  assert (Hskip : ∀ b, isExactName b = true → isExactName a = false →
    filter (λ p, p.2 = b) (names ++ [(i, a)]) = filter (λ p, p.2 = b) names).
  { intros b Hb Ha. rewrite filter_app, filter_cons_False, app_nil_r; [done|]. simpl. congruence. }
  destruct (byteZ c =? 126)%Z eqn:Ec.
  { destruct (Compile a'); [|done]. injection H as <-. split; [done|]. intros b Hb. simpl.
    rewrite Hskip; [by apply He|done|]. unfold isExactName, startsWithByte. subst a. simpl. by rewrite Ec. }
  destruct (isWildCard a) eqn:Ew.
  { injection H as <-. split; simpl.
    - intros w s [[<- _]|[_ ?]]%lookup_insert_Some; eauto.
    - intros b Hb. rewrite Hskip; [by apply He|done|]. unfold isExactName. by rewrite Ew, andb_false_r. }
  injection H as <-. split; [done|]. intros b Hb. simpl.
  destruct (He b Hb) as [He1 He2]. rewrite filter_app.
  destruct (decide (a = b)) as [<-|Hne].
  - rewrite lookup_insert_eq. simpl. rewrite He1. rewrite filter_cons_True by done.
    rewrite fmap_app. split; [done|]. intros [= Hx]. by destruct (fst <$> _).
  - rewrite lookup_insert_ne by done. rewrite filter_cons_False by done. simpl. by rewrite app_nil_r.
Qed.

Lemma addNames_OK names dn h h' :
  hmOK dn h → addNames names (Ok h) = Ok h' → hmOK (dn ++ names) h'.
Proof.
  revert dn h. induction names as [|[i a] names IH]; intros dn h Hok H.
  - injection H as <-. by rewrite app_nil_r.
  - unfold addNames in H. simpl in H. fold (addNames names (addName i h a)) in H.
    destruct (addName i h a) as [h1|p|] eqn:E.
    + replace (dn ++ (i, a) :: names) with ((dn ++ [(i, a)]) ++ names) by (by rewrite <- (assoc_L app)).
      eapply IH; [|exact H]. by eapply addName_OK.
    + exfalso. clear -H. unfold addNames in H. induction names as [|[j b] names IHn]; simpl in H; [done|auto].
    + exfalso. clear -H. unfold addNames in H. induction names as [|[j b] names IHn]; simpl in H; [done|auto].
Qed.

Lemma init_OK servers d h : handlerMatch_init servers d = Ok h → hmOK (allNames servers) h.
Proof.
  rewrite handlerMatch_init_names. intros H. apply (addNames_OK _ [] _ _) in H; [done|].
  split; [intros w s; simpl; by rewrite lookup_empty|]. intros a _. simpl. by rewrite lookup_empty.
Qed.

(** C31: a host name that some server lists exactly goes to the first server of
    the configuration that lists it, before any wildcard or expression is
    tried and whatever the orders in which the maps are walked. *)
Theorem find_exact_first servers d h order reOrder nm i :
  handlerMatch_init servers d = Ok h → isExactName nm = true →
  head (fst <$> filter (λ p, p.2 = nm) (allNames servers)) = Some i →
  handlerMatch_find h order reOrder nm = Ok (Some i).
Proof.
  intros Hi Hex Hh. apply init_OK in Hi as [_ He]. destruct (He nm Hex) as [H1 H2].
  unfold handlerMatch_find. rewrite <- H1 in Hh.
  destruct (hm_exact h !! nm) as [r|]; [|done]. simpl in Hh. destruct r as [|j r]; [done|].
  injection Hh as ->. done.
Qed.

(** The choice among wildcard names does not depend on the order in which
    the runtime walks the map. *)
Theorem find_wild_order servers d h o1 o2 reOrder nm :
  handlerMatch_init servers d = Ok h →
  o1 ≡ₚ (map_to_list (hm_wild h)).*1 → o2 ≡ₚ (map_to_list (hm_wild h)).*1 →
  handlerMatch_find h o1 reOrder nm = handlerMatch_find h o2 reOrder nm.
Proof.
  intros Hi H1 H2. apply init_OK in Hi as [Hw _].
  assert (Hall : ∀ o, o ≡ₚ (map_to_list (hm_wild h)).*1 → Forall (λ w, isWildCard w = true) o).
  { intros o Ho. rewrite Ho. apply Forall_fmap, Forall_forall. intros [w s] Hin.
    apply elem_of_map_to_list in Hin. by eapply Hw. }
  unfold handlerMatch_find. destruct (hm_exact h !! nm); [done|].
  rewrite !wildFind_foldl by auto. by rewrite (foldl_better_perm nm o1 o2) by (by rewrite H1, H2).
Qed.

Lemma addNames_panic names p : addNames names (Panic p) = Panic p.
Proof. unfold addNames. induction names as [|[j b] names IH]; simpl; auto. Qed.

Lemma addName_finished i h a : finished (addName i h a) = true.
Proof. unfold addName. by repeat case_match. Qed.

Lemma addNames_empty names i h : (i, "") ∈ names → ∃ p, addNames names (Ok h) = Panic p.
Proof.
  revert h. induction names as [|[j b] names IH]; intros h Hin; [by apply elem_of_nil in Hin|].
  change (addNames ((j, b) :: names) (Ok h)) with (addNames names (addName j h b)).
  pose proof (addName_finished j h b) as Hf.
  destruct (addName j h b) as [h'|p|] eqn:E; [|rewrite addNames_panic; eauto|done].
  apply IH. apply list_elem_of_In in Hin as [[= -> ->]|Hin]; [done|]. by apply list_elem_of_In.
Qed.

(** An empty server name, which the documentation of nginx allows, stops
    the start-up with a panic: the code looks at its first byte. *)
Theorem empty_server_name_crash servers d srv :
  srv ∈ servers → "" ∈ serverNames srv →
  ∃ p, handlerMatch_init servers d = Panic p.
Proof.
  intros Hs Hn. rewrite handlerMatch_init_names.
  apply list_elem_of_lookup in Hs as [i Hi]. apply (addNames_empty _ i).
  unfold allNames. apply list_elem_of_In, in_concat. exists (pair i <$> serverNames srv).
  rewrite <- !list_elem_of_In. split.
  - apply list_elem_of_lookup. exists i. by rewrite list_lookup_imap, Hi.
  - apply list_elem_of_fmap. eauto.
Qed.
End Servers.

#[local] Existing Instance noRegexp.

Definition named (args : list string) : rule := mkRule "server" [] [mkRule "server_name" args []].
Definition sampleServers : list rule :=
  [named ["example.org"; "*.example.org"]; named ["example.org"; "mail.*"]].
Definition sampleMatch : handlerMatch :=
  match handlerMatch_init sampleServers None with Ok h => h | _ => mkHandlerMatch [] ∅ ∅ None end.

Lemma find_exact_first_witness :
  handlerMatch_find sampleMatch ["mail.*"; "*.example.org"] [] "example.org" = Ok (Some 0).
Proof. apply (find_exact_first sampleServers None); vm_compute; reflexivity. Defined.

Lemma find_wild_order_witness :
  handlerMatch_find sampleMatch ["mail.*"; "*.example.org"] [] "mail.a.b" =
  handlerMatch_find sampleMatch ["*.example.org"; "mail.*"] [] "mail.a.b".
Proof.
  apply (find_wild_order sampleServers None).
  - vm_compute. reflexivity.
  - apply (bool_decide_unpack _). vm_compute. exact I.
  - apply (bool_decide_unpack _). vm_compute. exact I.
Defined.

Lemma empty_server_name_crash_witness :
  ∃ p, handlerMatch_init [named [""]] None = Panic p.
Proof.
  apply (empty_server_name_crash [named [""]] None (named [""])).
  - apply list_elem_of_here.
  - apply list_elem_of_here.
Defined.
