(* ===== verification/ConnManager.v ===== *)
(** * The connection manager (src/ngx_http_core_conn_manager.go)

    The manager keeps a record per connection and four counters, and is told
    of the states of connections by the HTTP server.  Connections are compared
    by identity, so a number stands for each.  The counters are far from the
    64-bit bounds and are plain integers. *)

From S2P Require Import Prelude GoStrings.

#[local] Open Scope Z_scope.

(** [http.ConnState]. *)
Inductive ConnState := StateNew | StateActive | StateIdle | StateHijacked | StateClosed.

#[global] Instance ConnState_eq_dec : EqDecision ConnState.
Proof. solve_decision. Defined.

Definition conn : Type := nat.

Record connInfo := mkConnInfo { id : Z; state : ConnState }.

Record httpConnStatus := mkStatus { open : Z; active : Z; idle : Z; hijacked : Z }.

Definition zeroStatus : httpConnStatus := mkStatus 0 0 0 0.

(** [httpConnStatus.Add], [Set] and [Reset]: the receiver afterwards, and for
    [Reset] what it returns. *)
Definition status_Add (c other : httpConnStatus) : httpConnStatus :=
  mkStatus (open c + open other) (active c + active other) (idle c + idle other)
    (hijacked c + hijacked other).
Definition status_Set (c other : httpConnStatus) : httpConnStatus :=
  mkStatus (open other) (active other) (idle other) (hijacked other).
Definition status_Reset (c : httpConnStatus) : httpConnStatus * httpConnStatus :=
  (mkStatus (open c) (active c) (idle c) 0, mkStatus 0 0 0 (hijacked c)).

(** [connManager]; [serial] is the last number the id generator gave. *)
Record connManager := mkManager {
  conns : gmap conn connInfo;
  status : httpConnStatus;
  serial : Z;
}.

Definition connManager_init : connManager := mkManager ∅ zeroStatus 0.

Definition set_conns (m : gmap conn connInfo) (c : connManager) : connManager :=
  mkManager m (status c) (serial c).

(** [connManager.id]. *)
Definition connManager_id (m : connManager) : Z * connManager :=
  (serial m + 1, mkManager (conns m) (status m) (serial m + 1)).

(** [connManager.track], [inc] and [dec]. *)
Definition track (s : ConnState) (n : Z) (m : connManager) : connManager :=
  let c := status m in
  mkManager (conns m)
    match s with
    | StateNew => mkStatus (open c + n) (active c) (idle c) (hijacked c)
    | StateActive => mkStatus (open c) (active c + n) (idle c) (hijacked c)
    | StateIdle => mkStatus (open c) (active c) (idle c + n) (hijacked c)
    | StateHijacked => mkStatus (open c) (active c) (idle c) (hijacked c + n)
    | StateClosed => c
    end
    (serial m).
Definition inc (s : ConnState) : connManager → connManager := track s 1.
Definition dec (s : ConnState) : connManager → connManager := track s (-1).

(** [connManager.changeState]: the callback gets the record, which it changes
    in place, and the manager. *)
Definition changeState (c : conn) (fn : connInfo → connManager → connInfo * connManager)
    (m : connManager) : connManager :=
  match conns m !! c with
  | None => m
  | Some i =>
    let '(i', m') := fn i m in
    set_conns (<[c := i']> (conns m')) m'
  end.

Definition setState (s : ConnState) (i : connInfo) : connInfo := mkConnInfo (id i) s.

(** [connManager.manageConnState]. *)
Definition manageConnState (c : conn) (s : ConnState) (m : connManager) : connManager :=
  match s with
  | StateNew =>
    let m :=
      match conns m !! c with
      | Some _ => m
      | None =>
        let '(n, m) := connManager_id m in
        set_conns (<[c := mkConnInfo n StateNew]> (conns m)) m
      end in
    inc s (changeState c (λ i m, (setState s i, m)) m)
  | StateActive =>
    inc s (changeState c (λ i m,
      (setState s i, if decide (state i = StateNew) then m else dec (state i) m)) m)
  | StateIdle | StateHijacked =>
    inc s (changeState c (λ i m, (setState s i, dec (state i) m)) m)
  | StateClosed =>
    let m := changeState c (λ i m,
      let m := dec (state i) m in
      (setState s i, if decide (state i = StateNew) then m else dec StateNew m)) m in
    set_conns (delete c (conns m)) m
  end.

(** [connManager.CloseConn]. *)
Definition CloseConn (c : conn) (m : connManager) : connManager :=
  match conns m !! c with
  | Some i =>
    if decide (state i = StateHijacked) then
      let m := dec StateNew (dec (state i) m) in
      set_conns (delete c (conns m)) m
    else m
  | None => m
  end.

(** [connManager.Close]: every connection that has a record is closed and its
    record deleted; [closeConn] gives the error of closing a connection. *)
Definition connManager_Close (closeConn : conn → option string) (m : connManager) : connManager * option string :=
  let errs := omap closeConn (map_to_list (conns m)).*1 in
  (set_conns ∅ m,
   match errs with [] => None | _ => Some ("conn_manager: error closing connections " +:+ Join errs ",") end).

(** [connManager.graceful]: the hijacked connections, which it closes, and what it
    leaves. *)
Definition graceful (m : connManager) : list conn * connManager :=
  ((filter (λ ci, state (snd ci) = StateHijacked) (map_to_list (conns m))).*1, set_conns ∅ m).

(** [connManager.GetStatus]. *)
Definition GetStatus (m : connManager) : httpConnStatus * connManager :=
  let '(h, c) := status_Reset (status m) in (h, mkManager (conns m) c (serial m)).

(** [connManager.connContext]: the request id, and the manager. *)
Definition connContext (c : conn) (m : connManager) : Z * connManager :=
  let '(n, m) := connManager_id m in
  (n, set_conns (<[c := mkConnInfo n StateNew]> (conns m)) m).

Definition getID (c : conn) (m : connManager) : Z :=
  match conns m !! c with Some i => id i | None => 0 end.

(** ** Runs of the server

    The phases a connection goes through, as the documentation of
    [http.ConnState] gives them: it is accepted (its context is made), becomes
    new, then active; an active connection becomes idle, active again, or
    hijacked; any but a hijacked one can be closed.  A hijacked connection is
    given back with [CloseConn].  [GetStatus] can be called at any time; [seen]
    is the sum of what it returned. *)

Inductive phase := Accepted | Live (s : ConnState).

#[global] Instance phase_eq_dec : EqDecision phase.
Proof. solve_decision. Defined.

Record run := mkRun { mgr : connManager; ghost : gmap conn phase; seen : httpConnStatus }.

Definition startRun : run := mkRun connManager_init ∅ zeroStatus.

(** The state reports that the server makes. *)
Definition legal (from to : ConnState) : bool :=
  match from, to with
  | StateNew, StateActive | StateNew, StateClosed
  | StateActive, StateActive | StateActive, StateIdle | StateActive, StateHijacked
  | StateActive, StateClosed
  | StateIdle, StateActive | StateIdle, StateClosed => true
  | _, _ => false
  end.

Inductive step : run → run → Prop :=
| step_accept r c :
    ghost r !! c = None →
    step r (mkRun (snd (connContext c (mgr r))) (<[c := Accepted]> (ghost r)) (seen r))
| step_new r c :
    ghost r !! c = Some Accepted →
    step r (mkRun (manageConnState c StateNew (mgr r)) (<[c := Live StateNew]> (ghost r)) (seen r))
| step_state r c s s' :
    ghost r !! c = Some (Live s) → legal s s' = true → s' ≠ StateClosed →
    step r (mkRun (manageConnState c s' (mgr r)) (<[c := Live s']> (ghost r)) (seen r))
| step_closed r c s :
    ghost r !! c = Some (Live s) → legal s StateClosed = true →
    step r (mkRun (manageConnState c StateClosed (mgr r)) (delete c (ghost r)) (seen r))
| step_unhijack r c :
    ghost r !! c = Some (Live StateHijacked) →
    step r (mkRun (CloseConn c (mgr r)) (delete c (ghost r)) (seen r))
| step_close_other r c :
    ghost r !! c ≠ Some (Live StateHijacked) →
    step r (mkRun (CloseConn c (mgr r)) (ghost r) (seen r))
| step_status r :
    step r (mkRun (snd (GetStatus (mgr r))) (ghost r)
                  (status_Add (seen r) (fst (GetStatus (mgr r))))).

Inductive reachable : run → Prop :=
| reach_start : reachable startRun
| reach_step r r' : reachable r → step r r' → reachable r'.

(** ** Counting *)

(** The number of connections in the phases that [P] accepts. *)
Definition count (P : phase → Prop) `{!∀ p, Decision (P p)} (g : gmap conn phase) : Z :=
  Z.of_nat (size (filter (λ '(_, p), P p) g)).

Definition isOpenPhase (p : phase) : Prop := p ≠ Accepted.
#[global] Instance isOpenPhase_dec p : Decision (isOpenPhase p).
Proof. unfold isOpenPhase. apply _. Defined.

Definition ind (P : phase → Prop) `{!∀ p, Decision (P p)} (p : phase) : Z :=
  if decide (P p) then 1 else 0.

Section Count.
Context (P : phase → Prop) `{!∀ p, Decision (P p)}.

Lemma count_new g c p : g !! c = None → count P (<[c := p]> g) = count P g + ind P p.
Proof.
  intros Hg. unfold count, ind. case_decide as HP.
  - rewrite map_filter_insert_True by done. rewrite map_size_insert_None; [lia|].
    apply map_lookup_filter_None. by left.
  - rewrite map_filter_insert_not'; [lia|done|]. intros y Hy. by rewrite Hg in Hy.
Qed.

Lemma count_del g c p : g !! c = Some p → count P (delete c g) = count P g - ind P p.
Proof.
  intros Hg. rewrite <- (insert_delete_id g c p Hg) at 2.
  rewrite count_new by apply lookup_delete_eq. lia.
Qed.

Lemma count_update g c p p' :
  g !! c = Some p → count P (<[c := p']> g) = count P g - ind P p + ind P p'.
Proof.
  intros Hg. rewrite <- insert_delete_eq, count_new by apply lookup_delete_eq.
  by rewrite (count_del g c p).
Qed.
End Count.

(** ** The invariant *)

Definition phaseState (p : phase) : ConnState :=
  match p with Accepted => StateNew | Live s => s end.

(** The totals: what [GetStatus] has returned so far and what the counters
    hold now. *)
Definition total (r : run) : httpConnStatus := status_Add (seen r) (status (mgr r)).

Record connInv (r : run) : Prop := {
  inv_records : ∀ c, state <$> conns (mgr r) !! c = phaseState <$> ghost r !! c;
  inv_closed : ∀ c, ghost r !! c ≠ Some (Live StateClosed);
  inv_open : open (total r) = count isOpenPhase (ghost r);
  inv_active : active (total r) = count (.= Live StateActive) (ghost r);
  inv_idle : idle (total r) = count (.= Live StateIdle) (ghost r);
  inv_hijacked : hijacked (total r) = count (.= Live StateHijacked) (ghost r);
}.

Lemma startRun_inv : connInv startRun.
Proof. split; done. Qed.

(** The record of a connection whose phase is known. *)
Lemma record_of r c p : connInv r → ghost r !! c = Some p →
  ∃ n, conns (mgr r) !! c = Some (mkConnInfo n (phaseState p)).
Proof.
  intros Hinv Hg. pose proof (inv_records r Hinv c) as H. rewrite Hg in H. simpl in H.
  destruct (conns (mgr r) !! c) as [[n s]|]; [|done]. injection H as ->. eauto.
Qed.

(** Records after a change at one connection. *)
Lemma records_insert (m : gmap conn connInfo) (g : gmap conn phase) c i p :
  (∀ c, state <$> m !! c = phaseState <$> g !! c) → state i = phaseState p →
  ∀ c', state <$> <[c := i]> m !! c' = phaseState <$> <[c := p]> g !! c'.
Proof.
  intros H Hi c'. destruct (decide (c = c')) as [<-|].
  - rewrite !lookup_insert_eq. simpl. by rewrite Hi.
  - by rewrite !lookup_insert_ne.
Qed.

Lemma records_delete (m : gmap conn connInfo) (g : gmap conn phase) c :
  (∀ c, state <$> m !! c = phaseState <$> g !! c) →
  ∀ c', state <$> delete c m !! c' = phaseState <$> delete c g !! c'.
Proof.
  intros H c'. destruct (decide (c = c')) as [<-|].
  - by rewrite !lookup_delete_eq.
  - by rewrite !lookup_delete_ne.
Qed.

Lemma closed_insert (g : gmap conn phase) c p :
  (∀ c, g !! c ≠ Some (Live StateClosed)) → p ≠ Live StateClosed →
  ∀ c', <[c := p]> g !! c' ≠ Some (Live StateClosed).
Proof.
  intros H Hp c'. destruct (decide (c = c')) as [<-|]; [rewrite lookup_insert_eq; congruence|].
  by rewrite lookup_insert_ne.
Qed.

Lemma closed_delete (g : gmap conn phase) c :
  (∀ c : conn, g !! c ≠ Some (Live StateClosed)) →
  ∀ c', delete c g !! c' ≠ Some (Live StateClosed).
Proof. intros H c' Hc. apply lookup_delete_Some in Hc as [_ Hc]. by apply (H c'). Qed.

(** Close the counting part of a step: rewrite the counts and compute. *)
Ltac count_step :=
  simpl in *;
  first [ erewrite count_update by eassumption | erewrite count_del by eassumption
        | rewrite count_new by assumption | idtac ];
  unfold ind, isOpenPhase in *; simpl; repeat (case_decide; try (done || congruence)); simpl; try lia.

Lemma step_inv r r' : connInv r → step r r' → connInv r'.
Proof.
  intros Hinv Hstep. pose proof Hinv as [Hrec Hcl Ho Ha Hi Hh].
  destruct Hstep as [r c Hg|r c Hg|r c s s' Hg Hleg Hne|r c s Hg Hleg|r c Hg|r c Hg|r];
    unfold total, status_Add in *.
  - split; simpl; [by apply records_insert|by apply closed_insert|count_step..].
  - destruct (record_of r c _ Hinv Hg) as [n Hn]. unfold manageConnState, changeState.
    rewrite Hn, Hn. split; simpl; [by apply records_insert|by apply closed_insert|count_step..].
  - destruct (record_of r c _ Hinv Hg) as [n Hn].
    destruct s, s'; try discriminate Hleg; try done; unfold manageConnState, changeState; rewrite Hn;
      (split; simpl; [by apply records_insert|by apply closed_insert|count_step..]).
  - destruct (record_of r c _ Hinv Hg) as [n Hn].
    destruct s; try discriminate Hleg; unfold manageConnState, changeState; rewrite Hn;
      (split; simpl; [rewrite ?delete_insert_eq; by apply records_delete|by apply closed_delete|count_step..]).
  - destruct (record_of r c _ Hinv Hg) as [n Hn]. unfold CloseConn. rewrite Hn. simpl.
    split; simpl; [by apply records_delete|by apply closed_delete|count_step..].
  - assert (CloseConn c (mgr r) = mgr r) as ->; [|done]. unfold CloseConn.
    pose proof (Hrec c) as Hc. destruct (conns (mgr r) !! c) as [[n s]|]; [|done]. simpl in *.
    destruct (ghost r !! c) as [[|s']|]; simplify_eq/=; [done|].
    rewrite decide_False; [done|]. by intros ->.
  - split; simpl; [done|done|simpl in *; lia..].
Qed.

Lemma reachable_inv r : reachable r → connInv r.
Proof. induction 1; eauto using startRun_inv, step_inv. Qed.

(** C8: the counters account for the connections. After any run of the server
    in which connections go through the states in the documented order, with
    calls of [GetStatus] and [CloseConn] anywhere between, what [GetStatus] has
    returned so far plus what a counter holds is the number of connections that
    are open, active, idle and hijacked; each connection that is known has a
    record with its current state. *)
Theorem conn_counters r :
  reachable r →
  open (seen r) + open (status (mgr r)) = count isOpenPhase (ghost r) ∧
  active (seen r) + active (status (mgr r)) = count (.= Live StateActive) (ghost r) ∧
  idle (seen r) + idle (status (mgr r)) = count (.= Live StateIdle) (ghost r) ∧
  hijacked (seen r) + hijacked (status (mgr r)) = count (.= Live StateHijacked) (ghost r) ∧
  ∀ c, state <$> conns (mgr r) !! c = phaseState <$> ghost r !! c.
Proof. intros H. apply reachable_inv in H as [H1 _ H2 H3 H4 H5]. auto. Qed.

(** ** Identifiers

    Any sequence of calls, in any order. *)

Inductive op :=
| OpContext (c : conn)
| OpState (c : conn) (s : ConnState)
| OpCloseConn (c : conn)
| OpClose (closeConn : conn → option string)
| OpGraceful
| OpStatus.

Definition applyOp (m : connManager) (o : op) : connManager :=
  match o with
  | OpContext c => snd (connContext c m)
  | OpState c s => manageConnState c s m
  | OpCloseConn c => CloseConn c m
  | OpClose closeConn => fst (connManager_Close closeConn m)
  | OpGraceful => snd (graceful m)
  | OpStatus => snd (GetStatus m)
  end.

Definition idsOK (m : connManager) : Prop :=
  0 ≤ serial m ∧
  (∀ c i, conns m !! c = Some i → 1 ≤ id i ≤ serial m) ∧
  (∀ c1 c2 i1 i2, conns m !! c1 = Some i1 → conns m !! c2 = Some i2 → id i1 = id i2 → c1 = c2).

(** A call that keeps the identifiers: every record that is left had the same
    identifier before, and the generator is where it was. *)
Definition keepsIds (m m' : connManager) : Prop :=
  serial m' = serial m ∧
  ∀ c i, conns m' !! c = Some i → ∃ i0, conns m !! c = Some i0 ∧ id i = id i0.

Lemma keepsIds_OK m m' : keepsIds m m' → idsOK m → idsOK m'.
Proof.
  intros [Hs Hk] (H0 & H1 & H2). rewrite <- Hs in H0, H1. split; [done|]. split.
  - intros c i (i0 & Hi0 & ->)%Hk. eauto.
  - intros c1 c2 i1 i2 (j1 & Hj1 & ->)%Hk (j2 & Hj2 & ->)%Hk. eauto.
Qed.

Lemma keepsIds_refl m : keepsIds m m.
Proof. split; [done|]. eauto. Qed.

Lemma keepsIds_trans m1 m2 m3 : keepsIds m1 m2 → keepsIds m2 m3 → keepsIds m1 m3.
Proof.
  intros [Hs1 H1] [Hs2 H2]. split; [congruence|].
  intros c i (j & Hj & ->)%H2. by apply H1 in Hj.
Qed.

Lemma track_keepsIds s n m : keepsIds m (track s n m).
Proof. split; [done|]. eauto. Qed.

Lemma delete_keepsIds c m : keepsIds m (set_conns (delete c (conns m)) m).
Proof. split; [done|]. simpl. intros c' i [_ H]%lookup_delete_Some. eauto. Qed.

Lemma changeState_keepsIds c fn m :
  (∀ i, id (fst (fn i m)) = id i) → (∀ i, keepsIds m (snd (fn i m))) →
  keepsIds m (changeState c fn m).
Proof.
  intros Hid Hm. unfold changeState. destruct (conns m !! c) as [i|] eqn:E; [|apply keepsIds_refl].
  specialize (Hid i). specialize (Hm i). destruct (fn i m) as [i' m']. simpl in *.
  destruct Hm as [Hs Hk]. split; [done|]. simpl. intros c' j Hj.
  apply lookup_insert_Some in Hj as [[<- <-]|[_ Hj]]; [eauto|]. by apply Hk.
Qed.

Lemma fresh_idsOK c m :
  idsOK m → idsOK (snd (connContext c m)).
Proof.
  intros (H0 & H1 & H2). unfold connContext. simpl. split; [simpl; lia|]. split; simpl.
  - intros c' i [[<- <-]|[_ Hi]]%lookup_insert_Some; simpl; [lia|]. apply H1 in Hi. lia.
  - intros c1 c2 i1 i2 [[<- <-]|[_ Hi1]]%lookup_insert_Some [[<- <-]|[_ Hi2]]%lookup_insert_Some;
      simpl; [done| | |eauto].
    + intros He. apply H1 in Hi2. lia.
    + intros He. apply H1 in Hi1. lia.
Qed.

Lemma manageConnState_keepsIds c s m :
  (s = StateNew → is_Some (conns m !! c)) → keepsIds m (manageConnState c s m).
Proof.
  intros Hnew. unfold manageConnState. destruct s.
  - destruct (Hnew eq_refl) as [i Hi]. rewrite Hi.
    eapply keepsIds_trans; [|apply track_keepsIds]. apply changeState_keepsIds; [done|].
    intros j. apply keepsIds_refl.
  - eapply keepsIds_trans; [|apply track_keepsIds]. apply changeState_keepsIds; [done|].
    intros i. simpl. case_decide; [apply keepsIds_refl|apply track_keepsIds].
  - eapply keepsIds_trans; [|apply track_keepsIds]. apply changeState_keepsIds; [done|].
    intros i. apply track_keepsIds.
  - eapply keepsIds_trans; [|apply track_keepsIds]. apply changeState_keepsIds; [done|].
    intros i. apply track_keepsIds.
  - eapply keepsIds_trans; [|apply delete_keepsIds]. apply changeState_keepsIds; [done|].
    intros i. simpl. case_decide; [apply track_keepsIds|].
    eapply keepsIds_trans; apply track_keepsIds.
Qed.

Lemma applyOp_idsOK m o : idsOK m → idsOK (applyOp m o).
Proof.
  intros H. destruct o as [c|c s|c|cl| |]; simpl.
  - by apply fresh_idsOK.
  - destruct (decide (s = StateNew ∧ conns m !! c = None)) as [[-> Hn]|Hd].
    + assert (manageConnState c StateNew m = manageConnState c StateNew (snd (connContext c m))) as ->.
      { unfold manageConnState, connContext. simpl. by rewrite Hn, lookup_insert_eq. }
      eapply keepsIds_OK; [apply manageConnState_keepsIds|by apply fresh_idsOK].
      intros _. unfold connContext. simpl. rewrite lookup_insert_eq. eauto.
    + eapply keepsIds_OK; [|done]. apply manageConnState_keepsIds. intros ->.
      destruct (conns m !! c) eqn:E; [eauto|]. by destruct Hd.
  - eapply keepsIds_OK; [|done]. unfold CloseConn. destruct (conns m !! c) as [i|]; [|apply keepsIds_refl].
    case_decide; [|apply keepsIds_refl]. eapply keepsIds_trans; [|apply delete_keepsIds].
    eapply keepsIds_trans; apply track_keepsIds.
  - destruct H as (H0 & _ & _). split; [done|]. split; simpl; intros *; by rewrite lookup_empty.
  - destruct H as (H0 & _ & _). split; [done|]. split; simpl; intros *; by rewrite lookup_empty.
  - eapply keepsIds_OK; [|done]. split; [done|]. simpl. eauto.
Qed.

Lemma applyOps_idsOK ops m : idsOK m → idsOK (foldl applyOp m ops).
Proof. revert m. induction ops as [|o ops IH]; intros m H; simpl; [done|]. by apply IH, applyOp_idsOK. Qed.

(** Request identifiers are unique: after any sequence of calls two
    different connections never have the same identifier, and none has the 0
    that [getID] returns for an unknown connection. *)
Theorem conn_ids_unique ops c1 c2 :
  let m := foldl applyOp connManager_init ops in
  c1 ≠ c2 → getID c1 m ≠ 0 → getID c1 m ≠ getID c2 m.
Proof.
  intros m. assert (idsOK m) as (_ & H1 & H2).
  { apply applyOps_idsOK. split; [done|]. split; simpl; intros *; by rewrite lookup_empty. }
  unfold getID. destruct (conns m !! c1) as [i1|] eqn:E1; [|done].
  destruct (conns m !! c2) as [i2|] eqn:E2; intros Hc Hne; [|done].
  intros He. apply Hc. eauto.
Qed.

(** [Close] and [graceful] forget the connections without lowering the
    counters, and the reports of their closing that arrive afterwards do not
    lower them either: the counters keep the connections for ever. *)
Theorem close_keeps_counters m cs closeConn :
  status (foldl (λ m c, manageConnState c StateClosed m) (fst (connManager_Close closeConn m)) cs) = status m ∧
  status (foldl (λ m c, manageConnState c StateClosed m) (snd (graceful m)) cs) = status m.
Proof.
  assert (H : ∀ cs m', conns m' = ∅ → status m' = status m →
    status (foldl (λ m c, manageConnState c StateClosed m) m' cs) = status m).
  { clear cs. intros cs. induction cs as [|c cs IH]; intros m' He Hs; simpl; [done|].
    apply IH; unfold manageConnState, changeState; rewrite He, lookup_empty; simpl;
      [by rewrite He, delete_empty|done]. }
  split; by apply H.
Qed.

(** A run in which one connection is accepted and becomes new. *)
Definition acceptedRun : run :=
  mkRun (snd (connContext 1%nat (mgr startRun))) (<[1%nat := Accepted]> (ghost startRun)) (seen startRun).
Definition sampleRun : run :=
  mkRun (manageConnState 1%nat StateNew (mgr acceptedRun))
    (<[1%nat := Live StateNew]> (ghost acceptedRun)) (seen acceptedRun).

Lemma conn_counters_witness :
  open (seen sampleRun) + open (status (mgr sampleRun)) = count isOpenPhase (ghost sampleRun) ∧
  active (seen sampleRun) + active (status (mgr sampleRun)) =
    count (.= Live StateActive) (ghost sampleRun) ∧
  idle (seen sampleRun) + idle (status (mgr sampleRun)) = count (.= Live StateIdle) (ghost sampleRun) ∧
  hijacked (seen sampleRun) + hijacked (status (mgr sampleRun)) =
    count (.= Live StateHijacked) (ghost sampleRun) ∧
  ∀ c, state <$> conns (mgr sampleRun) !! c = phaseState <$> ghost sampleRun !! c.
Proof.
  apply (conn_counters sampleRun).
  apply (reach_step acceptedRun).
  - apply (reach_step startRun); [apply reach_start|]. apply (step_accept startRun 1%nat). reflexivity.
  - apply (step_new acceptedRun 1%nat). reflexivity.
Defined.

Lemma conn_ids_unique_witness :
  let m := foldl applyOp connManager_init
    [OpContext 3%nat; OpContext 4%nat; OpState 4%nat StateNew] in
  getID 3%nat m = 1 ∧ getID 3%nat m ≠ getID 4%nat m.
Proof.
  split; [vm_compute; reflexivity|].
  apply (conn_ids_unique [OpContext 3%nat; OpContext 4%nat; OpState 4%nat StateNew] 3%nat 4%nat);
    vm_compute; discriminate.
Defined.
