(* ===== verification/RaftStore.v ===== *)
(** * The raft log store (src/raft_badger_store.go)

    Raft's stable store and log store over badger.  The database is an
    interface, [Badger]: what the store relies on is its documented behaviour,
    a map from byte strings whose writes may fail and whose iterators walk the
    keys in byte order.  Reads do not fail.  The
    JSON encoding of log entries is a parameter as well.  Bytes are integers
    from 0 to 255 and a uint64 an integer below 2^64. *)

From S2P Require Import Prelude GoStrings.

#[local] Open Scope Z_scope.

Definition bytes : Type := list Z.

Definition isBytes (b : bytes) : Prop := Forall (λ x, 0 ≤ x < 256) b.
Definition isUint64 (v : Z) : Prop := 0 ≤ v < 2 ^ 64.

(** The byte order of keys. *)
Fixpoint bytesLt (a b : bytes) : bool :=
  match a, b with
  | _, [] => false
  | [], _ :: _ => true
  | x :: a', y :: b' => (x <? y) || ((x =? y) && bytesLt a' b')
  end.
Definition bytesLe (a b : bytes) : bool := negb (bytesLt b a).

(** The bytes of an ASCII text. *)
Fixpoint ofString (s : string) : bytes :=
  match s with "" => [] | String a s' => byteZ a :: ofString s' end.

Fixpoint hasPrefix (p k : bytes) : bool :=
  match p, k with
  | [], _ => true
  | _ :: _, [] => false
  | x :: p', y :: k' => (x =? y) && hasPrefix p' k'
  end.

(** ** The database *)

(** Why a write fails: the key is empty, it is one of the database's own, a size is
    over a limit, or something else (the disk, a closed database). *)
Inductive dbError := DbEmptyKey | DbInvalidKey | DbTooBig | DbOther.

(** [Get] of a transaction; [Update] with one [Set] or one [Delete]; a write batch:
    [Set] and [Delete] in order ([None] deletes), then [Flush], up to the first
    error; the error of an [Update] that writes nothing; [Seek] of an iterator with
    a prefix, forwards and in reverse, and the walk from there. *)
Class Badger (db : Type) := {
  db_get : db → bytes → option bytes;
  db_set : bytes → bytes → db → db * option dbError;
  db_delete : bytes → db → db * option dbError;
  db_batch : list (bytes * option bytes) → db → db * option dbError;
  db_update : db → option dbError;
  db_seek : bool → bytes → bytes → db → option bytes;
  db_walk : bytes → bytes → db → list bytes;
}.

(** The last write of a batch to a key. *)
Definition lastWrite (k : bytes) (ws : list (bytes * option bytes)) : option (option bytes) :=
  foldl (λ acc w, if decide (fst w = k) then Some (snd w) else acc) None ws.

(** A transaction that fails changes nothing; of a batch that fails any part may
    have been written. *)
Class BadgerLaws (db : Type) `{B : Badger db} := {
  set_done k v d d' : db_set k v d = (d', None) →
    ∀ k', db_get d' k' = if decide (k = k') then Some v else db_get d k';
  set_failed k v d d' e : db_set k v d = (d', Some e) → ∀ k', db_get d' k' = db_get d k';
  delete_done k d d' : db_delete k d = (d', None) →
    ∀ k', db_get d' k' = if decide (k = k') then None else db_get d k';
  delete_failed k d d' e : db_delete k d = (d', Some e) → ∀ k', db_get d' k' = db_get d k';
  batch_done ws d d' : db_batch ws d = (d', None) →
    ∀ k, db_get d' k = match lastWrite k ws with Some v => v | None => db_get d k end;
  batch_failed ws d d' e : db_batch ws d = (d', Some e) →
    ∀ k, db_get d' k = db_get d k ∨ ∃ v, (k, v) ∈ ws ∧ db_get d' k = v;
  seek_found rev p from d k : hasPrefix p from = true → db_seek rev p from d = Some k →
    is_Some (db_get d k) ∧ hasPrefix p k = true ∧
    (if rev then bytesLe k from else bytesLe from k) = true ∧
    ∀ k', is_Some (db_get d k') → hasPrefix p k' = true →
      (if rev then bytesLe k' from else bytesLe from k') = true →
      (if rev then bytesLe k' k else bytesLe k k') = true;
  seek_none rev p from d : hasPrefix p from = true → db_seek rev p from d = None →
    ∀ k', is_Some (db_get d k') → hasPrefix p k' = true →
      (if rev then bytesLe k' from else bytesLe from k') = false;
  walk_elem p from d k : hasPrefix p from = true → k ∈ db_walk p from d ↔
    is_Some (db_get d k) ∧ hasPrefix p k = true ∧ bytesLe from k = true;
  walk_sorted p from d : StronglySorted (λ a b, bytesLt a b = true) (db_walk p from d);
}.

(** What the database refuses: [fits] says whether the key, the value and the
    transaction are within its limits. *)
Definition badgerRefuses (fits : bool) (k : bytes) : option dbError :=
  match k with
  | [] => Some DbEmptyKey
  | _ => if hasPrefix (ofString "!badger!") k then Some DbInvalidKey
         else if negb fits then Some DbTooBig else None
  end.

(** A database whose writes fail only when they are refused; [db_fits] are its
    limits: 65000 bytes for a key, the size of a file of the value log for a value,
    the size of a transaction. *)
Class BadgerLimits (db : Type) `{B : Badger db} := {
  db_fits : bytes → bytes → bool;
  set_error k v d : snd (db_set k v d) = badgerRefuses (db_fits k v) k;
  delete_error k d : snd (db_delete k d) = badgerRefuses (db_fits k []) k;
}.

(** The JSON encoding of log entries.  Marshalling does not fail: the fields of
    [raft.Log] are numbers and byte slices. *)
Class LogCodec := {
  Log : Type;
  Index : Log → Z;
  Marshal : Log → bytes;
  Unmarshal : bytes → option Log;
}.

Inductive storeError := ErrLogNotFound | ErrKeyNotFound | ErrDecode.

(** ** Keys *)

Definition stablePrefix : bytes := ofString "/stable".
Definition entryPrefix : bytes := ofString "/entry".
Definition statePrefix : bytes := ofString "/state".

(** [binary.BigEndian.PutUint64] and [Uint64]; the latter panics on fewer than
    eight bytes. *)
Definition PutUint64 (v : Z) : bytes :=
  (λ k, Z.land (Z.shiftr v k) 0xFF) <$> [56; 48; 40; 32; 24; 16; 8; 0].

Definition Uint64 (b : bytes) : res Z :=
  match b with
  | b0 :: b1 :: b2 :: b3 :: b4 :: b5 :: b6 :: b7 :: _ =>
    Ok (Z.lor (Z.lor (Z.lor (Z.lor (Z.lor (Z.lor (Z.lor
      b7 (Z.shiftl b6 8)) (Z.shiftl b5 16)) (Z.shiftl b4 24))
      (Z.shiftl b3 32)) (Z.shiftl b2 40)) (Z.shiftl b1 48)) (Z.shiftl b0 56))
  | _ => Panic IndexOutOfRange
  end.

Definition joinSlice (a b : bytes) : bytes := a ++ b.

Definition entryKey (key : Z) : bytes := joinSlice entryPrefix (PutUint64 key).
Definition stateKey (key : Z) : bytes := joinSlice stablePrefix (PutUint64 key).
Definition parseEntryIndex (key : bytes) : res Z := Uint64 (drop (length entryPrefix) key).
Definition parseStateIndex (key : bytes) : res Z := Uint64 (drop (length entryPrefix) key).

(** ** The store *)

Section Store.
Context {db : Type} `{B : Badger db} `{C : LogCodec}.

(** [store]; the cache holds at most the entry for [firstKey]. *)
Record store := mkStore { st_db : db; st_cache : option Z }.

Definition set_db (d : db) (s : store) : store := mkStore d (st_cache s).

(** The state after an operation of the database, and its error. *)
Definition with_db (r : db * option dbError) (s : store) : store * option dbError := (set_db (fst r) s, snd r).

Definition store_Set (key value : bytes) (s : store) : store * option dbError :=
  with_db (db_set (joinSlice stablePrefix key) value (st_db s)) s.

Definition store_Get (key : bytes) (s : store) : bytes + storeError :=
  match db_get (st_db s) (joinSlice stablePrefix key) with
  | Some v => inl v
  | None => inr ErrKeyNotFound
  end.

Definition SetUint64 (key : bytes) (value : Z) (s : store) : store * option dbError :=
  store_Set key (PutUint64 value) s.

(** [GetUint64]: a missing key is the value 0. *)
Definition GetUint64 (key : bytes) (s : store) : res Z :=
  match db_get (st_db s) (joinSlice stablePrefix key) with
  | Some v => Uint64 v
  | None => Ok 0
  end.

(** [seekEntry] without an entry to fill. *)
Definition seekEntry (seekTo : Z) (reverse : bool) (s : store) : res (Z * option storeError) :=
  match db_seek reverse entryPrefix (entryKey seekTo) (st_db s) with
  | None => Ok (0, Some ErrLogNotFound)
  | Some k => index ← parseEntryIndex k; Ok (index, None)
  end.

(** [uint64] addition. *)
Definition addUint64 (a b : Z) : Z := (a + b) mod 2 ^ 64.

Definition FirstIndex (s : store) : res (Z * option storeError * store) :=
  match st_cache s with
  | Some v => Ok (v, None, s)
  | None =>
    '(index, err) ← seekEntry 0 false s;
    let s := match err with None => mkStore (st_db s) (Some (addUint64 index 1)) | Some _ => s end in
    Ok (addUint64 index 1, err, s)
  end.

Definition LastIndex (s : store) : res (Z * option storeError) :=
  seekEntry (2 ^ 64 - 1) true s.

Definition GetLog (index : Z) (s : store) : Log + storeError :=
  match db_get (st_db s) (entryKey index) with
  | None => inr ErrLogNotFound
  | Some v => match Unmarshal v with Some e => inl e | None => inr ErrDecode end
  end.

Definition StoreLog (e : Log) (s : store) : store * option dbError :=
  with_db (db_set (entryKey (Index e)) (Marshal e) (st_db s)) s.

(** [StoreLogs]: one batch. *)
Definition StoreLogs (logs : list Log) (s : store) : store * option dbError :=
  with_db (db_batch ((λ e, (entryKey (Index e), Some (Marshal e))) <$> logs) (st_db s)) s.

(** The loop of [deleteRage]: the keys from [from] up to the index [to]. *)
Fixpoint rangeKeys (keys : list bytes) (to : Z) : res (list bytes) :=
  match keys with
  | [] => Ok []
  | k :: ks =>
    idx ← parseEntryIndex k;
    if to <? idx then Ok []
    else rest ← rangeKeys ks to; Ok (k :: rest)
  end.

(** [deleteKeys]: the batch of deletions. *)
Definition deleteKeys (keys : list bytes) : list (bytes * option bytes) := (λ k, (k, None)) <$> keys.

(** [deleteRage] collects the keys in a transaction, whose error ends it, and then
    puts the deletions into the batch, which [DeleteRange] flushes. *)
Definition DeleteRange (min max : Z) (s : store) : res (store * option dbError) :=
  keys ← rangeKeys (db_walk entryPrefix (entryKey min) (st_db s)) max;
  Ok (match db_update (st_db s) with
      | Some e => (s, Some e)
      | None => with_db (db_batch (deleteKeys keys) (st_db s)) s
      end).
End Store.
Arguments store : clear implicits.

(** ** Big-endian numbers *)

(** The number that big-endian bytes stand for. *)
Definition beVal (b : bytes) : Z := foldl (λ acc x, acc * 256 + x) 0 b.

Lemma foldl_be b acc :
  foldl (λ acc x, acc * 256 + x) acc b = acc * 256 ^ Z.of_nat (length b) + beVal b.
Proof.
  unfold beVal. revert acc. induction b as [|x b IH]; intros acc; [simpl; lia|].
  cbn [foldl length]. rewrite (IH (acc * 256 + x)), (IH (0 * 256 + x)).
  rewrite Nat2Z.inj_succ, Z.pow_succ_r by lia. lia.
Qed.

Lemma beVal_cons x b : beVal (x :: b) = x * 256 ^ Z.of_nat (length b) + beVal b.
Proof. unfold beVal at 1. cbn [foldl]. rewrite foldl_be. lia. Qed.

Lemma beVal_range b : isBytes b → 0 ≤ beVal b < 256 ^ Z.of_nat (length b).
Proof.
  induction 1 as [|x b Hx _ IH]; [done|]. rewrite beVal_cons. simpl length.
  rewrite Nat2Z.inj_succ, Z.pow_succ_r by lia. nia.
Qed.

(** On byte strings of one length the byte order is the order of the numbers. *)
Lemma bytesLt_beVal a b :
  isBytes a → isBytes b → length a = length b → bytesLt a b = (beVal a <? beVal b).
Proof.
  intros Ha. revert b. induction Ha as [|x a Hx Ha IH]; intros b Hb Hl.
  - by destruct b.
  - destruct b as [|y b]; [done|]. apply Forall_cons in Hb as [Hy Hb]. injection Hl as Hl.
    rewrite !beVal_cons. simpl. rewrite IH by done. rewrite <- Hl.
    pose proof (beVal_range a Ha). pose proof (beVal_range b Hb). rewrite <- Hl in *.
    set (p := 256 ^ Z.of_nat (length a)) in *.
    destruct (Z.ltb_spec x y), (Z.eqb_spec x y); simpl; try lia;
      destruct (Z.ltb_spec (beVal a) (beVal b)); symmetry; try (apply Z.ltb_lt; nia); apply Z.ltb_ge; nia.
Qed.

Lemma bytesLt_app p a b : bytesLt (p ++ a) (p ++ b) = bytesLt a b.
Proof. induction p as [|x p IH]; [done|]. simpl. by rewrite Z.ltb_irrefl, Z.eqb_refl. Qed.

Lemma land_byte v k : 0 ≤ k → Z.land (Z.shiftr v k) 0xFF = (v / 2 ^ k) mod 256.
Proof. intros. change 0xFF with (Z.ones 8). rewrite Z.land_ones, Z.shiftr_div_pow2 by lia. done. Qed.

Lemma PutUint64_bytes v : isBytes (PutUint64 v).
Proof.
  unfold isBytes, PutUint64. apply Forall_fmap. repeat constructor; simpl;
    rewrite ?land_byte by lia; apply Z.mod_pos_bound; lia.
Qed.

Lemma PutUint64_length v : length (PutUint64 v) = 8%nat.
Proof. done. Qed.

Lemma div_div_256 v k : 0 ≤ k → v / 2 ^ k = v / 2 ^ (k + 8) * 256 + (v / 2 ^ k) mod 256.
Proof.
  intros Hk. rewrite Z.pow_add_r, <- Z.div_div by lia.
  change (2 ^ 8) with 256. pose proof (Z.div_mod (v / 2 ^ k) 256). lia.
Qed.

Lemma PutUint64_val v : isUint64 v → beVal (PutUint64 v) = v.
Proof.
  intros [H0 H1]. unfold PutUint64, beVal. cbn [fmap list_fmap foldl].
  rewrite !land_byte by lia.
  pose proof (div_div_256 v 0 ltac:(lia)) as H0'; change (0 + 8) with 8 in H0'.
  pose proof (div_div_256 v 8 ltac:(lia)) as H8'; change (8 + 8) with 16 in H8'.
  pose proof (div_div_256 v 16 ltac:(lia)) as H16'; change (16 + 8) with 24 in H16'.
  pose proof (div_div_256 v 24 ltac:(lia)) as H24'; change (24 + 8) with 32 in H24'.
  pose proof (div_div_256 v 32 ltac:(lia)) as H32'; change (32 + 8) with 40 in H32'.
  pose proof (div_div_256 v 40 ltac:(lia)) as H40'; change (40 + 8) with 48 in H40'.
  pose proof (div_div_256 v 48 ltac:(lia)) as H48'; change (48 + 8) with 56 in H48'.
  pose proof (div_div_256 v 56 ltac:(lia)) as H56'; change (56 + 8) with 64 in H56'.
  assert (v / 2 ^ 64 = 0) by (apply Z.div_small; lia).
  change (2 ^ 0) with 1 in *. rewrite Z.div_1_r in *. lia.
Qed.

Lemma lor_step a hi k : 0 ≤ k → 0 ≤ a < 2 ^ k → Z.lor a (Z.shiftl hi k) = hi * 2 ^ k + a.
Proof. intros Hk Ha. rewrite Z.lor_comm. by apply lor_shiftl_add. Qed.

Lemma Uint64_val b : isBytes b → length b = 8%nat → Uint64 b = Ok (beVal b).
Proof.
  intros Hb Hl. destruct b as [|b0 [|b1 [|b2 [|b3 [|b4 [|b5 [|b6 [|b7 [|]]]]]]]]]; try done.
  unfold isBytes in Hb. rewrite !Forall_cons in Hb. destruct Hb as (?&?&?&?&?&?&?&?&_).
  unfold Uint64, beVal. cbn [foldl]. f_equal.
  rewrite (lor_step b7 b6 8) by lia.
  rewrite (lor_step _ b5 16) by lia. rewrite (lor_step _ b4 24) by lia.
  rewrite (lor_step _ b3 32) by lia. rewrite (lor_step _ b2 40) by lia.
  rewrite (lor_step _ b1 48) by lia. rewrite (lor_step _ b0 56) by lia. lia.
Qed.

Lemma Uint64_PutUint64 v : isUint64 v → Uint64 (PutUint64 v) = Ok v.
Proof.
  intros Hv. rewrite Uint64_val, PutUint64_val; [done|done|apply PutUint64_bytes|done].
Qed.

(** ** Entry keys *)

Lemma parseEntryIndex_entryKey v : isUint64 v → parseEntryIndex (entryKey v) = Ok v.
Proof. intros. unfold parseEntryIndex, entryKey, joinSlice. rewrite drop_app_length. by apply Uint64_PutUint64. Qed.

Lemma entryKey_lt a b : isUint64 a → isUint64 b → bytesLt (entryKey a) (entryKey b) = (a <? b).
Proof.
  intros Ha Hb. unfold entryKey, joinSlice.
  rewrite bytesLt_app, bytesLt_beVal, !PutUint64_val; [done|done|done|apply PutUint64_bytes..|done].
Qed.

Lemma entryKey_le a b : isUint64 a → isUint64 b → bytesLe (entryKey a) (entryKey b) = (a <=? b).
Proof. intros. unfold bytesLe. rewrite entryKey_lt by done. lia. Qed.

Lemma entryKey_inj a b : isUint64 a → isUint64 b → entryKey a = entryKey b → a = b.
Proof.
  intros Ha Hb H. pose proof (parseEntryIndex_entryKey a Ha) as E. rewrite H in E.
  rewrite parseEntryIndex_entryKey in E by done. by injection E.
Qed.

Lemma hasPrefix_app p k : hasPrefix p (p ++ k) = true.
Proof. induction p as [|x p IH]; [done|]. simpl. by rewrite Z.eqb_refl. Qed.

Lemma entryKey_prefix v : hasPrefix entryPrefix (entryKey v) = true.
Proof. apply hasPrefix_app. Qed.

Lemma stable_not_entry k : hasPrefix entryPrefix (joinSlice stablePrefix k) = false.
Proof. done. Qed.
