(* ===== verification/RaftFacts.v ===== *)
(** * The raft log store: theorems against the database interface *)

From S2P Require Import Prelude GoStrings RaftStore.

#[local] Open Scope Z_scope.
#[local] Opaque entryPrefix stablePrefix entryKey.

(** What the store asks of the encoding of entries. *)
Class LogCodecLaws `{C : LogCodec} := {
  unmarshal_marshal e : Unmarshal (Marshal e) = Some e;
  index_uint64 e : isUint64 (Index e);
}.

Section Facts.
Context {db : Type} `{B : Badger db} {BL : BadgerLaws db} `{C : LogCodec} {CL : LogCodecLaws}.

#[local] Abbreviation store := (store db).
Implicit Types s : store.

(** The log has an entry at an index. *)
Definition hasLog s (i : Z) : Prop := isUint64 i ∧ is_Some (db_get (st_db s) (entryKey i)).

(** Under the prefix of entries there are only keys of entries. *)
Definition wfLog s : Prop :=
  ∀ k, is_Some (db_get (st_db s) k) → hasPrefix entryPrefix k = true →
  ∃ i, isUint64 i ∧ k = entryKey i.

(** No batch of entries fails. *)
Definition entriesWritten : Prop :=
  ∀ ws (d : db), Forall (λ w, hasPrefix entryPrefix (fst w) = true) ws → snd (db_batch ws d) = None.

(** ** Entries *)

(** The last entry of a batch with a given index. *)
Definition lastWith (i : Z) (logs : list Log) : option Log :=
  foldl (λ acc e, if decide (i = Index e) then Some e else acc) None logs.

Lemma lastWith_acc i logs acc :
  foldl (λ acc e, if decide (i = Index e) then Some e else acc) acc logs =
  match lastWith i logs with Some e => Some e | None => acc end.
Proof.
  unfold lastWith. revert acc. induction logs as [|e logs IH]; intros acc; simpl; [done|].
  rewrite (IH (if decide (i = Index e) then Some e else acc)),
    (IH (if decide (i = Index e) then Some e else None)).
  destruct (foldl _ None logs); [done|]. by destruct (decide (i = Index e)).
Qed.

Lemma lastWith_cons i e logs : lastWith i (e :: logs) =
  match lastWith i logs with Some e' => Some e' | None => if decide (i = Index e) then Some e else None end.
Proof. exact (lastWith_acc i logs (if decide (i = Index e) then Some e else None)). Qed.

Lemma lastWrite_acc k ws acc :
  foldl (λ acc w, if decide (fst w = k) then Some (snd w) else acc) acc ws =
  match lastWrite k ws with Some v => Some v | None => acc end.
Proof.
  unfold lastWrite. revert acc. induction ws as [|w ws IH]; intros acc; simpl; [done|].
  rewrite (IH (if decide (fst w = k) then Some (snd w) else acc)), (IH (if decide (fst w = k) then Some (snd w) else None)).
  destruct (foldl _ None ws); [done|]. by destruct (decide (fst w = k)).
Qed.

Lemma lastWrite_cons k w ws : lastWrite k (w :: ws) =
  match lastWrite k ws with Some v => Some v | None => if decide (fst w = k) then Some (snd w) else None end.
Proof. exact (lastWrite_acc k ws (if decide (fst w = k) then Some (snd w) else None)). Qed.

(** The batch of [StoreLogs]. *)
Definition logWrites (logs : list Log) : list (bytes * option bytes) :=
  (λ e, (entryKey (Index e), Some (Marshal e))) <$> logs.

Lemma lastWrite_logs logs i : isUint64 i →
  lastWrite (entryKey i) (logWrites logs) = (λ e, Some (Marshal e)) <$> lastWith i logs.
Proof.
  intros Hi. induction logs as [|e logs IH]; [done|]. cbn [logWrites fmap list_fmap].
  rewrite lastWrite_cons, lastWith_cons. fold (logWrites logs). rewrite IH. destruct (lastWith i logs); simpl; [done|].
  destruct (decide (i = Index e)) as [->|Hne]; [by rewrite decide_True|]. rewrite decide_False; [done|].
  intros H. apply Hne. symmetry. apply entryKey_inj; [apply index_uint64|done|done].
Qed.

Lemma logWrites_elem logs k v : (k, v) ∈ logWrites logs → ∃ e, e ∈ logs ∧ k = entryKey (Index e) ∧ v = Some (Marshal e).
Proof. intros (e & [= -> ->] & He)%list_elem_of_fmap. eauto. Qed.

Lemma lastWrite_elem k ws v : lastWrite k ws = Some v → (k, v) ∈ ws.
Proof.
  induction ws as [|[k' v'] ws IH]; [done|]. rewrite lastWrite_cons. simpl.
  destruct (lastWrite k ws) as [v''|]; [intros [= ->]; right; by apply IH|]. case_decide as E; [|done].
  intros [= ->]. subst. left.
Qed.

(** Whatever becomes of a batch, a key that it does not write is as before. *)
Lemma batch_other ws (d d' : db) err k : db_batch ws d = (d', err) →
  db_get d' k = db_get d k ∨ ∃ v, (k, v) ∈ ws ∧ db_get d' k = v.
Proof.
  intros Hb. destruct err as [e|]; [by eapply batch_failed|]. rewrite (batch_done _ _ _ Hb).
  destruct (lastWrite k ws) as [v|] eqn:E; [|by left]. right. exists v. split; [by apply lastWrite_elem|done].
Qed.

Lemma StoreLogs_db logs s s' err : StoreLogs logs s = (s', err) →
  db_batch (logWrites logs) (st_db s) = (st_db s', err) ∧ st_cache s' = st_cache s.
Proof. unfold StoreLogs, with_db. destruct (db_batch _ _) eqn:E. intros [= <- <-]. by rewrite <- E. Qed.

Lemma StoreLogs_wf logs s s' err : StoreLogs logs s = (s', err) → wfLog s → wfLog s'.
Proof.
  intros [Hb _]%StoreLogs_db Hwf k Hk Hp. destruct (batch_other _ _ _ _ k Hb) as [E|(v & Hin & _)].
  - apply Hwf; [by rewrite <- E|done].
  - apply logWrites_elem in Hin as (e & _ & -> & _). exists (Index e). split; [apply index_uint64|done].
Qed.

(** C18: what is stored is read back. After a batch of entries has been stored,
    reading an index gives the last entry of the batch with that index, and
    for every other index what was there before.  The only errors are those of the
    database; after one an index reads as before or as an entry of the batch. *)
Theorem store_logs_roundtrip logs s :
  let '(s', err) := StoreLogs logs s in
  (err = None → ∀ i, isUint64 i →
     GetLog i s' = match lastWith i logs with Some e => inl e | None => GetLog i s end) ∧
  (err ≠ None → ∀ i, isUint64 i →
     GetLog i s' = GetLog i s ∨ ∃ e, e ∈ logs ∧ Index e = i ∧ GetLog i s' = inl e) ∧
  (entriesWritten → err = None).
Proof.
  destruct (StoreLogs logs s) as [s' err] eqn:E. apply StoreLogs_db in E as [Hb _]. split_and!.
  - intros -> i Hi. unfold GetLog. rewrite (batch_done _ _ _ Hb), lastWrite_logs by done.
    destruct (lastWith i logs); simpl; [by rewrite unmarshal_marshal|done].
  - intros _ i Hi. unfold GetLog. destruct (batch_other _ _ _ _ (entryKey i) Hb) as [->|(v & Hin & ->)]; [by left|].
    apply logWrites_elem in Hin as (e & He & Hk & ->). right. exists e. rewrite unmarshal_marshal.
    split_and!; [done|symmetry; apply entryKey_inj; [done|apply index_uint64|done]|done].
  - intros Hok. specialize (Hok (logWrites logs) (st_db s)). rewrite Hb in Hok. apply Hok.
    apply Forall_forall. intros [k v] (e & _ & -> & _)%logWrites_elem. apply entryKey_prefix.
Qed.

(** ** First and last *)

Lemma LastIndex_spec s : wfLog s →
  (∃ i, LastIndex s = Ok (i, None) ∧ hasLog s i ∧ ∀ j, hasLog s j → j ≤ i) ∨
  (LastIndex s = Ok (0, Some ErrLogNotFound) ∧ ∀ j, ¬ hasLog s j).
Proof.
  intros Hwf. assert (Hmax : isUint64 (2 ^ 64 - 1)) by (split; lia).
  unfold LastIndex, seekEntry. destruct (db_seek _ _ _ _) as [k|] eqn:E.
  - left. apply seek_found in E as (Hk & Hp & _ & Hmin); [|apply entryKey_prefix].
    destruct (Hwf k Hk Hp) as (i & Hi & ->). rewrite parseEntryIndex_entryKey by done. simpl.
    exists i. split; [done|]. split; [done|]. intros j [Hj Hjs].
    specialize (Hmin (entryKey j) Hjs (entryKey_prefix j)). cbn beta iota in Hmin.
    rewrite !entryKey_le in Hmin by done. unfold isUint64 in *.
    apply Z.leb_le, Hmin, Z.leb_le. lia.
  - right. split; [done|]. intros j [Hj Hjs].
    pose proof (seek_none _ _ _ _ (entryKey_prefix _) E _ Hjs (entryKey_prefix j)) as H.
    cbn beta iota in H. rewrite entryKey_le in H by done. unfold isUint64 in *.
    apply Z.leb_gt in H. lia.
Qed.

Lemma seek_first s : wfLog s →
  (∃ i, seekEntry 0 false s = Ok (i, None) ∧ hasLog s i ∧ ∀ j, hasLog s j → i ≤ j) ∨
  (seekEntry 0 false s = Ok (0, Some ErrLogNotFound) ∧ ∀ j, ¬ hasLog s j).
Proof.
  intros Hwf. assert (H0 : isUint64 0) by (split; lia).
  unfold seekEntry. destruct (db_seek _ _ _ _) as [k|] eqn:E.
  - left. apply seek_found in E as (Hk & Hp & _ & Hmin); [|apply entryKey_prefix].
    destruct (Hwf k Hk Hp) as (i & Hi & ->). rewrite parseEntryIndex_entryKey by done. simpl.
    exists i. split; [done|]. split; [done|]. intros j [Hj Hjs].
    specialize (Hmin (entryKey j) Hjs (entryKey_prefix j)). cbn beta iota in Hmin.
    rewrite !entryKey_le in Hmin by done. unfold isUint64 in *.
    apply Z.leb_le, Hmin, Z.leb_le. lia.
  - right. split; [done|]. intros j [Hj Hjs].
    pose proof (seek_none _ _ _ _ (entryKey_prefix _) E _ Hjs (entryKey_prefix j)) as H.
    cbn beta iota in H. rewrite entryKey_le in H by done. unfold isUint64 in *.
    apply Z.leb_gt in H. lia.
Qed.

(** [LastIndex] gives the greatest index that has an entry, and an error
    when the log is empty. *)
Theorem last_index s : wfLog s →
  (∃ i, LastIndex s = Ok (i, None) ∧ hasLog s i ∧ ∀ j, hasLog s j → j ≤ i) ∨
  (LastIndex s = Ok (0, Some ErrLogNotFound) ∧ ∀ j, ¬ hasLog s j).
Proof. apply LastIndex_spec. Qed.

(** [FirstIndex] is one too high. When the log has entries and nothing is
    cached it gives the index after the least one, and so, unless two entries
    are adjacent at the bottom, an index that has none. *)
Theorem first_index_off_by_one s i : wfLog s →
  st_cache s = None → hasLog s i → (∀ j, hasLog s j → i ≤ j) →
  FirstIndex s =
  Ok (addUint64 i 1, None, mkStore (st_db s) (Some (addUint64 i 1))).
Proof.
  intros Hwf Hc Hi Hmin. unfold FirstIndex. rewrite Hc.
  destruct (seek_first s Hwf) as [(j & -> & Hj & Hjm)|[_ Hn]]; [|by destruct (Hn i)].
  simpl. assert (j = i) as -> by (specialize (Hmin j Hj); specialize (Hjm i Hi); lia). done.
Qed.

(** ** Deletion *)

Lemma lastWrite_deletes keys k : lastWrite k (deleteKeys keys) = if decide (k ∈ keys) then Some None else None.
Proof.
  induction keys as [|x keys IH]; [done|]. cbn [deleteKeys fmap list_fmap]. rewrite lastWrite_cons. fold (deleteKeys keys).
  rewrite IH. simpl. repeat case_decide; set_solver.
Qed.

Lemma deleteKeys_elem keys k v : (k, v) ∈ deleteKeys keys ↔ k ∈ keys ∧ v = None.
Proof. unfold deleteKeys. rewrite list_elem_of_fmap. naive_solver. Qed.

(** The keys that the loop collects from a sorted walk. *)
Lemma rangeKeys_spec keys to :
  (∀ k, k ∈ keys → ∃ i, isUint64 i ∧ k = entryKey i) →
  StronglySorted (λ a b, bytesLt a b = true) keys → isUint64 to →
  ∃ ks, rangeKeys keys to = Ok ks ∧
    ∀ i, isUint64 i → entryKey i ∈ ks ↔ entryKey i ∈ keys ∧ i ≤ to.
Proof.
  intros Hk Hs Hto. induction Hs as [|k keys Hs IH Hlt]; simpl.
  - exists []. split; [done|]. intros i _. split; [by intros ?%elem_of_nil|by intros [?%elem_of_nil _]].
  - destruct (Hk k) as (i & Hi & ->); [apply list_elem_of_here|].
    rewrite parseEntryIndex_entryKey by done. simpl.
    destruct (Z.ltb_spec to i) as [Hti|Hti].
    + exists []. split; [done|]. intros j Hj. split; [by intros ?%elem_of_nil|].
      intros [Hin Hle]. exfalso. apply list_elem_of_In in Hin as [Heq|Hin].
      * apply entryKey_inj in Heq; [lia|done..].
      * apply list_elem_of_In in Hin. rewrite Forall_forall in Hlt. apply Hlt in Hin.
        rewrite entryKey_lt in Hin by done. lia.
    + destruct IH as (ks & -> & Hks); [intros k Hin; apply Hk; by apply list_elem_of_further|]. simpl.
      exists (entryKey i :: ks). split; [done|]. intros j Hj.
      rewrite !list_elem_of_In. simpl. rewrite <- !list_elem_of_In, Hks by done. split.
      * intros [Heq|[Hin Hle]]; [|by split; [right|]].
        apply entryKey_inj in Heq as ->; [|done..]. auto.
      * intros [[Heq|Hin] Hle]; auto.
Qed.

(** The keys that are deleted. *)
Lemma DeleteRange_keys min max s : wfLog s → isUint64 min → isUint64 max →
  ∃ ks, DeleteRange min max s = Ok (match db_update (st_db s) with
      | Some e => (s, Some e) | None => with_db (db_batch (deleteKeys ks) (st_db s)) s end) ∧
    (∀ k, k ∈ ks → hasPrefix entryPrefix k = true) ∧
    ∀ i, isUint64 i → entryKey i ∈ ks ↔ is_Some (db_get (st_db s) (entryKey i)) ∧ min ≤ i ≤ max.
Proof.
  intros Hwf Hmin Hmax. unfold DeleteRange.
  set (keys := db_walk entryPrefix (entryKey min) (st_db s)).
  assert (Hkeys : ∀ k, k ∈ keys ↔ is_Some (db_get (st_db s) k) ∧ hasPrefix entryPrefix k = true ∧
    bytesLe (entryKey min) k = true) by (intros; apply walk_elem, entryKey_prefix).
  destruct (rangeKeys_spec keys max) as (ks & Hks & Hin).
  { intros k (Hs & Hp & _)%Hkeys. by apply Hwf. }
  { apply walk_sorted. }
  { done. }
  assert (Hsub : ∀ k, k ∈ ks → k ∈ keys).
  { clear -Hks. revert ks Hks. induction keys as [|x keys IH]; intros ks H; simpl in H.
    - injection H as <-. done.
    - inv_bind. destruct (max <? a); [injection H as <-; by intros k ?%elem_of_nil|]. inv_bind.
      intros k [->|Hk]%elem_of_cons; [apply list_elem_of_here|apply list_elem_of_further; eauto]. }
  rewrite Hks. simpl. exists ks. split_and!; [done| |].
  - intros k Hk. by apply Hsub, Hkeys in Hk as (_ & ? & _).
  - intros i Hi. rewrite Hin, Hkeys, entryKey_le, entryKey_prefix, Z.leb_le by done. naive_solver.
Qed.

(** What [DeleteRange] does to the database. *)
Lemma DeleteRange_get min max s : wfLog s → isUint64 min → isUint64 max →
  ∃ s' err, DeleteRange min max s = Ok (s', err) ∧ st_cache s' = st_cache s ∧
    (∀ i, isUint64 i → err = None → db_get (st_db s') (entryKey i) =
       if decide (min ≤ i ≤ max) then None else db_get (st_db s) (entryKey i)) ∧
    (∀ i, isUint64 i → db_get (st_db s') (entryKey i) = db_get (st_db s) (entryKey i) ∨
       min ≤ i ≤ max ∧ db_get (st_db s') (entryKey i) = None) ∧
    (∀ k, is_Some (db_get (st_db s') k) → is_Some (db_get (st_db s) k)) ∧
    (∀ k, hasPrefix entryPrefix k = false → db_get (st_db s') k = db_get (st_db s) k) ∧
    (entriesWritten → db_update (st_db s) = None → err = None).
Proof.
  intros Hwf Hmin Hmax. destruct (DeleteRange_keys min max s Hwf Hmin Hmax) as (ks & -> & Hp & Hin).
  destruct (db_update (st_db s)) as [e|] eqn:Eu.
  { eexists _, _. split; [done|]. split_and!; [done|done|by left|done|done|]. done. }
  unfold with_db. destruct (db_batch (deleteKeys ks) (st_db s)) as [d' err] eqn:Eb. eexists _, _. split; [done|].
  assert (Hk : ∀ k, db_get d' k = db_get (st_db s) k ∨ k ∈ ks ∧ db_get d' k = None).
  { intros k. destruct (batch_other _ _ _ _ k Eb) as [->|(v & [Hk ->]%deleteKeys_elem & ->)]; auto. }
  simpl. split_and!; [done| | | | |].
  - intros i Hi ->. rewrite (batch_done _ _ _ Eb), lastWrite_deletes.
    destruct (decide (entryKey i ∈ ks)) as [Hd|Hd]; [by apply Hin in Hd as [_ Hr]; [rewrite decide_True by done|]|].
    case_decide as Hr; [|done]. destruct (db_get (st_db s) (entryKey i)) eqn:E; [|done].
    destruct Hd. apply Hin; [done|]. by rewrite E.
  - intros i Hi. destruct (Hk (entryKey i)) as [?|[Hd ?]]; [by left|right]. split; [by apply Hin|done].
  - intros k. destruct (Hk k) as [->|[_ ->]]; [done|by intros []].
  - intros k Hf. destruct (Hk k) as [?|[Hd _]]; [done|]. apply Hp in Hd. congruence.
  - intros Hb _. specialize (Hb (deleteKeys ks) (st_db s)). rewrite Eb in Hb. apply Hb.
    apply Forall_forall. intros [k v] [Hx _]%deleteKeys_elem. by apply Hp.
Qed.

(** C17: [DeleteRange] removes exactly the entries from [min] to [max], leaves
    every other entry and the whole stable store alone, and always returns.  The
    only errors are those of the database; after one some of the entries of the
    range may still be there, and nothing else has changed. *)
Theorem delete_range min max s : wfLog s → isUint64 min → isUint64 max →
  ∃ s' err, DeleteRange min max s = Ok (s', err) ∧ wfLog s' ∧
    (err = None → ∀ i, isUint64 i →
       GetLog i s' = if decide (min ≤ i ≤ max) then inr ErrLogNotFound else GetLog i s) ∧
    (∀ i, isUint64 i → GetLog i s' = GetLog i s ∨ min ≤ i ≤ max ∧ GetLog i s' = inr ErrLogNotFound) ∧
    (∀ k, store_Get k s' = store_Get k s) ∧
    (entriesWritten → db_update (st_db s) = None → err = None).
Proof.
  intros Hwf Hmin Hmax.
  destruct (DeleteRange_get min max s Hwf Hmin Hmax) as (s' & err & HD & _ & Hget & Hany & Hsub & Hst & Hok).
  exists s', err. split_and!; [done|..|done].
  - intros k Hk. by apply Hwf, Hsub.
  - intros He i Hi. unfold GetLog. rewrite Hget by done. by case_decide.
  - intros i Hi. unfold GetLog. destruct (Hany i Hi) as [->|[Hr ->]]; auto.
  - intros k. unfold store_Get. by rewrite Hst by apply stable_not_entry.
Qed.

(** The cached first index outlives the entry: once [FirstIndex] has been
    called, deleting any range of entries (as raft does when it compacts the
    log) does not change what it returns. *)
Theorem first_index_stale s v s1 min max : wfLog s → isUint64 min → isUint64 max →
  FirstIndex s = Ok (v, None, s1) →
  ∃ s2 err, DeleteRange min max s1 = Ok (s2, err) ∧ FirstIndex s2 = Ok (v, None, s2).
Proof.
  intros Hwf Hmin Hmax HF.
  assert (st_db s1 = st_db s ∧ st_cache s1 = Some v) as [Hd Hc].
  { unfold FirstIndex in HF. destruct (st_cache s) eqn:E; [injection HF as <- <-; done|].
    inv_bind. destruct a as [i [e|]]; [done|]. by injection HF as <- <-. }
  assert (Hwf1 : wfLog s1) by (intros k; rewrite Hd; apply Hwf).
  destruct (DeleteRange_get min max s1 Hwf1 Hmin Hmax) as (s2 & err & HD & Hc2 & _).
  exists s2, err. split; [done|]. unfold FirstIndex. by rewrite Hc2, Hc.
Qed.

(** Numbers of the stable store are read back, and a number that was never
    stored is 0; the log is not touched. *)
Theorem uint64_roundtrip key key' v s s' i :
  isUint64 v → SetUint64 key v s = (s', None) →
  GetUint64 key' s' = (if decide (key = key') then Ok v else GetUint64 key' s) ∧ GetLog i s' = GetLog i s.
Proof.
  intros Hv. unfold GetUint64, SetUint64, store_Set, GetLog, with_db. destruct (db_set _ _ _) as [d' err] eqn:Ed.
  intros [= <- ->]. simpl. rewrite !(set_done _ _ _ _ Ed). split.
  - destruct (decide (key = key')) as [->|Hne]; [by rewrite decide_True, Uint64_PutUint64|].
    rewrite decide_False; [done|]. unfold joinSlice. by intros ?%app_inv_head.
  - rewrite decide_False; [done|]. intros He.
    pose proof (entryKey_prefix i) as Hp. rewrite <- He in Hp. by rewrite stable_not_entry in Hp.
Qed.
End Facts.
