(* ===== verification/RaftInstance.v ===== *)
(** * A database that satisfies the interface of the raft store

    A finite map whose keys are sorted for every iterator, and which refuses the
    keys that the database refuses.  It shows that the laws asked of the database
    can hold, and lets the theorems run. *)

From S2P Require Import Prelude GoStrings RaftStore RaftFacts.

#[local] Open Scope Z_scope.

(** ** The byte order is total *)

Lemma bytesLt_irrefl a : bytesLt a a = false.
Proof. induction a as [|x a IH]; [done|]. simpl. by rewrite Z.ltb_irrefl, Z.eqb_refl, IH. Qed.

Lemma bytesLt_trans a b c : bytesLt a b = true → bytesLt b c = true → bytesLt a c = true.
Proof.
  revert b c. induction a as [|x a IH]; intros [|y b] [|z c] H1 H2; simpl in *; try done.
  apply orb_true_iff in H1 as [H1|H1], H2 as [H2|H2]; reflect_bools; apply orb_true_iff;
    [left; lia..|right]. apply andb_true_iff. split; [lia|]. by eapply IH.
Qed.

Lemma bytesLt_total a b : bytesLt a b = false → a = b ∨ bytesLt b a = true.
Proof.
  revert b. induction a as [|x a IH]; intros [|y b] H; simpl in *; [by left|done|by right|].
  apply orb_false_iff in H as [H1 H2]. reflect_bools.
  destruct (Z.eqb_spec x y) as [->|Hne].
  - simpl in H2. destruct (IH b H2) as [->|Hlt]; [by left|]. right. rewrite Z.eqb_refl, Hlt.
    by rewrite orb_true_r.
  - right. replace (y <? x) with true by lia. done.
Qed.

Definition bytesOrder (a b : bytes) : Prop := bytesLe a b = true.
#[global] Instance bytesOrder_dec : RelDecision bytesOrder.
Proof. unfold bytesOrder. intros a b. apply _. Defined.

#[global] Instance bytesOrder_trans : Transitive bytesOrder.
Proof.
  unfold bytesOrder, bytesLe. intros a b c H1 H2. reflect_bools. apply negb_true_iff.
  destruct (bytesLt c a) eqn:E; [|done]. destruct (bytesLt_total _ _ H1) as [->|H]; [by rewrite H2 in E|].
  by rewrite (bytesLt_trans c a b) in H2.
Qed.

#[global] Instance bytesOrder_total : Total bytesOrder.
Proof.
  unfold bytesOrder, bytesLe. intros a b. destruct (bytesLt b a) eqn:E; [right|by left].
  destruct (bytesLt a b) eqn:E2; [|done].
  pose proof (bytesLt_trans a b a E2 E) as H. by rewrite bytesLt_irrefl in H.
Qed.

Lemma bytesOrder_strict a b : bytesOrder a b → a ≠ b → bytesLt a b = true.
Proof.
  unfold bytesOrder, bytesLe. intros H Hne. reflect_bools.
  by destruct (bytesLt_total _ _ H) as [->|].
Qed.

(** ** The database *)

Definition mapDB : Type := gmap bytes bytes.

(** The keys that satisfy a test, in order. *)
Definition sortedKeys (P : bytes → bool) (d : mapDB) : list bytes :=
  merge_sort bytesOrder (filter (λ k, P k = true) (map_to_list d).*1).

Lemma sortedKeys_elem P d k : k ∈ sortedKeys P d ↔ is_Some (d !! k) ∧ P k = true.
Proof.
  unfold sortedKeys. rewrite merge_sort_Permutation, list_elem_of_filter. split.
  - intros [HP ([k' v] & -> & Hin)%list_elem_of_fmap]. apply elem_of_map_to_list in Hin. eauto.
  - intros [[v Hv] HP]. split; [done|]. apply list_elem_of_fmap. exists (k, v).
    split; [done|]. by apply elem_of_map_to_list.
Qed.

Lemma sortedKeys_sorted P d : StronglySorted (λ a b, bytesLt a b = true) (sortedKeys P d).
Proof.
  assert (Hs : StronglySorted bytesOrder (sortedKeys P d)) by (apply StronglySorted_merge_sort; apply _).
  assert (Hn : NoDup (sortedKeys P d)).
  { unfold sortedKeys. rewrite merge_sort_Permutation. apply NoDup_filter, NoDup_fst_map_to_list. }
  induction Hs as [|k ks Hs IH Hk]; [constructor|]. apply NoDup_cons in Hn as [Hnk Hn].
  constructor; [auto|]. rewrite Forall_forall in Hk |- *. intros x Hx.
  apply bytesOrder_strict; [auto|]. by intros ->.
Qed.

(** A write, unless its key is refused; a batch with a refused key is cancelled. *)
Definition writeTo (d : mapDB) (w : bytes * option bytes) : mapDB :=
  match snd w with Some v => <[fst w := v]> d | None => delete (fst w) d end.

Definition mapWrites (ws : list (bytes * option bytes)) (d : mapDB) : mapDB * option dbError :=
  match head (omap (badgerRefuses true) ws.*1) with
  | Some e => (d, Some e)
  | None => (foldl writeTo d ws, None)
  end.

#[global] Instance mapBadger : Badger mapDB := {|
  db_get d k := d !! k;
  db_set k v := mapWrites [(k, Some v)];
  db_delete k := mapWrites [(k, None)];
  db_batch := mapWrites;
  db_update _ := None;
  db_seek rev p from d :=
    let ks := sortedKeys (λ k, hasPrefix p k && (if rev then bytesLe k from else bytesLe from k)) d in
    if rev then last ks else head ks;
  db_walk p from d := sortedKeys (λ k, hasPrefix p k && bytesLe from k) d;
|}.

Lemma lt_le a b : bytesLt a b = true → bytesLe a b = true.
Proof.
  intros H. unfold bytesLe. destruct (bytesLt b a) eqn:E; [|done].
  pose proof (bytesLt_trans a b a H E) as H'. by rewrite bytesLt_irrefl in H'.
Qed.

Lemma le_refl a : bytesLe a a = true.
Proof. unfold bytesLe. by rewrite bytesLt_irrefl. Qed.

Lemma head_least ks k : StronglySorted (λ a b, bytesLt a b = true) ks → head ks = Some k →
  ∀ k', k' ∈ ks → bytesLe k k' = true.
Proof.
  intros Hs Hh k' Hin. destruct Hs as [|x ks _ Hx]; [done|]. injection Hh as ->.
  apply elem_of_cons in Hin as [->|Hin]; [apply le_refl|].
  rewrite Forall_forall in Hx. by apply lt_le, Hx.
Qed.

Lemma last_greatest ks k : StronglySorted (λ a b, bytesLt a b = true) ks → last ks = Some k →
  ∀ k', k' ∈ ks → bytesLe k' k = true.
Proof.
  intros Hs. induction Hs as [|x ks Hs IH Hx]; intros Hl k' Hin; [done|].
  destruct ks as [|y ks]; [injection Hl as ->; apply list_elem_of_singleton in Hin as ->; apply le_refl|].
  rewrite last_cons_cons in Hl. apply elem_of_cons in Hin as [->|Hin]; [|by apply IH].
  rewrite Forall_forall in Hx. apply lt_le, Hx. by apply last_Some_elem_of.
Qed.

Lemma writeTo_get d w k : writeTo d w !! k = if decide (fst w = k) then snd w else d !! k.
Proof.
  unfold writeTo. destruct w as [k' [v|]]; simpl; case_decide as E; subst.
  - apply lookup_insert_eq.
  - by apply lookup_insert_ne.
  - apply lookup_delete_eq.
  - by apply lookup_delete_ne.
Qed.

Lemma foldl_writeTo ws d k : foldl writeTo d ws !! k = match lastWrite k ws with Some v => v | None => d !! k end.
Proof.
  revert d. induction ws as [|w ws IH]; intros d; [done|]. rewrite lastWrite_cons. simpl. rewrite IH.
  destruct (lastWrite k ws); [done|]. rewrite writeTo_get. by case_decide.
Qed.

Lemma mapWrites_done ws d d' : mapWrites ws d = (d', None) → d' = foldl writeTo d ws.
Proof. unfold mapWrites. case_match; by intros [= <-]. Qed.

Lemma mapWrites_failed ws d d' e : mapWrites ws d = (d', Some e) → d' = d.
Proof. unfold mapWrites. case_match; by intros [= <-]. Qed.

#[global] Instance mapBadger_limits : BadgerLimits mapDB.
Proof.
  refine {| db_fits _ _ := true |}; intros; simpl; unfold mapWrites; simpl; by destruct (badgerRefuses true k).
Defined.

#[global] Instance mapBadger_laws : BadgerLaws mapDB.
Proof.
  split.
  - intros k v d d' ->%mapWrites_done k'. exact (writeTo_get d (k, Some v) k').
  - intros k v d d' e ->%mapWrites_failed k'. done.
  - intros k d d' ->%mapWrites_done k'. exact (writeTo_get d (k, None) k').
  - intros k d d' e ->%mapWrites_failed k'. done.
  - intros ws d d' ->%mapWrites_done k. apply foldl_writeTo.
  - intros ws d d' e ->%mapWrites_failed k. by left.
  - intros rev p from d k _ H. simpl in *.
    set (P := λ k, hasPrefix p k && (if rev then bytesLe k from else bytesLe from k)) in *.
    assert (Hin : k ∈ sortedKeys P d).
    { destruct rev; [by apply last_Some_elem_of|by apply head_Some_elem_of]. }
    apply sortedKeys_elem in Hin as [Hs HP]. subst P. simpl in *. reflect_bools.
    split; [done|]. split; [done|]. split; [done|]. intros k' Hs' Hp' Hc'.
    assert (Hin' : k' ∈ sortedKeys (λ k, hasPrefix p k && (if rev then bytesLe k from else bytesLe from k)) d)
      by (apply sortedKeys_elem; rewrite Hp', Hc'; done).
    destruct rev; [eapply last_greatest|eapply head_least]; eauto using sortedKeys_sorted.
  - intros rev p from d _ H k' Hs Hp. simpl in *.
    destruct (if rev then bytesLe k' from else bytesLe from k') eqn:E; [|done].
    assert (Hin : k' ∈ sortedKeys (λ k, hasPrefix p k && (if rev then bytesLe k from else bytesLe from k)) d)
      by (apply sortedKeys_elem; rewrite Hp, E; done).
    destruct rev; [apply last_None in H|apply head_None in H]; rewrite H in Hin;
      by apply elem_of_nil in Hin.
  - intros p from d k _. simpl. rewrite sortedKeys_elem, andb_true_iff. done.
  - intros p from d. apply sortedKeys_sorted.
Qed.

(** ** The theorems at work *)

(** Entries that are their own index, encoded in eight bytes. *)
Definition uint64Log : Type := { v : Z | bool_decide (0 ≤ v < 2 ^ 64) = true }.

#[global] Instance indexCodec : LogCodec := {|
  Log := uint64Log;
  Index e := proj1_sig e;
  Marshal e := PutUint64 (proj1_sig e);
  Unmarshal b :=
    match Uint64 b with
    | Ok v => match bool_dec (bool_decide (0 ≤ v < 2 ^ 64)) true with
              | left H => Some (exist _ v H) | right _ => None end
    | _ => None
    end;
|}.

#[global] Instance indexCodec_laws : LogCodecLaws.
Proof.
  split.
  - intros [v Hv]. cbn [Unmarshal Marshal indexCodec proj1_sig].
    pose proof Hv as Hv'. apply bool_decide_eq_true in Hv'.
    rewrite Uint64_PutUint64 by done. destruct (bool_dec _ true) as [H|H]; [|done].
    do 2 f_equal. apply Eqdep_dec.UIP_dec, bool_dec.
  - intros [v Hv]. simpl. by apply bool_decide_eq_true in Hv.
Qed.

Definition entry (v : Z) (H : bool_decide (0 ≤ v < 2 ^ 64) = true) : Log := exist _ v H.
Definition emptyStore : store mapDB := mkStore ∅ None.
Definition threeEntries : list Log := [entry 5 eq_refl; entry 6 eq_refl; entry 9 eq_refl].
Definition threeLogs : store mapDB := fst (StoreLogs threeEntries emptyStore).

Lemma threeLogs_stored : StoreLogs threeEntries emptyStore = (threeLogs, None).
Proof. vm_compute. reflexivity. Qed.

Lemma emptyStore_get k : db_get (st_db emptyStore) k = None.
Proof. exact (lookup_empty (M := gmap bytes) (A := bytes) k). Qed.

Lemma emptyStore_wf : wfLog emptyStore.
Proof.
  intros k [v Hv]. by rewrite emptyStore_get in Hv.
Qed.

Lemma threeLogs_wf : wfLog threeLogs.
Proof. exact (StoreLogs_wf _ _ _ _ threeLogs_stored emptyStore_wf). Qed.

Lemma store_logs_roundtrip_witness :
  GetLog 6 threeLogs = inl (entry 6 eq_refl).
Proof.
  pose proof (store_logs_roundtrip threeEntries emptyStore) as H. rewrite threeLogs_stored in H.
  destruct H as [H _]. refine (H eq_refl 6 _). split; lia.
Defined.

Lemma last_index_witness :
  (∃ i, LastIndex threeLogs = Ok (i, None) ∧ hasLog threeLogs i ∧ ∀ j, hasLog threeLogs j → j ≤ i) ∨
  (LastIndex threeLogs = Ok (0, Some ErrLogNotFound) ∧ ∀ j, ¬ hasLog threeLogs j).
Proof. apply (last_index threeLogs). apply threeLogs_wf. Defined.

Lemma mapBadger_entries : entriesWritten (db := mapDB).
Proof.
  intros ws d Hws. simpl. unfold mapWrites.
  assert (omap (badgerRefuses true) ws.*1 = []) as ->; [|done].
  induction Hws as [|[k v] ws Hk _ IH]; [done|].
  destruct k as [|x k]; [done|]. change ((47 =? x) && hasPrefix (ofString "entry") k = true) in Hk.
  apply andb_true_iff in Hk as [Hx%Z.eqb_eq _]. subst x. exact IH.
Qed.

Lemma delete_range_witness :
  ∃ s', DeleteRange 6 8 threeLogs = Ok (s', None) ∧ wfLog s' ∧
    (∀ i, isUint64 i → GetLog i s' =
       if decide (6 ≤ i ≤ 8) then inr ErrLogNotFound else GetLog i threeLogs) ∧
    (∀ k, store_Get k s' = store_Get k threeLogs).
Proof.
  destruct (delete_range 6 8 threeLogs) as (s' & err & HD & Hwf & Hok & _ & Hst & He);
    [apply threeLogs_wf|split; lia|split; lia|].
  specialize (He mapBadger_entries eq_refl). subst err. exists s'. split_and!; [exact HD|exact Hwf|by apply Hok|exact Hst].
Defined.

Lemma first_index_off_by_one_witness :
  FirstIndex threeLogs = Ok (6, None, mkStore (st_db threeLogs) (Some 6)).
Proof.
  apply (first_index_off_by_one threeLogs 5).
  - apply threeLogs_wf.
  - reflexivity.
  - split; [split; lia|]. vm_compute. eexists. reflexivity.
  - intros j [Hj Hs].
    rewrite (batch_done _ _ _ (proj1 (StoreLogs_db _ _ _ _ threeLogs_stored))), lastWrite_logs in Hs by done.
    unfold lastWith in Hs. cbn [threeEntries foldl Index indexCodec entry proj1_sig] in Hs.
    repeat case_decide; subst; try lia. destruct Hs as [v Hv].
    by rewrite emptyStore_get in Hv.
Defined.

Lemma first_index_stale_witness :
  ∃ s2 err, DeleteRange 5 6 (mkStore (st_db threeLogs) (Some 6)) = Ok (s2, err) ∧
        FirstIndex s2 = Ok (6, None, s2).
Proof.
  apply (first_index_stale threeLogs 6 (mkStore (st_db threeLogs) (Some 6)) 5 6).
  - apply threeLogs_wf.
  - split; lia.
  - split; lia.
  - vm_compute. reflexivity.
Defined.

Lemma uint64_roundtrip_witness :
  GetUint64 [1] (fst (SetUint64 [1] 77 threeLogs)) = Ok 77 ∧
  GetLog 5 (fst (SetUint64 [1] 77 threeLogs)) = GetLog 5 threeLogs.
Proof.
  apply (uint64_roundtrip [1] [1] 77 threeLogs (fst (SetUint64 [1] 77 threeLogs)) 5); [split; lia|].
  vm_compute. reflexivity.
Defined.
