(* ===== verification/Snapshot.v ===== *)
(** * Snapshots of the replicated store (src/raft_badger_store.go)

    [fsmSnapshot.Persist] writes a backup of the database to the sink that raft
    gives it (Release is empty).  The backup is a function of the database library: its argument
    here is the contents with their versions. *)

From S2P Require Import Prelude.

#[local] Open Scope Z_scope.

Record dbEntry := mkEntry { e_version : Z; e_key : string; e_value : string }.

(** What happens to the sink. *)
Inductive sinkCall := SinkWrite (es : list dbEntry) | SinkCancel | SinkClose.

Section Snapshot.
(** [Backup db since]: the entries it writes, and the version it returns or its
    error. *)
Context (Backup : list dbEntry → Z → list dbEntry * (Z + string)).

(** [fsmSnapshot.Persist]: the version kept by the snapshots, what the sink gets,
    and the error; [closeErr] is the one of closing the sink. *)
Definition Persist (db : list dbEntry) (closeErr : option string) (since : Z)
    : list sinkCall * option string * Z :=
  match Backup db since with
  | (es, inr err) => ([SinkWrite es; SinkCancel], Some err, since)
  | (es, inl n) => ([SinkWrite es; SinkClose], closeErr, n)
  end.

Definition sinkText (cs : list sinkCall) : list dbEntry :=
  concat ((λ c, match c with SinkWrite es => es | _ => [] end) <$> cs).

(** The snapshots of a sequence of states of the database, from the version of
    the first; a snapshot is what its sink holds when it was closed. *)
Fixpoint snapshots (dbs : list (list dbEntry)) (since : Z) : list (list dbEntry) :=
  match dbs with
  | [] => []
  | db :: dbs =>
    let '(cs, err, since) := Persist db None since in
    sinkText cs :: snapshots dbs since
  end.

Definition lastVersion (es : list dbEntry) : Z := foldr Z.max 0 (e_version <$> es).

(** What the library documents: the entries that are not older than the version
    asked for are dumped, and the version of the last is returned. *)
Hypothesis Backup_since : ∀ db since,
  Backup db since = (filter (λ e, since ≤ e_version e) db, inl (lastVersion (filter (λ e, since ≤ e_version e) db))).

(** The sink is cancelled or closed, once, behind the only write. *)
Lemma Persist_spec db closeErr since : Persist db closeErr since =
  ([SinkWrite (filter (λ e, since ≤ e_version e) db); SinkClose], closeErr,
   lastVersion (filter (λ e, since ≤ e_version e) db)).
Proof. unfold Persist. by rewrite Backup_since. Qed.

(** Databases that grow: entries are only added, with newer versions. *)
Fixpoint growing (db : list dbEntry) (dbs : list (list dbEntry)) : Prop :=
  match dbs with
  | [] => True
  | db' :: dbs => (∃ new, db' = db ++ new ∧ Forall (λ e, lastVersion db < e_version e) new) ∧ growing db' dbs
  end.

Lemma lastVersion_cons e es : lastVersion (e :: es) = e_version e `max` lastVersion es.
Proof. done. Qed.

Lemma lastVersion_nonneg es : 0 ≤ lastVersion es.
Proof. induction es as [|e es IH]; [done|]. rewrite lastVersion_cons. lia. Qed.

Lemma lastVersion_app es es' : lastVersion (es ++ es') = lastVersion es `max` lastVersion es'.
Proof.
  induction es as [|e es IH]; [pose proof (lastVersion_nonneg es'); change (lastVersion []) with 0; simpl; lia|].
  rewrite <- app_comm_cons, !lastVersion_cons, IH. lia.
Qed.

Lemma lastVersion_filter_le db since : lastVersion (filter (λ e, since ≤ e_version e) db) ≤ lastVersion db.
Proof.
  induction db as [|e db IH]; [done|]. rewrite filter_cons. case_decide; rewrite !lastVersion_cons; lia.
Qed.

(** The version that is kept is the one of the newest entry. *)
Lemma lastVersion_filter db since : since ≤ lastVersion db →
  lastVersion (filter (λ e, since ≤ e_version e) db) = lastVersion db.
Proof.
  induction db as [|e db IH]; [done|]. rewrite filter_cons, lastVersion_cons. intros Hs.
  pose proof (lastVersion_filter_le db since). pose proof (lastVersion_nonneg (filter (λ e, since ≤ e_version e) db)).
  case_decide; rewrite ?lastVersion_cons.
  - destruct (decide (since ≤ lastVersion db)); [by rewrite IH|lia].
  - rewrite IH by lia. lia.
Qed.

Lemma snapshots_cons db dbs since : since ≤ lastVersion db →
  snapshots (db :: dbs) since = filter (λ e, since ≤ e_version e) db :: snapshots dbs (lastVersion db).
Proof. intros H. cbn [snapshots]. rewrite Persist_spec. unfold sinkText. simpl. by rewrite app_nil_r, lastVersion_filter. Qed.

Lemma snapshots_next dbs db since k db1 db2 : growing db dbs → since ≤ lastVersion db →
  (db :: dbs) !! k = Some db1 → (db :: dbs) !! S k = Some db2 →
  snapshots (db :: dbs) since !! S k = Some (filter (λ e, lastVersion db1 ≤ e_version e) db2).
Proof.
  revert db since k. induction dbs as [|db' dbs IH]; intros db since k Hg Hs H1 H2; [by destruct k|].
  rewrite snapshots_cons by done. destruct Hg as [(new & -> & Hn) Hg].
  assert (Hle : lastVersion db ≤ lastVersion (db ++ new)) by (rewrite lastVersion_app; lia).
  destruct k as [|k]; [|by eapply IH]. simpl in H1, H2. injection H1 as <-. injection H2 as <-.
  by rewrite snapshots_cons.
Qed.

(** What the snapshots hold.  With a library that dumps as it documents, the first
    snapshot holds the whole database; each later one only the entries not older
    than the newest of the database that the one before it saw.  Raft restores
    from the last snapshot alone, which so lacks everything older. *)
Theorem snapshot_incremental db dbs k db1 db2 :
  Forall (λ e, 0 ≤ e_version e) db → growing db dbs →
  (db :: dbs) !! k = Some db1 → (db :: dbs) !! S k = Some db2 →
  snapshots (db :: dbs) 0 !! 0%nat = Some db ∧
  snapshots (db :: dbs) 0 !! S k = Some (filter (λ e, lastVersion db1 ≤ e_version e) db2).
Proof.
  intros Hv Hg H1 H2. pose proof (lastVersion_nonneg db) as Hnn. split; [|by eapply snapshots_next].
  rewrite snapshots_cons by done. simpl. f_equal. clear -Hv.
  induction Hv as [|e db He _ IH]; [done|]. by rewrite filter_cons, decide_True, IH by done.
Qed.

(** The version is kept although the snapshot is lost.  When closing the sink
    fails, so that raft drops the snapshot, the next one starts where the lost one
    ended. *)
Theorem snapshot_lost_on_close db err since :
  since ≤ lastVersion db → snd (fst (Persist db (Some err) since)) = Some err ∧
  ∀ db', sinkText (fst (fst (Persist db' None (snd (Persist db (Some err) since))))) =
         filter (λ e, lastVersion db ≤ e_version e) db'.
Proof.
  intros Hs. rewrite Persist_spec. simpl. split; [done|]. intros db'.
  rewrite Persist_spec, lastVersion_filter by done. unfold sinkText. simpl. by rewrite app_nil_r.
Qed.
End Snapshot.

(** ** The theorems at work *)

Definition documentedBackup (db : list dbEntry) (since : Z) : list dbEntry * (Z + string) :=
  (filter (λ e, since ≤ e_version e) db, inl (lastVersion (filter (λ e, since ≤ e_version e) db))).

Definition oldEntry : dbEntry := mkEntry 1 "a" "1".
Definition midEntry : dbEntry := mkEntry 2 "b" "2".
Definition newEntry : dbEntry := mkEntry 3 "c" "3".

Lemma snapshot_incremental_witness :
  snapshots documentedBackup [[oldEntry; midEntry]; [oldEntry; midEntry; newEntry]] 0 !! 0%nat = Some [oldEntry; midEntry] ∧
  snapshots documentedBackup [[oldEntry; midEntry]; [oldEntry; midEntry; newEntry]] 0 !! 1%nat =
    Some (filter (λ e, 2 ≤ e_version e) [oldEntry; midEntry; newEntry]).
Proof.
  apply (snapshot_incremental documentedBackup (λ _ _, eq_refl) [oldEntry; midEntry] [[oldEntry; midEntry; newEntry]] 0
    [oldEntry; midEntry]).
  - repeat constructor; simpl; lia.
  - split; [|exact I]. exists [newEntry]. split; [reflexivity|]. repeat constructor; simpl; lia.
  - reflexivity.
  - reflexivity.
Defined.

Lemma snapshot_lost_on_close_witness :
  snd (fst (Persist documentedBackup [oldEntry] (Some "disk full") 0)) = Some "disk full" ∧
  ∀ db', sinkText (fst (fst (Persist documentedBackup db' None
           (snd (Persist documentedBackup [oldEntry] (Some "disk full") 0))))) =
         filter (λ e, 1 ≤ e_version e) db'.
Proof.
  apply (snapshot_lost_on_close documentedBackup (λ _ _, eq_refl) [oldEntry] "disk full" 0). vm_compute. discriminate.
Defined.
