(* ===== verification/RateLimit.v ===== *)
(** * Rate limiting (src/ngx_http_rate_limit.go)

    The bucket and its manager.  Times and durations are nanoseconds; each call
    of [time.Now] is an argument of the operation that makes it.  The mutex
    makes every operation atomic. *)

From S2P Require Import Prelude GoStrings Lexer Directives Stmt Parse Routing RoutingFacts Quoting.

#[local] Open Scope Z_scope.

Definition Second : Z := 1000000000.

Record leaky := mkLeaky {
  capacity : Z;
  remaining : Z;
  reset : Z;
  rate : Z;
  amount : Z;
}.

(** [leaky.take]: the answer and the bucket; [now] and [now'] are what the two
    calls of [time.Now] give. *)
Definition leaky_take (l : leaky) (now now' : Z) : bool * leaky :=
  let l := if reset l <? now
           then mkLeaky (capacity l) (capacity l) (now' + rate l) (rate l) (amount l)
           else l in
  if remaining l <? amount l then (false, l)
  else (true, mkLeaky (capacity l) (remaining l - amount l) (reset l) (rate l) (amount l)).

(** [rateLimiterManager]: a bucket per key in every zone; what [setup] returns
    is a pointer to the bucket, here the pair of names. *)
Definition rateLimiterManager : Type := gmap string (gmap string leaky).

Definition newRateManager : rateLimiterManager := ∅.

Definition rate_setup (key zone : string) (rt now : Z) (r : rateLimiterManager)
    : (string * string) * rateLimiterManager :=
  match r !! zone with
  | Some z =>
    match z !! key with
    | Some _ => ((zone, key), r)
    | None =>
      ((zone, key), <[zone := <[key := mkLeaky rt rt (now + Second) Second 0]> z]> r)
    end
  | None => ((zone, key), <[zone := {[ key := mkLeaky 0 0 0 0 0 ]}]> r)
  end.

(** A call of [take] through the pointer. *)
Definition manager_take (p : string * string) (now now' : Z) (r : rateLimiterManager)
    : option (bool * rateLimiterManager) :=
  z ← r !! fst p;
  l ← z !! snd p;
  let '(b, l') := leaky_take l now now' in
  Some (b, <[fst p := <[snd p := l']> z]> r).

(** ** Rates *)

(** [time.ParseDuration] of a one with a unit; what the library does with any
    other text is a parameter. *)
Class Durations := { parseDurationOther : string → option Z }.

Definition unitNanoseconds (u : string) : option Z :=
  if (u =? "ns")%string then Some 1
  else if (u =? "us")%string then Some 1000
  else if (u =? "ms")%string then Some 1000000
  else if (u =? "s")%string then Some Second
  else if (u =? "m")%string then Some (60 * Second)
  else if (u =? "h")%string then Some (3600 * Second)
  else None.

Section ParseRate.
Context `{D : Durations}.

Definition parseOneDuration (unit : string) : option Z :=
  match unitNanoseconds unit with
  | Some d => Some d
  | None => parseDurationOther ("1" +:+ unit)
  end.

(** [parseRate]: requests per second, or an error. *)
Definition parseRate (s : string) : res (option Z) :=
  match Split s 47 with
  | [p0; p1] =>
    let r := TrimSuffix p0 "r" in
    if (p1 =? "s")%string then Ok (Atoi r)
    else
      match parseOneDuration p1 with
      | None => Ok None
      | Some duration =>
        match Atoi r with
        | None => Ok None
        | Some v =>
          let seconds := Z.quot duration Second in
          if seconds =? 0 then Panic DivideByZero else Ok (Some (Z.quot v seconds))
        end
      end
  | _ => Ok None
  end.
End ParseRate.

(** ** The bucket *)

(** A sequence of takes, with the times that the clock gives. *)
Fixpoint takes (l : leaky) (times : list (Z * Z)) : list bool * leaky :=
  match times with
  | [] => ([], l)
  | (now, now') :: ts =>
    let '(b, l) := leaky_take l now now' in
    let '(bs, l) := takes l ts in
    (b :: bs, l)
  end.

Definition granted (bs : list bool) : Z := Z.of_nat (length (filter (.= true) bs)).

Lemma granted_cons b bs : granted (b :: bs) = (if b then 1 else 0) + granted bs.
Proof.
  unfold granted. destruct b; [rewrite filter_cons_True by done|rewrite filter_cons_False by done];
    cbn [length]; lia.
Qed.

Lemma takes_window l times bs l' :
  takes l times = (bs, l') → Forall (λ t, fst t ≤ reset l) times → 0 ≤ amount l → 0 ≤ remaining l →
  granted bs * amount l + remaining l' = remaining l ∧ 0 ≤ remaining l' ∧
  reset l' = reset l ∧ amount l' = amount l.
Proof.
  revert l bs. induction times as [|[now now'] ts IH]; intros l bs H Ht Ha Hr.
  - injection H as <- <-. unfold granted. simpl. lia.
  - apply Forall_cons in Ht as [Hnow Ht]. simpl in Hnow. cbn [takes] in H.
    unfold leaky_take in H. replace (reset l <? now) with false in H by lia.
    destruct (Z.ltb_spec (remaining l) (amount l)) as [Hlt|Hge].
    + destruct (takes l ts) as [bs2 l2] eqn:E. injection H as <- <-. rewrite granted_cons.
      destruct (IH l bs2 E Ht Ha Hr) as (H1 & H2 & H3 & H4). auto with lia.
    + set (l1 := mkLeaky _ _ _ _ _) in H. destruct (takes l1 ts) as [bs2 l2] eqn:E.
      injection H as <- <-. rewrite granted_cons.
      destruct (IH l1 bs2 E) as (H1 & H2 & H3 & H4); [done|done|simpl; lia|].
      simpl in H1, H3, H4. split; [lia|done].
Qed.

(** C38: within one window (no take later than the reset time) the bucket
    grants at most its capacity: the amounts granted and what remains add up to
    what was there, and the rest never gets negative. *)
Theorem bucket_window l times bs l' :
  takes l times = (bs, l') → Forall (λ t, fst t ≤ reset l) times → 0 ≤ amount l → 0 ≤ remaining l →
  granted bs * amount l + remaining l' = remaining l ∧ 0 ≤ remaining l'.
Proof. intros H Ht Ha Hr. by destruct (takes_window l times bs l' H Ht Ha Hr) as (? & ? & _). Qed.

(** ** The manager *)

Inductive rateOp :=
| OpSetup (key zone : string) (rt now : Z)
| OpTake (p : string * string) (now now' : Z).

(** One call: what a take answers, if the call is one on a known bucket. *)
Definition rateStep (r : rateLimiterManager) (o : rateOp) : option bool * rateLimiterManager :=
  match o with
  | OpSetup key zone rt now => (None, snd (rate_setup key zone rt now r))
  | OpTake p now now' =>
    match manager_take p now now' r with
    | Some (b, r') => (Some b, r')
    | None => (None, r)
    end
  end.

Fixpoint rateRun (r : rateLimiterManager) (ops : list rateOp) : list (option bool) :=
  match ops with
  | [] => []
  | o :: os => let '(b, r') := rateStep r o in b :: rateRun r' os
  end.

(** The buckets that the manager makes. *)
Definition bucketOK (l : leaky) : Prop := amount l = 0 ∧ 0 ≤ remaining l ∧ 0 ≤ capacity l.
Definition managerOK (r : rateLimiterManager) : Prop :=
  ∀ zone z key l, r !! zone = Some z → z !! key = Some l → bucketOK l.

Lemma managerOK_insert r zone z : managerOK r →
  (∀ key l, z !! key = Some l → bucketOK l) → managerOK (<[zone := z]> r).
Proof.
  intros Hr Hz zone' z' key l [[<- <-]|[_ Hz']]%lookup_insert_Some Hl; eauto.
Qed.

Lemma take_bucketOK l now now' : bucketOK l →
  fst (leaky_take l now now') = true ∧ bucketOK (snd (leaky_take l now now')).
Proof.
  intros (Ha & Hr & Hc). unfold leaky_take.
  destruct (reset l <? now); simpl; rewrite Ha;
    match goal with |- context [?x <? 0] => replace (x <? 0) with false by lia end;
    (split; [done|]); unfold bucketOK; simpl; lia.
Qed.

Lemma setup_managerOK key zone rt now r : 0 ≤ rt → managerOK r →
  managerOK (snd (rate_setup key zone rt now r)).
Proof.
  intros Hrt Hr. unfold rate_setup. destruct (r !! zone) as [z|] eqn:Ez.
  - destruct (z !! key) eqn:Ek; [done|]. apply managerOK_insert; [done|].
    intros key' l [[<- <-]|[_ Hl]]%lookup_insert_Some; [unfold bucketOK; simpl; lia|by eapply Hr].
  - apply managerOK_insert; [done|]. intros key' l [<- <-]%lookup_singleton_Some.
    unfold bucketOK. simpl. lia.
Qed.

Lemma take_managerOK p now now' r b r' : managerOK r →
  manager_take p now now' r = Some (b, r') → b = true ∧ managerOK r'.
Proof.
  intros Hr H. unfold manager_take in H. apply bind_Some in H as (z & Hz & H).
  apply bind_Some in H as (l & Hl & H). pose proof (Hr _ _ _ _ Hz Hl) as Hb.
  destruct (take_bucketOK l now now' Hb) as [H1 H2]. destruct (leaky_take l now now') as [b' l'].
  injection H as <- <-. simpl in *. split; [done|]. apply managerOK_insert; [done|].
  intros key' x [[_ <-]|[_ Hx]]%lookup_insert_Some; [done|by eapply Hr].
Qed.

(** The limiter limits nothing. Whatever the (non-negative) rates that are
    set up, the order of the calls and the clock, every request is granted:
    [setup] never gives a bucket an amount to take. *)
Theorem manager_never_limits ops :
  Forall (λ o, match o with OpSetup _ _ rt _ => 0 ≤ rt | _ => True end) ops →
  Forall (λ b, b ≠ Some false) (rateRun newRateManager ops).
Proof.
  assert (Hgen : ∀ r, managerOK r →
    Forall (λ o, match o with OpSetup _ _ rt _ => 0 ≤ rt | _ => True end) ops →
    Forall (λ b, b ≠ Some false) (rateRun r ops)).
  { induction ops as [|o ops IH]; intros r Hr Ho; [constructor|].
    apply Forall_cons in Ho as [Ho Hops]. cbn [rateRun]. unfold rateStep.
    destruct o as [key zone rt now|p now now'].
    - constructor; [done|]. apply IH; [by apply setup_managerOK|done].
    - destruct (manager_take p now now' r) as [[b r']|] eqn:E.
      + apply take_managerOK in E as [-> ?]; [|done]. constructor; [done|]. by apply IH.
      + constructor; [done|]. by apply IH. }
  apply Hgen. intros zone z key l H.
  by rewrite (lookup_empty (M := gmap string) (A := gmap string leaky) zone : newRateManager !! zone = None)
    in H.
Qed.

(** ** Rates per minute *)

(** A rate per minute is divided by sixty and cut off, so that every rate
    below sixty requests per minute is a rate of zero. *)
Theorem parseRate_per_minute `{D : Durations} p v :
  hasByte 47 p = false → Atoi (TrimSuffix p "r") = Some v →
  parseRate (p +:+ "/m") = Ok (Some (Z.quot v 60)) ∧
  (0 ≤ v < 60 → parseRate (p +:+ "/m") = Ok (Some 0)).
Proof.
  intros Hp Hv. assert (parseRate (p +:+ "/m") = Ok (Some (Z.quot v 60))) as ->.
  { unfold parseRate. change "/m" with (String (zbyte 47) "m").
    rewrite Split_app, Split_none by (lia || done). simpl. by rewrite Hv. }
  split; [done|]. intros H. by rewrite Z.quot_small.
Qed.

Lemma bucket_window_witness :
  let l := mkLeaky 2 2 100 10 1 in
  granted [true; true; false] * 1 + 0 = 2 ∧ 0 ≤ 0.
Proof.
  apply (bucket_window (mkLeaky 2 2 100 10 1) [(1, 1); (2, 2); (3, 3)] [true; true; false]
    (mkLeaky 2 0 100 10 1)); [reflexivity| |simpl; lia|simpl; lia].
  repeat (apply Forall_cons; split; [simpl; lia|]). apply Forall_nil. exact I.
Defined.

Lemma manager_never_limits_witness :
  Forall (λ b, b ≠ Some false)
    (rateRun newRateManager [OpSetup "k" "z" 1 0; OpTake ("z", "k") 1 1; OpTake ("z", "k") 1 1]).
Proof.
  apply (manager_never_limits [OpSetup "k" "z" 1 0; OpTake ("z", "k") 1 1; OpTake ("z", "k") 1 1]).
  apply Forall_cons. split; [lia|]. repeat (apply Forall_cons; split; [exact I|]).
  apply Forall_nil. exact I.
Defined.

Lemma parseRate_per_minute_witness :
  @parseRate {| parseDurationOther _ := None |} ("30r" +:+ "/m") = Ok (Some 0) ∧
  (0 ≤ 30 < 60 → @parseRate {| parseDurationOther _ := None |} ("30r" +:+ "/m") = Ok (Some 0)).
Proof.
  apply (@parseRate_per_minute {| parseDurationOther _ := None |} "30r" 30); vm_compute; reflexivity.
Defined.
