(* ===== verification/Values.v ===== *)
(** * Configuration values (src/values.go)

    A value with a flag that says whether the configuration set it.  The code
    has the same type once per kind of value. *)

From S2P Require Import Prelude.

Record confValue (A : Type) := mkValue { set : bool; value : A }.
Arguments mkValue {A} _ _.
Arguments set {A} _.
Arguments value {A} _.

(** [store] and [merge], the same for every kind but slices. *)
Definition value_store {A} (v : A) (s : confValue A) : confValue A := mkValue true v.
Definition value_merge {A} (s other : confValue A) : confValue A :=
  if set other then mkValue (set s) (value other) else s.

Definition stringValue : Type := confValue string.
Definition intValue : Type := confValue Z.
Definition boolValue : Type := confValue bool.
Definition durationValue : Type := confValue Z.
Definition stringSliceValue : Type := confValue (list string).

(** [stringSliceValue.store] adds to the values that are there. *)
Definition stringSliceValue_store (v : list string) (s : stringSliceValue) : stringSliceValue :=
  mkValue true (value s ++ v).

(** [interfaceValue]: a value of any type; [store] takes an [interfaceValue]
    and stores it, with its flag, inside. *)
#[warnings="-register-all"]
Inductive interface := Nil | Any (n : nat) | Wrapped (v : confValue interface).
Definition interfaceValue : Type := confValue interface.
Definition interfaceValue_store (v : interfaceValue) (s : interfaceValue) : interfaceValue :=
  mkValue true (Wrapped v).

(** Merging the values of nested blocks from the outermost inwards. *)
Definition mergeAll {A} (outer : confValue A) (inner : list (confValue A)) : confValue A :=
  foldl value_merge outer inner.

Lemma mergeAll_cons {A} (v x : confValue A) vs : mergeAll v (x :: vs) = mergeAll (value_merge v x) vs.
Proof. done. Qed.

Lemma mergeAll_spec {A} (outer : confValue A) inner :
  mergeAll outer inner =
  mkValue (set outer)
    (match last (filter (λ v, set v = true) inner) with Some v => value v | None => value outer end).
Proof.
  revert outer. induction inner as [|v vs IH]; intros outer; [by destruct outer|].
  rewrite mergeAll_cons, IH, filter_cons. unfold value_merge. case_decide as Hv.
  - rewrite Hv. simpl. destruct (filter _ vs) as [|x xs] eqn:E; [done|]. rewrite last_cons_cons.
    destruct (last (x :: xs)) eqn:El; [done|]. by apply last_None in El.
  - destruct (set v); [done|]. done.
Qed.

(** Merging the values of nested blocks, outermost first, gives the value
    of the innermost block that sets it and otherwise the outermost value; but
    the flag of the result is the flag of the outermost block alone, so that a
    merged value used as the inner one of a further merge is ignored when only
    an inner block had set it. *)
Theorem merge_innermost {A} (outer : confValue A) inner outer2 :
  let merged := mergeAll outer inner in
  value merged = match last (filter (λ v, set v = true) inner) with
                 | Some v => value v
                 | None => value outer
                 end ∧
  set merged = set outer ∧
  value_merge outer2 merged = if set outer then mkValue (set outer2) (value merged) else outer2.
Proof. intros merged. unfold merged. by rewrite mergeAll_spec. Qed.
