(* ===== verification/FileCache.v ===== *)
(** * The cache of open files (src/read_writer_closer_cache.go)

    The access log writes to files through a cache that keeps them open.  The
    code holds the entries in a doubly linked list, most recently used first,
    with a map from paths to list nodes and a map of use counts.  Nodes are
    numbers and a heap gives the object each one holds.  Files are handles; the
    calls of [Close] on them are recorded in order, and what the operating
    system answers to an open is an argument.  The mutex makes every operation
    atomic.

    The specification is a list of paths with their handles, most recent first
    ([lru]); the cache refines it. *)

From S2P Require Import Prelude GoStrings Values.

#[local] Open Scope Z_scope.

(** ** The code *)

Definition handle : Type := nat.
Definition node : Type := nat.

Record fileObject := mkFile { path : string; file : handle }.

Record readWriterCloserCacheOption := mkCacheOption {
  on : boolValue;
  max : intValue;
  inactive : durationValue;
  valid : durationValue;
  min : intValue;
}.

Definition second : Z := 1000000000.

Definition cacheOption_defaults (o : readWriterCloserCacheOption) : readWriterCloserCacheOption :=
  mkCacheOption (value_store true (on o)) (value_store 100 (max o))
    (value_store (10 * second) (inactive o)) (value_store (60 * second) (valid o))
    (value_store 1 (min o)).

Record readWriterCloserCache := mkCache {
  opts : readWriterCloserCacheOption;
  c_list : list node;
  uses : gmap string Z;
  hash : gmap string node;
  heap : gmap node fileObject;
  closed : list handle;
}.

(** [init], and [initFile] which calls it and sets the same opener: nothing
    when the option is off. *)
Definition cache_init (o : readWriterCloserCacheOption) : option readWriterCloserCache :=
  if value (on o) then Some (mkCache o [] ∅ ∅ ∅ []) else None.

(** The object of a node: [node.Value.( *list.Element).Value.( *fileObject)]. *)
Definition object (n : node) (f : readWriterCloserCache) : res fileObject :=
  match heap f !! n with Some v => Ok v | None => Panic NilDereference end.

(** [list.Remove] and [list.MoveToFront] of package container/list: nothing for
    a node of another list. *)
Definition list_Remove (n : node) (l : list node) : list node := filter (λ x, x ≠ n) l.
Definition list_MoveToFront (n : node) (l : list node) : list node :=
  if decide (n ∈ l) then n :: list_Remove n l else l.

Definition deleteUnsafe (nd : option node) (f : readWriterCloserCache) : res readWriterCloserCache :=
  match nd with
  | None => Ok f
  | Some n =>
    v ← object n f;
    Ok (mkCache (opts f) (list_Remove n (c_list f)) (delete (path v) (uses f))
          (delete (path v) (hash f)) (heap f) (closed f ++ [file v]))
  end.

Fixpoint cache_Delete (keys : list string) (f : readWriterCloserCache) : res readWriterCloserCache :=
  match keys with
  | [] => Ok f
  | k :: ks => f ← deleteUnsafe (hash f !! k) f; cache_Delete ks f
  end.

(** [hit] on the map of use counts. *)
Definition hit (p : string) (u : gmap string Z) : gmap string Z :=
  match u !! p with
  | Some v => <[p := v + 1]> u
  | None => <[p := 1]> u
  end.

Definition cache_Get (key : string) (f : readWriterCloserCache)
    : res (option handle * readWriterCloserCache) :=
  match hash f !! key with
  | None => Ok (None, f)
  | Some n =>
    v ← object n f;
    Ok (Some (file v),
        mkCache (opts f) (list_MoveToFront n (c_list f)) (hit key (uses f)) (hash f) (heap f) (closed f))
  end.

(** A node that the list has never held. *)
Definition newNode (f : readWriterCloserCache) : node := fresh (dom (heap f) : gset node).

(** [Put]; [opened] is what the opener gives: a file or an error text. *)
Definition cache_Put (p : string) (opened : handle + string) (f : readWriterCloserCache)
    : res ((handle + string) * readWriterCloserCache) :=
  match opened with
  | inr err => Ok (inr err, f)
  | inl h =>
    f ← match hash f !! p with
        | Some n =>
          v ← object n f;
          Ok (mkCache (opts f) (list_MoveToFront n (c_list f)) (uses f) (hash f)
                (<[n := mkFile p h]> (heap f)) (closed f ++ [file v]))
        | None =>
          f ← (if value (max (opts f)) <=? Z.of_nat (length (c_list f))
               then deleteUnsafe (last (c_list f)) f else Ok f);
          let n := newNode f in
          Ok (mkCache (opts f) (n :: c_list f) (uses f) (<[p := n]> (hash f))
                (<[n := mkFile p h]> (heap f)) (closed f))
        end;
    Ok (inl h, mkCache (opts f) (c_list f) (hit p (uses f)) (hash f) (heap f) (closed f))
  end.

(** [Close]; [closeErr] is what the files answer. *)
Definition cache_Close (closeErr : handle → option string) (f : readWriterCloserCache)
    : res (option string * readWriterCloserCache) :=
  vs ← go_concat_map (λ n, v ← object n f; Ok [v]) (c_list f);
  let errs := omap (λ v, closeErr (file v)) vs in
  Ok (if decide (0 < length errs)%nat then Some ("filecache: " +:+ Join errs ",") else None,
      mkCache (opts f) [] (uses f) ∅ (heap f) (closed f ++ (file <$> vs))).

(** The [Range] over the use counts in one tick of [manageKeys]: the keys in the
    order in which the runtime walks them, those that fail the test are removed
    and collected. *)
Fixpoint sweep (junkTest : string → Z → bool) (order : list string) (u : gmap string Z)
    : list string * gmap string Z :=
  match order with
  | [] => ([], u)
  | k :: ks =>
    match u !! k with
    | Some v =>
      if junkTest k v then
        let '(junk, u) := sweep junkTest ks (delete k u) in (k :: junk, u)
      else sweep junkTest ks u
    | None => sweep junkTest ks u
    end
  end.

Definition set_uses (u : gmap string Z) (f : readWriterCloserCache) : readWriterCloserCache :=
  mkCache (opts f) (c_list f) u (hash f) (heap f) (closed f).

Definition tick (junkTest : string → Z → bool) (order : list string) (f : readWriterCloserCache)
    : res readWriterCloserCache :=
  let '(junk, u) := sweep junkTest order (uses f) in
  cache_Delete junk (set_uses u f).

(** The two timers of [manageKeys]; [exists_] is the answer of [os.Stat]. *)
Definition inactiveTick (order : list string) (f : readWriterCloserCache) : res readWriterCloserCache :=
  tick (λ _ v, v <? value (min (opts f))) order f.
Definition validTick (exists_ : string → bool) (order : list string) (f : readWriterCloserCache)
    : res readWriterCloserCache :=
  tick (λ k _, negb (exists_ k)) order f.

(** The calls that the program makes.  A tick may be interrupted between the
    sweep and the deletion: [OpSweep] and [OpDelete] are the two halves. *)
Inductive cacheOp :=
| OpGet (key : string)
| OpPut (p : string) (opened : handle + string)
| OpDelete (keys : list string)
| OpSweep (exists_ : option (string → bool)) (order : list string)
| OpInactive (order : list string)
| OpValid (exists_ : string → bool) (order : list string)
| OpClose (closeErr : handle → option string).

(** What a call hands to its caller. *)
Inductive cacheOut := OutFile (h : option handle) | OutPut (r : handle + string) | OutClose (e : option string) | OutNone.

Definition junkOf (o : readWriterCloserCacheOption) (exists_ : option (string → bool)) : string → Z → bool :=
  match exists_ with
  | None => λ _ v, v <? value (min o)
  | Some e => λ k _, negb (e k)
  end.

Definition cacheStep (o : cacheOp) (f : readWriterCloserCache) : res (cacheOut * readWriterCloserCache) :=
  match o with
  | OpGet k => '(r, f) ← cache_Get k f; Ok (OutFile r, f)
  | OpPut p opened => '(r, f) ← cache_Put p opened f; Ok (OutPut r, f)
  | OpDelete ks => f ← cache_Delete ks f; Ok (OutNone, f)
  | OpSweep e order => Ok (OutNone, set_uses (snd (sweep (junkOf (opts f) e) order (uses f))) f)
  | OpInactive order => f ← inactiveTick order f; Ok (OutNone, f)
  | OpValid e order => f ← validTick e order f; Ok (OutNone, f)
  | OpClose e => '(r, f) ← cache_Close e f; Ok (OutClose r, f)
  end.

Fixpoint cacheRun (ops : list cacheOp) (f : readWriterCloserCache)
    : res (list cacheOut * readWriterCloserCache) :=
  match ops with
  | [] => Ok ([], f)
  | o :: os => '(r, f) ← cacheStep o f; '(rs, f) ← cacheRun os f; Ok (r :: rs, f)
  end.

(** ** The specification *)

Record lru := mkLru {
  l_opts : readWriterCloserCacheOption;
  entries : list (string * handle);
  l_uses : gmap string Z;
  l_closed : list handle;
}.

Definition find (k : string) (l : list (string * handle)) : option handle :=
  (list_to_map l : gmap string handle) !! k.
Definition without (k : string) (l : list (string * handle)) : list (string * handle) :=
  filter (λ e, e.1 ≠ k) l.

Definition lruDelete1 (s : lru) (k : string) : lru :=
  match find k (entries s) with
  | Some h => mkLru (l_opts s) (without k (entries s)) (delete k (l_uses s)) (l_closed s ++ [h])
  | None => s
  end.
Definition lruDelete (ks : list string) (s : lru) : lru := foldl lruDelete1 s ks.

Definition lruGet (k : string) (s : lru) : option handle * lru :=
  match find k (entries s) with
  | Some h =>
    (Some h, mkLru (l_opts s) ((k, h) :: without k (entries s)) (hit k (l_uses s)) (l_closed s))
  | None => (None, s)
  end.

(** A new entry goes to the front.  It replaces the entry of its path, or else
    the least recently used one when the cache is full. *)
Definition lruPut (p : string) (h : handle) (s : lru) : lru :=
  let full := value (max (l_opts s)) <=? Z.of_nat (length (entries s)) in
  let s :=
    match find p (entries s), last (entries s) with
    | Some old, _ => mkLru (l_opts s) (without p (entries s)) (l_uses s) (l_closed s ++ [old])
    | None, Some (q, _) => if full then lruDelete1 s q else s
    | None, None => s
    end in
  mkLru (l_opts s) ((p, h) :: entries s) (hit p (l_uses s)) (l_closed s).

Definition lruTick (junkTest : string → Z → bool) (order : list string) (s : lru) : lru :=
  let '(junk, u) := sweep junkTest order (l_uses s) in
  lruDelete junk (mkLru (l_opts s) (entries s) u (l_closed s)).

Definition lruStep (o : cacheOp) (s : lru) : cacheOut * lru :=
  match o with
  | OpGet k => let '(r, s) := lruGet k s in (OutFile r, s)
  | OpPut p (inl h) => (OutPut (inl h), lruPut p h s)
  | OpPut p (inr err) => (OutPut (inr err), s)
  | OpDelete ks => (OutNone, lruDelete ks s)
  | OpSweep e order =>
    (OutNone, mkLru (l_opts s) (entries s) (snd (sweep (junkOf (l_opts s) e) order (l_uses s))) (l_closed s))
  | OpInactive order => (OutNone, lruTick (junkOf (l_opts s) None) order s)
  | OpValid e order => (OutNone, lruTick (junkOf (l_opts s) (Some e)) order s)
  | OpClose e =>
    let errs := omap (λ x, e x.2) (entries s) in
    (OutClose (if decide (0 < length errs)%nat then Some ("filecache: " +:+ Join errs ",") else None),
     mkLru (l_opts s) [] (l_uses s) (l_closed s ++ (snd <$> entries s)))
  end.

Fixpoint lruRun (ops : list cacheOp) (s : lru) : list cacheOut * lru :=
  match ops with
  | [] => ([], s)
  | o :: os => let '(r, s) := lruStep o s in let '(rs, s) := lruRun os s in (r :: rs, s)
  end.

(** ** Refinement *)

(** A list node and the entry it stands for. *)
Definition holds (f : readWriterCloserCache) (n : node) (e : string * handle) : Prop :=
  heap f !! n = Some (mkFile e.1 e.2) ∧ hash f !! e.1 = Some n.

Record refines (f : readWriterCloserCache) (s : lru) : Prop := {
  ref_opts : l_opts s = opts f;
  ref_uses : l_uses s = uses f;
  ref_closed : l_closed s = closed f;
  ref_nodup : NoDup (c_list f);
  ref_entries : Forall2 (holds f) (c_list f) (entries s);
  ref_hash p n : hash f !! p = Some n → n ∈ c_list f ∧ ∃ h, heap f !! n = Some (mkFile p h);
}.

Lemma Forall2_filter {A B} (P : A → B → Prop) (Q : A → Prop) (Q' : B → Prop)
    `{∀ x, Decision (Q x)} `{∀ y, Decision (Q' y)} l k :
  Forall2 P l k → (∀ x y, P x y → Q x ↔ Q' y) → Forall2 P (filter Q l) (filter Q' k).
Proof.
  intros HF HQ. induction HF as [|x y l k Hxy _ IH]; [constructor|].
  rewrite !filter_cons. pose proof (HQ x y Hxy). repeat case_decide; try tauto. by constructor.
Qed.

Section Refinement.
Context (f : readWriterCloserCache) (s : lru) (R : refines f s).

Lemma refines_nodup_keys : NoDup (entries s).*1.
Proof.
  pose proof (ref_entries _ _ R) as HF. pose proof (ref_nodup _ _ R) as HN.
  induction HF as [|n e l k He HF IH]; simpl; [constructor|]. apply NoDup_cons in HN as [Hn HN].
  apply NoDup_cons. split; [|auto]. rewrite list_elem_of_fmap. intros (e' & Hk & He').
  apply list_elem_of_lookup in He' as [i Hi].
  destruct (Forall2_lookup_r _ _ _ _ _ HF Hi) as (n' & Hn' & _ & Hh). destruct He as [_ He].
  rewrite <- Hk, He in Hh. injection Hh as ->. apply Hn. by eapply list_elem_of_lookup_2.
Qed.

(** The node of a path holds what the specification finds for it. *)
Lemma refines_hash_Some k n : hash f !! k = Some n →
  ∃ h, heap f !! n = Some (mkFile k h) ∧ find k (entries s) = Some h.
Proof.
  intros Hn. destruct (ref_hash _ _ R k n Hn) as [Hin [h Hh]]. exists h. split; [done|].
  apply list_elem_of_lookup in Hin as [i Hi].
  destruct (Forall2_lookup_l _ _ _ _ _ (ref_entries _ _ R) Hi) as ([k' h'] & He & Hheap & _).
  rewrite Hh in Hheap. injection Hheap as <- <-.
  apply elem_of_list_to_map; [apply refines_nodup_keys|]. by eapply list_elem_of_lookup_2.
Qed.

Lemma refines_hash_None k : hash f !! k = None → find k (entries s) = None.
Proof.
  intros Hn. apply not_elem_of_list_to_map. rewrite list_elem_of_fmap. intros ([k' h] & Hk & He).
  simpl in Hk. subst k'. apply list_elem_of_lookup in He as [i Hi].
  destruct (Forall2_lookup_r _ _ _ _ _ (ref_entries _ _ R) Hi) as (n & _ & _ & Hh).
  simpl in Hh. congruence.
Qed.

(** Taking out the node of a path takes out its entry. *)
Lemma refines_without k n : hash f !! k = Some n →
  Forall2 (holds f) (list_Remove n (c_list f)) (without k (entries s)).
Proof.
  intros Hn. apply Forall2_filter; [apply R|]. intros n' [k' h'] [H1 H2]. simpl in *.
  split; intros Hne ->; apply Hne; [congruence|].
  destruct (ref_hash _ _ R _ _ Hn) as [_ [h Hh]]. rewrite H1 in Hh. congruence.
Qed.
End Refinement.

Lemma list_MoveToFront_in n l : n ∈ l → list_MoveToFront n l = n :: list_Remove n l.
Proof. intros H. unfold list_MoveToFront. by rewrite decide_True. Qed.

Lemma list_Remove_nodup n l : NoDup l → NoDup (list_Remove n l).
Proof. apply NoDup_filter. Qed.

Lemma elem_of_list_Remove x n l : x ∈ list_Remove n l ↔ x ≠ n ∧ x ∈ l.
Proof. unfold list_Remove. by rewrite list_elem_of_filter. Qed.

Lemma front_nodup n l : NoDup l → NoDup (n :: list_Remove n l).
Proof.
  intros H. apply NoDup_cons. split; [|by apply list_Remove_nodup].
  rewrite elem_of_list_Remove. tauto.
Qed.

(** A cache whose list, heap and map agree with the old one on the paths kept. *)
Lemma Forall2_holds_mono f f' l k :
  Forall2 (holds f) l k →
  (∀ n e, n ∈ l → holds f n e → holds f' n e) →
  Forall2 (holds f') l k.
Proof.
  intros HF. induction HF as [|n e l k H HF IH]; intros Hm; constructor.
  - apply Hm; [apply list_elem_of_here|done].
  - apply IH. intros n' e' Hin. apply Hm. by apply list_elem_of_further.
Qed.

Lemma deleteUnsafe_refines f s k : refines f s →
  ∃ f', deleteUnsafe (hash f !! k) f = Ok f' ∧ refines f' (lruDelete1 s k).
Proof.
  intros R. unfold lruDelete1. destruct (hash f !! k) as [n|] eqn:E; simpl.
  - destruct (refines_hash_Some f s R k n E) as (h & Hh & ->). unfold object. rewrite Hh. simpl.
    eexists. split; [done|]. pose proof (refines_without f s R k n E) as HF.
    destruct R as [R1 R2 R3 R4 R5 R6]. constructor; simpl; [done|congruence..| | |].
    + by apply list_Remove_nodup.
    + eapply Forall2_holds_mono; [exact HF|]. intros n' [k' h'] Hin [H1 H2]. split; [done|]. simpl in *.
      rewrite lookup_delete_ne; [done|]. intros <-. apply elem_of_list_Remove in Hin. naive_solver.
    + intros p n' Hp. apply lookup_delete_Some in Hp as [Hne Hp]. destruct (R6 _ _ Hp) as [Hin [h' Hh']].
      split; [|eauto]. apply elem_of_list_Remove. split; [|done]. congruence.
  - rewrite (refines_hash_None f s R k E). eauto.
Qed.

Lemma cache_Delete_refines ks f s : refines f s →
  ∃ f', cache_Delete ks f = Ok f' ∧ refines f' (lruDelete ks s).
Proof.
  revert f s. induction ks as [|k ks IH]; intros f s R; simpl; [eauto|].
  destruct (deleteUnsafe_refines f s k R) as (f' & -> & R'). simpl. by apply IH.
Qed.

Lemma cache_Get_refines k f s : refines f s →
  ∃ f', cache_Get k f = Ok (fst (lruGet k s), f') ∧ refines f' (snd (lruGet k s)).
Proof.
  intros R. unfold cache_Get, lruGet. destruct (hash f !! k) as [n|] eqn:E.
  - destruct (refines_hash_Some f s R k n E) as (h & Hh & ->). unfold object. rewrite Hh. simpl.
    eexists. split; [done|]. pose proof (refines_without f s R k n E) as HF.
    destruct R as [R1 R2 R3 R4 R5 R6]. destruct (R6 _ _ E) as [Hin _].
    constructor; simpl; rewrite ?list_MoveToFront_in by done; [congruence..| | |].
    + by apply front_nodup.
    + constructor; [by split|exact HF].
    + intros p n' Hp. destruct (R6 _ _ Hp) as [Hin' Hh']. split; [|done].
      destruct (decide (n' = n)) as [->|]; [apply list_elem_of_here|].
      apply list_elem_of_further. by apply elem_of_list_Remove.
  - rewrite (refines_hash_None f s R k E). eauto.
Qed.

Lemma set_uses_refines u f s : refines f s →
  refines (set_uses u f) (mkLru (l_opts s) (entries s) u (l_closed s)).
Proof. intros [R1 R2 R3 R4 R5 R6]. by constructor. Qed.

Lemma refines_find_None f s k : refines f s → find k (entries s) = None → hash f !! k = None.
Proof.
  intros R Hf. destruct (hash f !! k) as [n|] eqn:E; [|done].
  destruct (refines_hash_Some f s R k n E) as (h & _ & Hh). congruence.
Qed.

Lemma find_without_None p q l : find p l = None → find p (without q l) = None.
Proof.
  unfold find, without. rewrite <- !not_elem_of_list_to_map, !list_elem_of_fmap.
  intros H (e & He & Hin). apply H. exists e. split; [done|]. apply list_elem_of_filter in Hin. apply Hin.
Qed.

Lemma refines_last f s : refines f s →
  match last (c_list f), last (entries s) with
  | Some n, Some e => hash f !! e.1 = Some n
  | None, None => True
  | _, _ => False
  end.
Proof.
  intros R. pose proof (ref_entries _ _ R) as HF. rewrite !last_lookup, (Forall2_length _ _ _ HF).
  destruct (c_list f !! _) as [n|] eqn:E1.
  - destruct (Forall2_lookup_l _ _ _ _ _ HF E1) as (e & -> & He). apply He.
  - destruct (entries s !! _) as [e|] eqn:E2; [|done].
    destruct (Forall2_lookup_r _ _ _ _ _ HF E2) as (n & Hn & _). congruence.
Qed.

(** Adding a node for a path that has none. *)
Lemma push_refines p h f s : refines f s → find p (entries s) = None →
  refines (mkCache (opts f) (newNode f :: c_list f) (uses f) (<[p := newNode f]> (hash f))
             (<[newNode f := mkFile p h]> (heap f)) (closed f))
    (mkLru (l_opts s) ((p, h) :: entries s) (l_uses s) (l_closed s)).
Proof.
  intros R Hp. apply (refines_find_None f s p R) in Hp. pose proof (ref_entries _ _ R) as HF.
  assert (Hnew : heap f !! newNode f = None).
  { apply not_elem_of_dom. unfold newNode. exact (is_fresh (dom (heap f) : gset node)). }
  assert (Hne : ∀ n e, holds f n e → n ≠ newNode f ∧ e.1 ≠ p).
  { intros n e [H1 H2]. split; intros Heq; congruence. }
  destruct R as [R1 R2 R3 R4 R5 R6]. constructor; simpl; [done..| | |].
  - apply NoDup_cons. split; [|done]. intros Hin. apply list_elem_of_lookup in Hin as [i Hi].
    destruct (Forall2_lookup_l _ _ _ _ _ HF Hi) as (e & _ & He). naive_solver.
  - constructor; [split; simpl; by rewrite lookup_insert_eq|].
    eapply Forall2_holds_mono; [exact HF|]. intros n e _ He. destruct (Hne n e He).
    destruct He. split; simpl; by rewrite lookup_insert_ne.
  - intros q n Hq. destruct (decide (q = p)) as [->|Hqp].
    + rewrite lookup_insert_eq in Hq. injection Hq as <-. split; [apply list_elem_of_here|].
      exists h. by rewrite lookup_insert_eq.
    + rewrite lookup_insert_ne in Hq by done. destruct (R6 _ _ Hq) as [Hin [h' Hh']].
      split; [by apply list_elem_of_further|]. exists h'.
      rewrite lookup_insert_ne; [done|]. intros <-. congruence.
Qed.

(** Replacing the file of a path that has a node. *)
Lemma replace_refines p h n f s : refines f s → hash f !! p = Some n →
  refines (mkCache (opts f) (list_MoveToFront n (c_list f)) (uses f) (hash f)
             (<[n := mkFile p h]> (heap f)) (closed f ++ [default 0%nat (find p (entries s))]))
    (mkLru (l_opts s) ((p, h) :: without p (entries s)) (l_uses s)
       (l_closed s ++ [default 0%nat (find p (entries s))])).
Proof.
  intros R Hp. pose proof (refines_without f s R p n Hp) as HF.
  destruct R as [R1 R2 R3 R4 R5 R6]. destruct (R6 _ _ Hp) as [Hin _].
  constructor; simpl; rewrite ?list_MoveToFront_in by done; [congruence..| | |].
  - by apply front_nodup.
  - constructor; [split; simpl; [by rewrite lookup_insert_eq|done]|].
    eapply Forall2_holds_mono; [exact HF|]. intros n' e Hin' [H1 H2].
    apply elem_of_list_Remove in Hin' as [Hne _]. split; simpl; [by rewrite lookup_insert_ne|done].
  - intros q n' Hq. destruct (R6 _ _ Hq) as [Hin' [h' Hh']].
    destruct (decide (n' = n)) as [->|Hne].
    + split; [apply list_elem_of_here|]. exists h. rewrite lookup_insert_eq.
      destruct (R6 _ _ Hp) as [_ [h2 Hh2]]. congruence.
    + split; [apply list_elem_of_further; by apply elem_of_list_Remove|].
      exists h'. by rewrite lookup_insert_ne.
Qed.

(** The eviction that [Put] does before it adds a path. *)
Lemma evict_refines f s (full : bool) : refines f s →
  ∃ f', (if full then deleteUnsafe (last (c_list f)) f else Ok f) = Ok f' ∧
    refines f' (match last (entries s) with
                | Some (q, _) => if full then lruDelete1 s q else s
                | None => s
                end).
Proof.
  intros R. pose proof (refines_last f s R) as Hl. destruct full.
  - destruct (last (c_list f)) as [n|], (last (entries s)) as [[q h]|]; try done; [|by eauto].
    simpl in Hl. rewrite <- Hl. by apply deleteUnsafe_refines.
  - exists f. split; [done|]. by destruct (last (entries s)) as [[q h]|].
Qed.

Lemma evict_find_None p s (full : bool) : find p (entries s) = None →
  find p (entries (match last (entries s) with
                   | Some (q, _) => if full then lruDelete1 s q else s
                   | None => s
                   end)) = None.
Proof.
  intros Hp. destruct (last (entries s)) as [[q h]|]; [|done]. destruct full; [|done].
  unfold lruDelete1. destruct (find q (entries s)); [|done]. by apply find_without_None.
Qed.

Lemma cache_Put_refines p h f s : refines f s →
  ∃ f', cache_Put p (inl h) f = Ok (inl h, f') ∧ refines f' (lruPut p h s).
Proof.
  intros R. unfold cache_Put, lruPut.
  rewrite (ref_opts _ _ R), <- (Forall2_length _ _ _ (ref_entries _ _ R)).
  set (full := value (max (opts f)) <=? Z.of_nat (length (c_list f))).
  destruct (hash f !! p) as [n|] eqn:E.
  - destruct (refines_hash_Some f s R p n E) as (old & Hh & Hf). unfold object. rewrite Hh. simpl.
    eexists. split; [done|]. pose proof (replace_refines p h n f s R E) as R'. rewrite Hf in R' |- *.
    pose proof (ref_uses _ _ R) as Hu. apply (set_uses_refines (hit p (uses f))) in R'. simpl in R'.
    rewrite (ref_opts _ _ R) in R'. rewrite Hu. exact R'.
  - pose proof (refines_hash_None f s R p E) as Hf. rewrite Hf.
    destruct (evict_refines f s full R) as (f1 & -> & R1). simpl. eexists. split; [done|].
    pose proof (push_refines p h f1 _ R1 (evict_find_None p s full Hf)) as R'.
    apply (set_uses_refines (hit p (uses f1))) in R'. rewrite (ref_uses _ _ R1). exact R'.
Qed.

Lemma tick_refines t order f s : refines f s →
  ∃ f', tick t order f = Ok f' ∧ refines f' (lruTick t order s).
Proof.
  intros R. unfold tick, lruTick. rewrite (ref_uses _ _ R).
  destruct (sweep t order (uses f)) as [junk u]. apply cache_Delete_refines.
  by apply set_uses_refines.
Qed.

Lemma objects_refines f s : refines f s →
  go_concat_map (λ n, v ← object n f; Ok [v]) (c_list f) =
  Ok ((λ e, mkFile e.1 e.2) <$> entries s).
Proof.
  intros R. induction (ref_entries _ _ R) as [|n e l k [H1 H2] _ IH]; [done|].
  simpl. assert (object n f = Ok (mkFile e.1 e.2)) as -> by (unfold object; by rewrite H1).
  simpl. by rewrite IH.
Qed.

Lemma cache_Close_refines err f s : refines f s →
  ∃ r f', cache_Close err f = Ok (r, f') ∧ fst (lruStep (OpClose err) s) = OutClose r ∧
    refines f' (snd (lruStep (OpClose err) s)).
Proof.
  intros R. unfold cache_Close. rewrite (objects_refines f s R). simpl. do 2 eexists.
  rewrite omap_fmap. split; [done|]. split; [done|].
  rewrite <- list_fmap_compose. destruct R as [R1 R2 R3 R4 R5 R6].
  constructor; simpl; [done|done| |constructor|constructor|by intros p n; rewrite lookup_empty].
  by rewrite R3.
Qed.

Lemma cacheStep_refines o f s : refines f s →
  ∃ f', cacheStep o f = Ok (fst (lruStep o s), f') ∧ refines f' (snd (lruStep o s)).
Proof.
  intros R. destruct o as [k|p [h|err]|ks|e order|order|e order|err]; cbn [cacheStep lruStep].
  - destruct (cache_Get_refines k f s R) as (f' & -> & R'). simpl.
    destruct (lruGet k s) as [r s']. simpl in *. eauto.
  - destruct (cache_Put_refines p h f s R) as (f' & -> & R'). simpl. eauto.
  - eauto.
  - destruct (cache_Delete_refines ks f s R) as (f' & -> & R'). simpl. eauto.
  - eexists. split; [done|]. rewrite (ref_opts _ _ R), <- (ref_uses _ _ R).
    rewrite <- (ref_opts _ _ R) at 2. by apply set_uses_refines.
  - unfold inactiveTick. rewrite (ref_opts _ _ R).
    destruct (tick_refines (λ _ v, v <? value (min (opts f))) order f s R) as (f' & -> & R'). simpl. eauto.
  - unfold validTick. destruct (tick_refines (λ k _, negb (e k)) order f s R) as (f' & -> & R'). simpl. eauto.
  - destruct (cache_Close_refines err f s R) as (r & f' & -> & Hr & R'). simpl in *. rewrite Hr. eauto.
Qed.

Lemma cacheRun_refines ops f s : refines f s →
  ∃ f', cacheRun ops f = Ok (fst (lruRun ops s), f') ∧ refines f' (snd (lruRun ops s)).
Proof.
  revert f s. induction ops as [|o ops IH]; intros f s R; simpl; [eauto|].
  destruct (cacheStep_refines o f s R) as (f1 & -> & R1). simpl.
  destruct (lruStep o s) as [r s1]. simpl in *. destruct (IH f1 s1 R1) as (f2 & -> & R2). simpl.
  destruct (lruRun ops s1) as [rs s2]. simpl in *. eauto.
Qed.

Lemma cache_init_refines o f : cache_init o = Some f → refines f (mkLru o [] ∅ []).
Proof.
  unfold cache_init. case_match; [|done]. intros [= <-].
  constructor; simpl; try done. constructor.
Qed.

(** ** Invariants, on the specification *)

Lemma find_split k h l : NoDup l.*1 → find k l = Some h → l ≡ₚ (k, h) :: without k l.
Proof.
  unfold find, without. intros HN Hf. apply elem_of_list_to_map in Hf; [|done].
  induction l as [|[k' h'] l IH]; [by apply elem_of_nil in Hf|].
  rewrite fmap_cons in HN. apply NoDup_cons in HN as [Hk HN]. rewrite filter_cons. simpl in *.
  apply elem_of_cons in Hf as [[= -> ->]|Hf].
  - rewrite decide_False by auto. apply perm_skip. clear IH.
    induction l as [|e l IHl]; [done|]. rewrite fmap_cons, elem_of_cons in Hk.
    rewrite fmap_cons in HN. apply NoDup_cons in HN as [_ HN].
    rewrite filter_cons, decide_True by (intros Heq; apply Hk; left; congruence). apply perm_skip. apply IHl; tauto.
  - rewrite decide_True.
    + rewrite (IH HN Hf) at 1. apply perm_swap.
    + intros ->. apply Hk. rewrite list_elem_of_fmap. by exists (k, h).
Qed.

(** The files that a run of calls has opened. *)
Definition openedBy (ops : list cacheOp) : list handle :=
  omap (λ o, match o with OpPut _ (inl h) => Some h | _ => None end) ops.

Definition accounted (opened : list handle) (s : lru) : Prop :=
  opened ≡ₚ (entries s).*2 ++ l_closed s.

Lemma without_nodup k l : NoDup l.*1 → NoDup (without k l).*1.
Proof.
  unfold without. induction l as [|e l IH]; [done|]. rewrite fmap_cons. intros [He HN]%NoDup_cons.
  rewrite filter_cons. case_decide; [|auto]. rewrite fmap_cons. apply NoDup_cons. split; [|auto].
  rewrite !list_elem_of_fmap in *. intros (y & Hy & Hin). apply He. exists y. split; [done|].
  apply list_elem_of_filter in Hin. apply Hin.
Qed.

Lemma lruDelete1_spec s k opened : NoDup (entries s).*1 → accounted opened s →
  NoDup (entries (lruDelete1 s k)).*1 ∧ accounted opened (lruDelete1 s k) ∧
  (length (entries (lruDelete1 s k)) ≤ length (entries s))%nat.
Proof.
  intros HN HA. unfold lruDelete1. destruct (find k (entries s)) as [h|] eqn:E; [|done]. simpl.
  split; [by apply without_nodup|]. pose proof (find_split k h _ HN E) as HP. split.
  - unfold accounted in *. rewrite HA, HP at 1. simpl. solve_Permutation.
  - rewrite HP at 2. simpl. lia.
Qed.

Definition used (u : gmap string Z) : Prop := map_Forall (λ _ v, 1 ≤ v) u.

(** What every run keeps: one entry per path, every file that was opened is
    either an entry or closed, the bound on the entries, counts from one. *)
Record lruInv (opened : list handle) (s : lru) : Prop := {
  inv_nodup : NoDup (entries s).*1;
  inv_accounted : accounted opened s;
  inv_bound : Z.of_nat (length (entries s)) ≤ Z.max 1 (value (max (l_opts s)));
  inv_used : used (l_uses s);
}.

Lemma hit_used p u : used u → used (hit p u).
Proof.
  intros H. unfold hit. destruct (u !! p) as [v|] eqn:E; (apply map_Forall_insert_2; [|done]).
  - pose proof (H p v E). simpl in *. lia.
  - lia.
Qed.

Lemma sweep_used t order u : used u → used (snd (sweep t order u)).
Proof.
  revert u. induction order as [|k ks IH]; intros u H; simpl; [done|].
  destruct (u !! k); [|auto]. destruct (t k z); [|auto].
  specialize (IH (delete k u) (map_Forall_delete _ _ _ H)).
  destruct (sweep t ks (delete k u)). exact IH.
Qed.

Lemma lruDelete1_opts s k : l_opts (lruDelete1 s k) = l_opts s.
Proof. unfold lruDelete1. by case_match. Qed.

Lemma lruDelete1_used s k : used (l_uses s) → used (l_uses (lruDelete1 s k)).
Proof. intros H. unfold lruDelete1. case_match; [by apply map_Forall_delete|done]. Qed.

Lemma lruDelete1_inv opened s k : lruInv opened s → lruInv opened (lruDelete1 s k).
Proof.
  intros [H1 H2 H3 H4]. destruct (lruDelete1_spec s k opened H1 H2) as (? & ? & ?).
  constructor; [done..| |by apply lruDelete1_used]. rewrite lruDelete1_opts. lia.
Qed.

Lemma lruDelete_inv opened ks s : lruInv opened s → lruInv opened (lruDelete ks s).
Proof.
  revert s. induction ks as [|k ks IH]; intros s H; simpl; [done|]. apply IH. by apply lruDelete1_inv.
Qed.

Lemma lruTick_inv opened t order s : lruInv opened s → lruInv opened (lruTick t order s).
Proof.
  intros [H1 H2 H3 H4]. unfold lruTick. pose proof (sweep_used t order _ H4) as Hu.
  destruct (sweep t order (l_uses s)) as [junk u]. apply lruDelete_inv. by constructor.
Qed.

Lemma find_notin k l : find k l = None → k ∉ l.*1.
Proof. apply not_elem_of_list_to_map_2. Qed.

Lemma without_notin k l : k ∉ (without k l).*1.
Proof.
  unfold without. rewrite list_elem_of_fmap. intros (e & -> & Hin). apply list_elem_of_filter in Hin. naive_solver.
Qed.

Lemma last_find q h l : NoDup l.*1 → last l = Some (q, h) → find q l = Some h.
Proof.
  intros HN Hl. apply elem_of_list_to_map; [done|]. rewrite last_lookup in Hl.
  by eapply list_elem_of_lookup_2.
Qed.

(** Making room for a path that is not there. *)
Lemma evict_inv opened s p : lruInv opened s → find p (entries s) = None →
  let full := value (max (l_opts s)) <=? Z.of_nat (length (entries s)) in
  let s' := match last (entries s) with
            | Some (q, _) => if full then lruDelete1 s q else s
            | None => s
            end in
  lruInv opened s' ∧ l_opts s' = l_opts s ∧ (p ∉ (entries s').*1) ∧
  Z.of_nat (length (entries s')) < Z.max 1 (value (max (l_opts s))).
Proof.
  intros I Hp full s'. split; [|split; [|split]].
  - unfold s'. repeat case_match; [by apply lruDelete1_inv|done..].
  - unfold s'. repeat case_match; [apply lruDelete1_opts|done..].
  - apply find_notin. by apply evict_find_None.
  - unfold s'. destruct (last (entries s)) as [[q h]|] eqn:El; [|apply last_None in El; rewrite El; simpl; lia].
    destruct full eqn:Ef; unfold full in Ef; reflect_bools; [|lia].
    pose proof (last_find q h _ (inv_nodup _ _ I) El) as Hq. unfold lruDelete1. rewrite Hq. simpl.
    pose proof (find_split q h _ (inv_nodup _ _ I) Hq) as HP. apply Permutation_length in HP.
    simpl in HP. pose proof (inv_bound _ _ I). lia.
Qed.

Lemma lruPut_inv opened p h s : lruInv opened s → lruInv (h :: opened) (lruPut p h s).
Proof.
  intros I. unfold lruPut. destruct (find p (entries s)) as [old|] eqn:E.
  - destruct I as [H1 H2 H3 H4]. pose proof (find_split p old _ H1 E) as HP.
    constructor; simpl; [..|by apply hit_used].
    + apply NoDup_cons. split; [apply without_notin|by apply without_nodup].
    + unfold accounted in *. simpl. rewrite H2, HP at 1. simpl. solve_Permutation.
    + apply Permutation_length in HP. simpl in HP. lia.
  - pose proof (evict_inv opened s p I E) as (I' & Ho & Hp & Hl).
    set (s' := match last (entries s) with Some _ => _ | None => _ end) in *.
    destruct I' as [H1 H2 H3 H4]. constructor; simpl; [..|by apply hit_used].
    + by apply NoDup_cons.
    + unfold accounted in *. simpl. by rewrite H2.
    + rewrite Ho. lia.
Qed.

Lemma lruStep_inv opened o s : lruInv opened s →
  lruInv (openedBy [o] ++ opened) (snd (lruStep o s)).
Proof.
  intros I. destruct o as [k|p [h|err]|ks|e order|order|e order|err]; simpl.
  - destruct I as [H1 H2 H3 H4]. unfold lruGet. destruct (find k (entries s)) as [h|] eqn:E; [|done].
    pose proof (find_split k h _ H1 E) as HP. constructor; simpl; [..|by apply hit_used].
    + apply NoDup_cons. split; [apply without_notin|by apply without_nodup].
    + unfold accounted in *. simpl. rewrite H2, HP at 1. done.
    + apply Permutation_length in HP. simpl in HP. lia.
  - by apply lruPut_inv.
  - done.
  - by apply lruDelete_inv.
  - destruct I. constructor; try done. by apply sweep_used.
  - by apply lruTick_inv.
  - by apply lruTick_inv.
  - destruct I as [H1 H2 H3 H4]. constructor; simpl; [constructor| |lia|done].
    unfold accounted in *. simpl. rewrite H2. solve_Permutation.
Qed.

Lemma openedBy_cons o ops : openedBy (o :: ops) = openedBy [o] ++ openedBy ops.
Proof. unfold openedBy. cbn. by case_match. Qed.

Lemma lruRun_inv ops opened s : lruInv opened s →
  ∃ opened', lruInv opened' (snd (lruRun ops s)) ∧ opened' ≡ₚ openedBy ops ++ opened.
Proof.
  revert opened s. induction ops as [|o ops IH]; intros opened s I; [by exists opened|].
  rewrite openedBy_cons. apply (lruStep_inv _ o) in I. simpl. destruct (lruStep o s) as [r s1].
  destruct (IH _ _ I) as (opened' & I' & HP). simpl in *. destruct (lruRun ops s1) as [rs s2].
  exists opened'. split; [done|]. rewrite HP. solve_Permutation.
Qed.

Lemma lruRun_opts ops s : l_opts (snd (lruRun ops s)) = l_opts s.
Proof.
  assert (Hd : ∀ ks s, l_opts (lruDelete ks s) = l_opts s).
  { intros ks. induction ks as [|k ks IH]; intros s0; simpl; [done|]. by rewrite IH, lruDelete1_opts. }
  revert s. induction ops as [|o ops IH]; intros s; [done|]. simpl.
  destruct (lruStep o s) as [r s1] eqn:E. specialize (IH s1). destruct (lruRun ops s1). simpl in *.
  rewrite IH. clear IH. destruct o as [k|p [h|err]|ks|e order|order|e order|err]; simpl in E; simplify_eq; try done.
  - unfold lruGet in E. repeat case_match; by simplify_eq.
  - unfold lruPut. repeat case_match; simpl; by rewrite ?lruDelete1_opts.
  - unfold lruTick. case_match. by rewrite Hd.
  - unfold lruTick. case_match. by rewrite Hd.
Qed.

Lemma start_inv o : lruInv [] (mkLru o [] ∅ []).
Proof. constructor; simpl; [apply NoDup_nil_2|unfold accounted; reflexivity|lia|by apply map_Forall_empty]. Qed.

(** The files that the cache holds. *)
Definition liveFiles (f : readWriterCloserCache) : list handle :=
  omap (λ n, file <$> heap f !! n) (c_list f).

Lemma liveFiles_refines f s : refines f s → liveFiles f = (entries s).*2.
Proof.
  intros R. unfold liveFiles. induction (ref_entries _ _ R) as [|n e l k [H1 _] _ IH]; [done|].
  cbn. rewrite H1. cbn. f_equal. exact IH.
Qed.

(** The state after a run, with what is known of it. *)
Lemma cacheRun_spec o f0 ops : cache_init o = Some f0 →
  ∃ f opened, cacheRun ops f0 = Ok (fst (lruRun ops (mkLru o [] ∅ [])), f) ∧
    refines f (snd (lruRun ops (mkLru o [] ∅ []))) ∧ opts f = o ∧
    lruInv opened (snd (lruRun ops (mkLru o [] ∅ []))) ∧ opened ≡ₚ openedBy ops.
Proof.
  intros Hi. destruct (cacheRun_refines ops f0 _ (cache_init_refines o f0 Hi)) as (f & Hf & R).
  destruct (lruRun_inv ops [] _ (start_inv o)) as (opened & I & HP).
  exists f, opened. split; [done|]. split; [done|]. split.
  - rewrite <- (ref_opts _ _ R). by rewrite lruRun_opts.
  - split; [done|]. by rewrite app_nil_r in HP.
Qed.

(** ** Theorems *)

(** C7: the cache implements a least-recently-used list. Whatever sequence of
    calls and timer ticks, in whatever order the maps are walked, the code
    never panics, gives its callers what the specification gives, and ends in a
    state whose list, from front to back, is the list of the specification. *)
Theorem cache_refines_lru o f0 ops :
  cache_init o = Some f0 →
  ∃ f, cacheRun ops f0 = Ok (fst (lruRun ops (mkLru o [] ∅ [])), f) ∧
    refines f (snd (lruRun ops (mkLru o [] ∅ []))).
Proof. intros Hi. destruct (cacheRun_spec o f0 ops Hi) as (f & opened & ? & ? & _). eauto. Qed.

(** C16: files are neither leaked nor closed twice. After any calls the files
    that were opened are those the cache holds and those it has closed; if each
    was a new handle then none was closed twice, and [Get] gives only files
    that are open. *)
Theorem cache_files_accounted o f0 ops :
  cache_init o = Some f0 → NoDup (openedBy ops) →
  ∃ outs f, cacheRun ops f0 = Ok (outs, f) ∧
    openedBy ops ≡ₚ liveFiles f ++ closed f ∧ NoDup (closed f) ∧
    ∀ k h f', cache_Get k f = Ok (Some h, f') → h ∈ liveFiles f ∧ h ∉ closed f.
Proof.
  intros Hi HN. destruct (cacheRun_spec o f0 ops Hi) as (f & opened & Hf & R & _ & I & HP).
  pose proof (inv_accounted _ _ I) as HA. unfold accounted in HA.
  rewrite HP, <- (liveFiles_refines f _ R), (ref_closed _ _ R) in HA.
  rewrite HA in HN. apply NoDup_app in HN as (_ & Hd & Hc).
  eexists _, f. split; [exact Hf|]. split; [done|]. split; [done|]. intros k h f' Hg.
  assert (h ∈ liveFiles f); [|auto]. destruct (cache_Get_refines k f _ R) as (f2 & Hg2 & _).
  rewrite Hg in Hg2. injection Hg2 as Hh _. rewrite (liveFiles_refines f _ R).
  unfold lruGet in Hh. destruct (find k _) as [h'|] eqn:E; [|done]. injection Hh as ->.
  unfold find in E. apply elem_of_list_to_map in E; [|apply I]. apply list_elem_of_fmap. by exists (k, h').
Qed.

(** The cache never holds more files than the option allows (one, when it
    allows none), and with a minimum of one use, as in the default options, the
    timer for inactive files never closes any: counts start at one and are
    never lowered. *)
Theorem cache_bounded o f0 ops order :
  cache_init o = Some f0 →
  ∃ outs f, cacheRun ops f0 = Ok (outs, f) ∧
    Z.of_nat (length (c_list f)) ≤ Z.max 1 (value (max o)) ∧
    (value (min o) ≤ 1 → inactiveTick order f = Ok f).
Proof.
  intros Hi. destruct (cacheRun_spec o f0 ops Hi) as (f & opened & Hf & R & Ho & I & HP).
  eexists _, f. split; [exact Hf|]. split.
  - rewrite (Forall2_length _ _ _ (ref_entries _ _ R)). pose proof (inv_bound _ _ I) as Hb.
    by rewrite (ref_opts _ _ R), Ho in Hb.
  - intros Hm. unfold inactiveTick, tick. pose proof (inv_used _ _ I) as Hu.
    rewrite (ref_uses _ _ R) in Hu. rewrite Ho.
    assert (sweep (λ _ v, v <? value (min o)) order (uses f) = ([], uses f)) as ->.
    { induction order as [|k ks IH]; simpl; [done|]. destruct (uses f !! k) as [v|] eqn:E; [|done].
      pose proof (Hu k v E). simpl in *. destruct (v <? value (min o)) eqn:Ev; reflect_bools; [lia|done]. }
    simpl. by destruct f.
Qed.

(** A cache for two files in which a third path evicts the least recent. *)
Definition sampleOption : readWriterCloserCacheOption :=
  mkCacheOption (mkValue true true) (mkValue true 2) (mkValue true second) (mkValue true second) (mkValue true 1).
Definition sampleCache : readWriterCloserCache := mkCache sampleOption [] ∅ ∅ ∅ [].
Definition sampleOps : list cacheOp :=
  [OpPut "a.log" (inl 1%nat); OpPut "b.log" (inl 2%nat); OpGet "a.log"; OpPut "c.log" (inl 3%nat); OpGet "b.log"].

Lemma cache_refines_lru_witness :
  fst (lruRun sampleOps (mkLru sampleOption [] ∅ [])) =
    [OutPut (inl 1%nat); OutPut (inl 2%nat); OutFile (Some 1%nat); OutPut (inl 3%nat); OutFile None] ∧
  ∃ f, cacheRun sampleOps sampleCache = Ok (fst (lruRun sampleOps (mkLru sampleOption [] ∅ [])), f) ∧
    refines f (snd (lruRun sampleOps (mkLru sampleOption [] ∅ []))).
Proof.
  split; [vm_compute; reflexivity|]. apply (cache_refines_lru sampleOption sampleCache sampleOps). reflexivity.
Defined.

Lemma cache_files_accounted_witness :
  ∃ outs f, cacheRun sampleOps sampleCache = Ok (outs, f) ∧
    openedBy sampleOps ≡ₚ liveFiles f ++ closed f ∧ NoDup (closed f) ∧
    ∀ k h f', cache_Get k f = Ok (Some h, f') → h ∈ liveFiles f ∧ h ∉ closed f.
Proof.
  apply (cache_files_accounted sampleOption sampleCache sampleOps); [reflexivity|].
  apply (bool_decide_unpack (NoDup (openedBy sampleOps))). vm_compute. exact I.
Defined.

Lemma cache_bounded_witness :
  ∃ outs f, cacheRun sampleOps sampleCache = Ok (outs, f) ∧
    Z.of_nat (length (c_list f)) ≤ Z.max 1 (value (max sampleOption)) ∧
    (value (min sampleOption) ≤ 1 → inactiveTick ["a.log"] f = Ok f).
Proof. apply (cache_bounded sampleOption sampleCache sampleOps). reflexivity. Defined.
