(* ===== verification/GoNet.v ===== *)
(** * Addresses: the parts of Go's package net that the code uses

    [net.ParseIP] with its two forms, [IP.String] and [net.SplitHostPort], of
    the Go releases the module asks for (1.12 and later, before leading zeros
    were refused).  An IP address is its sixteen bytes; [ParseIP] gives every
    address in that form, so that [IP.Equal] is the equality of the bytes. *)

From S2P Require Import Prelude GoStrings.

#[local] Open Scope Z_scope.

Definition IP : Type := list Z.

(** ** Numbers at the start of a text *)

Definition big : Z := 0xFFFFFF.

Definition decDigit (a : Ascii.ascii) : option Z :=
  let c := byteZ a in if inRange c 48 57 then Some (c - 48) else None.
Definition hexDigitVal (a : Ascii.ascii) : option Z :=
  let c := byteZ a in
  if inRange c 48 57 then Some (c - 48)
  else if inRange c 97 102 then Some (c - 97 + 10)
  else if inRange c 65 70 then Some (c - 65 + 10)
  else None.

(** [dtoi] and [xtoi]: the number and the rest, [None] when there is no digit
    or the number is too large. *)
Fixpoint toi (digit : Ascii.ascii → option Z) (base : Z) (s : string) (n : Z) (some : bool)
    : option (Z * string) :=
  match s with
  | "" => if some then Some (n, s) else None
  | String a s' =>
    match digit a with
    | Some d =>
      let n := n * base + d in
      if big <=? n then None else toi digit base s' n true
    | None => if some then Some (n, s) else None
    end
  end.
Definition dtoi (s : string) : option (Z * string) := toi decDigit 10 s 0 false.
Definition xtoi (s : string) : option (Z * string) := toi hexDigitVal 16 s 0 false.

(** ** Parsing *)

(** The octets of [parseIPv4] from number [i] on. *)
Fixpoint octets (i : nat) (first : bool) (s : string) : option (list Z * string) :=
  match i with
  | O => Some ([], s)
  | S i' =>
    s ← (if first then Some s
         else match s with
              | String a s' => if byteZ a =? 46 then Some s' else None
              | "" => None
              end);
    '(n, s) ← dtoi s;
    if 0xFF <? n then None
    else '(ns, s) ← octets i' false s; Some (n :: ns, s)
  end.

Definition v4InV6Prefix : list Z := replicate 10 0 ++ [0xFF; 0xFF].

Definition parseIPv4 (s : string) : option IP :=
  match octets 4 true s with
  | Some (ns, "") => Some (v4InV6Prefix ++ ns)
  | _ => None
  end.

(** The loop of [parseIPv6]: the bytes read so far, the place of the ellipsis
    and the rest of the text.  At most eight turns. *)
Fixpoint groups (turns : nat) (s : string) (acc : list Z) (ellipsis : option nat)
    : option (list Z * option nat * string) :=
  match turns with
  | O => Some (acc, ellipsis, s)
  | S turns' =>
    '(n, rest) ← xtoi s;
    if 0xFFFF <? n then None
    else if startsWithByte rest 46 then
      if bool_decide (ellipsis = None) && negb (length acc =? 12)%nat then None
      else if (16 <? length acc + 4)%nat then None
      else ip4 ← parseIPv4 s; Some (acc ++ drop 12 ip4, ellipsis, "")
    else
      let acc := acc ++ [Z.shiftr n 8; Z.land n 0xFF] in
      match rest with
      | "" => Some (acc, ellipsis, "")
      | String a "" => None
      | String a ((String b s') as s1) =>
        if negb (byteZ a =? 58) then None
        else if byteZ b =? 58 then
          match ellipsis with
          | Some _ => None
          | None =>
            match s' with
            | "" => Some (acc, Some (length acc), "")
            | _ => groups turns' s' acc (Some (length acc))
            end
          end
        else groups turns' s1 acc ellipsis
      end
  end.

Definition finishIPv6 (acc : list Z) (ellipsis : option nat) : option IP :=
  if (length acc <? 16)%nat then
    e ← ellipsis; Some (take e acc ++ replicate (16 - length acc) 0 ++ drop e acc)
  else match ellipsis with Some _ => None | None => Some acc end.

Definition parseIPv6 (s : string) : option IP :=
  let '(s, ellipsis, only) :=
    if HasPrefix s "::" then (skipString 2 s, Some 0%nat, (skipString 2 s =? "")%string)
    else (s, None, false) in
  if only then Some (replicate 16 0)
  else
    '(acc, ellipsis, s) ← groups 8 s [] ellipsis;
    if (s =? "")%string then finishIPv6 acc ellipsis else None.

(** [net.ParseIP]: the first dot or colon decides the form. *)
Fixpoint firstSep (s : string) : option Z :=
  match s with
  | "" => None
  | String a s' =>
    if (byteZ a =? 46) || (byteZ a =? 58) then Some (byteZ a) else firstSep s'
  end.
Definition ParseIP (s : string) : option IP :=
  match firstSep s with
  | Some c => if c =? 46 then parseIPv4 s else parseIPv6 s
  | None => None
  end.

(** ** Printing *)

(** [IP.To4]: the last four bytes of an address in the IPv4 range. *)
Definition To4 (ip : IP) : option (list Z) :=
  if bool_decide (take 12 ip = v4InV6Prefix) then Some (drop 12 ip) else None.

(** [appendHex]: no leading zeros. *)
Fixpoint hexNoZero (n : nat) (v : Z) : string :=
  match n with
  | O => ""
  | S n' =>
    if (v <? 16) then String (hexDigit v) ""
    else hexNoZero n' (Z.shiftr v 4) +:+ String (hexDigit (Z.land v 15)) ""
  end.

(** The sixteen-bit groups of an address. *)
Fixpoint groupsOf (ip : list Z) : list Z :=
  match ip with
  | a :: b :: ip' => (Z.lor (Z.shiftl a 8) b) :: groupsOf ip'
  | _ => []
  end.

Fixpoint zeroRun (gs : list Z) : nat :=
  match gs with
  | g :: gs' => if g =? 0 then S (zeroRun gs') else 0
  | [] => 0
  end.

(** The longest run of zero groups, the first one of that length, searched as
    the code does: after a run that is longer than the best so far the search
    goes on behind it. *)
Fixpoint longestRun (fuel : nat) (gs : list Z) (i e0 e1 : nat) : nat * nat :=
  match fuel with
  | O => (e0, e1)
  | S fuel' =>
    if (i <? length gs)%nat then
      let n := zeroRun (drop i gs) in
      if (e1 - e0 <? n)%nat then longestRun fuel' gs (i + n + 1) i (i + n)
      else longestRun fuel' gs (i + 1) e0 e1
    else (e0, e1)
  end.

Fixpoint joinColon (gs : list Z) : string :=
  match gs with
  | [] => ""
  | [g] => hexNoZero 4 g
  | g :: gs' => hexNoZero 4 g +:+ ":" +:+ joinColon gs'
  end.

(** [IP.String]. *)
Definition IP_String (ip : IP) : string :=
  match To4 ip with
  | Some v4 => Join (Itoa <$> v4) "."
  | None =>
    let gs := groupsOf ip in
    let '(e0, e1) := longestRun 9 gs 0 0 0 in
    if (e1 - e0 <=? 1)%nat then joinColon gs
    else joinColon (take e0 gs) +:+ "::" +:+ joinColon (drop e1 gs)
  end.

Definition IPv4zero : IP := v4InV6Prefix ++ [0; 0; 0; 0].

(** ** Host and port *)

(** The text before and behind the first occurrence of a byte. *)
Fixpoint cutFirst (c : Z) (s : string) : option (string * string) :=
  match s with
  | "" => None
  | String a s' =>
    if byteZ a =? c then Some ("", s')
    else '(l, r) ← cutFirst c s'; Some (String a l, r)
  end.
(** The same for the last occurrence. *)
Definition cutLast (c : Z) (s : string) : option (string * string) :=
  '(l, r) ← cutFirst c (stringRev s); Some (stringRev r, stringRev l).

(** [net.SplitHostPort]; [None] for each of its errors. *)
Definition SplitHostPort (hostport : string) : option (string * string) :=
  '(before, port) ← cutLast 58 hostport;
  if startsWithByte hostport 91 then
    '(l, r) ← cutFirst 93 hostport;
    (* the closing bracket stands just before the last colon *)
    if negb (String.length l + 1 =? String.length before)%nat then None
    else
      let host := tailString l in
      if hasByte 91 (tailString hostport) || hasByte 93 r then None else Some (host, port)
  else if hasByte 58 before then None
  else if hasByte 91 hostport || hasByte 93 hostport then None
  else Some (before, port).

(** ** Checks on examples *)

Example parse_v4 : ParseIP "192.168.010.1" = Some (v4InV6Prefix ++ [192; 168; 10; 1]).
Proof. vm_compute. reflexivity. Qed.
Example parse_v4_short : ParseIP "1.2.3" = None.
Proof. vm_compute. reflexivity. Qed.
Example parse_v6_mapped : ParseIP "::ffff:10.0.0.1" = ParseIP "10.0.0.1".
Proof. vm_compute. reflexivity. Qed.
Example print_v6 : IP_String <$> ParseIP "2001:db8:0:0:1:0:0:1" = Some "2001:db8::1:0:0:1".
Proof. vm_compute. reflexivity. Qed.
Example print_loopback : IP_String <$> ParseIP "0:0::1" = Some "::1".
Proof. vm_compute. reflexivity. Qed.
Example split_v6 : SplitHostPort "[::1]:80" = Some ("::1", "80").
Proof. vm_compute. reflexivity. Qed.
Example split_bare_v6 : SplitHostPort "::1" = None.
Proof. vm_compute. reflexivity. Qed.
