(* ===== verification/Template.v ===== *)
(** * Values with variables (src/values.go, stringTemplateValue)

    A directive argument may hold nginx variables.  [store] rewrites them into
    actions of a text/template; [Value] executes the template.  Of text/template
    the fragment that the rewriting produces is spelled out: text is copied, and
    [{{.name}}] writes the value of a key.  Actions that consist of another word
    and anything else between braces are a parameter ([TextTemplate]). *)

From S2P Require Import Prelude GoStrings.

#[local] Open Scope Z_scope.

(** ** Variables in a text *)

Definition isWord (a : Ascii.ascii) : bool :=
  let c := byteZ a in inRange c 48 57 || inRange c 65 90 || (c =? 95) || inRange c 97 122.
Definition isDigitByte (a : Ascii.ascii) : bool := inRange (byteZ a) 48 57.
Definition isVarStart (a : Ascii.ascii) : bool :=
  let c := byteZ a in inRange c 97 122 || (c =? 95) || inRange c 48 57.

Inductive piece := Lit (a : Ascii.ascii) | Var (name : string).

(** The matches of [variableRegexp] and the bytes between them: a dollar and as
    many word bytes as follow, the first of them no capital.  [cur] is the name
    read so far when a match is under way. *)
Fixpoint scanVars (s : string) (cur : option string) : list piece :=
  let outside a s' :=
    if (byteZ a =? 36) && match s' with String b _ => isVarStart b | "" => false end
    then scanVars s' (Some "") else Lit a :: scanVars s' None in
  match s with
  | "" => match cur with Some n => [Var n] | None => [] end
  | String a s' =>
    match cur with
    | Some n => if isWord a then scanVars s' (Some (n +:+ String a "")) else Var n :: outside a s'
    | None => outside a s'
    end
  end.

Definition IsVariableFunc (v : string) : bool :=
  bool_decide (v ∈ ["date_gmt"; "date_local"; "time_iso8601"; "time_local"]).

(** The key of a variable in the template's data. *)
Definition variableKey (name : string) : string :=
  match name with
  | String a _ => if isDigitByte a then "n_" +:+ name else name
  | "" => name
  end.

(** The function that [ReplaceAllFunc] applies to a match. *)
Definition rewriteVar (name : string) : string :=
  if IsVariableFunc name then "{{" +:+ name +:+ "}}" else "{{." +:+ variableKey name +:+ "}}".

Definition rewritePiece (p : piece) : string :=
  match p with Lit a => String a "" | Var n => rewriteVar n end.

Definition rewriteVars (v : string) : string :=
  foldr (λ p acc, rewritePiece p +:+ acc) "" (scanVars v None).

(** ** text/template *)

(** The data of an execution: the printed value of every key. *)
Abbreviation tplData := (gmap string string).

(** [parseWord w] is the action [{{w}}]: refused when [w] is no function that the
    template knows; else the text that it writes, or an error when it is executed.
    [parseRest] is a template that starts with any other action. *)
Class TextTemplate := {
  parseWord : string → option (option string);
  parseRest : string → option (tplData → option string);
}.

Inductive node := NText (a : Ascii.ascii) | NField (n : string) | NWord (out : option string)
  | NRest (f : tplData → option string).

Fixpoint takeWord (s : string) : string * string :=
  match s with
  | "" => ("", "")
  | String a s' => if isWord a then let '(w, r) := takeWord s' in (String a w, r) else ("", s)
  end.

(** A word that is an identifier, and the braces after it. *)
Definition wordAction (s : string) : option (string * string) :=
  let '(w, r) := takeWord s in
  match w with
  | "" => None
  | String a _ => if isDigitByte a then None else if HasPrefix r "}}" then Some (w, skipString 2 r) else None
  end.

Section Templates.
Context `{T : TextTemplate}.

(** The parse of a template; every step takes a byte or an action. *)
Fixpoint parseNodes (fuel : nat) (s : string) : option (list node) :=
  match fuel, s with
  | _, "" => Some []
  | O, _ => None
  | S n, String a s' =>
    if HasPrefix s "{{" then
      let body := skipString 2 s in
      match (if HasPrefix body "." then wordAction (skipString 1 body) else None), wordAction body with
      | Some (name, after), _ => rest ← parseNodes n after; Some (NField name :: rest)
      | None, Some (w, after) => out ← parseWord w; rest ← parseNodes n after; Some (NWord out :: rest)
      | None, None => f ← parseRest s; Some [NRest f]
      end
    else rest ← parseNodes n s'; Some (NText a :: rest)
  end.

Definition tplParse (s : string) : option (list node) := parseNodes (String.length s) s.

Definition execNode (d : tplData) (n : node) : option string :=
  match n with
  | NText a => Some (String a "")
  | NField k => Some (default "<no value>" (d !! k))
  | NWord out => out
  | NRest f => f d
  end.

Fixpoint tplExecute (t : list node) (d : tplData) : option string :=
  match t with
  | [] => Some ""
  | n :: t' => a ← execNode d n; b ← tplExecute t' d; Some (a +:+ b)
  end.

(** ** The value *)

Record stringTemplateValue := mkTemplateValue { tv_value : string; tv_set : bool; tv_tpl : option (list node) }.

(** [store]; [template.Must] panics when the parse fails.  Neither branch resets
    the field of the other. *)
Definition template_store (v : string) (s : stringTemplateValue) : res stringTemplateValue :=
  if negb (Contains v "$") then Ok (mkTemplateValue v true (tv_tpl s))
  else match tplParse (rewriteVars v) with
       | None => Panic ExplicitPanic
       | Some t => Ok (mkTemplateValue (tv_value s) true (Some t))
       end.

Definition template_Value (s : stringTemplateValue) (ctx : tplData) : res string :=
  match tv_tpl s with
  | None => Ok (tv_value s)
  | Some t => match tplExecute t ctx with Some out => Ok out | None => Panic ExplicitPanic end
  end.

Definition noTemplate : stringTemplateValue := mkTemplateValue "" false None.
End Templates.

(** ** What a text stands for *)

(** Every variable replaced by its value. *)
Definition expandPiece (d : tplData) (p : piece) : string :=
  match p with Lit a => String a "" | Var n => default "<no value>" (d !! variableKey n) end.
Definition expandPieces (d : tplData) (ps : list piece) : string := foldr (λ p acc, expandPiece d p +:+ acc) "" ps.
Definition expandVars (v : string) (d : tplData) : string := expandPieces d (scanVars v None).

Definition isFuncPiece (p : piece) : bool := match p with Var n => IsVariableFunc n | Lit _ => false end.
Definition usesFunc (v : string) : bool := existsb isFuncPiece (scanVars v None).

(** ** Lemmas *)

Fixpoint allWord (s : string) : bool :=
  match s with "" => true | String a s' => isWord a && allWord s' end.

Definition pieceOK (p : piece) : Prop :=
  match p with
  | Lit a => byteZ a ≠ 123
  | Var (String a n) => isVarStart a = true ∧ allWord (String a n) = true
  | Var "" => False
  end.

Lemma allWord_app s t : allWord (s +:+ t) = allWord s && allWord t.
Proof. induction s as [|a s IH]; [done|]. rewrite string_app_cons. simpl. by rewrite IH, andb_assoc. Qed.

Lemma isVarStart_isWord a : isVarStart a = true → isWord a = true.
Proof. unfold isVarStart, isWord. destruct (inRange _ 97 122), (_ =? 95), (inRange _ 48 57), (inRange _ 65 90); done. Qed.

(** A name under way is empty only right after the dollar. *)
Definition curOK (cur : option string) (s : string) : Prop :=
  match cur with
  | None => True
  | Some "" => match s with String b _ => isVarStart b = true | "" => False end
  | Some n => pieceOK (Var n)
  end.

Lemma scanVars_ok s cur : hasByte 123 s = false → curOK cur s → Forall pieceOK (scanVars s cur).
Proof.
  revert cur. induction s as [|a s IH]; intros cur Hb Hc.
  - destruct cur as [[|b n]|]; cbn [scanVars]; [done|by apply Forall_singleton|constructor].
  - simpl in Hb. apply orb_false_iff in Hb as [Ha Hb].
    assert (Hout : Forall pieceOK
      (if (byteZ a =? 36) && match s with String b _ => isVarStart b | "" => false end
       then scanVars s (Some "") else Lit a :: scanVars s None)).
    { destruct (_ && _) eqn:E; [|constructor; [simpl; lia|by apply IH]].
      apply IH; [done|]. apply andb_true_iff in E as [_ E]. by destruct s. }
    destruct cur as [n|]; cbn [scanVars]; [|done].
    destruct (isWord a) eqn:Ew.
    + apply IH; [done|]. destruct n as [|b n].
      * rewrite string_app_nil_l. simpl in Hc |- *. by rewrite Ew.
      * rewrite string_app_cons. simpl in *. destruct Hc as [Hs Hw].
        rewrite allWord_app. simpl. rewrite Ew. by destruct (isWord b), (allWord n).
    + constructor; [|done]. destruct n as [|b n]; [|done]. simpl in Hc. apply isVarStart_isWord in Hc. congruence.
Qed.

Lemma takeWord_app w r : allWord w = true → (match r with String a _ => isWord a | "" => false end) = false →
  takeWord (w +:+ r) = (w, r).
Proof.
  intros Hw Hr. induction w as [|a w IH].
  - rewrite string_app_nil_l. destruct r as [|b r]; [done|]. simpl. by rewrite Hr.
  - rewrite string_app_cons. simpl in *. apply andb_true_iff in Hw as [-> Hw]. by rewrite IH.
Qed.

Lemma wordAction_app w r : (∃ a w', w = String a w' ∧ isDigitByte a = false) → allWord w = true →
  wordAction (w +:+ "}}" +:+ r) = Some (w, r).
Proof.
  intros (a & w' & -> & Ha) Hw. unfold wordAction. rewrite takeWord_app by done.
  rewrite Ha, HasPrefix_app. change 2%nat with (String.length "}}"). by rewrite skipString_app.
Qed.

Lemma variableKey_word n : pieceOK (Var n) →
  (∃ a w, variableKey n = String a w ∧ isDigitByte a = false) ∧ allWord (variableKey n) = true.
Proof.
  destruct n as [|a n]; [done|]. intros [Hs Hw]. unfold variableKey.
  destruct (isDigitByte a) eqn:Ed; [|by eauto]. split; [by eexists _, _|]. by rewrite allWord_app.
Qed.

Section Rendering.
Context `{T : TextTemplate}.

Lemma parseNodes_field fuel n r : pieceOK (Var n) →
  parseNodes (S fuel) ("{{." +:+ variableKey n +:+ "}}" +:+ r) =
  (rest ← parseNodes fuel r; Some (NField (variableKey n) :: rest)).
Proof.
  intros Hn. destruct (variableKey_word n Hn) as [Ha Hw].
  pose proof (wordAction_app _ r Ha Hw) as HW. revert HW. generalize (variableKey n +:+ "}}" +:+ r) as x.
  intros x HW. change ("{{." +:+ x) with (String (zbyte 123) (String (zbyte 123) (String (zbyte 46) x))).
  simpl. replace (HasPrefix x "") with true by (by destruct x). by rewrite HW.
Qed.

Definition piecesText (ps : list piece) : string := foldr (λ p acc, rewritePiece p +:+ acc) "" ps.

Lemma parseNodes_byte fuel a r : byteZ a ≠ 123 →
  parseNodes (S fuel) (String a r) = (rest ← parseNodes fuel r; Some (NText a :: rest)).
Proof.
  intros Ha. cbn [parseNodes HasPrefix]. 
  match goal with |- context [byteZ ?c =? byteZ a] => change (byteZ c) with 123 end.
  by replace (123 =? byteZ a) with false by lia.
Qed.

Lemma rewriteVar_cons n : ∃ s, rewriteVar n = String (zbyte 123) s.
Proof. unfold rewriteVar. case_match; rewrite string_app_cons; by eexists. Qed.

Lemma parse_pieces ps fuel : Forall pieceOK ps → existsb isFuncPiece ps = false →
  (String.length (piecesText ps) ≤ fuel)%nat →
  ∃ t, parseNodes fuel (piecesText ps) = Some t ∧ ∀ d, tplExecute t d = Some (expandPieces d ps).
Proof.
  intros Hps. revert fuel. induction Hps as [|p ps Hp _ IH]; intros fuel Hf Hl.
  { exists []. by destruct fuel. }
  simpl in Hf. apply orb_false_iff in Hf as [Hpf Hf]. simpl in Hl. rewrite string_length_app in Hl.
  destruct p as [a|n]; simpl in Hl.
  - destruct fuel as [|fuel]; [lia|]. destruct (IH fuel Hf) as (t & Ht & He); [lia|].
    exists (NText a :: t). simpl piecesText. rewrite string_app_cons, string_app_nil_l.
    rewrite parseNodes_byte by done. rewrite Ht. split; [done|]. intros d. simpl. by rewrite He.
  - destruct (rewriteVar_cons n) as [x Ex].
    destruct fuel as [|fuel]; [rewrite Ex in Hl; simpl in Hl; lia|].
    destruct (IH fuel Hf) as (t & Ht & He); [rewrite Ex in Hl; simpl in Hl; lia|].
    exists (NField (variableKey n) :: t). simpl piecesText. unfold rewriteVar. simpl in Hpf. rewrite Hpf.
    rewrite <- !string_app_assoc, parseNodes_field, Ht by done. split; [done|].
    intros d. simpl. by rewrite He.
Qed.

(** A function is not known to a new template. *)
Context (func_unknown : ∀ f, IsVariableFunc f = true → parseWord f = None).

Lemma func_action f r fuel : IsVariableFunc f = true → parseNodes fuel ("{{" +:+ f +:+ "}}" +:+ r) = None.
Proof.
  intros Hf. pose proof (func_unknown f Hf) as Hu. destruct fuel as [|fuel]; [done|].
  unfold IsVariableFunc in Hf. apply bool_decide_eq_true in Hf.
  assert (HW : wordAction (f +:+ "}}" +:+ r) = Some (f, r)).
  { apply wordAction_app; repeat (apply elem_of_cons in Hf as [->|Hf]); try done; try by eexists _, _.
    all: by apply elem_of_nil in Hf. }
  assert (Hd : HasPrefix (f +:+ "}}" +:+ r) "." = false).
  { repeat (apply elem_of_cons in Hf as [->|Hf]); try done. by apply elem_of_nil in Hf. }
  revert HW Hd. generalize (f +:+ "}}" +:+ r) as x. intros x HW Hd.
  change ("{{" +:+ x) with (String (zbyte 123) (String (zbyte 123) x)).
  cbn [parseNodes skipString]. change (HasPrefix (String (zbyte 123) (String (zbyte 123) x)) "{{") with (HasPrefix x "").
  replace (HasPrefix x "") with true by (by destruct x). by rewrite Hd, HW, Hu.
Qed.

Lemma parse_func ps fuel : Forall pieceOK ps → existsb isFuncPiece ps = true →
  parseNodes fuel (piecesText ps) = None.
Proof.
  intros Hps. revert fuel. induction Hps as [|p ps Hp _ IH]; intros fuel Hf; [done|].
  simpl in Hf. destruct p as [a|n]; simpl piecesText.
  - rewrite string_app_cons, string_app_nil_l. destruct fuel as [|fuel]; [done|].
    rewrite parseNodes_byte by done. by rewrite IH.
  - destruct (IsVariableFunc n) eqn:En; unfold rewriteVar; rewrite En, <- !string_app_assoc.
    + by apply func_action.
    + destruct fuel as [|fuel]; [by rewrite string_app_cons|]. rewrite parseNodes_field by done. simpl in Hf.
      rewrite En in Hf. by rewrite IH.
Qed.
End Rendering.

Lemma Contains_dollar s : Contains s "$" = hasByte 36 s.
Proof.
  induction s as [|a s IH]; [done|]. cbn [Contains hasByte HasPrefix]. rewrite IH.
  replace (HasPrefix s "") with true by (by destruct s). rewrite andb_true_r.
  match goal with |- context [byteZ ?c =? byteZ a] => change (byteZ c) with 36 end. by rewrite Z.eqb_sym.
Qed.

(** A text without a dollar stands for itself. *)
Lemma expandVars_plain v d : hasByte 36 v = false → expandVars v d = v.
Proof.
  unfold expandVars. induction v as [|a v IH]; [done|]. simpl. intros [-> H]%orb_false_iff. simpl.
  by rewrite IH.
Qed.

(** ** Theorems *)

Section TemplateTheorems.
Context `{T : TextTemplate}.

Lemma template_value_expands v :
  hasByte 123 v = false → usesFunc v = false →
  ∃ tv, template_store v noTemplate = Ok tv ∧ tv_set tv = true ∧
        ∀ d, template_Value tv d = Ok (expandVars v d).
Proof.
  intros Hb Hf. unfold template_store. rewrite Contains_dollar.
  destruct (hasByte 36 v) eqn:Ed; simpl.
  - destruct (parse_pieces (scanVars v None) (String.length (rewriteVars v))) as (t & Ht & He);
      [by apply scanVars_ok|done|done|].
    unfold tplParse. change (rewriteVars v) with (piecesText (scanVars v None)) in *. rewrite Ht.
    eexists. split; [done|]. split; [done|]. intros d. unfold template_Value. simpl. by rewrite He.
  - eexists. split; [done|]. split; [done|]. intros d. by rewrite expandVars_plain.
Qed.

(** C35: A text with variables.  A text without braces and without the names of
    the time functions is stored without a panic, and its value for some data is
    the text with every variable ($ and the longest name after it) replaced by
    the value of the variable; numbered variables have the prefix n_, and a
    variable without a value is written as text/template writes it. *)
Theorem template_expands v :
  hasByte 123 v = false → usesFunc v = false →
  ∃ tv, template_store v noTemplate = Ok tv ∧ tv_set tv = true ∧
        ∀ d, template_Value tv d = Ok (expandVars v d).
Proof. apply template_value_expands. Qed.

(** The time functions.  A new template does not know them, so that storing
    a text that uses one of them is a panic. *)
Lemma template_func_panics v s :
  (∀ f, IsVariableFunc f = true → parseWord f = None) →
  hasByte 123 v = false → usesFunc v = true → template_store v s = Panic ExplicitPanic.
Proof.
  intros Hu Hb Hf. unfold template_store. rewrite Contains_dollar.
  destruct (hasByte 36 v) eqn:Ed; simpl.
  - unfold tplParse. change (rewriteVars v) with (piecesText (scanVars v None)).
    by rewrite parse_func by (done || by apply scanVars_ok).
  - exfalso. revert Hf. unfold usesFunc. clear Hb. induction v as [|a v IH]; [done|].
    simpl in *. apply orb_false_iff in Ed as [-> Ed]. simpl. by apply IH.
Qed.

(** A template stays.  Storing a text without variables over one with
    variables changes no value: the old template is still executed. *)
Theorem template_store_stale v s t d :
  tv_tpl s = Some t → hasByte 36 v = false →
  ∃ s', template_store v s = Ok s' ∧ template_Value s' d = template_Value s d.
Proof.
  intros Ht Hv. unfold template_store. rewrite Contains_dollar, Hv. eexists. split; [done|].
  unfold template_Value. simpl. by rewrite Ht.
Qed.
End TemplateTheorems.

(** ** The theorems at work *)

Definition bareTemplate : TextTemplate := {| parseWord _ := None; parseRest _ := None |}.

Lemma template_expands_witness :
  ∃ tv, @template_store bareTemplate "http://$host/$1$2x" noTemplate = Ok tv ∧ tv_set tv = true ∧
        ∀ d, template_Value tv d = Ok (expandVars "http://$host/$1$2x" d).
Proof. by apply (@template_expands bareTemplate "http://$host/$1$2x"). Defined.

Lemma template_store_stale_witness :
  ∃ s', @template_store bareTemplate "http://b" (mkTemplateValue "" true (Some [NField "host"])) = Ok s' ∧
        template_Value s' ∅ = template_Value (mkTemplateValue "" true (Some [NField "host"])) ∅.
Proof.
  by apply (@template_store_stale bareTemplate "http://b" (mkTemplateValue "" true (Some [NField "host"]))
    [NField "host"]).
Defined.
