(* ===== verification/Access.v ===== *)
(** * Handlers: access control, the access log and the chain of a location
    (src/access_control.go, src/ngx_log.go, src/ngx_startup.go)

    A handler is a function from the request to what it writes, as a list of
    events.  Of a request the model keeps what the handlers look at: headers,
    addresses, the values of its context and how long it took.  A panic ends the
    request, whatever was written before it. *)

From S2P Require Import Prelude GoStrings GoNet Routing RoutingFacts Template.

#[local] Open Scope Z_scope.

(** ** Requests and handlers *)

(** What the context holds under the keys of the access log.  [logger] is the
    value under [ngxLoggerKey]: whether it implements the interface. *)
Record logCtx := mkLogCtx {
  logPath : option string;
  logLevel : option string;
  logFormat : option string;
  logger : option bool;
}.

(** [variables] is the map of variables that the context holds, if it is one;
    [elapsed] the printed duration in milliseconds. *)
Record request := mkRequest {
  reqHost : string;
  reqPath : string;
  xForwardedFor : string;
  xRealIP : string;
  RemoteAddr : string;
  localUnix : bool;
  accessAllowed : option bool;
  logging : logCtx;
  variables : option tplData;
  elapsed : string;
}.

Definition set_accessAllowed (b : bool) (r : request) : request :=
  mkRequest (reqHost r) (reqPath r) (xForwardedFor r) (xRealIP r) (RemoteAddr r) (localUnix r)
    (Some b) (logging r) (variables r) (elapsed r).

(** What is written: an error page, the work of the proxy of a block (the path
    of the block), a line of the access log. *)
Inductive event :=
| HttpError (code : Z)
| Proxied (block : list nat) (r : request)
| Logged (dest level text : string).

Definition handler : Type := request → res (list event).

Definition StatusForbidden : Z := 403.
Definition StatusNotFound : Z := 404.

Definition notFoundHandler : handler := λ _, Ok [HttpError StatusNotFound].
Definition nextHandler (next : handler) : handler := next.

Definition wrap (h : handler) (halt : bool) (next : handler) : handler := λ r,
  es ← h r;
  if halt then Ok es else es' ← next r; Ok (es ++ es').

(** ** Access rules *)

Definition passthrough (r : request) : bool :=
  match accessAllowed r with Some v => v | None => false end.

(** [strings.Split(ip, ", ")[0]]. *)
Fixpoint beforeComma (s : string) : string :=
  match s with
  | "" => ""
  | String a s' => if HasPrefix s ", " then "" else String a (beforeComma s')
  end.

Definition realIPString (r : request) : string :=
  if negb (xForwardedFor r =? "")%string then beforeComma (xForwardedFor r)
  else if negb (xRealIP r =? "")%string then xRealIP r
  else match SplitHostPort (RemoteAddr r) with Some (ip, _) => ip | None => "" end.

Definition realIP (r : request) : option IP := ParseIP (realIPString r).

Record nginxAccess := mkAccess {
  allow : bool;
  addr : string;
  matchFn : request → bool;
}.

Definition matchIP (ip : IP) (r : request) : bool :=
  match realIP r with Some ap => bool_decide (ip = ap) | None => false end.

Definition nginxAccess_init (addr : string) (allow : bool) : nginxAccess :=
  mkAccess allow addr
    (if (addr =? "all")%string then λ _, true
     else if (addr =? "unix:")%string then localUnix
     else match ParseIP addr with
          | Some ip => matchIP ip
          | None => λ _, false
          end).

Definition check (a : nginxAccess) (r : request) : bool :=
  if allow a then matchFn a r else negb (matchFn a r).

Definition nginxAccess_handle (a : nginxAccess) (next : handler) : handler := λ r,
  if negb (passthrough r) then
    if negb (check a r) then Ok [HttpError StatusForbidden]
    else next (set_accessAllowed true r)
  else next r.

(** ** The access log *)

Definition defaultLogFormat : string :=
  "$remote_addr - $remote_user [$time_local] " +:+ str1 34 +:+ "$request" +:+ str1 34 +:+
  " $status $body_bytes_sent " +:+ str1 34 +:+ "$http_referer" +:+ str1 34 +:+ " " +:+
  str1 34 +:+ "$http_user_agent" +:+ str1 34.

Definition vRequestTime : string := "$request_time".

Section LogLine.
Context `{T : TextTemplate}.

(** The templates by their format. *)
Abbreviation templates := (gmap string stringTemplateValue).

(** The line for a format, from the template that is kept for it. *)
Definition logLine (format : string) (vars : tplData) (tpls : templates) : res string * templates :=
  match tpls !! format with
  | Some s => (template_Value s vars, tpls)
  | None =>
    match template_store format noTemplate with
    | Ok s => (template_Value s vars, <[format := s]> tpls)
    | Panic p => (Panic p, tpls)
    | OutOfFuel => (OutOfFuel, tpls)
    end
  end.

(** [accessLogMiddlewareFunc].  It is called anew for the chain of every request,
    so that the map of its templates is empty when the request comes. *)
Definition accessLogMiddleware (next : handler) : handler := λ r,
  let c := logging r in
  match logPath c with
  | None => next r
  | Some destPath =>
    if (destPath =? "")%string || (destPath =? "/dev/null")%string then next r
    else
      let level := default "info" (logLevel c) in
      match logger c with
      | None => Ok []
      | Some false => Panic TypeAssertion
      | Some true =>
        es ← next r;
        match variables r with
        | None => Panic TypeAssertion
        | Some m =>
          line ← fst (logLine (default defaultLogFormat (logFormat c)) (<[vRequestTime := elapsed r]> m) ∅);
          Ok (es ++ [Logged destPath level line])
        end
      end
  end.
End LogLine.

(** ** The chain of a location *)

Section Chain.
Context `{T : TextTemplate}.
(** The proxy of a block: [proxy.init] with the block that holds the directive,
    and its [ServeHTTP]. *)
Context (proxyNew : list nat → res handler).

Definition parentOf (path : list nat) : list nat := removelast path.

(** [serverCtx.handle]. *)
Definition serverCtx_handle (r : list nat * rule) : res (handler → handler) :=
  let name := rule_name (snd r) in
  if (name =? "proxy_pass")%string then p ← proxyNew (parentOf (fst r)); Ok (wrap p true)
  else if (name =? "allow")%string then
    a ← go_index (rule_args (snd r)) 0; Ok (nginxAccess_handle (nginxAccess_init a true))
  else if (name =? "deny")%string then
    a ← go_index (rule_args (snd r)) 0; Ok (nginxAccess_handle (nginxAccess_init a false))
  else Ok nextHandler.

(** [serverCtx.chain]. *)
Fixpoint chainLoop (rules : list (list nat * rule)) (a : list (handler → handler))
    : res (list (handler → handler)) :=
  match rules with
  | [] => Ok a
  | v :: vs => h ← serverCtx_handle v; chainLoop vs (a ++ [h])
  end.
Definition chain (rules : list (list nat * rule)) : res (list (handler → handler)) :=
  chainLoop rules [accessLogMiddleware].

(** The end of the request handler of [vinceHandler]:
    [srvCtx.chain(rules...).then(nil).ServeHTTP(w, r)]. *)
Definition serveChain (rules : list (list nat * rule)) (r : request) : res (list event) :=
  a ← chain rules;
  h ← alice_then notFoundHandler a None;
  h r.

(** ** What a chain does *)

Lemma chainLoop_Forall2 rules acc a :
  chainLoop rules acc = Ok a →
  ∃ hs, a = acc ++ hs ∧ Forall2 (λ r h, serverCtx_handle r = Ok h) rules hs.
Proof.
  revert acc. induction rules as [|v vs IH]; intros acc H; simpl in H.
  - injection H as <-. exists []. rewrite app_nil_r. auto.
  - inv_bind. destruct (IH _ H) as (hs & -> & HF). eexists (_ :: hs).
    rewrite <- (assoc_L app). eauto.
Qed.

Definition isProxy (r : list nat * rule) : bool := (rule_name (snd r) =? "proxy_pass")%string.
Definition isAccess (r : list nat * rule) : bool :=
  (rule_name (snd r) =? "allow")%string || (rule_name (snd r) =? "deny")%string.

(** Whether an access directive lets a request pass. *)
Definition admits (r : list nat * rule) (req : request) : bool :=
  check (nginxAccess_init (default "" (head (rule_args (snd r)))) (rule_name (snd r) =? "allow")%string) req.

(** The first directive of the chain that does something. *)
Fixpoint firstActive (rules : list (list nat * rule)) : option (list nat * rule) :=
  match rules with
  | [] => None
  | r :: rs => if isProxy r || isAccess r then Some r else firstActive rs
  end.

(** Where a request ends that no access directive stops. *)
Definition destination (rules : list (list nat * rule)) (req : request) : res (list event) :=
  match List.find isProxy rules with
  | Some r => p ← proxyNew (parentOf (fst r)); p req
  | None => Ok [HttpError StatusNotFound]
  end.

(** The specification of a chain: the first access directive before the proxy
    decides, and when it admits the request no other one is asked. *)
Definition chainSpec (rules : list (list nat * rule)) (req : request) : res (list event) :=
  match firstActive rules with
  | Some r =>
    if isAccess r then
      if admits r req then destination rules (set_accessAllowed true req)
      else Ok [HttpError StatusForbidden]
    else destination rules req
  | None => destination rules req
  end.

Lemma serverCtx_handle_cases r h req next : serverCtx_handle r = Ok h →
  (isProxy r = true ∧ isAccess r = false ∧
     ∃ p, proxyNew (parentOf (fst r)) = Ok p ∧ h next req = p req) ∨
  (isProxy r = false ∧ isAccess r = true ∧
     h next req = if passthrough req then next req
                  else if admits r req then next (set_accessAllowed true req)
                  else Ok [HttpError StatusForbidden]) ∨
  (isProxy r = false ∧ isAccess r = false ∧ h next req = next req).
Proof.
  unfold serverCtx_handle, isProxy, isAccess, admits, go_index. destruct r as [path [nm args kids]]. simpl.
  destruct (nm =? "proxy_pass")%string eqn:E1; [|destruct (nm =? "allow")%string eqn:E2;
    [|destruct (nm =? "deny")%string eqn:E3]]; intros H; inv_bind.
  - left. apply String.eqb_eq in E1 as ->. split; [done|]. split; [done|]. eexists. split; [eassumption|].
    unfold wrap. by destruct (a req).
  - right; left. destruct args as [|x xs]; simpl in *; inv_bind. split; [done|]. split; [done|]. unfold nginxAccess_handle.
    destruct (passthrough req); simpl; [done|]. by destruct (check _ req).
  - right; left. destruct args as [|x xs]; simpl in *; inv_bind. split; [done|]. split; [done|]. unfold nginxAccess_handle.
    destruct (passthrough req); simpl; [done|]. by destruct (check _ req).
  - right; right. done.
Qed.

Lemma chain_passes rules hs req :
  Forall2 (λ r h, serverCtx_handle r = Ok h) rules hs → passthrough req = true →
  foldr (λ f x, f x) notFoundHandler hs req = destination rules req.
Proof.
  intros HF Hp. induction HF as [|r h rules hs Hh _ IH]; [done|]. simpl. unfold destination. simpl.
  destruct (serverCtx_handle_cases r h req (foldr (λ f x, f x) notFoundHandler hs) Hh)
    as [(-> & _ & p & -> & ->)|[(-> & _ & ->)|(-> & _ & ->)]]; simpl; [done|rewrite Hp|]; exact IH.
Qed.

Lemma chain_spec rules hs req :
  Forall2 (λ r h, serverCtx_handle r = Ok h) rules hs → passthrough req = false →
  foldr (λ f x, f x) notFoundHandler hs req = chainSpec rules req.
Proof.
  intros HF Hp. induction HF as [|r h rules hs Hh HF IH]; [done|]. simpl. unfold chainSpec, destination. simpl.
  destruct (serverCtx_handle_cases r h req (foldr (λ f x, f x) notFoundHandler hs) Hh)
    as [(E1 & E2 & p & E3 & ->)|[(E1 & E2 & ->)|(E1 & E2 & ->)]]; rewrite E1, E2; simpl; rewrite ?E2;
    [by rewrite E3| |exact IH].
  rewrite Hp. destruct (admits r req); [|done]. by apply (chain_passes rules hs _ HF).
Qed.

Lemma accessLogMiddleware_ext (f g : handler) req :
  f req = g req → accessLogMiddleware f req = accessLogMiddleware g req.
Proof. intros H. unfold accessLogMiddleware. by rewrite H. Qed.

Lemma serveChain_fold rules a req : chain rules = Ok a →
  ∃ hs, Forall2 (λ r h, serverCtx_handle r = Ok h) rules hs ∧
    serveChain rules req = accessLogMiddleware (foldr (λ f x, f x) notFoundHandler hs) req.
Proof.
  intros Ha. destruct (chainLoop_Forall2 _ _ _ Ha) as (hs & Hhs & HF). exists hs. split; [done|].
  unfold serveChain. rewrite Ha. simpl. unfold alice_then.
  rewrite aliceLoop_foldr by lia. simpl. by rewrite firstn_all, Hhs.
Qed.

Lemma serveChain_spec rules a req :
  chain rules = Ok a → passthrough req = false →
  serveChain rules req = accessLogMiddleware (chainSpec rules) req.
Proof.
  intros Ha Hp. destruct (serveChain_fold rules a req Ha) as (hs & HF & ->).
  apply accessLogMiddleware_ext. by apply chain_spec.
Qed.

(** C20: what the chain of a location does with a request. The access log is
    outermost; then the first access directive in force decides: a request it
    does not admit is answered with 403, and one it admits goes to the proxy of
    the location (or to the 404 page) whatever the later access directives
    say. A request that an outer handler has already admitted passes them all. *)
Theorem serveChain_access rules a req :
  chain rules = Ok a →
  serveChain rules req =
  accessLogMiddleware (if passthrough req then destination rules else chainSpec rules) req.
Proof.
  intros Ha. destruct (passthrough req) eqn:Hp; [|by eapply serveChain_spec].
  destruct (serveChain_fold rules a req Ha) as (hs & HF & ->).
  apply accessLogMiddleware_ext. by apply chain_passes.
Qed.
End Chain.

(** No word is a function of the templates. *)
#[local] Existing Instance bareTemplate.

(** Two addresses are allowed and everything else denied: the second one is
    refused, because the first directive alone decides. *)
Definition sampleRules2 : list (list nat * rule) :=
  [([0%nat; 0%nat], mkRule "allow" ["10.0.0.1"] []); ([0%nat; 1%nat], mkRule "allow" ["10.0.0.2"] []);
   ([0%nat; 2%nat], mkRule "deny" ["all"] []); ([0%nat; 3%nat], mkRule "proxy_pass" ["http://up"] [])].
Definition requestFrom (ip : string) : request :=
  mkRequest "example.org" "/" "" "" (ip +:+ ":4000") false None (mkLogCtx None None None (Some false)) None "0".
Definition recordProxy (block : list nat) : res handler := Ok (λ r, Ok [Proxied block r]).

Definition sampleChain : list (handler → handler) :=
  [accessLogMiddleware; nginxAccess_handle (nginxAccess_init "10.0.0.1" true);
   nginxAccess_handle (nginxAccess_init "10.0.0.2" true); nginxAccess_handle (nginxAccess_init "all" false);
   wrap (λ r, Ok [Proxied [0%nat] r]) true].

Lemma serveChain_access_witness :
  serveChain recordProxy sampleRules2 (requestFrom "10.0.0.1") =
    Ok [Proxied [0%nat] (set_accessAllowed true (requestFrom "10.0.0.1"))] ∧
  serveChain recordProxy sampleRules2 (requestFrom "10.0.0.2") = Ok [HttpError 403].
Proof.
  split.
  - transitivity (accessLogMiddleware (chainSpec recordProxy sampleRules2) (requestFrom "10.0.0.1")).
    + apply (serveChain_access recordProxy sampleRules2 sampleChain (requestFrom "10.0.0.1")); reflexivity.
    + vm_compute. reflexivity.
  - transitivity (accessLogMiddleware (chainSpec recordProxy sampleRules2) (requestFrom "10.0.0.2")).
    + apply (serveChain_access recordProxy sampleRules2 sampleChain (requestFrom "10.0.0.2")); reflexivity.
    + vm_compute. reflexivity.
Defined.
