(* ===== verification/Listen.v ===== *)
(** * Listeners and their options (src/ngx_http_core.go, src/ngx_startup.go)

    The options of a [listen] directive with the ssl directives of its server,
    the OpenSSL cipher names, and the part of [process] that groups the servers
    by the address they listen on.  What the code asks of the operating system
    and of other libraries is the class [Env]. *)

From S2P Require Import Prelude GoStrings GoNet Values Stmt Routing RoutingFacts.

#[local] Open Scope Z_scope.

(** [bytefmt.ToBytes], an open of a file that succeeds, [time.ParseDuration],
    the scheme and host that [url.Parse] finds, and the output of
    [openssl ciphers]. *)
Class Env := {
  ToBytes : string → option Z;
  canOpen : string → bool;
  ParseDuration : string → option Z;
  urlParse : string → option (string * string);
  opensslOutput : string → option string;
}.

(** ** Cipher names *)

Record cipher := mkCipher {
  proto : string;
  kx : string;
  auth : string;
  enc : string;
  encSize : Z;
  encPad : string;
  mac : string;
}.

Definition cipher_init : cipher := mkCipher "TLS" "RSA" "RSA" "AES" 128 "CBC" "SHA".

Definition cipher_String (c : cipher) : string :=
  let s :=
    if (kx c =? auth c)%string then proto c +:+ "_" +:+ kx c +:+ "_WITH_" +:+ enc c
    else proto c +:+ "_" +:+ kx c +:+ "_" +:+ auth c +:+ "_WITH_" +:+ enc c in
  let s := if negb (enc c =? "3DES_EDE")%string && negb (enc c =? "SEED")%string
           then s +:+ "_" +:+ Itoa (encSize c) else s in
  let s := if negb (enc c =? "RC4")%string then s +:+ "_" +:+ encPad c else s in
  s +:+ "_" +:+ mac c.

Definition kxProto : gmap string string := list_to_map [
  ("AECDH", "ECDH_anon"); ("ADH", "DH_anon"); ("DH", "DH"); ("DHE", "DHE"); ("ECDH", "ECDH");
  ("ECDHE", "ECDHE"); ("EDH", "EDH"); ("PSK", "PSK"); ("RSA", "RSA"); ("SRP", "SRP")].

Definition authProto : gset string := list_to_set ["DSS"; "ECDSA"; "PSK"; "RSA"; "SRP"].

Definition digests : gset string := list_to_set ["MD5"; "SHA"; "SHA256"; "SHA384"].

(** The map [ciphers]. *)
Definition cipherTable : gmap string (string * Z) := list_to_map [
  ("AES", ("AES", 128)); ("AES128", ("AES", 128)); ("AES256", ("AES", 126));
  ("3DES", ("3DES_EDE", 112)); ("DES", ("3DES_EDE", 112)); ("RC4", ("RC4", 128));
  ("SEED", ("SEED", 128)); ("CAMELLIA128", ("CAMELLIA128", 128));
  ("CAMELLIA256", ("CAMELLIA128", 256)); ("IDEA", ("IDEA", 128))].

(** The keys are as in the source, trailing blanks included. *)
Definition standardCipherSuits : gmap string Z := list_to_map [
  ("TLS_RSA_WITH_RC4_128_SHA", 0x0005);
  ("TLS_RSA_WITH_3DES_EDE_CBC_SHA", 0x000a);
  ("TLS_RSA_WITH_AES_128_CBC_SHA ", 0x002f);
  ("TLS_RSA_WITH_AES_256_CBC_SHA ", 0x0035);
  ("TLS_RSA_WITH_AES_128_CBC_SHA256", 0x003c);
  ("TLS_RSA_WITH_AES_128_GCM_SHA256", 0x009c);
  ("TLS_RSA_WITH_AES_256_GCM_SHA384", 0x009d);
  ("TLS_ECDHE_ECDSA_WITH_RC4_128_SHA", 0xc007);
  ("TLS_ECDHE_ECDSA_WITH_AES_128_CBC_SHA", 0xc009);
  ("TLS_ECDHE_ECDSA_WITH_AES_256_CBC_SHA", 0xc00a);
  ("TLS_ECDHE_RSA_WITH_RC4_128_SHA ", 0xc011);
  ("TLS_ECDHE_RSA_WITH_3DES_EDE_CBC_SHA", 0xc012);
  ("TLS_ECDHE_RSA_WITH_AES_128_CBC_SHA ", 0xc013);
  ("TLS_ECDHE_RSA_WITH_AES_256_CBC_SHA ", 0xc014);
  ("TLS_ECDHE_ECDSA_WITH_AES_128_CBC_SHA256 ", 0xc023);
  ("TLS_ECDHE_RSA_WITH_AES_128_CBC_SHA256", 0xc027);
  ("TLS_ECDHE_RSA_WITH_AES_128_GCM_SHA256", 0xc02f);
  ("TLS_ECDHE_ECDSA_WITH_AES_128_GCM_SHA256 ", 0xc02b);
  ("TLS_ECDHE_RSA_WITH_AES_256_GCM_SHA384", 0xc030);
  ("TLS_ECDHE_ECDSA_WITH_AES_256_GCM_SHA384 ", 0xc02c);
  ("TLS_ECDHE_RSA_WITH_CHACHA20_POLY1305", 0xcca8);
  ("TLS_ECDHE_ECDSA_WITH_CHACHA20_POLY1305", 0xcca9);
  ("TLS_AES_128_GCM_SHA256  ", 0x1301);
  ("TLS_AES_256_GCM_SHA384  ", 0x1302);
  ("TLS_CHACHA20_POLY1305_SHA256 ", 0x1303);
  ("TLS_FALLBACK_SCSV ", 0x5600)].

(** [s[0:3]]: a panic when the text is shorter. *)
Definition firstThree (s : string) : res string :=
  match s with
  | String a (String b (String c _)) => Ok (String a (String b (String c "")))
  | _ => Panic IndexOutOfRange
  end.

(** The key exchange, the authentication and the index behind them. *)
Definition parseKx (parts : list string) (c : cipher) : res (cipher * nat) :=
  p0 ← go_index parts 0;
  match kxProto !! p0 with
  | Some k =>
    p1 ← go_index parts 1;
    if bool_decide (p1 ∈ authProto)
    then Ok (mkCipher (proto c) k p1 (enc c) (encSize c) (encPad c) (mac c), 2%nat)
    else Ok (mkCipher (proto c) k k (enc c) (encSize c) (encPad c) (mac c), 1%nat)
  | None => Ok (c, 0%nat)
  end.

Definition parseEnc (p : string) (c : cipher) : cipher :=
  match cipherTable !! p with
  | Some (e, n) => mkCipher (proto c) (kx c) (auth c) e n (encPad c) (mac c)
  | None => c
  end.

(** The mode and the digest, from the parts behind the cipher. *)
Definition parseTail (rest : list string) (c : cipher) : res cipher :=
  match rest with
  | [] => Ok c
  | p :: rest' =>
    if bool_decide (p ∈ digests) then
      Ok (mkCipher (proto c) (kx c) (auth c) (enc c) (encSize c) (encPad c) p)
    else
      pad ← firstThree p;
      Ok (mkCipher (proto c) (kx c) (auth c) (enc c) (encSize c) pad
            (match rest' with q :: _ => q | [] => mac c end))
  end.

Definition cipher_parse (spec : string) : res cipher :=
  let parts := Split spec 45 in
  '(c, idx) ← parseKx parts cipher_init;
  p ← go_index parts idx;
  parseTail (drop (S idx) parts) (parseEnc p c).

Definition isAsciiSpace (a : Ascii.ascii) : bool := inRange (byteZ a) 9 13 || (byteZ a =? 32).
Fixpoint trimLeftSpace (s : string) : string :=
  match s with
  | String a s' => if isAsciiSpace a then trimLeftSpace s' else s
  | "" => ""
  end.
(** [bytes.TrimSpace] of an ASCII text. *)
Definition TrimSpace (s : string) : string := stringRev (trimLeftSpace (stringRev (trimLeftSpace s))).

Section Options.
Context `{E : Env}.

Definition openSSLCiphers (a : string) : res (option (list cipher)) :=
  match opensslOutput a with
  | None => Ok None
  | Some out =>
    cs ← go_concat_map (λ v, c ← cipher_parse v; Ok [c]) (Split (TrimSpace out) 58);
    Ok (Some cs)
  end.

Definition standardCiphers (c : list cipher) : list cipher :=
  filter (λ v, is_Some (standardCipherSuits !! cipher_String v)) c.

(** ** ssl options *)

Definition zeroInt : confValue Z := mkValue false 0.
Definition zeroString : stringValue := mkValue false "".
Definition zeroBool : boolValue := mkValue false false.
Definition zeroSlice : stringSliceValue := mkValue false [].

Record sslOptions := mkSsl {
  bufferSize : intValue;
  certificate : stringValue;
  certificateKey : stringValue;
  clientCertificate : stringValue;
  ciphers : stringSliceValue;
  crl : stringValue;
  dhParam : stringValue;
  earlData : boolValue;
  ecdheCUrve : stringValue;
  passwordFile : stringValue;
  preferServerCiphers : boolValue;
  protocols : stringSliceValue;
  sessionCache : stringValue;
  sessionTicketKey : stringValue;
  sessionTickets : boolValue;
  timeout : durationValue;
  stapling : boolValue;
  staplingFile : stringValue;
  staplingResponder : stringValue;
  staplingVerify : boolValue;
  trustedCertificate : stringValue;
}.

(** The zero value of the struct. *)
Definition zeroSsl : sslOptions :=
  mkSsl zeroInt zeroString zeroString zeroString zeroSlice zeroString zeroString zeroBool zeroString
    zeroString zeroBool zeroSlice zeroString zeroString zeroBool zeroInt zeroBool zeroString
    zeroString zeroBool zeroString.

(** The [store] methods of the fields, as updates of the struct. *)
Definition store_bufferSize (v : Z) (s : sslOptions) : sslOptions :=
  mkSsl (value_store v (bufferSize s)) (certificate s) (certificateKey s) (clientCertificate s)
    (ciphers s) (crl s) (dhParam s) (earlData s) (ecdheCUrve s) (passwordFile s)
    (preferServerCiphers s) (protocols s) (sessionCache s) (sessionTicketKey s) (sessionTickets s)
    (timeout s) (stapling s) (staplingFile s) (staplingResponder s) (staplingVerify s)
    (trustedCertificate s).
Definition store_certificate (v : string) (s : sslOptions) : sslOptions :=
  mkSsl (bufferSize s) (value_store v (certificate s)) (certificateKey s) (clientCertificate s)
    (ciphers s) (crl s) (dhParam s) (earlData s) (ecdheCUrve s) (passwordFile s)
    (preferServerCiphers s) (protocols s) (sessionCache s) (sessionTicketKey s) (sessionTickets s)
    (timeout s) (stapling s) (staplingFile s) (staplingResponder s) (staplingVerify s)
    (trustedCertificate s).
Definition store_certificateKey (v : string) (s : sslOptions) : sslOptions :=
  mkSsl (bufferSize s) (certificate s) (value_store v (certificateKey s)) (clientCertificate s)
    (ciphers s) (crl s) (dhParam s) (earlData s) (ecdheCUrve s) (passwordFile s)
    (preferServerCiphers s) (protocols s) (sessionCache s) (sessionTicketKey s) (sessionTickets s)
    (timeout s) (stapling s) (staplingFile s) (staplingResponder s) (staplingVerify s)
    (trustedCertificate s).
Definition store_clientCertificate (v : string) (s : sslOptions) : sslOptions :=
  mkSsl (bufferSize s) (certificate s) (certificateKey s) (value_store v (clientCertificate s))
    (ciphers s) (crl s) (dhParam s) (earlData s) (ecdheCUrve s) (passwordFile s)
    (preferServerCiphers s) (protocols s) (sessionCache s) (sessionTicketKey s) (sessionTickets s)
    (timeout s) (stapling s) (staplingFile s) (staplingResponder s) (staplingVerify s)
    (trustedCertificate s).
Definition store_ciphers (v : list string) (s : sslOptions) : sslOptions :=
  mkSsl (bufferSize s) (certificate s) (certificateKey s) (clientCertificate s)
    (stringSliceValue_store v (ciphers s)) (crl s) (dhParam s) (earlData s) (ecdheCUrve s)
    (passwordFile s) (preferServerCiphers s) (protocols s) (sessionCache s) (sessionTicketKey s)
    (sessionTickets s) (timeout s) (stapling s) (staplingFile s) (staplingResponder s)
    (staplingVerify s) (trustedCertificate s).
Definition store_crl (v : string) (s : sslOptions) : sslOptions :=
  mkSsl (bufferSize s) (certificate s) (certificateKey s) (clientCertificate s) (ciphers s)
    (value_store v (crl s)) (dhParam s) (earlData s) (ecdheCUrve s) (passwordFile s)
    (preferServerCiphers s) (protocols s) (sessionCache s) (sessionTicketKey s) (sessionTickets s)
    (timeout s) (stapling s) (staplingFile s) (staplingResponder s) (staplingVerify s)
    (trustedCertificate s).
Definition store_dhParam (v : string) (s : sslOptions) : sslOptions :=
  mkSsl (bufferSize s) (certificate s) (certificateKey s) (clientCertificate s) (ciphers s) (crl s)
    (value_store v (dhParam s)) (earlData s) (ecdheCUrve s) (passwordFile s) (preferServerCiphers s)
    (protocols s) (sessionCache s) (sessionTicketKey s) (sessionTickets s) (timeout s) (stapling s)
    (staplingFile s) (staplingResponder s) (staplingVerify s) (trustedCertificate s).
Definition store_earlData (v : bool) (s : sslOptions) : sslOptions :=
  mkSsl (bufferSize s) (certificate s) (certificateKey s) (clientCertificate s) (ciphers s) (crl s)
    (dhParam s) (value_store v (earlData s)) (ecdheCUrve s) (passwordFile s) (preferServerCiphers s)
    (protocols s) (sessionCache s) (sessionTicketKey s) (sessionTickets s) (timeout s) (stapling s)
    (staplingFile s) (staplingResponder s) (staplingVerify s) (trustedCertificate s).
Definition store_ecdheCUrve (v : string) (s : sslOptions) : sslOptions :=
  mkSsl (bufferSize s) (certificate s) (certificateKey s) (clientCertificate s) (ciphers s) (crl s)
    (dhParam s) (earlData s) (value_store v (ecdheCUrve s)) (passwordFile s) (preferServerCiphers s)
    (protocols s) (sessionCache s) (sessionTicketKey s) (sessionTickets s) (timeout s) (stapling s)
    (staplingFile s) (staplingResponder s) (staplingVerify s) (trustedCertificate s).
Definition store_preferServerCiphers (v : bool) (s : sslOptions) : sslOptions :=
  mkSsl (bufferSize s) (certificate s) (certificateKey s) (clientCertificate s) (ciphers s) (crl s)
    (dhParam s) (earlData s) (ecdheCUrve s) (passwordFile s) (value_store v (preferServerCiphers s))
    (protocols s) (sessionCache s) (sessionTicketKey s) (sessionTickets s) (timeout s) (stapling s)
    (staplingFile s) (staplingResponder s) (staplingVerify s) (trustedCertificate s).
Definition store_protocols (v : list string) (s : sslOptions) : sslOptions :=
  mkSsl (bufferSize s) (certificate s) (certificateKey s) (clientCertificate s) (ciphers s) (crl s)
    (dhParam s) (earlData s) (ecdheCUrve s) (passwordFile s) (preferServerCiphers s)
    (stringSliceValue_store v (protocols s)) (sessionCache s) (sessionTicketKey s) (sessionTickets
    s) (timeout s) (stapling s) (staplingFile s) (staplingResponder s) (staplingVerify s)
    (trustedCertificate s).
Definition store_sessionCache (v : string) (s : sslOptions) : sslOptions :=
  mkSsl (bufferSize s) (certificate s) (certificateKey s) (clientCertificate s) (ciphers s) (crl s)
    (dhParam s) (earlData s) (ecdheCUrve s) (passwordFile s) (preferServerCiphers s) (protocols s)
    (value_store v (sessionCache s)) (sessionTicketKey s) (sessionTickets s) (timeout s) (stapling
    s) (staplingFile s) (staplingResponder s) (staplingVerify s) (trustedCertificate s).
Definition store_sessionTicketKey (v : string) (s : sslOptions) : sslOptions :=
  mkSsl (bufferSize s) (certificate s) (certificateKey s) (clientCertificate s) (ciphers s) (crl s)
    (dhParam s) (earlData s) (ecdheCUrve s) (passwordFile s) (preferServerCiphers s) (protocols s)
    (sessionCache s) (value_store v (sessionTicketKey s)) (sessionTickets s) (timeout s) (stapling
    s) (staplingFile s) (staplingResponder s) (staplingVerify s) (trustedCertificate s).
Definition store_sessionTickets (v : bool) (s : sslOptions) : sslOptions :=
  mkSsl (bufferSize s) (certificate s) (certificateKey s) (clientCertificate s) (ciphers s) (crl s)
    (dhParam s) (earlData s) (ecdheCUrve s) (passwordFile s) (preferServerCiphers s) (protocols s)
    (sessionCache s) (sessionTicketKey s) (value_store v (sessionTickets s)) (timeout s) (stapling
    s) (staplingFile s) (staplingResponder s) (staplingVerify s) (trustedCertificate s).
Definition store_timeout (v : Z) (s : sslOptions) : sslOptions :=
  mkSsl (bufferSize s) (certificate s) (certificateKey s) (clientCertificate s) (ciphers s) (crl s)
    (dhParam s) (earlData s) (ecdheCUrve s) (passwordFile s) (preferServerCiphers s) (protocols s)
    (sessionCache s) (sessionTicketKey s) (sessionTickets s) (value_store v (timeout s)) (stapling
    s) (staplingFile s) (staplingResponder s) (staplingVerify s) (trustedCertificate s).
Definition store_stapling (v : bool) (s : sslOptions) : sslOptions :=
  mkSsl (bufferSize s) (certificate s) (certificateKey s) (clientCertificate s) (ciphers s) (crl s)
    (dhParam s) (earlData s) (ecdheCUrve s) (passwordFile s) (preferServerCiphers s) (protocols s)
    (sessionCache s) (sessionTicketKey s) (sessionTickets s) (timeout s) (value_store v (stapling
    s)) (staplingFile s) (staplingResponder s) (staplingVerify s) (trustedCertificate s).
Definition store_staplingFile (v : string) (s : sslOptions) : sslOptions :=
  mkSsl (bufferSize s) (certificate s) (certificateKey s) (clientCertificate s) (ciphers s) (crl s)
    (dhParam s) (earlData s) (ecdheCUrve s) (passwordFile s) (preferServerCiphers s) (protocols s)
    (sessionCache s) (sessionTicketKey s) (sessionTickets s) (timeout s) (stapling s) (value_store v
    (staplingFile s)) (staplingResponder s) (staplingVerify s) (trustedCertificate s).
Definition store_staplingResponder (v : string) (s : sslOptions) : sslOptions :=
  mkSsl (bufferSize s) (certificate s) (certificateKey s) (clientCertificate s) (ciphers s) (crl s)
    (dhParam s) (earlData s) (ecdheCUrve s) (passwordFile s) (preferServerCiphers s) (protocols s)
    (sessionCache s) (sessionTicketKey s) (sessionTickets s) (timeout s) (stapling s) (staplingFile
    s) (value_store v (staplingResponder s)) (staplingVerify s) (trustedCertificate s).
Definition store_staplingVerify (v : bool) (s : sslOptions) : sslOptions :=
  mkSsl (bufferSize s) (certificate s) (certificateKey s) (clientCertificate s) (ciphers s) (crl s)
    (dhParam s) (earlData s) (ecdheCUrve s) (passwordFile s) (preferServerCiphers s) (protocols s)
    (sessionCache s) (sessionTicketKey s) (sessionTickets s) (timeout s) (stapling s) (staplingFile
    s) (staplingResponder s) (value_store v (staplingVerify s)) (trustedCertificate s).

Definition minute : Z := 60 * 1000000000.

Definition sslOptions_init (ss : sslOptions) : sslOptions :=
  store_staplingVerify false (store_stapling false (store_timeout (5 * minute)
    (store_sessionTickets true (store_protocols ["TLSv1"; "TLSv1.1"; "TLSv1.2"]
      (store_sessionCache "none" (store_preferServerCiphers false
        (store_ecdheCUrve "auto" (store_earlData false ss)))))))).

(** [int64(v)] of a uint64. *)
Definition toInt64 (v : Z) : Z := if v <? 2 ^ 63 then v else v - 2 ^ 64.

Definition checkFile (file : string) : bool := canOpen file.

(** The shapes of the cases of [load]: nothing without an argument; a file that
    must be there; a flag that ignores what is neither on nor off. *)
Definition withArg (args : list string) (ss : sslOptions) (k : string → res (option sslOptions))
    : res (option sslOptions) :=
  match args with [] => Ok (Some ss) | a :: _ => k a end.
Definition fileCase (args : list string) (store : string → sslOptions → sslOptions) (ss : sslOptions)
    : res (option sslOptions) :=
  withArg args ss (λ f, Ok (if checkFile f then Some (store f ss) else None)).
Definition onOffCase (args : list string) (store : bool → sslOptions → sslOptions) (ss : sslOptions)
    : res (option sslOptions) :=
  withArg args ss (λ a, Ok (Some (
    if (a =? "on")%string then store true ss
    else if (a =? "off")%string then store false ss
    else ss))).

(** [sslOptions.load]: [None] for an error, which leaves the options alone. *)
Definition sslOptions_load (r : rule) (ss : sslOptions) : res (option sslOptions) :=
  let args := rule_args r in
  let named s := (rule_name r =? s)%string in
  if named "ssl_buffer_size" then
    withArg args ss (λ a, Ok (v ← ToBytes a; Some (store_bufferSize (toInt64 v) ss)))
  else if named "ssl_certificate" then fileCase args store_certificate ss
  else if named "ssl_certificate_key" then fileCase args store_certificateKey ss
  else if named "ssl_ciphers" then
    withArg args ss (λ a,
      c ← openSSLCiphers a;
      Ok (c ← c; Some (store_ciphers (cipher_String <$> standardCiphers c) ss)))
  else if named "ssl_client_certificate" then fileCase args store_clientCertificate ss
  else if named "ssl_crl" then fileCase args store_crl ss
  else if named "ssl_dhparam" then fileCase args store_dhParam ss
  else if named "ssl_early_data" then onOffCase args store_earlData ss
  else if named "ssl_ecdh_curve" then withArg args ss (λ a, Ok (Some (store_ecdheCUrve a ss)))
  else if named "ssl_password_file" then fileCase args store_dhParam ss
  else if named "ssl_prefer_server_ciphers" then onOffCase args store_preferServerCiphers ss
  else if named "ssl_protocols" then withArg args ss (λ _, Ok (Some (store_protocols args ss)))
  else if named "ssl_session_cache" then withArg args ss (λ a, Ok (Some (store_ecdheCUrve a ss)))
  else if named "ssl_session_ticket_key" then fileCase args store_sessionTicketKey ss
  else if named "ssl_session_tickets" then onOffCase args store_sessionTickets ss
  else if named "ssl_session_timeout" then
    withArg args ss (λ a, Ok (d ← ParseDuration a; Some (store_timeout d ss)))
  else if named "ssl_stapling" then onOffCase args store_stapling ss
  else if named "ssl_stapling_file" then fileCase args store_staplingFile ss
  else if named "ssl_stapling_responder" then
    withArg args ss (λ u, Ok (_ ← urlParse u; Some (store_staplingResponder u ss)))
  else if named "ssl_stapling_verify" then onOffCase args store_staplingVerify ss
  else Ok (Some ss).

(** The loop over the directives of a block, left at the first error. *)
Fixpoint sslLoop (rules : list rule) (ss : sslOptions) : res sslOptions :=
  match rules with
  | [] => Ok ss
  | b :: bs =>
    r ← sslOptions_load b ss;
    match r with Some ss => sslLoop bs ss | None => Ok ss end
  end.

(** ** Listeners *)

Record httpListenOpts := mkListen {
  lnet : string;
  addrPort : string;
  defaultServer : bool;
  ssl : bool;
  http2 : bool;
  spdy : bool;
  proxyProtocol : bool;
  sslOpts : sslOptions;
}.

(** The network and the address that the first argument names. *)
Definition listenAddr (a defaultPort : string) : string * string :=
  match Atoi a with
  | Some _ => ("tcp", IP_String IPv4zero +:+ ":" +:+ a)
  | None =>
    match ParseIP a with
    | Some ip => ("tcp", IP_String ip +:+ ":" +:+ defaultPort)
    | None =>
      match SplitHostPort a with
      | Some (h, p) => if (h =? "unix")%string then (h, p) else ("tcp", a)
      | None =>
        if (a =? "localhost")%string || (a =? "[::]")%string || (a =? "[::1]")%string
        then ("tcp", a +:+ ":" +:+ defaultPort)
        else match urlParse a with Some (scheme, host) => (scheme, host) | None => ("", "") end
      end
    end
  end.

(** One of the further arguments. *)
Definition listenFlag (ls : httpListenOpts) (a : string) : httpListenOpts :=
  let named s := (a =? s)%string in
  mkListen (lnet ls) (addrPort ls) (named "default_server" || defaultServer ls) (named "ssl" || ssl ls)
    (named "http2" || http2 ls) (named "spdy" || spdy ls) (named "proxy_protocol" || proxyProtocol ls) (sslOpts ls).

(** The rule above the one at a path: a nil pointer above the root. *)
Definition parentRule (root : rule) (path : list nat) : res (list nat * rule) :=
  match path with
  | [] => Panic NilDereference
  | _ =>
    match ruleAt root (removelast path) with
    | Some r => Ok (removelast path, r)
    | None => Panic NilDereference
    end
  end.

(** [parseListen] of the rule [r] at a path of the tree. *)
Definition parseListen (root : rule) (path : list nat) (r : rule) (defaultPort : string)
    : res httpListenOpts :=
  let ls :=
    match rule_args r with
    | [] => mkListen "" "" false false false false false zeroSsl
    | a :: more =>
      let '(n, ap) := listenAddr a defaultPort in
      foldl listenFlag (mkListen n ap false false false false false zeroSsl) more
    end in
  if ssl ls then
    '(serverPath, serverRule) ← parentRule root path;
    '(_, httpRule) ← parentRule root serverPath;
    so ← sslLoop (rule_children httpRule) (sslOpts ls);
    so ← sslLoop (rule_children serverRule) so;
    Ok (mkListen (lnet ls) (addrPort ls) (defaultServer ls) (ssl ls) (http2 ls) (spdy ls)
          (proxyProtocol ls) so)
  else Ok ls.

(** [findListener]: the listeners of the server at a path. *)
Definition findListener (root : rule) (path : list nat) (r : rule) (port : Z) : res (list httpListenOpts) :=
  let p := Itoa port in
  go_concat_map (λ '(vpath, v),
    if (rule_name v =? "listen")%string then ls ← parseListen root vpath v p; Ok [ls] else Ok [])
    (kids path r).

(** ** Grouping the servers by address *)

(** The two maps of [serverCtx.http] that [process] fills first. *)
Record addressMaps := mkMaps {
  address : gmap string httpListenOpts;
  serverRules : gmap string (list (list nat * rule));
}.

(** The server blocks of the http blocks, in order. *)
Definition httpServers (core : rule) : list (list nat * rule) :=
  kids [] core ≫= λ '(bpath, base),
    if (rule_name base =? "http")%string
    then filter (λ c, rule_name (snd c) = "server") (kids bpath base) else [].

Definition addListener (v : list nat * rule) (m : addressMaps) (ls : httpListenOpts) : addressMaps :=
  let k := addrPort ls in
  mkMaps
    (match address m !! k with Some _ => address m | None => <[k := ls]> (address m) end)
    (match serverRules m !! k with
     | Some a => <[k := a ++ [v]]> (serverRules m)
     | None => <[k := [v]]> (serverRules m)
     end).

Fixpoint processServers (core : rule) (port : Z) (servers : list (list nat * rule)) (m : addressMaps)
    : res addressMaps :=
  match servers with
  | [] => Ok m
  | v :: vs =>
    ls ← findListener core (fst v) (snd v) port;
    processServers core port vs (foldl (addListener v) m ls)
  end.

(** The first half of [process]: the listening sockets and the HTTP servers are
    then made one per key of [serverRules]. *)
Definition process (core : rule) (port : Z) : res addressMaps :=
  processServers core port (httpServers core) (mkMaps ∅ ∅).
End Options.

(** One case of [load] after the other; in each the field is what it was or
    what the case stores. *)
Ltac load_cases H :=
  repeat match type of H with
  | (if (?n =? ?s)%string then _ else _) = _ =>
      let Eq := fresh "Eq" in
      destruct (n =? s)%string eqn:Eq; [apply String.eqb_eq in Eq; subst n|]
  end.
Ltac load_result H :=
  try (apply bind_Ok_inv in H as (? & _ & H));
  apply (inj Ok) in H;
  try (apply bind_Some in H as (? & _ & H));
  repeat match type of H with context [if ?b then _ else _] => destruct b end;
  try discriminate H; apply (inj Some) in H; subst.

(** ** The servers of an address *)

Section Facts.
Context `{E : Env}.

(** Every listener of every server, in the order of the configuration. *)
Definition listens (core : rule) (port : Z) (servers : list (list nat * rule))
    : res (list ((list nat * rule) * httpListenOpts)) :=
  go_concat_map (λ v, ls ← findListener core (fst v) (snd v) port; Ok (map (pair v) ls)) servers.

Definition onAddr (k : string) (ps : list ((list nat * rule) * httpListenOpts))
    : list ((list nat * rule) * httpListenOpts) := filter (λ p, addrPort (snd p) = k) ps.

(** What the maps hold after the listeners [ps]. *)
Definition groups (ps : list ((list nat * rule) * httpListenOpts)) (m : addressMaps) : Prop :=
  ∀ k, address m !! k = snd <$> head (onAddr k ps) ∧
       serverRules m !! k = match onAddr k ps with [] => None | l => Some l.*1 end.

Lemma onAddr_app k ps qs : onAddr k (ps ++ qs) = onAddr k ps ++ onAddr k qs.
Proof. apply filter_app. Qed.

Lemma addListener_groups v l ps m : groups ps m → groups (ps ++ [(v, l)]) (addListener v m l).
Proof.
  intros H k. destruct (H k) as [H1 H2]. rewrite onAddr_app. unfold onAddr at 2 4. rewrite filter_cons, filter_nil.
  unfold addListener. simpl. destruct (decide (addrPort l = k)) as [<-|Hne]; simpl.
  - rewrite H1, H2. destruct (onAddr (addrPort l) ps) as [|p ps'] eqn:Eo; simpl.
    + by rewrite !lookup_insert_eq.
    + rewrite H1. simpl. rewrite lookup_insert_eq, fmap_app. done.
  - rewrite app_nil_r. split.
    + rewrite <- H1. destruct (address m !! addrPort l); [done|]. by rewrite lookup_insert_ne.
    + etrans; [|exact H2]. destruct (serverRules m !! addrPort l); by rewrite lookup_insert_ne.
Qed.

Lemma addListeners_groups v ls ps m : groups ps m →
  groups (ps ++ map (pair v) ls) (foldl (addListener v) m ls).
Proof.
  revert ps m. induction ls as [|l ls IH]; intros ps m H; simpl; [by rewrite app_nil_r|].
  rewrite cons_middle, (assoc_L app). apply IH. by apply addListener_groups.
Qed.

Lemma processServers_groups core port servers ps m m' : groups ps m →
  processServers core port servers m = Ok m' →
  ∃ qs, listens core port servers = Ok qs ∧ groups (ps ++ qs) m'.
Proof.
  revert ps m. induction servers as [|v vs IH]; intros ps m Hg H; simpl in H.
  - injection H as <-. exists []. by rewrite app_nil_r.
  - inv_bind. destruct (IH _ _ (addListeners_groups v a ps m Hg) H) as (qs & Hq & HG).
    exists (map (pair v) a ++ qs). rewrite (assoc_L app). split; [|done].
    unfold listens in *. simpl. rewrite H0. simpl. rewrite Hq. done.
Qed.

Lemma kids_located root path r s : ruleAt root path = Some r → s ∈ kids path r →
  ruleAt root (fst s) = Some (snd s).
Proof.
  intros Hr Hs. unfold kids in Hs. apply list_elem_of_lookup in Hs as [i Hi].
  rewrite list_lookup_imap in Hi. destruct (rule_children r !! i) as [c|] eqn:Ec; [|done].
  injection Hi as <-. simpl. rewrite ruleAt_app, Hr. simpl. by rewrite Ec.
Qed.

(** The servers are the rules at their paths. *)
Lemma httpServers_located core s : s ∈ httpServers core → ruleAt core (fst s) = Some (snd s).
Proof.
  unfold httpServers. rewrite list_elem_of_bind. intros ([bpath base] & Hs & Hb).
  apply (kids_located core [] core) in Hb; [|done]. simpl in Hb.
  destruct (rule_name base =? "http")%string; [|by apply elem_of_nil in Hs].
  apply list_elem_of_filter in Hs as [_ Hs]. by apply (kids_located core bpath base).
Qed.

(** C19: [process] groups the servers by address. An address has a listener
    exactly when some server of an http block listens on it; its options are
    those of the first such directive, and its servers are all that listen
    there, in the order of the configuration. *)
Theorem process_groups core port m :
  process core port = Ok m →
  ∃ ps, listens core port (httpServers core) = Ok ps ∧
    ∀ k, address m !! k = snd <$> head (onAddr k ps) ∧
         serverRules m !! k = match onAddr k ps with [] => None | l => Some l.*1 end.
Proof.
  intros H. apply (processServers_groups core port _ [] (mkMaps ∅ ∅)) in H.
  - exact H.
  - intros k. simpl. by rewrite !lookup_empty.
Qed.

(** ** The ssl options of a listener *)

(** The last directive of a list that is one of [names] and has an argument. *)
Definition lastArg (names : list string) (rules : list rule) (v0 : stringValue) : stringValue :=
  foldl (λ v r, if existsb (String.eqb (rule_name r)) names
                then match rule_args r with [] => v | a :: _ => mkValue true a end else v) v0 rules.

(** A directive that [load] accepts. *)
Definition loads (r : rule) : Prop := ∀ ss, sslOptions_load r ss ≠ Ok None.

(** [π] is a field that exactly the directives [names] store to. *)
Definition storedBy (π : sslOptions → stringValue) (names : list string) : Prop :=
  ∀ r ss ss', sslOptions_load r ss = Ok (Some ss') → π ss' = lastArg names [r] (π ss).

Lemma sslLoop_stored π names rules ss ss' : storedBy π names → Forall loads rules →
  sslLoop rules ss = Ok ss' → π ss' = lastArg names rules (π ss).
Proof.
  intros Hs HF. revert ss. induction HF as [|r rules Hr _ IH]; intros ss H; simpl in H.
  - by injection H as <-.
  - apply bind_Ok_inv in H as ([ss1|] & H1 & H); [|by apply Hr in H1].
    apply Hs in H1. rewrite (IH _ H), H1. done.
Qed.

(** Each case stores or leaves a field. *)
Ltac solve_stored :=
  intros [nm args kids] ss ss' H; unfold sslOptions_load in H; cbn [rule_name rule_args] in H; load_cases H;
  unfold fileCase, onOffCase, withArg in H; destruct args as [|a args]; load_result H;
  cbn [lastArg foldl existsb rule_name rule_args];
  repeat match goal with Eq : (nm =? _)%string = false |- _ => rewrite ?Eq; clear Eq end; reflexivity.

Lemma certificate_stored : storedBy certificate ["ssl_certificate"].
Proof. solve_stored. Qed.
Lemma certificateKey_stored : storedBy certificateKey ["ssl_certificate_key"].
Proof. solve_stored. Qed.
Lemma dhParam_stored : storedBy dhParam ["ssl_dhparam"; "ssl_password_file"].
Proof. solve_stored. Qed.
Lemma ecdheCUrve_stored : storedBy ecdheCUrve ["ssl_ecdh_curve"; "ssl_session_cache"].
Proof. solve_stored. Qed.
Lemma passwordFile_stored : storedBy passwordFile [].
Proof. solve_stored. Qed.
Lemma sessionCache_stored : storedBy sessionCache [].
Proof. solve_stored. Qed.

Lemma lastArg_app names rs rs' v : lastArg names (rs ++ rs') v = lastArg names rs' (lastArg names rs v).
Proof. apply foldl_app. Qed.

Lemma lastArg_nil rs v : lastArg [] rs v = v.
Proof. induction rs as [|r rs IH]; [done|]. simpl. exact IH. Qed.

(** What the two loops of [parseListen] leave in a field. *)
Lemma sslLoops_stored π names http server ss ss1 ss2 : storedBy π names →
  Forall loads (http ++ server) → sslLoop http ss = Ok ss1 → sslLoop server ss1 = Ok ss2 →
  π ss2 = lastArg names (http ++ server) (π ss).
Proof.
  intros Hs [H1 H2]%Forall_app Hh Hv. rewrite lastArg_app.
  by rewrite (sslLoop_stored π names server ss1 ss2 Hs H2 Hv), (sslLoop_stored π names http ss ss1 Hs H1 Hh).
Qed.

Lemma listenFlags_sslOpts more ls : sslOpts (foldl listenFlag ls more) = sslOpts ls.
Proof. revert ls. induction more as [|a more IH]; intros ls; simpl; [done|]. by rewrite IH. Qed.

(** The certificate and the key of an ssl listener are those of the last
    directive in the http block and then the server block: a directive of the
    server overrides the one of the http block. The directives for the password
    file and the session cache end up in the fields of the Diffie-Hellman
    parameters and of the curve; their own fields stay empty. *)
Theorem parseListen_ssl core path r port ls server http :
  parseListen core path r port = Ok ls → ssl ls = true →
  ruleAt core (removelast path) = Some server →
  ruleAt core (removelast (removelast path)) = Some http →
  Forall loads (rule_children http ++ rule_children server) →
  let ds := rule_children http ++ rule_children server in
  certificate (sslOpts ls) = lastArg ["ssl_certificate"] ds zeroString ∧
  certificateKey (sslOpts ls) = lastArg ["ssl_certificate_key"] ds zeroString ∧
  dhParam (sslOpts ls) = lastArg ["ssl_dhparam"; "ssl_password_file"] ds zeroString ∧
  ecdheCUrve (sslOpts ls) = lastArg ["ssl_ecdh_curve"; "ssl_session_cache"] ds zeroString ∧
  passwordFile (sslOpts ls) = zeroString ∧ sessionCache (sslOpts ls) = zeroString.
Proof.
  intros H Hssl Hserver Hhttp HF ds. unfold parseListen in H.
  set (ls0 := match rule_args r with [] => _ | _ => _ end) in H.
  assert (Hz : sslOpts ls0 = zeroSsl).
  { unfold ls0. destruct (rule_args r) as [|a more]; [done|]. destruct (listenAddr a port).
    by rewrite listenFlags_sslOpts. }
  destruct (ssl ls0) eqn:E0; [|injection H as <-; congruence].
  unfold parentRule in H. rewrite Hserver in H. destruct path as [|i path]; [done|]. cbn [mbind res_bind] in H.
  rewrite Hhttp in H. destruct (removelast (i :: path)) as [|j p'] eqn:Ep; [done|]. cbn [mbind res_bind] in H.
  inv_bind. rewrite Hz in *. cbn [sslOpts].
  repeat split; (etrans; [eapply sslLoops_stored; [|exact HF|eassumption|eassumption]; clear|]);
    first [apply certificate_stored | apply certificateKey_stored | apply dhParam_stored
          | apply ecdheCUrve_stored | apply passwordFile_stored | apply sessionCache_stored
          | done | apply lastArg_nil].
Qed.
End Facts.

(** A configuration with two servers on one address. *)
#[local] Instance sampleEnv : Env := {|
  ToBytes _ := None; canOpen _ := true; ParseDuration _ := None; urlParse _ := None; opensslOutput _ := None |}.
Definition secureServer : rule :=
  mkRule "server" [] [mkRule "listen" ["443"; "ssl"] []; mkRule "ssl_certificate" ["/s.pem"] []].
Definition plainServer : rule := mkRule "server" [] [mkRule "listen" ["443"] []; mkRule "listen" ["::1"] []].
Definition httpBlock : rule :=
  mkRule "http" [] [mkRule "ssl_certificate" ["/h.pem"] []; mkRule "ssl_certificate_key" ["/h.key"] [];
                    secureServer; plainServer].
Definition sampleCore : rule := mkRule "main" [] [httpBlock].
Definition sampleMaps : addressMaps :=
  match process sampleCore 80 with Ok m => m | _ => mkMaps ∅ ∅ end.
Definition sampleListen : httpListenOpts :=
  match parseListen sampleCore [0%nat; 2%nat; 0%nat] (mkRule "listen" ["443"; "ssl"] []) "80" with
  | Ok ls => ls
  | _ => mkListen "" "" false false false false false zeroSsl
  end.

Lemma process_groups_witness :
  serverRules sampleMaps !! "0.0.0.0:443" =
    Some [([0%nat; 2%nat], secureServer); ([0%nat; 3%nat], plainServer)] ∧
  ∃ ps, listens sampleCore 80 (httpServers sampleCore) = Ok ps ∧
    ∀ k, address sampleMaps !! k = snd <$> head (onAddr k ps) ∧
         serverRules sampleMaps !! k = match onAddr k ps with [] => None | l => Some l.*1 end.
Proof.
  split; [vm_compute; reflexivity|].
  apply (process_groups sampleCore 80 sampleMaps). vm_compute. reflexivity.
Defined.

Lemma parseListen_ssl_witness :
  certificate (sslOpts sampleListen) = mkValue true "/s.pem" ∧
  certificateKey (sslOpts sampleListen) = mkValue true "/h.key" ∧
  dhParam (sslOpts sampleListen) = zeroString ∧ ecdheCUrve (sslOpts sampleListen) = zeroString ∧
  passwordFile (sslOpts sampleListen) = zeroString ∧ sessionCache (sslOpts sampleListen) = zeroString.
Proof.
  apply (parseListen_ssl sampleCore [0%nat; 2%nat; 0%nat] (mkRule "listen" ["443"; "ssl"] []) "80"
           sampleListen secureServer httpBlock).
  - vm_compute. reflexivity.
  - vm_compute. reflexivity.
  - vm_compute. reflexivity.
  - vm_compute. reflexivity.
  - repeat (apply Forall_cons; split; [intros ss; vm_compute; discriminate|]). apply Forall_nil. exact I.
Defined.
