(* ===== verification/Serve.v ===== *)
(** * Serving a request (src/ngx_startup.go: vinceHandler)

    The handler of an address: the server for the host name, the location for
    the path, then the chain of the directives in force there.  The locations of
    a server are computed at its first request and kept in a map that all
    requests share; the map is the state that is passed along. *)

From S2P Require Import Prelude GoStrings GoNet Routing RoutingFacts Servers Template Access.

#[local] Open Scope Z_scope.

Section Serve.
Context `{R : Regexp} `{T : TextTemplate}.
Context (sortLarge : list locRule → res (list locRule)).
Context (proxyNew : list nat → res handler).
(** The rule tree and the servers of the address. *)
Context (core : rule) (servers : list (list nat * rule)).

(** The shared map [location]: the key is the server. *)
Abbreviation locations := (gmap (list nat) (list locRule)).

(** The locations of a server, from the map or computed and stored. *)
Definition serverLocations (srv : list nat * rule) (location : locations)
    : res (list locRule) * locations :=
  match location !! fst srv with
  | Some loc => (Ok loc, location)
  | None =>
    match load (fst srv) (snd srv) with
    | Ok loc => (Ok loc, <[fst srv := loc]> location)
    | Panic p => (Panic p, location)
    | OutOfFuel => (OutOfFuel, location)
    end
  end.

(** The end of the handler, once the location is known. *)
Definition serveLocation (loc : list locRule) (r : request) : res (list event) :=
  l ← locationMatch_match sortLarge loc (reqPath r);
  match l with
  | Some l => serveChain proxyNew (overide (collect core (loc_path l) None)) r
  | None => Ok [HttpError StatusNotFound]
  end.

(** The request handler.  [hm] is the matcher that was set up for the address;
    [order] and [reOrder] are the orders in which its maps are walked.  A panic
    ends the request; the map keeps what was stored before. *)
Definition serveHTTP (hm : handlerMatch) (order : list string) (reOrder : list (regexp * nat))
    (location : locations) (r : request) : res (list event) * locations :=
  match (i ← selectServer (snd <$> servers) hm order reOrder (reqHost r); go_index servers i) with
  | Ok srv =>
    let '(loc, location) := serverLocations srv location in
    (loc ← loc; serveLocation loc r, location)
  | Panic p => (Panic p, location)
  | OutOfFuel => (OutOfFuel, location)
  end.

(** [vinceHandler]: the matcher without a default server (the map of default
    servers is never filled), then the requests one after the other. *)
Definition vinceHandler : res handlerMatch := handlerMatch_init (snd <$> servers) None.

Fixpoint serveAll (hm : handlerMatch) (location : locations)
    (reqs : list (list string * list (regexp * nat) * request)) : list (res (list event)) :=
  match reqs with
  | [] => []
  | (order, reOrder, r) :: rs =>
    let '(out, location) := serveHTTP hm order reOrder location r in
    out :: serveAll hm location rs
  end.

(** ** The map of locations is transparent *)

(** Each server is the rule at its path. *)
Definition wellLocated : Prop := ∀ srv, srv ∈ servers → ruleAt core (fst srv) = Some (snd srv).

(** What the map holds are the locations of the server it is looked up for. *)
Definition locationsOK (location : locations) : Prop :=
  ∀ srv loc, srv ∈ servers → location !! fst srv = Some loc → load (fst srv) (snd srv) = Ok loc.

Lemma serverLocations_ok srv location : locationsOK location → srv ∈ servers →
  fst (serverLocations srv location) = load (fst srv) (snd srv) ∧
  (wellLocated → locationsOK (snd (serverLocations srv location))).
Proof.
  intros H Hs. unfold serverLocations. destruct (location !! fst srv) as [loc|] eqn:El.
  - split; [|done]. simpl. by rewrite (H srv loc).
  - destruct (load (fst srv) (snd srv)) as [loc| |] eqn:Ed; simpl; (split; [done|]); [|done..].
    intros HN srv' loc' Hs' Hl. destruct (decide (fst srv' = fst srv)) as [He|Hne].
    + rewrite He, lookup_insert_eq in Hl. injection Hl as <-.
      pose proof (HN _ Hs) as E1. pose proof (HN _ Hs') as E2. rewrite He in *. congruence.
    + rewrite lookup_insert_ne in Hl by done. by apply H.
Qed.

Lemma serveHTTP_transparent hm order reOrder location r : locationsOK location → wellLocated →
  fst (serveHTTP hm order reOrder location r) = fst (serveHTTP hm order reOrder ∅ r) ∧
  locationsOK (snd (serveHTTP hm order reOrder location r)).
Proof.
  intros H HN. unfold serveHTTP.
  destruct (i ← selectServer (snd <$> servers) hm order reOrder (reqHost r); go_index servers i)
    as [srv| |] eqn:E; [|done..].
  assert (Hs : srv ∈ servers).
  { inv_bind. unfold go_index in E. case_match; inv_bind. by eapply list_elem_of_lookup_2. }
  assert (H0 : locationsOK ∅) by (intros s l _; by rewrite lookup_empty).
  destruct (serverLocations_ok srv location H Hs) as [E1 K]. specialize (K HN).
  destruct (serverLocations_ok srv ∅ H0 Hs) as [E2 _].
  destruct (serverLocations srv location), (serverLocations srv ∅). simpl in *. by subst.
Qed.

Lemma serveAll_transparent hm location reqs : locationsOK location → wellLocated →
  serveAll hm location reqs =
  (λ '(order, reOrder, r), fst (serveHTTP hm order reOrder ∅ r)) <$> reqs.
Proof.
  intros H HN. revert location H. induction reqs as [|[[order reOrder] r] reqs IH]; intros location H; [done|].
  simpl. destruct (serveHTTP_transparent hm order reOrder location r H HN) as [E K].
  destruct (serveHTTP hm order reOrder location r). simpl in *. rewrite E. f_equal. by apply IH.
Qed.

(** C32: the shared map of locations does not change any answer: whatever
    requests came before, and also when some of them ended in a panic, each
    request is answered as if it were the first. *)
Theorem serveAll_independent hm reqs : wellLocated →
  serveAll hm ∅ reqs = (λ '(order, reOrder, r), fst (serveHTTP hm order reOrder ∅ r)) <$> reqs.
Proof. intros HN. apply serveAll_transparent; [|done]. intros s l _. by rewrite lookup_empty. Qed.

(** C9: what a request gets. For the server that the host name selects and the
    location that the path selects, the directives that stand before the
    location in its blocks and inside it are applied in document order: the
    first access directive decides, and the proxy of the location or the 404
    page answers. *)
Theorem serveHTTP_location hm order reOrder location r i srv loc l a :
  locationsOK location → wellLocated →
  selectServer (snd <$> servers) hm order reOrder (reqHost r) = Ok i →
  servers !! i = Some srv → load (fst srv) (snd srv) = Ok loc →
  locationMatch_match sortLarge loc (reqPath r) = Ok (Some l) →
  chain proxyNew (inForce core (loc_path l)) = Ok a → passthrough r = false →
  fst (serveHTTP hm order reOrder location r) =
  accessLogMiddleware (chainSpec proxyNew (inForce core (loc_path l))) r.
Proof.
  intros HL HN Hsel Hi Hload Hm Ha Hp.
  destruct (serveHTTP_transparent hm order reOrder location r HL HN) as [-> _].
  unfold serveHTTP. rewrite Hsel. simpl. unfold go_index. rewrite Hi. simpl.
  unfold serverLocations. rewrite lookup_empty, Hload. simpl.
  unfold serveLocation. rewrite Hm. simpl. unfold overide, collect.
  rewrite collectFrom_before, <- inForce_before. fold (inForce core (loc_path l)).
  by eapply serveChain_spec.
Qed.
End Serve.

(** Two servers; the first has a location behind an access directive. *)
#[local] Existing Instance noRegexp.
#[local] Existing Instance bareTemplate.
Definition guarded : rule :=
  mkRule "server" [] [mkRule "server_name" ["a.org"] []; mkRule "allow" ["10.0.0.1"] [];
    mkRule "location" ["/app"] [mkRule "deny" ["all"] []; mkRule "proxy_pass" ["http://up"] []]].
Definition other : rule := mkRule "server" [] [mkRule "server_name" ["b.org"] []].
Definition tree : rule := mkRule "main" [] [mkRule "http" [] [guarded; other]].
Definition treeServers : list (list nat * rule) := [([0%nat; 0%nat], guarded); ([0%nat; 1%nat], other)].
Definition treeMatch : handlerMatch :=
  match vinceHandler treeServers with Ok h => h | _ => mkHandlerMatch [] ∅ ∅ None end.
Definition appRequest (ip : string) : request :=
  mkRequest "a.org" "/app/x" "" "" (ip +:+ ":4000") false None (mkLogCtx None None None (Some false)) None "0".
Definition sortNothing : list locRule → res (list locRule) := λ m, Ok m.

Lemma treeServers_located : wellLocated tree treeServers.
Proof.
  intros srv H. unfold treeServers in H. rewrite !elem_of_cons, elem_of_nil in H.
  destruct H as [->|[->|[]]]; reflexivity.
Qed.

Lemma serveAll_independent_witness :
  serveAll sortNothing recordProxy tree treeServers treeMatch ∅
    [([], [], appRequest "10.0.0.1"); ([], [], appRequest "10.0.0.2")] =
  [Ok [Proxied [0%nat; 0%nat; 2%nat] (set_accessAllowed true (appRequest "10.0.0.1"))];
   Ok [HttpError 403]].
Proof.
  transitivity ((λ '(order, reOrder, r),
      fst (serveHTTP sortNothing recordProxy tree treeServers treeMatch order reOrder ∅ r)) <$>
    [([] : list string, [] : list (regexp * nat), appRequest "10.0.0.1"); ([], [], appRequest "10.0.0.2")]).
  - apply (serveAll_independent sortNothing recordProxy tree treeServers treeMatch
      [([], [], appRequest "10.0.0.1"); ([], [], appRequest "10.0.0.2")]).
    apply treeServers_located.
  - vm_compute. reflexivity.
Defined.

Definition appLocation : locRule :=
  mkLoc matchPrefix [0%nat; 0%nat; 2%nat]
    (mkRule "location" ["/app"] [mkRule "deny" ["all"] []; mkRule "proxy_pass" ["http://up"] []]) None.

Definition appChain : list (handler → handler) :=
  [accessLogMiddleware; nextHandler; nginxAccess_handle (nginxAccess_init "10.0.0.1" true);
   nginxAccess_handle (nginxAccess_init "all" false);
   wrap (λ r, Ok [Proxied [0%nat; 0%nat; 2%nat] r]) true].

Lemma serveHTTP_location_witness :
  fst (serveHTTP sortNothing recordProxy tree treeServers treeMatch [] [] ∅ (appRequest "10.0.0.2")) =
  accessLogMiddleware (chainSpec recordProxy (inForce tree [0%nat; 0%nat; 2%nat])) (appRequest "10.0.0.2").
Proof.
  apply (serveHTTP_location sortNothing recordProxy tree treeServers treeMatch [] [] ∅ (appRequest "10.0.0.2")
    0%nat ([0%nat; 0%nat], guarded) [appLocation] appLocation appChain).
  - intros s l _. rewrite lookup_empty. discriminate.
  - apply treeServers_located.
  - vm_compute. reflexivity.
  - reflexivity.
  - vm_compute. reflexivity.
  - vm_compute. reflexivity.
  - reflexivity.
  - reflexivity.
Defined.
