(* ===== verification/GoJSON.v ===== *)
(** * JSON objects: what the code uses of Go's package encoding/json

    The code marshals flat structs whose fields are strings, integers, slices of
    strings and times, and unmarshals them again, sometimes into another struct
    than the one that was written.  The text itself is a parameter ([JSON]) with
    its documented behaviour as law ([JSONLaws]); the treatment of the fields is
    spelled out: names match exactly or without regard to case, unknown names
    are ignored, missing names leave the zero value, a value of another type is
    an error, text that is not UTF-8 is replaced when it is written, and a time
    outside the years 0 to 9999 cannot be written. *)

From S2P Require Import Prelude GoStrings.

#[local] Open Scope Z_scope.

(** A nil slice is written as null and read back as nil; it is [JStrs []] here,
    since no code tells nil from empty.  A time is in nanoseconds since the zero
    time. *)
Inductive jvalue :=
| JStr (s : string)
| JNum (n : Z)
| JStrs (l : list string)
| JTime (t : Z).

#[global] Instance jvalue_eq_dec : EqDecision jvalue.
Proof. solve_decision. Defined.

(** The fields of an object in the order in which they are written. *)
Abbreviation object := (list (string * jvalue)).

(** ** Text *)

(** Bytes that are not UTF-8 are written as U+FFFD. *)
Definition validUTF8 (s : string) : string := runesString (utf8Decode s).

Definition coerceValue (v : jvalue) : jvalue :=
  match v with
  | JStr s => JStr (validUTF8 s)
  | JStrs l => JStrs (validUTF8 <$> l)
  | _ => v
  end.
Definition coerceObject (o : object) : object := (λ '(k, v), (validUTF8 k, coerceValue v)) <$> o.

(** ** The codec *)

Class JSON := {
  marshalObject : object → string;
  unmarshalObject : string → option object;
}.

Class JSONLaws `{JSON} := {
  json_read_back o : unmarshalObject (marshalObject o) = Some (coerceObject o);
}.

(** The years 0 to 9999, counted from the zero time. *)
Definition jsonSecond : Z := 1000000000.
Definition jsonTime (t : Z) : bool :=
  (- (366 * 86400 * jsonSecond) <=? t) && (t <? 3652059 * 86400 * jsonSecond).
Definition jsonWritable (v : jvalue) : bool := match v with JTime t => jsonTime t | _ => true end.

(** [json.Marshal]. *)
Definition jsonMarshal `{JSON} (o : object) : option string :=
  if forallb (λ '(_, v), jsonWritable v) o then Some (marshalObject o) else None.

(** ** Reading the fields of a struct *)

(** The folding of names: ASCII letters, and the two other runes that fold to
    an ASCII letter, U+017F and U+212A. *)
Definition foldKey (s : string) : string :=
  ToLower (Replace (Replace s (runeString 0x17F) "s") (runeString 0x212A) "k").

(** The field of a struct with the fields [names] that a key is read into. *)
Definition fieldFor (names : list string) (k : string) : option string :=
  match List.find (String.eqb k) names with
  | Some n => Some n
  | None => List.find (λ n, String.eqb (foldKey k) (foldKey n)) names
  end.

(** The value that is read into a field: the last one for it. *)
Definition fieldValue (names : list string) (n : string) (o : object) : option jvalue :=
  foldl (λ acc '(k, v), if decide (fieldFor names k = Some n) then Some v else acc) None o.

Section Fields.
Context (names : list string) (o : object).

Definition stringField (n : string) : option string :=
  match fieldValue names n o with
  | None => Some ""
  | Some (JStr s) => Some s
  | Some _ => None
  end.

Definition intField (n : string) : option Z :=
  match fieldValue names n o with
  | None => Some 0
  | Some (JNum z) => Some z
  | Some _ => None
  end.

Definition stringsField (n : string) : option (list string) :=
  match fieldValue names n o with
  | None => Some []
  | Some (JStrs l) => Some l
  | Some _ => None
  end.

Definition timeField (n : string) : option Z :=
  match fieldValue names n o with
  | None => Some 0
  | Some (JTime t) => Some t
  | Some _ => None
  end.
End Fields.

(** ** Lemmas *)

Lemma validUTF8_valid s : validText s → validUTF8 s = s.
Proof. intros (rs & Hrs & ->). unfold validUTF8. by rewrite utf8Decode_runesString. Qed.

Lemma foldl_None_skip names n (o : object) acc :
  Forall (λ '(k, _), fieldFor names k ≠ Some n) o →
  foldl (λ acc '(k, v), if decide (fieldFor names k = Some n) then Some v else acc) acc o = acc.
Proof. revert acc. induction 1 as [|[k v] o Hk _ IH]; [done|]. simpl. by rewrite decide_False. Qed.

(** ** An instance

    Objects are countable, and the bits of their number are a text. *)

Definition jvalueSum (v : jvalue) : (string + Z) + (list string + Z) :=
  match v with
  | JStr s => inl (inl s) | JNum n => inl (inr n) | JStrs l => inr (inl l) | JTime t => inr (inr t)
  end.
Definition sumJvalue (x : (string + Z) + (list string + Z)) : jvalue :=
  match x with
  | inl (inl s) => JStr s | inl (inr n) => JNum n | inr (inl l) => JStrs l | inr (inr t) => JTime t
  end.

#[global] Instance jvalue_countable : Countable jvalue.
Proof. apply (inj_countable' jvalueSum sumJvalue). by intros []. Defined.

Fixpoint bitsText (p : positive) : string :=
  match p with
  | xH => ""
  | xO p => String (zbyte 48) (bitsText p)
  | xI p => String (zbyte 49) (bitsText p)
  end.
Fixpoint textBits (s : string) : option positive :=
  match s with
  | "" => Some xH
  | String a s' =>
    p ← textBits s';
    if decide (a = zbyte 48) then Some (xO p) else if decide (a = zbyte 49) then Some (xI p) else None
  end.

Lemma textBits_bitsText p : textBits (bitsText p) = Some p.
Proof. induction p as [p IH|p IH|]; simpl; rewrite ?IH; done. Qed.

Definition bitsJSON : JSON := {|
  marshalObject o := bitsText (encode (coerceObject o));
  unmarshalObject s := textBits s ≫= decode;
|}.
Lemma bitsJSON_laws : @JSONLaws bitsJSON.
Proof. split. intros o. simpl. rewrite textBits_bitsText. simpl. by rewrite decode_encode. Qed.
