(* ===== verification/GoURL.v ===== *)
(** * Requests and URLs: what the code uses of Go's packages net/url,
    net/http and encoding/base64

    The escaping of query components, [url.Values] with its two directions,
    [Request.BasicAuth] with base64.  [url.Parse] and [URL.String] stay
    parameters ([GoURL]). *)

From S2P Require Import Prelude GoStrings GoNet.

#[local] Open Scope Z_scope.

(** ** Query components *)

(** [url.QueryUnescape]. *)
Fixpoint QueryUnescape (s : string) : option string :=
  match s with
  | "" => Some ""
  | String a s' =>
    if byteZ a =? 37 then
      match s' with
      | String b (String c s'') =>
        h ← hexDigitVal b; l ← hexDigitVal c;
        r ← QueryUnescape s''; Some (String (zbyte (Z.lor (Z.shiftl h 4) l)) r)
      | _ => None
      end
    else r ← QueryUnescape s'; Some (String (if byteZ a =? 43 then zbyte 32 else a) r)
  end.

Definition unreserved (c : Z) : bool :=
  inRange c 97 122 || inRange c 65 90 || inRange c 48 57 ||
  (c =? 45) || (c =? 95) || (c =? 46) || (c =? 126).

Definition upperHex (d : Z) : Ascii.ascii := if d <? 10 then zbyte (48 + d) else zbyte (55 + d).

Definition escapeByte (a : Ascii.ascii) : string :=
  let c := byteZ a in
  if unreserved c then String a ""
  else if c =? 32 then "+"
  else String (zbyte 37) (String (upperHex (Z.shiftr c 4)) (String (upperHex (Z.land c 15)) "")).

(** [url.QueryEscape]. *)
Fixpoint QueryEscape (s : string) : string :=
  match s with "" => "" | String a s' => escapeByte a +:+ QueryEscape s' end.

(** ** [url.Values] *)

Abbreviation urlValues := (gmap string (list string)).

Definition Values_Get (v : urlValues) (k : string) : string :=
  match v !! k with Some (x :: _) => x | _ => "" end.
Definition Values_Set (k x : string) (v : urlValues) : urlValues := <[k := [x]]> v.
Definition Values_Add (k x : string) (v : urlValues) : urlValues := <[k := default [] (v !! k) ++ [x]]> v.

Definition valueKeyLe (a b : string) : Prop := String.leb a b = true.
#[global] Instance valueKeyLe_dec : RelDecision valueKeyLe.
Proof. unfold valueKeyLe. intros a b. apply _. Defined.

Definition encodePair (kv : string * string) : string := QueryEscape (fst kv) +:+ "=" +:+ QueryEscape (snd kv).
Definition valuePairs (v : urlValues) : list (string * string) :=
  k ← merge_sort valueKeyLe (map_to_list v).*1; (λ x, (k, x)) <$> default [] (v !! k).

(** [Values.Encode]: the keys are sorted. *)
Definition Values_Encode (v : urlValues) : string := Join (encodePair <$> valuePairs v) "&".

(** The text before and after the first byte [c]. *)
Fixpoint cutByte (c : Z) (s : string) : option (string * string) :=
  match s with
  | "" => None
  | String a s' =>
    if byteZ a =? c then Some ("", s')
    else '(x, y) ← cutByte c s'; Some (String a x, y)
  end.

Fixpoint splitAny (cs : list Z) (s : string) : list string :=
  match s with
  | "" => [""]
  | String a s' => if bool_decide (byteZ a ∈ cs) then "" :: splitAny cs s' else consHead a (splitAny cs s')
  end.

(** The body of the loop of [url.parseQuery]; an escape that is wrong leaves the
    pair out. *)
Definition addPair (v : urlValues) (piece : string) : urlValues :=
  if (piece =? "")%string then v
  else
    let '(key, value) := default (piece, "") (cutByte 61 piece) in
    match QueryUnescape key, QueryUnescape value with
    | Some k, Some x => Values_Add k x v
    | _, _ => v
    end.

(** [URL.Query] on the raw query: pieces between [&] and [;], as Go read them up
    to release 1.16. *)
Definition ParseQuery (raw : string) : urlValues := foldl addPair ∅ (splitAny [38; 59] raw).

(** ** URLs *)

Record URL := mkURL {
  Scheme : string; Opaque : string; User : option string; Host : string;
  Path : string; RawPath : string; ForceQuery : bool; RawQuery : string; Fragment : string;
}.

Definition set_RawQuery (q : string) (u : URL) : URL :=
  mkURL (Scheme u) (Opaque u) (User u) (Host u) (Path u) (RawPath u) (ForceQuery u) q (Fragment u).
Definition set_Fragment (f : string) (u : URL) : URL :=
  mkURL (Scheme u) (Opaque u) (User u) (Host u) (Path u) (RawPath u) (ForceQuery u) (RawQuery u) f.

Class GoURL := {
  urlParse : string → option URL;
  urlString : URL → string;
}.

(** ** Basic authentication *)

(** A letter of the standard base64 alphabet. *)
Definition base64Val (a : Ascii.ascii) : option Z :=
  let c := byteZ a in
  if inRange c 65 90 then Some (c - 65)
  else if inRange c 97 122 then Some (c - 97 + 26)
  else if inRange c 48 57 then Some (c - 48 + 52)
  else if c =? 43 then Some 62
  else if c =? 47 then Some 63
  else None.

Fixpoint dropNewlines (s : string) : string :=
  match s with
  | "" => ""
  | String a s' => if (byteZ a =? 10) || (byteZ a =? 13) then dropNewlines s' else String a (dropNewlines s')
  end.

Definition isPad (a : Ascii.ascii) : bool := byteZ a =? 61.

Fixpoint decode64 (s : string) : option string :=
  match s with
  | "" => Some ""
  | String a (String b (String c (String d s'))) =>
    x ← base64Val a; y ← base64Val b;
    let b0 := zbyte (Z.lor (Z.shiftl x 2) (Z.shiftr y 4)) in
    if isPad c then
      if isPad d && (s' =? "")%string then Some (String b0 "") else None
    else
      z ← base64Val c;
      let b1 := zbyte (Z.land (Z.lor (Z.shiftl y 4) (Z.shiftr z 2)) 255) in
      if isPad d then
        if (s' =? "")%string then Some (String b0 (String b1 "")) else None
      else
        u ← base64Val d;
        let b2 := zbyte (Z.land (Z.lor (Z.shiftl z 6) u) 255) in
        r ← decode64 s'; Some (String b0 (String b1 (String b2 r)))
  | _ => None
  end.

(** [base64.StdEncoding.DecodeString]. *)
Definition base64Decode (s : string) : option string := decode64 (dropNewlines s).

(** [http.parseBasicAuth] on the value of the Authorization header. *)
Definition parseBasicAuth (auth : string) : option (string * string) :=
  if HasPrefix (ToLower auth) "basic " then
    c ← base64Decode (skipString 6 auth); cutByte 58 c
  else None.

(** ** Lemmas *)

Lemma upperHex_val d : 0 ≤ d < 16 → hexDigitVal (upperHex d) = Some d.
Proof.
  intros H. unfold upperHex, hexDigitVal, inRange.
  destruct (Z.ltb_spec d 10); rewrite byteZ_zbyte by lia;
    split_code; reflect_bools; f_equal; lia.
Qed.

Lemma byte_halves c : 0 ≤ c < 256 → Z.lor (Z.shiftl (Z.shiftr c 4) 4) (Z.land c 15) = c.
Proof.
  intros. change 15 with (Z.ones 4). rewrite Z.land_ones, Z.shiftr_div_pow2 by lia.
  rewrite lor_shiftl_add; [|lia|apply Z.mod_pos_bound; lia].
  pose proof (Z.div_mod c (2 ^ 4)). lia.
Qed.

Lemma unescape_escapeByte a s : QueryUnescape (escapeByte a +:+ s) = String a <$> QueryUnescape s.
Proof.
  pose proof (byteZ_range a) as Ha. unfold escapeByte.
  destruct (unreserved (byteZ a)) eqn:Eu.
  - rewrite string_app_cons, string_app_nil_l. cbn [QueryUnescape].
    unfold unreserved, inRange in Eu.
    replace (byteZ a =? 37) with false by lia. replace (byteZ a =? 43) with false by lia.
    by destruct (QueryUnescape s).
  - destruct (Z.eqb_spec (byteZ a) 32) as [E|E].
    + change ("+" +:+ s) with (String (zbyte 43) s). simpl.
      assert (a = zbyte 32) as -> by (by rewrite <- E, zbyte_byteZ). by destruct (QueryUnescape s).
    + rewrite !string_app_cons, string_app_nil_l. cbn [QueryUnescape].
      change (byteZ (zbyte 37) =? 37) with true. cbn [negb]. cbv iota.
      assert (0 ≤ Z.shiftr (byteZ a) 4 < 16).
      { rewrite Z.shiftr_div_pow2 by lia. change (2 ^ 4) with 16. split; [apply Z.div_pos; lia|].
        apply Z.div_lt_upper_bound; lia. }
      assert (0 ≤ Z.land (byteZ a) 15 < 16).
      { change 15 with (Z.ones 4). rewrite Z.land_ones by lia. apply Z.mod_pos_bound. lia. }
      rewrite !upperHex_val by done. simpl. rewrite byte_halves, zbyte_byteZ by done.
      by destruct (QueryUnescape s).
Qed.

Lemma unescape_escape s : QueryUnescape (QueryEscape s) = Some s.
Proof. induction s as [|a s IH]; [done|]. simpl. by rewrite unescape_escapeByte, IH. Qed.

(** The bytes that separate pairs are escaped. *)
Definition separators : list Z := [38; 59; 61].

Lemma upperHex_range d : 0 ≤ d < 16 → inRange (byteZ (upperHex d)) 48 57 = true ∨ inRange (byteZ (upperHex d)) 65 70 = true.
Proof.
  intros H. unfold upperHex, inRange.
  destruct (Z.ltb_spec d 10); rewrite byteZ_zbyte by lia; [left|right]; lia.
Qed.

Lemma escapeByte_clean c a : c ∈ separators → hasByte c (escapeByte a) = false.
Proof.
  intros Hc. assert (Hc' : c = 38 ∨ c = 59 ∨ c = 61) by set_solver. clear Hc.
  pose proof (byteZ_range a). unfold escapeByte. destruct (unreserved (byteZ a)) eqn:Eu.
  - unfold unreserved, inRange in Eu. cbn [hasByte]. lia.
  - destruct (byteZ a =? 32); [cbn [hasByte]; change (byteZ _) with 43; lia|]. cbn [hasByte].
    assert (H4 : 0 ≤ Z.shiftr (byteZ a) 4 < 16).
    { rewrite Z.shiftr_div_pow2 by lia. change (2 ^ 4) with 16. split; [apply Z.div_pos; lia|].
      apply Z.div_lt_upper_bound; lia. }
    assert (Hl : 0 ≤ Z.land (byteZ a) 15 < 16).
    { change 15 with (Z.ones 4). rewrite Z.land_ones by lia. apply Z.mod_pos_bound. lia. }
    apply upperHex_range in H4, Hl. rewrite byteZ_zbyte by lia. unfold inRange in *. lia.
Qed.

Lemma QueryEscape_clean c s : c ∈ separators → hasByte c (QueryEscape s) = false.
Proof.
  intros Hc. induction s as [|a s IH]; [done|]. cbn [QueryEscape].
  by rewrite hasByte_app, escapeByte_clean, IH.
Qed.

Lemma cutByte_app c s t : 0 ≤ c < 256 → hasByte c s = false →
  cutByte c (s +:+ String (zbyte c) t) = Some (s, t).
Proof.
  intros Hc. induction s as [|a s IH]; intros H.
  - rewrite string_app_nil_l. simpl. by rewrite byteZ_zbyte, Z.eqb_refl by done.
  - rewrite string_app_cons. simpl in *. apply orb_false_iff in H as [-> H]. by rewrite (IH H).
Qed.

Lemma splitAny_clean cs s : (∀ c, c ∈ cs → hasByte c s = false) → splitAny cs s = [s].
Proof.
  induction s as [|a s IH]; intros H; [done|]. simpl in *. rewrite bool_decide_false.
  - rewrite IH; [done|]. intros c Hc. apply H, orb_false_iff in Hc. by destruct Hc.
  - intros Ha. specialize (H _ Ha). by rewrite Z.eqb_refl in H.
Qed.

Lemma splitAny_app cs c s t : c ∈ cs → 0 ≤ c < 256 → (∀ c, c ∈ cs → hasByte c s = false) →
  splitAny cs (s +:+ String (zbyte c) t) = s :: splitAny cs t.
Proof.
  intros Hc Hr. induction s as [|a s IH]; intros H.
  - rewrite string_app_nil_l. simpl. by rewrite byteZ_zbyte, bool_decide_true.
  - rewrite string_app_cons. simpl in *. rewrite bool_decide_false.
    + rewrite IH; [done|]. intros c' Hc'. apply H, orb_false_iff in Hc'. by destruct Hc'.
    + intros Ha. specialize (H _ Ha). by rewrite Z.eqb_refl in H.
Qed.

Lemma encodePair_clean c kv : c ∈ [38; 59] → hasByte c (encodePair kv) = false.
Proof.
  intros Hc. assert (Hs : c ∈ separators) by set_solver. unfold encodePair.
  rewrite !hasByte_app, !QueryEscape_clean by done. assert (c = 38 ∨ c = 59) as [-> | ->] by set_solver; done.
Qed.

Lemma addPair_encodePair v kv : addPair v (encodePair kv) = Values_Add (fst kv) (snd kv) v.
Proof.
  unfold addPair, encodePair. change ("=" +:+ ?t) with (String (zbyte 61) t).
  destruct (String.eqb_spec (QueryEscape kv.1 +:+ String (zbyte 61) (QueryEscape kv.2)) "") as [E|_].
  { by apply string_app_eq_nil in E as [_ E]. }
  rewrite cutByte_app by (lia || (apply QueryEscape_clean; set_solver)). simpl.
  by rewrite !unescape_escape.
Qed.

Lemma parse_pairs kvs v : kvs ≠ [] →
  foldl addPair v (splitAny [38; 59] (Join (encodePair <$> kvs) "&")) =
  foldl (λ v kv, Values_Add (fst kv) (snd kv) v) v kvs.
Proof.
  revert v. induction kvs as [|kv kvs IH]; intros v Hne; [done|].
  assert (Hc : ∀ c, c ∈ [38; 59] → hasByte c (encodePair kv) = false) by (intros; by apply encodePair_clean).
  destruct kvs as [|kv' kvs].
  - simpl. rewrite splitAny_clean by done. simpl. by rewrite addPair_encodePair.
  - change (Join (encodePair <$> kv :: kv' :: kvs) "&")
      with (encodePair kv +:+ String (zbyte 38) (Join (encodePair <$> kv' :: kvs) "&")).
    rewrite splitAny_app; [|set_solver|lia|exact Hc].
    cbn [foldl]. rewrite addPair_encodePair. by apply IH.
Qed.

Abbreviation addAll := (foldl (λ v kv, Values_Add (fst kv) (snd kv) v)).

Lemma addAll_key k l (v : urlValues) : l ≠ [] →
  addAll v ((λ x, (k, x)) <$> l) = <[k := default [] (v !! k) ++ l]> v.
Proof.
  revert v. induction l as [|x l IH]; intros v Hne; [done|]. cbn [fmap list_fmap foldl fst snd].
  destruct l as [|y l]; [done|]. rewrite IH by done. unfold Values_Add.
  rewrite lookup_insert_eq, insert_insert_eq. cbn [default from_option id]. by rewrite <- app_assoc.
Qed.

Lemma addAll_keys (v acc : urlValues) ks :
  NoDup ks → (∀ k, k ∈ ks → ∃ l, v !! k = Some l ∧ l ≠ []) → (∀ k, k ∈ ks → acc !! k = None) →
  ∀ k, addAll acc (k ← ks; (λ x, (k, x)) <$> default [] (v !! k)) !! k =
       if decide (k ∈ ks) then v !! k else acc !! k.
Proof.
  intros Hnd. revert acc. induction Hnd as [|k0 ks Hk0 Hnd IH]; intros acc Hv Hacc k; [done|].
  destruct (Hv k0 (list_elem_of_here _ _)) as (l & Hl & Hne).
  cbn [mbind list_bind]. rewrite Hl. simpl. rewrite foldl_app, addAll_key by done.
  rewrite (Hacc k0 (list_elem_of_here _ _)). simpl. rewrite IH.
  - destruct (decide (k = k0)) as [->|Hk].
    + rewrite decide_False, decide_True by (done || set_solver). by rewrite lookup_insert_eq.
    + rewrite lookup_insert_ne by done. destruct (decide (k ∈ ks)), (decide (k ∈ k0 :: ks)); set_solver.
  - intros k' Hk'. apply Hv. set_solver.
  - intros k' Hk'. rewrite lookup_insert_ne by set_solver. apply Hacc. set_solver.
Qed.

(** The values that are encoded are read back. *)
Lemma ParseQuery_Encode (v : urlValues) : (∀ k l, v !! k = Some l → l ≠ []) →
  ParseQuery (Values_Encode v) = v.
Proof.
  intros Hne. unfold ParseQuery, Values_Encode.
  assert (Hp : Permutation (merge_sort valueKeyLe (map_to_list v).*1) (map_to_list v).*1)
    by apply merge_sort_Permutation.
  assert (Hall : addAll ∅ (valuePairs v) = v).
  { apply map_eq. intros k. unfold valuePairs. rewrite (addAll_keys v).
    - case_decide as H; [done|]. rewrite lookup_empty. symmetry. apply eq_None_not_Some. intros [l Hl].
      apply H. rewrite Hp, list_elem_of_fmap. exists (k, l). by rewrite elem_of_map_to_list.
    - rewrite Hp. apply NoDup_fst_map_to_list.
    - intros k'. rewrite Hp, list_elem_of_fmap. intros ([k2 l] & -> & Hkl%elem_of_map_to_list). eauto.
    - intros. apply lookup_empty. }
  destruct (valuePairs v) as [|kv kvs] eqn:E; [by rewrite <- Hall|].
  by rewrite parse_pairs, Hall.
Qed.
