(* ===== verification/KVStore.v ===== *)
(** * The key-value stores (src/oauth2_server.go, src/kv_store.go and the state
    machine of src/raft_badger_store.go)

    [kvStore] is the Go interface of that name and [kvStoreLaws] what its clients
    rely on; an operation may fail, and then changes nothing.  [kvStoreDB] is the
    implementation over badger, with its callbacks.  [fsm_Apply] and [kv_Set] are
    the replicated store: a leader submits commands to raft, which may fail, and
    every node applies the committed ones in order, unless its database refuses
    them. *)

From S2P Require Import Prelude GoStrings GoJSON RaftStore RaftFacts RaftInstance.

#[local] Open Scope Z_scope.

(** ** The interface *)

(** [badger.ErrKeyNotFound] is told from the other errors. *)
Inductive kvError := KeyNotFound | StoreFailure.

#[global] Instance kvError_eq_dec : EqDecision kvError.
Proof. solve_decision. Defined.

(** A Go []byte is a string here. *)
Class kvStore (St : Type) := {
  kv_get : string → St → string + kvError;
  kv_set : string → string → St → St * option kvError;
  kv_remove : string → St → St * option kvError;
}.

(** [kv_lookup] is what a store holds. *)
Class kvStoreLaws (St : Type) `{kvStore St} := {
  kv_lookup : St → string → option string;
  kv_get_found k s v : kv_get k s = inl v → kv_lookup s k = Some v;
  kv_get_missing k s : kv_get k s = inr KeyNotFound → kv_lookup s k = None;
  kv_set_done k v s s' : kv_set k v s = (s', None) →
    ∀ k', kv_lookup s' k' = if decide (k = k') then Some v else kv_lookup s k';
  kv_set_failed k v s s' e : kv_set k v s = (s', Some e) → ∀ k', kv_lookup s' k' = kv_lookup s k';
  kv_remove_done k s s' : kv_remove k s = (s', None) →
    ∀ k', kv_lookup s' k' = if decide (k = k') then None else kv_lookup s k';
  kv_remove_failed k s s' e : kv_remove k s = (s', Some e) → ∀ k', kv_lookup s' k' = kv_lookup s k';
}.

(** The keys that the database takes. *)
Definition storeKey (k : string) : bool := negb (k =? "")%string && negb (HasPrefix k "!badger!").

(** A store whose operations do not fail on these keys. *)
Class kvReliable (St : Type) `{kvStoreLaws St} := {
  kv_get_total k s : storeKey k = true → kv_get k s = match kv_lookup s k with Some v => inl v | None => inr KeyNotFound end;
  kv_set_total k v s : storeKey k = true → snd (kv_set k v s) = None;
  kv_remove_total k s : storeKey k = true → snd (kv_remove k s) = None;
}.

(** ** The implementation over badger *)

(** A goroutine that was started with [go]. *)
Inductive goroutine := SetCb (key : string) | RemoveCb (key : string).

Section DB.
Context {db : Type} `{B : Badger db}.

(** Callbacks are numbered; [calls] is the trace of their calls. *)
Record kvStoreDB := mkKvStoreDB {
  kvdb : db;
  setCallbacks : list nat;
  removeCallbacks : list nat;
  started : list goroutine;
  calls : list (nat * string);
}.

Fixpoint toString (b : bytes) : string :=
  match b with [] => "" | x :: b' => String (zbyte x) (toString b') end.

Definition kvStoreDB_clone (kv : kvStoreDB) : kvStoreDB := mkKvStoreDB (kvdb kv) [] [] [] [].

(** [set]: the callbacks are told after a write that worked. *)
Definition kvStoreDB_set (key value : string) (kv : kvStoreDB) : kvStoreDB * option kvError :=
  let '(d, err) := db_set (ofString key) (ofString value) (kvdb kv) in
  match err with
  | Some _ => (mkKvStoreDB d (setCallbacks kv) (removeCallbacks kv) (started kv) (calls kv), Some StoreFailure)
  | None =>
    (mkKvStoreDB d (setCallbacks kv) (removeCallbacks kv)
       (if (0 <? length (setCallbacks kv))%nat then started kv ++ [SetCb key] else started kv) (calls kv), None)
  end.

(** The test is on the set callbacks here too. *)
Definition kvStoreDB_remove (key : string) (kv : kvStoreDB) : kvStoreDB * option kvError :=
  let '(d, err) := db_delete (ofString key) (kvdb kv) in
  match err with
  | Some _ => (mkKvStoreDB d (setCallbacks kv) (removeCallbacks kv) (started kv) (calls kv), Some StoreFailure)
  | None =>
    (mkKvStoreDB d (setCallbacks kv) (removeCallbacks kv)
       (if (0 <? length (setCallbacks kv))%nat then started kv ++ [RemoveCb key] else started kv) (calls kv), None)
  end.

(** The database has an error of its own for the empty key. *)
Definition kvStoreDB_get (key : string) (kv : kvStoreDB) : string + kvError :=
  if (key =? "")%string then inr StoreFailure
  else match db_get (kvdb kv) (ofString key) with
       | Some v => inl (toString v)
       | None => inr KeyNotFound
       end.

Definition onSet (fn : nat) (kv : kvStoreDB) : kvStoreDB :=
  mkKvStoreDB (kvdb kv) (setCallbacks kv ++ [fn]) (removeCallbacks kv) (started kv) (calls kv).

Definition onRemove (fn : nat) (kv : kvStoreDB) : kvStoreDB :=
  mkKvStoreDB (kvdb kv) (setCallbacks kv) (removeCallbacks kv ++ [fn]) (started kv) (calls kv).

Definition setCb (key : string) (kv : kvStoreDB) : kvStoreDB :=
  mkKvStoreDB (kvdb kv) (setCallbacks kv) (removeCallbacks kv) (started kv)
    (calls kv ++ ((λ fn, (fn, key)) <$> setCallbacks kv)).

Definition removeCb (key : string) (kv : kvStoreDB) : kvStoreDB :=
  mkKvStoreDB (kvdb kv) (setCallbacks kv) (removeCallbacks kv) (started kv)
    (calls kv ++ ((λ fn, (fn, key)) <$> removeCallbacks kv)).

Definition runGoroutine (g : goroutine) (kv : kvStoreDB) : kvStoreDB :=
  match g with SetCb key => setCb key kv | RemoveCb key => removeCb key kv end.

#[global] Instance kvStoreDB_kvStore : kvStore kvStoreDB := {|
  kv_get := kvStoreDB_get;
  kv_set := kvStoreDB_set;
  kv_remove := kvStoreDB_remove;
|}.
End DB.
Arguments kvStoreDB : clear implicits.

(** ** The replicated store *)

Record command := mkCommand { Op : string; Key : string; Value : string }.

Definition commandNames : list string := ["Op"; "Key"; "Value"].
Definition commandObject (c : command) : object :=
  [("Op", JStr (Op c)); ("Key", JStr (Key c)); ("Value", JStr (Value c))].
Definition commandOf (o : object) : option command :=
  op ← stringField commandNames o "Op";
  key ← stringField commandNames o "Key";
  value ← stringField commandNames o "Value";
  Some (mkCommand op key value).

Inductive applyError := BadEntry | DbError (e : dbError) | NoSuchKey | ErrUnknownCommand.
Inductive applyResult := ApplyNil | ApplyValue (s : string) | ApplyErr (e : applyError).

Section FSM.
Context {db : Type} `{B : Badger db} `{J : JSON}.

(** [fsm.Apply]: the result of a set is the error of the database, if any. *)
Definition fsm_Apply (data : string) (d : db) : applyResult * db :=
  match unmarshalObject data ≫= commandOf with
  | None => (ApplyErr BadEntry, d)
  | Some c =>
    if (Op c =? "set")%string then
      let '(d, err) := db_set (ofString (Key c)) (ofString (Value c)) d in
      (match err with None => ApplyNil | Some e => ApplyErr (DbError e) end, d)
    else if (Op c =? "get")%string then
      if (Key c =? "")%string then (ApplyErr (DbError DbEmptyKey), d)
      else match db_get d (ofString (Key c)) with
           | Some v => (ApplyValue (toString v), d)
           | None => (ApplyErr NoSuchKey, d)
           end
    else (ApplyErr ErrUnknownCommand, d)
  end.
End FSM.

(** What [kv.Set] uses of raft: the state of this node and [Apply], which gives
    an entry to the cluster, and whether its future has no error.  The response of
    the state machine is not asked for. *)
Class Raft (R : Type) := {
  raft_leader : R → bool;
  raft_Apply : string → R → R * bool;
}.

Inductive kvSetError := ErrNotLeader | ErrMarshal | ErrApply.

#[global] Instance kvSetError_eq_dec : EqDecision kvSetError.
Proof. solve_decision. Defined.

Definition kv_Set {R} `{Raft R} `{J : JSON} (key value : string) (r : R) : R * option kvSetError :=
  if negb (raft_leader r) then (r, Some ErrNotLeader)
  else match jsonMarshal (commandObject (mkCommand "set" key value)) with
       | None => (r, Some ErrMarshal)
       | Some b => let '(r', ok) := raft_Apply b r in (r', if ok then None else Some ErrApply)
       end.

(** ** Lemmas *)

Lemma toString_ofString s : toString (ofString s) = s.
Proof. induction s as [|a s IH]; [done|]. simpl. by rewrite zbyte_byteZ, IH. Qed.

#[global] Instance ofString_inj : Inj (=) (=) ofString.
Proof. intros a b H. by rewrite <- (toString_ofString a), H, toString_ofString. Qed.

Section DBLaws.
Context {db : Type} `{B : Badger db} {BL : BadgerLaws db}.

#[global] Program Instance kvStoreDB_laws : kvStoreLaws (kvStoreDB db) := {|
  kv_lookup kv k := toString <$> db_get (kvdb kv) (ofString k);
|}.
Next Obligation. intros k kv v. simpl. unfold kvStoreDB_get. split_code; naive_solver. Qed.
Next Obligation. intros k kv. simpl. unfold kvStoreDB_get. split_code; naive_solver. Qed.
Next Obligation.
  intros k v kv kv'. simpl. unfold kvStoreDB_set. destruct (db_set _ _ _) as [d [e|]] eqn:Ed; [done|].
  intros [= <-] k'. simpl. rewrite (set_done _ _ _ _ Ed).
  destruct (decide (k = k')) as [->|]; [|by rewrite decide_False by naive_solver].
  rewrite decide_True by done. simpl. by rewrite toString_ofString.
Qed.
Next Obligation.
  intros k v kv kv' e. simpl. unfold kvStoreDB_set. destruct (db_set _ _ _) as [d [e'|]] eqn:Ed; [|done].
  intros [= <- _] k'. simpl. by rewrite (set_failed _ _ _ _ _ Ed).
Qed.
Next Obligation.
  intros k kv kv'. simpl. unfold kvStoreDB_remove. destruct (db_delete _ _) as [d [e|]] eqn:Ed; [done|].
  intros [= <-] k'. simpl. rewrite (delete_done _ _ _ Ed).
  destruct (decide (k = k')) as [->|]; [by rewrite decide_True|by rewrite decide_False by naive_solver].
Qed.
Next Obligation.
  intros k kv kv' e. simpl. unfold kvStoreDB_remove. destruct (db_delete _ _) as [d [e'|]] eqn:Ed; [|done].
  intros [= <- _] k'. simpl. by rewrite (delete_failed _ _ _ _ Ed).
Qed.

(** A key of the text is one of the bytes. *)
Lemma hasPrefix_ofString p k : hasPrefix (ofString p) (ofString k) = HasPrefix k p.
Proof.
  revert k. induction p as [|a p IH]; intros k; [by destruct k|]. destruct k as [|b k]; [done|]. simpl. by rewrite IH.
Qed.

Lemma badgerRefuses_string fits k : badgerRefuses fits (ofString k) =
  if (k =? "")%string then Some DbEmptyKey
  else if HasPrefix k "!badger!" then Some DbInvalidKey else if fits then None else Some DbTooBig.
Proof.
  rewrite <- hasPrefix_ofString. destruct k as [|a k]; [done|]. unfold badgerRefuses. cbn [ofString].
  by destruct (hasPrefix _ _), fits.
Qed.

(** A database without limits on sizes. *)
Class BadgerUnlimited `{!BadgerLimits db} := { fits_all k v : db_fits k v = true }.

#[global] Instance kvStoreDB_reliable `{!BadgerLimits db} `{!BadgerUnlimited} : kvReliable (kvStoreDB db).
Proof.
  assert (Hok : ∀ k v, storeKey k = true → badgerRefuses (db_fits (ofString k) v) (ofString k) = None).
  { intros k v. unfold storeKey. rewrite badgerRefuses_string, fits_all. by destruct (k =? "")%string, (HasPrefix k _). }
  split.
  - intros k kv Hk. simpl. unfold kvStoreDB_get. unfold storeKey in Hk. destruct (k =? "")%string; [done|].
    by destruct (db_get _ _).
  - intros k v kv Hk. simpl. unfold kvStoreDB_set. pose proof (set_error (ofString k) (ofString v) (kvdb kv)) as He.
    rewrite Hok in He by done. destruct (db_set _ _ _) as [d e]. simpl in He. by subst e.
  - intros k kv Hk. simpl. unfold kvStoreDB_remove. pose proof (delete_error (ofString k) (kvdb kv)) as He.
    rewrite Hok in He by done. destruct (db_delete _ _) as [d e]. simpl in He. by subst e.
Qed.
End DBLaws.

#[global] Instance mapBadger_unlimited : BadgerUnlimited (db := mapDB).
Proof. split. done. Qed.

(** The calls of a client of the store. *)
Inductive kvCall := CallSet (key value : string) | CallRemove (key : string).

Definition callOn {db} `{Badger db} (kv : kvStoreDB db) (c : kvCall) : kvStoreDB db * option kvError :=
  match c with CallSet k v => kvStoreDB_set k v kv | CallRemove k => kvStoreDB_remove k kv end.
Definition notification (c : kvCall) : goroutine :=
  match c with CallSet k _ => SetCb k | CallRemove k => RemoveCb k end.

(** The store after the calls, and the calls that worked. *)
Fixpoint callAll {db} `{Badger db} (cs : list kvCall) (kv : kvStoreDB db) : kvStoreDB db * list kvCall :=
  match cs with
  | [] => (kv, [])
  | c :: cs =>
    let '(kv, e) := callOn kv c in
    let '(kv, done) := callAll cs kv in
    (kv, match e with None => c :: done | Some _ => done end)
  end.

(** Notifications.  The goroutines that a sequence of writes and removals
    starts are one per call that worked, in order, when a set callback is
    registered, and none at all otherwise: a store that has remove callbacks only
    never calls them. *)
Theorem notifications_started {db} `{Badger db} (kv : kvStoreDB db) (cs : list kvCall) :
  started (fst (callAll cs kv)) =
  started kv ++ (match setCallbacks kv with [] => [] | _ => notification <$> snd (callAll cs kv) end).
Proof.
  revert kv. induction cs as [|c cs IH]; intros kv; simpl.
  - by destruct (setCallbacks kv); rewrite app_nil_r.
  - destruct (callOn kv c) as [kv1 e] eqn:Ec.
    assert (setCallbacks kv1 = setCallbacks kv ∧ started kv1 = started kv ++
      (match setCallbacks kv, e with _ :: _, None => [notification c] | _, _ => [] end)) as [E1 E2].
    { destruct c; simpl in Ec; unfold kvStoreDB_set, kvStoreDB_remove in Ec.
      all: destruct (db_set _ _ _) as [d [err|]] in Ec || destruct (db_delete _ _) as [d [err|]] in Ec; injection Ec as <- <-; simpl.
      all: destruct (setCallbacks kv); simpl; by rewrite ?app_nil_r. }
    specialize (IH kv1). destruct (callAll cs kv1) as [kv2 done]. simpl in *. rewrite IH, E1, E2.
    destruct (setCallbacks kv), e; simpl; by rewrite <- ?(assoc_L (++)), ?app_nil_r.
Qed.

(** ** A cluster

    Raft as far as its documentation promises something: the committed entries
    are one sequence, and every node gives them to its state machine in that
    order, each once; an entry whose future has no error is committed; an entry
    whose future has an error (the time to queue it ran out, leadership was lost,
    raft was shut down) may be committed later or never.  Which of these happens,
    which nodes take themselves for leaders and when a node applies its next entry
    are choices of the environment.  Snapshots are left out. *)

Section Cluster.
Context {db : Type} `{B : Badger db} `{J : JSON}.

(** A node is the number of entries it has applied and its database; [answered]
    is the record of the calls of [Set] and what they returned. *)
Record cluster := mkCluster {
  leaders : list nat;
  committed : list string;
  undecided : list string;
  nodes : list (nat * db);
  answered : list (string * string * option kvSetError);
}.

(** The cluster as the raft object of a node sees it, with what becomes of the
    next entry. *)
Record raftView := mkView { v_node : nat; v_commits : bool; v_cluster : cluster }.

#[global] Instance clusterRaft : Raft raftView := {|
  raft_leader v := bool_decide (v_node v ∈ leaders (v_cluster v));
  raft_Apply b v :=
    let c := v_cluster v in
    if v_commits v
    then (mkView (v_node v) (v_commits v)
            (mkCluster (leaders c) (committed c ++ [b]) (undecided c) (nodes c) (answered c)), true)
    else (mkView (v_node v) (v_commits v)
            (mkCluster (leaders c) (committed c) (undecided c ++ [b]) (nodes c) (answered c)), false);
|}.

(** The leaders change; a client calls [Set] at node [i] and raft commits the
    entry or fails; an undecided entry is committed after all; node [i] applies its
    next entry. *)
Inductive clusterEvent :=
| Elect (ls : list nat) | ClientSet (i : nat) (key value : string) (commits : bool)
| CommitLate (j : nat) | ApplyNext (i : nat).

Definition clientSet (i : nat) (key value : string) (commits : bool) (c : cluster) : cluster :=
  let '(v, err) := kv_Set key value (mkView i commits c) in
  let c := v_cluster v in
  mkCluster (leaders c) (committed c) (undecided c) (nodes c) (answered c ++ [(key, value, err)]).

Definition commitLate (j : nat) (c : cluster) : cluster :=
  match undecided c !! j with
  | None => c
  | Some b => mkCluster (leaders c) (committed c ++ [b]) (delete j (undecided c)) (nodes c) (answered c)
  end.

Definition applyNext (i : nat) (c : cluster) : cluster :=
  match nodes c !! i with
  | None => c
  | Some (n, d) =>
    match committed c !! n with
    | None => c
    | Some b =>
      mkCluster (leaders c) (committed c) (undecided c) (<[i := (S n, snd (fsm_Apply b d))]> (nodes c)) (answered c)
    end
  end.

Definition clusterStep (c : cluster) (e : clusterEvent) : cluster :=
  match e with
  | Elect ls => mkCluster ls (committed c) (undecided c) (nodes c) (answered c)
  | ClientSet i k v commits => clientSet i k v commits c
  | CommitLate j => commitLate j c
  | ApplyNext i => applyNext i c
  end.

Definition runCluster (es : list clusterEvent) (c : cluster) : cluster := foldl clusterStep c es.

Definition startCluster (n : nat) (d : db) : cluster := mkCluster [] [] [] (replicate n (0%nat, d)) [].

(** ** The abstract store *)

(** The calls that returned no error, and those that got as far as raft. *)
Definition acceptedCalls (l : list (string * string * option kvSetError)) : list (string * string) :=
  (filter (λ a, snd a = None) l).*1.
Definition submittedCalls (l : list (string * string * option kvSetError)) : list (string * string) :=
  (filter (λ a, snd a = None ∨ snd a = Some ErrApply) l).*1.

Context {BM : BadgerLimits db}.

(** A call puts its value into a map; the database refuses the empty key, its own
    keys and what is too big. *)
Definition specSet (m : gmap string string) (kv : string * string) : gmap string string :=
  let k := validUTF8 (fst kv) in
  let v := validUTF8 (snd kv) in
  if (k =? "")%string || HasPrefix k "!badger!" || negb (db_fits (ofString k) (ofString v)) then m else <[k := v]> m.
Definition specMap (sets : list (string * string)) : gmap string string := foldl specSet ∅ sets.

Definition holds (d : db) (m : gmap string string) : Prop :=
  ∀ k, db_get d (ofString k) = ofString <$> m !! k.

Definition setEntry (kv : string * string) : string :=
  marshalObject (commandObject (mkCommand "set" (fst kv) (snd kv))).

Context {BL : BadgerLaws db} {JL : JSONLaws}.

Lemma setEntry_read kv : unmarshalObject (setEntry kv) ≫= commandOf =
  Some (mkCommand "set" (validUTF8 (fst kv)) (validUTF8 (snd kv))).
Proof. unfold setEntry. rewrite json_read_back. reflexivity. Qed.

(** An entry of [Set] at the state machine: the result and the database. *)
Lemma fsm_Apply_entry d kv :
  let k := validUTF8 (fst kv) in let v := validUTF8 (snd kv) in
  fst (fsm_Apply (setEntry kv) d) = match badgerRefuses (db_fits (ofString k) (ofString v)) (ofString k) with
    | None => ApplyNil | Some e => ApplyErr (DbError e) end ∧
  ∀ k', db_get (snd (fsm_Apply (setEntry kv) d)) k' =
    match badgerRefuses (db_fits (ofString k) (ofString v)) (ofString k) with
    | None => if decide (ofString k = k') then Some (ofString v) else db_get d k'
    | Some _ => db_get d k'
    end.
Proof.
  cbv zeta. unfold fsm_Apply. rewrite setEntry_read. cbn [Op Key Value]. rewrite String.eqb_refl.
  rewrite <- (set_error (ofString (validUTF8 kv.1)) (ofString (validUTF8 kv.2)) d).
  destruct (db_set _ _ d) as [d' [e|]] eqn:Ed; simpl; (split; [done|]); intros k'.
  - by rewrite (set_failed _ _ _ _ _ Ed).
  - by rewrite (set_done _ _ _ _ Ed).
Qed.

Lemma fsm_Apply_set d m kv : holds d m → holds (snd (fsm_Apply (setEntry kv) d)) (specSet m kv).
Proof.
  intros H k. rewrite (proj2 (fsm_Apply_entry d kv)), badgerRefuses_string. unfold specSet.
  destruct (validUTF8 kv.1 =? "")%string; simpl; [apply H|]. destruct (HasPrefix _ "!badger!"); simpl; [apply H|].
  destruct (db_fits _ _); simpl; [|apply H].
  destruct (decide (validUTF8 kv.1 = k)) as [<-|Hne].
  - rewrite decide_True by done. by rewrite lookup_insert_eq.
  - rewrite decide_False by naive_solver. rewrite lookup_insert_ne by done. apply H.
Qed.

Lemma clientSet_cases i k v commits c : clientSet i k v commits c =
  let a e := answered c ++ [(k, v, e)] in
  if bool_decide (i ∈ leaders c) then
    if commits then mkCluster (leaders c) (committed c ++ [setEntry (k, v)]) (undecided c) (nodes c) (a None)
    else mkCluster (leaders c) (committed c) (undecided c ++ [setEntry (k, v)]) (nodes c) (a (Some ErrApply))
  else mkCluster (leaders c) (committed c) (undecided c) (nodes c) (a (Some ErrNotLeader)).
Proof. unfold clientSet, kv_Set. simpl. case_bool_decide; [|done]. by destruct commits. Qed.

(** [hist] are the calls behind the committed entries, [pend] those behind the
    undecided ones. *)
Record clusterInv (hist pend : list (string * string)) (c : cluster) : Prop := {
  inv_committed : committed c = setEntry <$> hist;
  inv_undecided : undecided c = setEntry <$> pend;
  inv_submitted : hist ++ pend ≡ₚ submittedCalls (answered c);
  inv_accepted : acceptedCalls (answered c) `sublist_of` hist;
  inv_nodes : Forall (λ '(n, d), (n ≤ length hist)%nat ∧ holds d (specMap (take n hist))) (nodes c);
}.

Lemma specMap_snoc sets kv : specMap (sets ++ [kv]) = specSet (specMap sets) kv.
Proof. unfold specMap. by rewrite foldl_app. Qed.

Lemma nodes_extend hist kv (ns : list (nat * db)) :
  Forall (λ '(n, d), (n ≤ length hist)%nat ∧ holds d (specMap (take n hist))) ns →
  Forall (λ '(n, d), (n ≤ length (hist ++ [kv]))%nat ∧ holds d (specMap (take n (hist ++ [kv])))) ns.
Proof.
  intros H. eapply Forall_impl; [exact H|]. intros [n d] [Hle Hd]. rewrite length_app, take_app_le by done.
  split; [lia|done].
Qed.

Lemma answered_snoc l k v e :
  acceptedCalls (l ++ [(k, v, e)]) = acceptedCalls l ++ (match e with None => [(k, v)] | Some _ => [] end) ∧
  submittedCalls (l ++ [(k, v, e)]) = submittedCalls l ++ (match e with None | Some ErrApply => [(k, v)] | _ => [] end).
Proof.
  unfold acceptedCalls, submittedCalls. rewrite !filter_app, !fmap_app. split; f_equal; destruct e as [[]|]; done.
Qed.

Lemma applyNext_inv hist pend i c : clusterInv hist pend c → clusterInv hist pend (applyNext i c).
Proof.
  intros [Hc Hu Hs Ha Hn]. unfold applyNext. destruct (nodes c !! i) as [[n d]|] eqn:Hi; [|done].
  destruct (committed c !! n) as [b|] eqn:Hb; [|done]. split; [done..|]. simpl.
  rewrite Hc in Hb. apply list_lookup_fmap_Some in Hb as (kv & -> & Hkv).
  pose proof (Forall_lookup_1 _ _ _ _ Hn Hi) as [_ Hd].
  apply Forall_insert; [done|]. pose proof (lookup_lt_Some _ _ _ Hkv). split; [lia|].
  rewrite (take_S_r _ _ kv), specMap_snoc by done. by apply fsm_Apply_set.
Qed.

Lemma clientSet_inv hist pend i k v commits c : clusterInv hist pend c →
  ∃ hist' pend', clusterInv hist' pend' (clientSet i k v commits c).
Proof.
  intros [Hc Hu Hs Ha Hn]. rewrite clientSet_cases. cbv zeta. case_bool_decide; [destruct commits|].
  - exists (hist ++ [(k, v)]), pend. destruct (answered_snoc (answered c) k v None) as [E1 E2].
    split; simpl; [by rewrite Hc, fmap_app|done| | |by apply nodes_extend].
    + rewrite E2, <- Hs. by rewrite <- !(assoc_L (++)), (comm (++) [(k, v)] pend).
    + rewrite E1. by apply sublist_app.
  - exists hist, (pend ++ [(k, v)]). destruct (answered_snoc (answered c) k v (Some ErrApply)) as [E1 E2].
    split; simpl; [done|by rewrite Hu, fmap_app| | |done].
    + by rewrite E2, <- Hs, (assoc_L (++)).
    + by rewrite E1, app_nil_r.
  - exists hist, pend. destruct (answered_snoc (answered c) k v (Some ErrNotLeader)) as [E1 E2].
    split; simpl; [done..| | |done]; [by rewrite E2, app_nil_r|by rewrite E1, app_nil_r].
Qed.

Lemma commitLate_inv hist pend j c : clusterInv hist pend c → ∃ hist' pend', clusterInv hist' pend' (commitLate j c).
Proof.
  intros [Hc Hu Hs Ha Hn]. unfold commitLate. destruct (undecided c !! j) as [b|] eqn:Hj; [|by exists hist, pend].
  rewrite Hu in Hj. apply list_lookup_fmap_Some in Hj as (kv & -> & Hkv).
  exists (hist ++ [kv]), (delete j pend). split; simpl; [by rewrite Hc, fmap_app| | | |by apply nodes_extend].
  - by rewrite Hu, list_fmap_delete.
  - rewrite <- Hs, <- (assoc_L (++)). f_equiv. simpl. by rewrite <- (delete_Permutation pend j kv).
  - by apply sublist_inserts_r.
Qed.

Lemma runCluster_inv es hist pend c : clusterInv hist pend c →
  ∃ hist' pend', clusterInv hist' pend' (runCluster es c).
Proof.
  revert hist pend c. induction es as [|e es IH]; intros hist pend c Hc; [eauto|]. simpl.
  assert (∃ hist' pend', clusterInv hist' pend' (clusterStep c e)) as (h & q & H); [|by eapply IH].
  destruct e as [ls|i k v commits|j|i]; simpl.
  - exists hist, pend. by destruct Hc.
  - by eapply clientSet_inv.
  - by eapply commitLate_inv.
  - eauto using applyNext_inv.
Qed.

Lemma startCluster_inv n d : holds d ∅ → clusterInv [] [] (startCluster n d).
Proof. intros Hd. split; try done. apply Forall_replicate. by split. Qed.
End Cluster.

(** ** Theorems *)

Section ClusterTheorems.
Context {db : Type} `{B : Badger db} `{J : JSON} {BL : BadgerLaws db} {BM : BadgerLimits db} {JL : JSONLaws}.

(** C11: The replicated store.  After any run of elections, calls of kv.Set at any
    node, failures of raft, late commits and applied entries there is one order
    of the calls that got as far as raft, each at most once, with all calls that
    returned no error among them in the order of their answers, such that a node
    that has applied [n] entries holds exactly what the first [n] calls of this
    order put into a map, the ones that the database refuses left out.  Nodes that
    have applied the same number of entries so agree on every key.  The database
    fails only for what it refuses. *)
Theorem replicas_refine_map (count : nat) (d0 : db) (es : list clusterEvent) :
  holds d0 ∅ →
  ∃ hist pend,
    let c := runCluster es (startCluster count d0) in
    hist ++ pend ≡ₚ submittedCalls (answered c) ∧ acceptedCalls (answered c) `sublist_of` hist ∧
    ∀ i n d, nodes c !! i = Some (n, d) →
      (n ≤ length hist)%nat ∧ holds d (specMap (take n hist)).
Proof.
  intros Hd. destruct (runCluster_inv es [] [] _ (startCluster_inv count d0 Hd)) as (hist & pend & [_ _ Hs Ha Hn]).
  exists hist, pend. split_and!; [done..|]. intros i n d Hi. exact (Forall_lookup_1 _ _ _ _ Hn Hi).
Qed.

(** A refused key is reported as stored.  When the call of kv.Set with a key or a
    value that the database refuses is committed, it returns no error, and every
    state machine that applies its entry answers with an error, which nobody asks
    for, and keeps its values. *)
Theorem refused_set_accepted (c : cluster (db := db)) i k v (d : db) :
  i ∈ leaders c → badgerRefuses (db_fits (ofString (validUTF8 k)) (ofString (validUTF8 v))) (ofString (validUTF8 k)) ≠ None →
  answered (clientSet i k v true c) = answered c ++ [(k, v, None)] ∧
  ∃ b e, committed (clientSet i k v true c) = committed c ++ [b] ∧ fst (fsm_Apply b d) = ApplyErr (DbError e) ∧
    ∀ k', db_get (snd (fsm_Apply b d)) k' = db_get d k'.
Proof.
  intros Hi Hr. rewrite clientSet_cases. cbv zeta. rewrite bool_decide_true by done. split; [done|].
  destruct (fsm_Apply_entry d (k, v)) as [E1 E2]. simpl fst in *. simpl snd in *.
  destruct (badgerRefuses _ _) as [e|]; [|done]. by exists (setEntry (k, v)), e.
Qed.
End ClusterTheorems.

(** ** The theorems at work *)

Definition noDB : mapDB := ∅.

Lemma noDB_holds : holds noDB ∅.
Proof.
  intros k. rewrite lookup_empty. exact (lookup_empty (M := gmap bytes) (A := bytes) (ofString k)).
Qed.

(** A call at a node that does not lead, two calls at the leader, one of which
    raft fails and commits later, a refused key, three applied entries. *)
Definition sampleEvents : list clusterEvent :=
  [ClientSet 0 "a" "0" true; Elect [1%nat]; ClientSet 1 "a" "1" false; ClientSet 1 "a" "2" true; ClientSet 1 "" "3" true;
   ApplyNext 0; CommitLate 0; ApplyNext 0; ApplyNext 0].

Definition sampleNode : mapDB := <[[97] := [49]]> (<[[97] := [50]]> ∅).

Lemma replicas_refine_map_witness :
  let c := @runCluster mapDB _ bitsJSON sampleEvents (startCluster 2 noDB) in
  nodes c !! 0%nat = Some (3%nat, sampleNode) ∧
  ∃ hist pend, hist ++ pend ≡ₚ submittedCalls (answered c) ∧ acceptedCalls (answered c) `sublist_of` hist ∧
    (3 ≤ length hist)%nat ∧ holds sampleNode (specMap (take 3 hist)).
Proof.
  assert (Hn : nodes (@runCluster mapDB _ bitsJSON sampleEvents (startCluster 2 noDB)) !! 0%nat = Some (3%nat, sampleNode))
    by (vm_compute; reflexivity).
  split; [exact Hn|].
  destruct (@replicas_refine_map mapDB _ bitsJSON _ _ bitsJSON_laws 2 noDB sampleEvents noDB_holds)
    as (hist & pend & Hs & Ha & H).
  exists hist, pend. split; [exact Hs|]. split; [exact Ha|]. exact (H 0%nat 3%nat sampleNode Hn).
Defined.

Lemma refused_set_accepted_witness :
  let c := @clientSet mapDB bitsJSON 0 "" "x" true (mkCluster [0%nat] [] [] [] []) in
  answered c = [("", "x", None)] ∧
  ∃ b e, committed c = [b] ∧ fst (@fsm_Apply mapDB _ bitsJSON b noDB) = ApplyErr (DbError e) ∧
    ∀ k', db_get (snd (@fsm_Apply mapDB _ bitsJSON b noDB)) k' = db_get noDB k'.
Proof.
  apply (@refused_set_accepted mapDB _ bitsJSON _ _ bitsJSON_laws (mkCluster [0%nat] [] [] [] []) 0 "" "x" noDB).
  - left.
  - vm_compute. discriminate.
Defined.
