(* ===== verification/OAuth2.v ===== *)
(** * The OAuth2 server (src/oauth2_server.go, src/accounts.go)

    Clients, users, grants and tokens are JSON records in a key-value store
    ([kvStore]).  The handlers [authorize], [access], [info] and [register] are
    state transformers: a [world] holds the store and how often the random
    source and the clock were read.  A handler ends with a [response] or with a
    panic; the world it leaves is kept in both cases. *)

From S2P Require Import Prelude GoStrings GoJSON GoURL RaftStore KVStore.

#[local] Open Scope Z_scope.

(** ** Constants *)

Definition oauth2ParamError : string := "error".
Definition oauth2ParamErrDesc : string := "error_description".
Definition oauth2ParamErrURI : string := "error_uri".
Definition oauth2ParamState : string := "state".
Definition oauth2ParamGrantType : string := "grant_type".
Definition oauth2ParamLocation : string := "Location".
Definition oauth2ParamClientID : string := "client_id".
Definition oauth2ParamClientSecret : string := "client_secret".
Definition oauth2ParamAccessToken : string := "access_token".
Definition oauth2ParamTokenType : string := "token_type".
Definition oauth2ParamExpiresIn : string := "expires_in".
Definition oauth2ParamRefreshToken : string := "refresh_token".
Definition oauth2ParamScope : string := "scope".
Definition oauth2ParamRedirectURL : string := "redirect_url".
Definition oauth2ParamCode : string := "code".
Definition oauth2ParamAssertion : string := "assertion".
Definition oauth2ParamAssertionType : string := "assertion_type".
Definition oauth2ParamResponseType : string := "response_type".
Definition oauth2ParamLoginUsername : string := "login_username".
Definition oauth2ParamLoginPassword : string := "login_password".

Definition oauth2GrantTypeAuthorizationCode : string := "authorization_code".
Definition oauth2GrantTypeRefreshToken : string := "refresh_token".
Definition oauth2GrantTypePassword : string := "password".
Definition oauth2GrantTypeClientCredentials : string := "client_credentials".
Definition oauth2GrantTypeAssertion : string := "assertion".
Definition oauth2GrantTypeImplicit : string := "__implicit".

Inductive oauth2Errkey :=
| oauth2ErrInvalidRequest | oauth2ErrUnauthorizedClient | oauth2ErrAccessDenied
| oauth2ErrUnsupportedResponseType | oauth2ErrInvalidScope | oauth2ErrServerError
| oauth2ErrTemporalilyUnavailable | oauth2ErrUnsupportedGrantType | oauth2ErrInvalidGrant
| oauth2ErrInvalidClient.

(** The string behind a key. *)
Definition errkeyString (k : oauth2Errkey) : string :=
  match k with
  | oauth2ErrInvalidRequest => "invalid_request"
  | oauth2ErrUnauthorizedClient => "unauthorized_client"
  | oauth2ErrAccessDenied => "access_denied"
  | oauth2ErrUnsupportedResponseType => "unsupported_response_type"
  | oauth2ErrInvalidScope => "invalid_scope"
  | oauth2ErrServerError => "server_error"
  | oauth2ErrTemporalilyUnavailable => "temporarily_unavailable"
  | oauth2ErrUnsupportedGrantType => "unsupported_grant_type"
  | oauth2ErrInvalidGrant => "invalid_grant"
  | oauth2ErrInvalidClient => "invalid_client"
  end.

Definition getOauth2Err (k : oauth2Errkey) : string :=
  match k with
  | oauth2ErrInvalidRequest => "The request is missing a required parameter, includes an invalid parameter value, includes a parameter more than once, or is otherwise malformed."
  | oauth2ErrUnauthorizedClient => "The client is not authorized to request a token using this method."
  | oauth2ErrAccessDenied => "The resource owner or authorization server denied the request."
  | oauth2ErrUnsupportedResponseType => "The authorization server does not support obtaining a token using this method."
  | oauth2ErrInvalidScope => "The requested scope is invalid, unknown, or malformed."
  | oauth2ErrServerError => "The authorization server encountered an unexpected condition that prevented it from fulfilling the request."
  | oauth2ErrTemporalilyUnavailable => "The authorization server is currently unable to handle the request due to a temporary overloading or maintenance of the server."
  | oauth2ErrUnsupportedGrantType => "The authorization grant type is not supported by the authorization server."
  | oauth2ErrInvalidGrant => "The provided authorization grant (e.g., authorization code, resource owner credentials) or refresh token is invalid, expired, revoked, does not match the redirection URI used in the authorization request, or was issued to another client."
  | oauth2ErrInvalidClient => "Client authentication failed (e.g., unknown client, no client authentication included, or unsupported authentication method)."
  end.

Definition oauth2ClientPrefix : string := "/client/".
Definition oauth2UserPrefix : string := "/user/".
Definition oauth2GrantPrefix : string := "/grant/token/".
Definition oauth2GrantAccessPrefix : string := "/grant/access_token/".
Definition oauth2GrantRefreshPrefix : string := "/grant/refresh_token/".
Definition oauth2TokenPrefix : string := "/token/".
Definition oauth2CSRFTokenPrefix : string := "/csrf/".

(** ** Records *)

(** A [time.Time] in nanoseconds since the zero time; [IsZero] is [= 0]. *)
Definition goTime : Type := Z.

Record oauth2Token := mkToken {
  tok_Code : string; tok_ClientID : string; tok_UserID : string; tok_ExpiresIn : Z;
  tok_CreatedAT : goTime; tok_UpdatedAt : goTime; tok_DeletedAt : goTime;
}.

Record oauth2Grant := mkGrant {
  gr_Code : string; gr_Type : string; gr_UserID : string; gr_ClientID : string;
  gr_AccessToken : string; gr_AuthorizeToken : string; gr_RefreshToken : string;
  gr_Scope : string; gr_State : string; gr_RedirectURL : string; gr_ExpiresIn : Z;
  gr_CreatedAt : goTime; gr_UpdatedAt : goTime; gr_DeletedAt : goTime;
}.

Record oauth2Client := mkClient {
  cl_ID : string; cl_UserID : string; cl_Name : string; cl_Secret : string;
  cl_Grants : list string; cl_Tokens : list string; cl_RedirectURL : string;
  cl_CreatedAt : goTime; cl_UpdatedAt : goTime; cl_DeletedAt : goTime;
}.

Record oauth2User := mkUser {
  us_Email : string; us_Grants : list string; us_Tokens : list string; us_Clients : list string;
  us_Password : string; us_CreatedAt : goTime; us_UpdatedAt : goTime; us_DeletedAt : goTime;
}.

(** [json.Marshal] and [json.Unmarshal] on the records: the fields in the order
    of the struct. *)
Definition tokenNames : list string :=
  ["Code"; "ClientID"; "UserID"; "ExpiresIn"; "CreatedAT"; "UpdatedAt"; "DeletedAt"].
Definition tokenObject (t : oauth2Token) : object :=
  [("Code", JStr (tok_Code t)); ("ClientID", JStr (tok_ClientID t)); ("UserID", JStr (tok_UserID t));
   ("ExpiresIn", JNum (tok_ExpiresIn t)); ("CreatedAT", JTime (tok_CreatedAT t));
   ("UpdatedAt", JTime (tok_UpdatedAt t)); ("DeletedAt", JTime (tok_DeletedAt t))].
Definition tokenOf (o : object) : option oauth2Token :=
  let str := stringField tokenNames o in
  let time := timeField tokenNames o in
  code ← str "Code"; client ← str "ClientID"; user ← str "UserID";
  exp ← intField tokenNames o "ExpiresIn";
  created ← time "CreatedAT"; updated ← time "UpdatedAt"; deleted ← time "DeletedAt";
  Some (mkToken code client user exp created updated deleted).

Definition grantNames : list string :=
  ["Code"; "Type"; "UserID"; "ClientID"; "AccessToken"; "AuthorizeToken"; "RefreshToken"; "Scope";
   "State"; "RedirectURL"; "ExpiresIn"; "CreatedAt"; "UpdatedAt"; "DeletedAt"].
Definition grantObject (g : oauth2Grant) : object :=
  [("Code", JStr (gr_Code g)); ("Type", JStr (gr_Type g)); ("UserID", JStr (gr_UserID g));
   ("ClientID", JStr (gr_ClientID g)); ("AccessToken", JStr (gr_AccessToken g));
   ("AuthorizeToken", JStr (gr_AuthorizeToken g)); ("RefreshToken", JStr (gr_RefreshToken g));
   ("Scope", JStr (gr_Scope g)); ("State", JStr (gr_State g)); ("RedirectURL", JStr (gr_RedirectURL g));
   ("ExpiresIn", JNum (gr_ExpiresIn g)); ("CreatedAt", JTime (gr_CreatedAt g));
   ("UpdatedAt", JTime (gr_UpdatedAt g)); ("DeletedAt", JTime (gr_DeletedAt g))].
Definition grantOf (o : object) : option oauth2Grant :=
  let str := stringField grantNames o in
  let time := timeField grantNames o in
  code ← str "Code"; type ← str "Type"; user ← str "UserID"; client ← str "ClientID";
  access ← str "AccessToken"; auth ← str "AuthorizeToken"; refresh ← str "RefreshToken";
  scope ← str "Scope"; state ← str "State"; redirect ← str "RedirectURL";
  exp ← intField grantNames o "ExpiresIn";
  created ← time "CreatedAt"; updated ← time "UpdatedAt"; deleted ← time "DeletedAt";
  Some (mkGrant code type user client access auth refresh scope state redirect exp created updated deleted).

Definition clientNames : list string :=
  ["ID"; "UserID"; "Name"; "Secret"; "Grants"; "Tokens"; "RedirectURL"; "CreatedAt"; "UpdatedAt"; "DeletedAt"].
Definition clientObject (c : oauth2Client) : object :=
  [("ID", JStr (cl_ID c)); ("UserID", JStr (cl_UserID c)); ("Name", JStr (cl_Name c));
   ("Secret", JStr (cl_Secret c)); ("Grants", JStrs (cl_Grants c)); ("Tokens", JStrs (cl_Tokens c));
   ("RedirectURL", JStr (cl_RedirectURL c)); ("CreatedAt", JTime (cl_CreatedAt c));
   ("UpdatedAt", JTime (cl_UpdatedAt c)); ("DeletedAt", JTime (cl_DeletedAt c))].
Definition clientOf (o : object) : option oauth2Client :=
  let str := stringField clientNames o in
  let time := timeField clientNames o in
  id ← str "ID"; user ← str "UserID"; name ← str "Name"; secret ← str "Secret";
  grants ← stringsField clientNames o "Grants"; tokens ← stringsField clientNames o "Tokens";
  redirect ← str "RedirectURL";
  created ← time "CreatedAt"; updated ← time "UpdatedAt"; deleted ← time "DeletedAt";
  Some (mkClient id user name secret grants tokens redirect created updated deleted).

Definition userNames : list string :=
  ["Email"; "Grants"; "Tokens"; "Clients"; "Password"; "CreatedAt"; "UpdatedAt"; "DeletedAt"].
Definition userObject (u : oauth2User) : object :=
  [("Email", JStr (us_Email u)); ("Grants", JStrs (us_Grants u)); ("Tokens", JStrs (us_Tokens u));
   ("Clients", JStrs (us_Clients u)); ("Password", JStr (us_Password u));
   ("CreatedAt", JTime (us_CreatedAt u)); ("UpdatedAt", JTime (us_UpdatedAt u));
   ("DeletedAt", JTime (us_DeletedAt u))].
Definition userOf (o : object) : option oauth2User :=
  let str := stringField userNames o in
  let strs := stringsField userNames o in
  let time := timeField userNames o in
  email ← str "Email"; grants ← strs "Grants"; tokens ← strs "Tokens"; clients ← strs "Clients";
  password ← str "Password";
  created ← time "CreatedAt"; updated ← time "UpdatedAt"; deleted ← time "DeletedAt";
  Some (mkUser email grants tokens clients password created updated deleted).

(** ** Errors, options and the context of a response *)

Inductive oauthError :=
| EStore (e : kvError) | EDecode | EEncode | EMismatchedHash | ERandom | EParseURL | EUnescape
| EGetNotAllowed | EOnlyPost | ENotRedirect | EBlankURL | EFragmentURL | EInvalidURL | EParseForm
| ETemplate.

#[global] Instance oauthError_eq_dec : EqDecision oauthError.
Proof. solve_decision. Defined.

(** The anonymous struct in the field Session. *)
Record sessionOption := mkSession {
  se_Path : string; se_MaxAge : Z; se_Domain : string; se_Secure : bool; se_HTTPOnly : bool;
  se_Name : string; se_SameSite : Z;
}.

(** [CsrfSecret] is nil or bytes. *)
Record oauth2Option := mkOption {
  op_RedirectSeparator : string; op_AuthorizationExpire : Z; op_AccessExpire : Z;
  op_AllowGetAccess : bool; op_AllowedAccessType : list string; op_TokenType : string;
  op_ProviderName : string; op_AuthEndpoint : string; op_TokenEndpoint : string;
  op_InfoEndpoint : string; op_Session : sessionOption; op_CsrfSecret : option string;
}.

Definition oauth2Option_init (o : oauth2Option) : oauth2Option :=
  mkOption (op_RedirectSeparator o) 200 200 (op_AllowGetAccess o)
    ["authorization_code"; "refresh_token"; "password"; "client_credentials"; "assertion"]
    "Bearer" (op_ProviderName o) "/authorize" "/tokens" "/info" (op_Session o) (op_CsrfSecret o).

Definition accessAllowed (o : oauth2Option) (grantType : string) : bool :=
  existsb (λ v, String.eqb v grantType) (op_AllowedAccessType o).

(** The type oauth2; its store is in the [world]. *)
Record oauth2 := mkOauth2 { o_redirectSeparator : string; o_opts : oauth2Option }.

Inductive oauth2ResponseType := oauth2ResponseData | oauth2ResponseRedirect.

(** A value of the response data: a string (or an error key) or an int64. *)
Inductive dataValue := DStr (s : string) | DInt (n : Z).

#[global] Instance dataValue_eq_dec : EqDecision dataValue.
Proof. solve_decision. Defined.

Record oauth2Context := mkContext {
  kind : oauth2ResponseType; statusCode : Z; statusText : string; url : string;
  data : gmap string dataValue; headers : list (string * string); hasError : bool;
  errID : string; internalErr : option oauthError; redirectInFragment : bool;
}.

Definition StatusOK : Z := 200.
Definition StatusFound : Z := 302.

Definition oauth2Context_init : oauth2Context :=
  mkContext oauth2ResponseData StatusOK "" "" ∅
    [("Cache-Control", "no-cache, no-store, max-age=0, must-revalidate"); ("Pragma", "no-cache");
     ("Expires", "Fri, 01 Jan 1990 00:00:00 GMT")] false "" None false.

Definition clearData (c : oauth2Context) : oauth2Context :=
  mkContext (kind c) (statusCode c) (statusText c) (url c) ∅ (headers c) (hasError c) (errID c)
    (internalErr c) (redirectInFragment c).

Definition set_data (k : string) (v : dataValue) (c : oauth2Context) : oauth2Context :=
  mkContext (kind c) (statusCode c) (statusText c) (url c) (<[k := v]> (data c)) (headers c)
    (hasError c) (errID c) (internalErr c) (redirectInFragment c).

Definition set_error (text : string) (id : string) (c : oauth2Context) : oauth2Context :=
  mkContext (kind c) (statusCode c) text (url c) (data c) (headers c) true id (internalErr c)
    (redirectInFragment c).

Definition set_internalErr (e : oauthError) (c : oauth2Context) : oauth2Context :=
  mkContext (kind c) (statusCode c) (statusText c) (url c) (data c) (headers c) (hasError c) (errID c)
    (Some e) (redirectInFragment c).

Definition set_redirectInFragment (c : oauth2Context) : oauth2Context :=
  mkContext (kind c) (statusCode c) (statusText c) (url c) (data c) (headers c) (hasError c) (errID c)
    (internalErr c) true.

Definition setErrURI (id : oauth2Errkey) (desc uri state : string) (c : oauth2Context) : oauth2Context :=
  let desc := if (desc =? "")%string then getOauth2Err id else desc in
  let c := set_error (if statusCode c =? StatusOK then statusText c else desc) (errkeyString id) c in
  let c := clearData c in
  let c := set_data oauth2ParamError (DStr (errkeyString id)) c in
  let c := set_data oauth2ParamErrDesc (DStr desc) c in
  let c := set_data oauth2ParamErrURI (DStr uri) c in
  if (state =? "")%string then c else set_data oauth2ParamState (DStr state) c.

Definition setErrState (id : oauth2Errkey) (uri state : string) (c : oauth2Context) : oauth2Context :=
  setErrURI id "" uri state c.

Definition setRedirect (uri : string) (c : oauth2Context) : oauth2Context :=
  mkContext oauth2ResponseRedirect (statusCode c) (statusText c) uri (data c) (headers c) (hasError c)
    (errID c) (internalErr c) (redirectInFragment c).

(** [fmt.Sprint] of a value. *)
Definition dataText (v : dataValue) : string := match v with DStr s => s | DInt n => Itoa n end.

(** What reaches the client: a JSON object, a redirect, a page, or nothing but
    the error that the handler returns. *)
Inductive response :=
| JSONReply (status : Z) (hs : list (string * string)) (d : gmap string dataValue)
| RedirectReply (hs : list (string * string)) (link : string)
| HTMLPage (name : string)
| NoReply (e : oauthError).

Section Redirect.
Context `{GU : GoURL}.

(** The loop over the data sets each key once, so its order is of no account. *)
Definition redirectQuery (link : URL) (d : gmap string dataValue) : urlValues :=
  map_fold (λ k v q, Values_Set k (dataText v) q) (ParseQuery (RawQuery link)) d.

Definition getRedirectURL (c : oauth2Context) : string + oauthError :=
  match kind c with
  | oauth2ResponseData => inr ENotRedirect
  | oauth2ResponseRedirect =>
    match urlParse (url c) with
    | None => inr EParseURL
    | Some link =>
      let q := redirectQuery link (data c) in
      let link := set_RawQuery (Values_Encode q) link in
      if redirectInFragment c then
        match QueryUnescape (Values_Encode q) with
        | None => inr EUnescape
        | Some f => inl (urlString (set_Fragment f (set_RawQuery "" link)))
        end
      else inl (urlString link)
    end
  end.

Definition commit (c : oauth2Context) : response :=
  match kind c with
  | oauth2ResponseRedirect =>
    match getRedirectURL c with
    | inr e => NoReply e
    | inl link => RedirectReply (headers c) link
    end
  | oauth2ResponseData => JSONReply (statusCode c) (headers c ++ [("Content-Type", "application/json")]) (data c)
  end.

(** ** Redirect URLs *)

(** [strings.Split] with a separator that is not empty: [skip] bytes of a
    separator are still to be passed over. *)
Fixpoint splitSep (sep : string) (skip : nat) (s : string) : list string :=
  match s with
  | "" => [""]
  | String a s' =>
    match skip with
    | S n => splitSep sep n s'
    | O => if HasPrefix s sep then "" :: splitSep sep (String.length sep - 1) s'
           else consHead a (splitSep sep 0 s')
    end
  end.

Definition validateURI (base redirect : string) : option oauthError :=
  if (base =? "")%string || (redirect =? "")%string then Some EBlankURL
  else match urlParse base, urlParse redirect with
  | None, _ | _, None => Some EParseURL
  | Some baseURL, Some redirectURL =>
    if negb (Fragment baseURL =? "")%string || negb (Fragment redirectURL =? "")%string then Some EFragmentURL
    else if negb (Scheme baseURL =? Scheme redirectURL)%string then Some EInvalidURL
    else if negb (Host baseURL =? Host redirectURL)%string then Some EInvalidURL
    else if (Path baseURL =? Path redirectURL)%string then None
    else
      let reqPrefix := TrimRight (Path baseURL) 47 +:+ "/" in
      if negb (HasPrefix (Path redirectURL) reqPrefix) then Some EInvalidURL
      else if existsb (String.eqb "..") (Split (TrimPrefix (Path redirectURL) reqPrefix) 47)
           then Some EInvalidURL
      else None
  end.

Definition uriList (baseList sep : string) : list string :=
  if (sep =? "")%string then [baseList] else splitSep sep 0 baseList.

Definition validateURIList (baseList redirect sep : string) : option oauthError :=
  if existsb (λ item, match validateURI item redirect with None => true | Some _ => false end)
       (uriList baseList sep)
  then None else Some EInvalidURL.

Definition firstURI (base sep : string) : string :=
  if (sep =? "")%string then base else default base (head (splitSep sep 0 base)).

Definition extraScopes (access refresh : string) : bool :=
  existsb (λ rScope,
    existsb (λ aScope, negb (rScope =? "")%string && negb (aScope =? "")%string && (aScope =? rScope)%string)
      (Split access 44)) (Split refresh 44).
End Redirect.

(** ** The world of the handlers *)

(** The request after [ParseForm], which reports an error but keeps what it could
    read; [rq_auth] is the Authorization header. *)
Record oauthRequest := mkOauthRequest {
  rq_method : string; rq_form : urlValues; rq_formErr : bool; rq_auth : string;
}.

Definition FormGet (r : oauthRequest) (k : string) : string := Values_Get (rq_form r) k.

(** bcrypt, the random source (the [n]-th read of [size] bytes), the clock and
    the templates. *)
Class OAuthEnv := {
  bcryptCompare : string → string → bool;
  bcryptGenerate : nat → string → option string;
  randomBytes : nat → nat → option string;
  clockNow : nat → goTime;
  execHTML : string → bool;
}.

(** [hex.EncodeToString]. *)
Fixpoint hexEncode (s : string) : string :=
  match s with
  | "" => ""
  | String a s' =>
    String (hexDigit (Z.shiftr (byteZ a) 4)) (String (hexDigit (Z.land (byteZ a) 15)) (hexEncode s'))
  end.

(** [int64] multiplication by a second, for [time.Duration]. *)
Definition wrapInt64 (v : Z) : Z := (v + 2 ^ 63) mod 2 ^ 64 - 2 ^ 63.

Record basicAuth := mkBasicAuth { ba_UserName : string; ba_Password : string }.

Definition basicAuth_init (r : oauthRequest) (allowQueryParams : bool) : basicAuth * bool :=
  let user := FormGet r "client_id" in
  let password := FormGet r "client_secret" in
  if allowQueryParams && negb (password =? "")%string && negb (user =? "")%string
  then (mkBasicAuth user password, true)
  else match parseBasicAuth (rq_auth r) with
       | Some (u, p) => (mkBasicAuth u p, true)
       | None => (mkBasicAuth "" "", false)
       end.

(** [bearerAuth.init]: the code, [None] for the result false.  A header without
    a blank has one component, and the second is taken all the same when the
    form has a code. *)
Definition bearerAuth_init (r : oauthRequest) : res (option string) :=
  let authHeader := rq_auth r in
  let authCode := FormGet r "code" in
  if (authHeader =? "")%string && (authCode =? "")%string then Ok None
  else if (authHeader =? "")%string then Ok (Some authCode)
  else match cutByte 32 authHeader with
       | None => if (authCode =? "")%string then Ok None else Panic IndexOutOfRange
       | Some (scheme, rest) =>
         if negb (scheme =? "Bearer")%string && (authCode =? "")%string then Ok None else Ok (Some rest)
       end.

Section Server.
Context {St : Type} `{KV : kvStore St} `{J : JSON} `{GU : GoURL} `{E : OAuthEnv}.

(** [w_store] is the field store of oauth2, which is nil until it is set. *)
Record world := mkWorld { w_store : option St; w_random : nat; w_clock : nat }.

Definition M (A : Type) : Type := world → res A * world.

#[local] Instance M_ret : MRet M := λ A a w, (Ok a, w).
#[local] Instance M_bind : MBind M := λ A B f m w,
  match m w with
  | (Ok a, w') => f a w'
  | (Panic p, w') => (Panic p, w')
  | (OutOfFuel, w') => (OutOfFuel, w')
  end.

(** A Go result with an error. *)
Definition orErr (A : Type) : Type := (A + oauthError)%type.

(** [x, err := m; if err != nil { return err }]. *)
Definition tryBind {A B} (m : M (orErr A)) (f : A → M (orErr B)) : M (orErr B) :=
  m ≫= λ r, match r with inl a => f a | inr e => mret (inr e) end.

(** [if err != nil { ... }] with another continuation for the error. *)
Definition onErr {A B} (m : M (orErr A)) (h : oauthError → M B) (f : A → M B) : M B :=
  m ≫= λ r, match r with inl a => f a | inr e => h e end.

Definition goPanic {A} (p : go_panic) : M A := λ w, (Panic p, w).
Definition lift {A} (m : res A) : M A := λ w, (m, w).

Definition now : M goTime := λ w,
  (Ok (clockNow (w_clock w)), mkWorld (w_store w) (w_random w) (S (w_clock w))).

Definition random (size : nat) : M (option string) := λ w,
  (Ok (randomBytes (w_random w) size), mkWorld (w_store w) (S (w_random w)) (w_clock w)).

Definition storeGet (k : string) : M (orErr string) := λ w,
  match w_store w with
  | None => (Panic NilDereference, w)
  | Some s => (Ok (match kv_get k s with inl v => inl v | inr e => inr (EStore e) end), w)
  end.

Definition storeSet (k v : string) : M (orErr unit) := λ w,
  match w_store w with
  | None => (Panic NilDereference, w)
  | Some s =>
    let '(s', e) := kv_set k v s in
    (Ok (match e with None => inl () | Some e => inr (EStore e) end), mkWorld (Some s') (w_random w) (w_clock w))
  end.

Definition storeRemove (k : string) : M (orErr unit) := λ w,
  match w_store w with
  | None => (Panic NilDereference, w)
  | Some s =>
    let '(s', e) := kv_remove k s in
    (Ok (match e with None => inl () | Some e => inr (EStore e) end), mkWorld (Some s') (w_random w) (w_clock w))
  end.

(** ** Reading records *)

Definition fetch {A} (decode : object → option A) (deleted : A → goTime) (key : string) : M (orErr A) :=
  tryBind (storeGet key) (λ b,
    match unmarshalObject b ≫= decode with
    | None => mret (inr EDecode)
    | Some c => mret (if deleted c =? 0 then inl c else inr (EStore KeyNotFound))
    end).

Definition client (id : string) : M (orErr oauth2Client) :=
  fetch clientOf cl_DeletedAt (oauth2ClientPrefix +:+ id).

Definition grantBy (prefix key : string) : M (orErr oauth2Grant) :=
  fetch grantOf gr_DeletedAt (prefix +:+ key).

Definition grant (id : string) : M (orErr oauth2Grant) := grantBy oauth2GrantPrefix id.

(** The prefix is the one of refresh tokens. *)
Definition grantByAccess (accessToken : string) : M (orErr oauth2Grant) :=
  grantBy oauth2GrantRefreshPrefix accessToken.

Definition grantByRefresh (refreshToken : string) : M (orErr oauth2Grant) :=
  grantBy oauth2GrantRefreshPrefix refreshToken.

Definition token (id : string) : M (orErr oauth2Token) :=
  fetch tokenOf tok_DeletedAt (oauth2TokenPrefix +:+ id).

(** [user] returns a nil pointer and no error for a user that exists. *)
Definition user (email : string) : M (orErr (option oauth2User)) :=
  tryBind (fetch userOf us_DeletedAt (oauth2UserPrefix +:+ email)) (λ _, mret (inl None)).

Definition compareHashedString (hashed str : string) : option oauthError :=
  if bcryptCompare hashed str then None else Some EMismatchedHash.

Definition valid (username password : string) : M (orErr (option oauth2User)) :=
  tryBind (user username) (λ usr,
    match usr with
    | None => goPanic NilDereference
    | Some u =>
      mret (match compareHashedString (us_Password u) password with
            | None => inl (Some u)
            | Some e => inr e
            end)
    end).

(** ** Writing records *)

Definition marshalSet (key : string) (v : object) : M (orErr unit) :=
  match jsonMarshal v with
  | None => mret (inr EEncode)
  | Some b => storeSet key b
  end.

Definition saveUser (usr : oauth2User) : M (orErr unit) :=
  t ← now;
  let usr := mkUser (us_Email usr) (us_Grants usr) (us_Tokens usr) (us_Clients usr) (us_Password usr)
               (us_CreatedAt usr) t (us_DeletedAt usr) in
  marshalSet (oauth2UserPrefix +:+ us_Email usr) (userObject usr).

Definition createClientID : M string :=
  b ← random 256;
  match b with
  | None => goPanic ExplicitPanic
  | Some b => mret (hexEncode b)
  end.

Definition saveClient (c : oauth2Client) : M (orErr unit) :=
  id ← (if (cl_ID c =? "")%string then createClientID else mret (cl_ID c));
  t ← now;
  let c := mkClient id (cl_UserID c) (cl_Name c) (cl_Secret c) (cl_Grants c) (cl_Tokens c)
             (cl_RedirectURL c) (cl_CreatedAt c) t (cl_DeletedAt c) in
  marshalSet (oauth2ClientPrefix +:+ cl_ID c) (clientObject c).

(** A token is stored under the prefix of clients. *)
Definition saveToken (c : oauth2Token) : M (orErr unit) :=
  t ← now;
  let c := mkToken (tok_Code c) (tok_ClientID c) (tok_UserID c) (tok_ExpiresIn c) (tok_CreatedAT c)
             t (tok_DeletedAt c) in
  marshalSet (oauth2ClientPrefix +:+ tok_Code c) (tokenObject c).

Definition touchGrant (t : goTime) (g : oauth2Grant) : oauth2Grant :=
  mkGrant (gr_Code g) (gr_Type g) (gr_UserID g) (gr_ClientID g) (gr_AccessToken g) (gr_AuthorizeToken g)
    (gr_RefreshToken g) (gr_Scope g) (gr_State g) (gr_RedirectURL g) (gr_ExpiresIn g) (gr_CreatedAt g)
    t (gr_DeletedAt g).

Definition saveGrant (g : oauth2Grant) : M (orErr unit) :=
  t ← now;
  let g := touchGrant t g in
  match jsonMarshal (grantObject g) with
  | None => mret (inr EEncode)
  | Some b =>
    tryBind (if (gr_AccessToken g =? "")%string then mret (inl ())
             else storeSet (oauth2GrantAccessPrefix +:+ gr_AccessToken g) b) (λ _,
    tryBind (if (gr_RefreshToken g =? "")%string then mret (inl ())
             else storeSet (oauth2GrantRefreshPrefix +:+ gr_RefreshToken g) b) (λ _,
    storeSet (oauth2GrantPrefix +:+ gr_Code g) b))
  end.

Definition clientWithSecret (basic : basicAuth) : M (orErr oauth2Client) :=
  tryBind (client (ba_UserName basic)) (λ c,
    mret (match compareHashedString (cl_Secret c) (ba_Password basic) with
          | None => inl c
          | Some e => inr e
          end)).

Definition grantByClient (c : oauth2Client) (code : string) : M (orErr oauth2Grant) :=
  if existsb (λ v, String.eqb v code) (cl_Grants c) then grant code
  else mret (inr (EStore KeyNotFound)).

Definition clientWithCode (code : string) : M (orErr oauth2Client) :=
  tryBind (token code) (λ c, client (tok_ClientID c)).

Definition expired (g : oauth2Grant) : M bool :=
  t ← now; mret (gr_CreatedAt g + wrapInt64 (gr_ExpiresIn g * 1000000000) <? t).

Definition generate : M (orErr string) :=
  b ← random 256;
  mret (match b with None => inr ERandom | Some b => inl (hexEncode b) end).

Definition removeToken (id : string) : M (orErr unit) :=
  tryBind (token id) (λ tok,
    if negb (tok_DeletedAt tok =? 0) then mret (inl ())
    else
      t ← now;
      marshalSet (oauth2TokenPrefix +:+ id)
        (tokenObject (mkToken (tok_Code tok) (tok_ClientID tok) (tok_UserID tok) (tok_ExpiresIn tok)
                        (tok_CreatedAT tok) (tok_UpdatedAt tok) t))).

Definition deleteGrant (t : goTime) (g : oauth2Grant) : oauth2Grant :=
  mkGrant (gr_Code g) (gr_Type g) (gr_UserID g) (gr_ClientID g) (gr_AccessToken g) (gr_AuthorizeToken g)
    (gr_RefreshToken g) (gr_Scope g) (gr_State g) (gr_RedirectURL g) (gr_ExpiresIn g) (gr_CreatedAt g)
    (gr_UpdatedAt g) t.

Definition removeGrant (id : string) : M (orErr unit) :=
  tryBind (grant id) (λ g,
    if negb (gr_DeletedAt g =? 0) then mret (inl ())
    else
      t ← now;
      let g := deleteGrant t g in
      tryBind (if (gr_AccessToken g =? "")%string then mret (inl ())
               else tryBind (storeRemove (oauth2GrantAccessPrefix +:+ gr_AccessToken g)) (λ _,
                    removeToken (gr_AccessToken g))) (λ _,
      tryBind (if (gr_RefreshToken g =? "")%string then mret (inl ())
               else tryBind (storeRemove (oauth2GrantRefreshPrefix +:+ gr_RefreshToken g)) (λ _,
                    removeToken (gr_RefreshToken g))) (λ _,
      marshalSet (oauth2GrantPrefix +:+ id) (grantObject g)))).

(** The record that [finalize] stores for a grant. *)
Definition accessGrant (opts : oauth2Option) (auth : oauth2Grant) (access refresh : string) : oauth2Grant :=
  mkGrant "" "" (gr_UserID auth) (gr_ClientID auth) access "" refresh (gr_Scope auth) (gr_State auth)
    (gr_RedirectURL auth) (op_AccessExpire opts) 0 0 0.

Definition newToken (code : string) (auth : oauth2Grant) : oauth2Token :=
  mkToken code (gr_ClientID auth) (gr_UserID auth) 0 0 0 0.

(** The data of a successful response. *)
Definition tokenData (opts : oauth2Option) (auth : oauth2Grant) (access refresh : string)
    (ctx : oauth2Context) : oauth2Context :=
  let ctx := set_data oauth2ParamAccessToken (DStr access) ctx in
  let ctx := set_data oauth2ParamTokenType (DStr (op_TokenType opts)) ctx in
  let ctx := set_data oauth2ParamExpiresIn (DInt (op_AccessExpire opts)) ctx in
  let ctx := set_data oauth2ParamRefreshToken (DStr refresh) ctx in
  if (gr_Scope auth =? "")%string then ctx else set_data oauth2ParamScope (DStr (gr_Scope auth)) ctx.

(** [finalize]: the context it leaves and its error. *)
Definition finalize (o : oauth2) (auth : oauth2Grant) (ctx : oauth2Context)
    : M (oauth2Context * option oauthError) :=
  let fail e := mret (ctx, Some e) in
  onErr generate fail (λ access,
  onErr (saveToken (newToken access auth)) fail (λ _,
  onErr generate fail (λ refresh,
  onErr (saveToken (newToken refresh auth)) fail (λ _,
  onErr (saveGrant (accessGrant (o_opts o) auth access refresh)) fail (λ _,
  let ctx := tokenData (o_opts o) auth access refresh ctx in
  if (gr_Code auth =? "")%string then mret (ctx, None)
  else onErr (removeGrant (gr_Code auth)) (λ e, mret (ctx, Some e)) (λ _, mret (ctx, None))))))).

(** ** The handlers *)

(** [ctx.setErrState(id, "", state); ctx.internalErr = err; return ctx.commit(w)]. *)
Definition failWith (id : oauth2Errkey) (state : string) (e : option oauthError) (ctx : oauth2Context)
    : M response :=
  let ctx := setErrState id "" state ctx in
  mret (commit (match e with None => ctx | Some e => set_internalErr e ctx end)).

(** The login page; [ExecHTML] may fail. *)
Definition servePage (name : string) : M response :=
  mret (if execHTML name then HTMLPage name else NoReply ETemplate).

Definition emptyGrant : oauth2Grant := mkGrant "" "" "" "" "" "" "" "" "" "" 0 0 0 0.

(** The cases of the response type. *)
Definition authorizeCode (o : oauth2) (c : oauth2Client) (usr : oauth2User) (scope state : string)
    (ctx : oauth2Context) : M response :=
  let fail e := failWith oauth2ErrServerError state (Some e) ctx in
  onErr generate fail (λ code,
  let g := mkGrant code "" (us_Email usr) (cl_ID c) "" "" "" scope state "" 0 0 0 0 in
  onErr (saveGrant g) fail (λ _,
  let usr := mkUser (us_Email usr) (us_Grants usr ++ [code]) (us_Tokens usr) (us_Clients usr)
               (us_Password usr) (us_CreatedAt usr) (us_UpdatedAt usr) (us_DeletedAt usr) in
  onErr (saveUser usr) fail (λ _,
  let c := mkClient (cl_ID c) (cl_UserID c) (cl_Name c) (cl_Secret c) (cl_Grants c ++ [code]) (cl_Tokens c)
             (cl_RedirectURL c) (cl_CreatedAt c) (cl_UpdatedAt c) (cl_DeletedAt c) in
  onErr (saveClient c) fail (λ _,
  mret (commit (set_data oauth2ParamState (DStr state) (set_data oauth2ParamCode (DStr code) ctx))))))).

Definition authorizeToken (o : oauth2) (c : oauth2Client) (usr : oauth2User) (scope state redirectURI : string)
    (ctx : oauth2Context) : M response :=
  let fail ctx e := failWith oauth2ErrServerError state (Some e) ctx in
  onErr generate (fail ctx) (λ code,
  let ctx := set_redirectInFragment ctx in
  let g := mkGrant code oauth2GrantTypeImplicit (us_Email usr) (cl_ID c) "" "" "" scope state redirectURI
             0 0 0 0 in
  '(ctx, err) ← finalize o g ctx;
  match err with
  | Some e => fail ctx e
  | None => mret (commit (if (state =? "")%string then ctx else set_data oauth2ParamState (DStr state) ctx))
  end).

Definition authorizeTyped (o : oauth2) (r : oauthRequest) (c : oauth2Client) (usr : oauth2User)
    (scope state redirectURI : string) (ctx : oauth2Context) : M response :=
  let reqTyp := FormGet r oauth2ParamResponseType in
  if (reqTyp =? "code")%string then authorizeCode o c usr scope state ctx
  else if (reqTyp =? "token")%string then authorizeToken o c usr scope state redirectURI ctx
  else failWith oauth2ErrUnsupportedResponseType state None ctx.

Definition authorize (o : oauth2) (r : oauthRequest) : M response :=
  let ctx := oauth2Context_init in
  match QueryUnescape (FormGet r oauth2ParamRedirectURL) with
  | None => failWith oauth2ErrInvalidRequest "" (Some EUnescape) ctx
  | Some redirectURI =>
    let state := FormGet r oauth2ParamState in
    let scope := FormGet r oauth2ParamScope in
    onErr (client (FormGet r oauth2ParamClientID))
      (λ e, failWith (if decide (e = EStore KeyNotFound) then oauth2ErrUnauthorizedClient
                      else oauth2ErrServerError) state (Some e) ctx)
      (λ c,
    if (cl_RedirectURL c =? "")%string then failWith oauth2ErrUnauthorizedClient state None ctx
    else
      let first := firstURI (cl_RedirectURL c) (o_redirectSeparator o) in
      let redirectURI :=
        if (redirectURI =? "")%string && (first =? cl_RedirectURL c)%string then first else redirectURI in
      match validateURIList (cl_RedirectURL c) redirectURI (o_redirectSeparator o) with
      | Some e => failWith oauth2ErrInvalidRequest state (Some e) ctx
      | None =>
        let ctx := setRedirect redirectURI ctx in
        usr ← (if (rq_method r =? "POST")%string
               then onErr (valid (FormGet r oauth2ParamLoginUsername) (FormGet r oauth2ParamLoginPassword))
                      (λ _, mret None) mret
               else mret None);
        match usr with
        | None => servePage "oauth/login.html"
        | Some usr => authorizeTyped o r c usr scope state redirectURI ctx
        end
      end)
  end.

(** [if err = o.finalize(grant, &ctx); err != nil { ... }; return ctx.commit(w)]. *)
Definition finishAccess (o : oauth2) (g : oauth2Grant) (ctx : oauth2Context) : M response :=
  '(ctx, err) ← finalize o g ctx;
  match err with
  | Some e => failWith oauth2ErrServerError "" (Some e) ctx
  | None => mret (commit ctx)
  end.

Definition accessCode (o : oauth2) (r : oauthRequest) (basic : basicAuth) (ctx : oauth2Context) : M response :=
  let code := FormGet r oauth2ParamCode in
  if (code =? "")%string then failWith oauth2ErrUnsupportedGrantType "" None ctx
  else
    onErr (clientWithSecret basic) (λ e, failWith oauth2ErrUnauthorizedClient "" (Some e) ctx) (λ c,
    onErr (grantByClient c code) (λ e, failWith oauth2ErrInvalidGrant "" (Some e) ctx) (λ g,
    late ← expired g;
    if (late : bool) then failWith oauth2ErrInvalidGrant "" None ctx
    else
      let redirectURI := FormGet r oauth2ParamRedirectURL in
      let redirectURI :=
        if (redirectURI =? "")%string then firstURI (cl_RedirectURL c) (op_RedirectSeparator (o_opts o))
        else redirectURI in
      match validateURIList (cl_RedirectURL c) redirectURI (op_RedirectSeparator (o_opts o)) with
      | Some e => failWith oauth2ErrInvalidRequest "" (Some e) ctx
      | None => finishAccess o g ctx
      end)).

(** The grant for the new scope is built and checked; [finalize] gets the old
    one. *)
Definition accessRefresh (o : oauth2) (r : oauthRequest) (basic : basicAuth) (ctx : oauth2Context) : M response :=
  let refreshToken := FormGet r oauth2ParamRefreshToken in
  if (refreshToken =? "")%string then failWith oauth2ErrInvalidGrant "" None ctx
  else
    onErr (clientWithSecret basic) (λ e, failWith oauth2ErrUnauthorizedClient "" (Some e) ctx) (λ c,
    onErr (grant refreshToken) (λ e, failWith oauth2ErrInvalidGrant "" (Some e) ctx) (λ g,
    if negb (gr_ClientID g =? cl_ID c)%string then failWith oauth2ErrUnauthorizedClient "" None ctx
    else
      let scope := FormGet r oauth2ParamScope in
      let scope := if (scope =? "")%string then gr_Scope g else scope in
      if extraScopes (gr_Scope g) scope then failWith oauth2ErrAccessDenied "" None ctx
      else finishAccess o g ctx)).

Definition accessPassword (o : oauth2) (r : oauthRequest) (basic : basicAuth) (ctx : oauth2Context) : M response :=
  let username := FormGet r "username" in
  let password := FormGet r "password" in
  if (username =? "")%string || (password =? "")%string then failWith oauth2ErrInvalidGrant "" None ctx
  else
    onErr (valid username password) (λ e, failWith oauth2ErrInvalidGrant "" (Some e) ctx) (λ usr,
    onErr (clientWithSecret basic) (λ e, failWith oauth2ErrUnauthorizedClient "" (Some e) ctx) (λ c,
    match usr with
    | None => goPanic NilDereference
    | Some u =>
      finishAccess o (mkGrant "" "" (us_Email u) (cl_ID c) "" "" "" (FormGet r oauth2ParamScope) "" "" 0 0 0 0) ctx
    end)).

Definition accessClient (o : oauth2) (r : oauthRequest) (basic : basicAuth) (ctx : oauth2Context) : M response :=
  onErr (clientWithSecret basic) (λ e, failWith oauth2ErrUnauthorizedClient "" (Some e) ctx) (λ c,
  finishAccess o (mkGrant "" "" (cl_UserID c) (cl_ID c) "" "" "" (FormGet r oauth2ParamScope) "" "" 0 0 0 0) ctx).

(** The assertion itself is not looked at. *)
Definition accessAssertion (o : oauth2) (r : oauthRequest) (basic : basicAuth) (ctx : oauth2Context) : M response :=
  if (FormGet r oauth2ParamAssertionType =? "")%string || (FormGet r oauth2ParamAssertion =? "")%string
  then failWith oauth2ErrInvalidGrant "" None ctx
  else
    onErr (clientWithSecret basic) (λ e, failWith oauth2ErrUnauthorizedClient "" (Some e) ctx) (λ c,
    finishAccess o (mkGrant "" "" "" "" "" "" "" (FormGet r oauth2ParamScope) ""
                      (firstURI (cl_RedirectURL c) (op_RedirectSeparator (o_opts o))) 0 0 0 0) ctx).

Definition access (o : oauth2) (r : oauthRequest) : M response :=
  let ctx := oauth2Context_init in
  if (rq_method r =? "GET")%string && negb (op_AllowGetAccess (o_opts o))
  then failWith oauth2ErrInvalidRequest "" (Some EGetNotAllowed) ctx
  else if negb (rq_method r =? "POST")%string
  then failWith oauth2ErrInvalidRequest "" (Some EOnlyPost) ctx
  else
    let accessGrant := FormGet r oauth2ParamGrantType in
    let '(basic, ok) := basicAuth_init r true in
    if negb ok then failWith oauth2ErrInvalidClient "" None ctx
    else if negb (accessAllowed (o_opts o) accessGrant) then failWith oauth2ErrUnsupportedGrantType "" None ctx
    else if (accessGrant =? oauth2GrantTypeAuthorizationCode)%string then accessCode o r basic ctx
    else if (accessGrant =? oauth2GrantTypeRefreshToken)%string then accessRefresh o r basic ctx
    else if (accessGrant =? oauth2GrantTypePassword)%string then accessPassword o r basic ctx
    else if (accessGrant =? oauth2GrantTypeClientCredentials)%string then accessClient o r basic ctx
    else if (accessGrant =? oauth2GrantTypeAssertion)%string then accessAssertion o r basic ctx
    else failWith oauth2ErrUnsupportedGrantType "" None ctx.

Definition info (o : oauth2) (r : oauthRequest) : M response :=
  let ctx := oauth2Context_init in
  if rq_formErr r then failWith oauth2ErrInvalidRequest "" (Some EParseForm) ctx
  else
    bearer ← lift (bearerAuth_init r);
    match bearer with
    | None => failWith oauth2ErrInvalidRequest "" None ctx
    | Some code =>
      if (code =? "")%string then failWith oauth2ErrInvalidRequest "" None ctx
      else
        onErr (clientWithCode code) (λ e, failWith oauth2ErrUnauthorizedClient "" (Some e) ctx) (λ c,
        onErr (grantByAccess code) (λ e, failWith oauth2ErrInvalidGrant "" (Some e) ctx) (λ g,
        if negb (existsb (λ x, String.eqb x (gr_Code g)) (cl_Grants c))
        then failWith oauth2ErrInvalidGrant "" None ctx
        else
          late ← expired g;
          if (late : bool) then failWith oauth2ErrInvalidGrant "" None ctx
          else
            onErr (user (gr_UserID g)) (λ e, failWith oauth2ErrInvalidGrant "" (Some e) ctx) (λ usr,
            if (gr_Scope g =? "email")%string then
              match usr with
              | None => goPanic NilDereference
              | Some u => mret (commit (set_data "email" (DStr (us_Email u)) ctx))
              end
            else failWith oauth2ErrInvalidGrant "" None ctx)))
    end.

(** ** Accounts *)

Inductive registerReply := RegisterInvalid | Register500 | RegisterPage.

Definition hashString (secret : string) : M (option string) := λ w,
  (Ok (bcryptGenerate (w_random w) secret), mkWorld (w_store w) (S (w_random w)) (w_clock w)).

Definition register (r : oauthRequest) : M registerReply :=
  if rq_formErr r then mret RegisterInvalid
  else
    let email := FormGet r "email" in
    let password := FormGet r "password" in
    let confirm := FormGet r "confirm_password" in
    if (password =? "")%string || (confirm =? "")%string || (email =? "")%string then mret RegisterInvalid
    else if negb (password =? confirm)%string then mret RegisterInvalid
    else
      hash ← hashString password;
      match hash with
      | None => mret Register500
      | Some hash =>
        t ← now;
        onErr (saveUser (mkUser email [] [] [] hash t 0 0)) (λ _, mret Register500) (λ _,
        mret (if execHTML "oauth/register.html" then RegisterPage else Register500))
      end.

(** [oauth2.init]: the secret of the store and the one of the options are
    brought together; the field store is not set. *)
Definition oauth2_init (secret : option string) (opts : oauth2Option) (s : St) (o : oauth2)
    : St * (oauth2 + oauthError) :=
  let withSecret c := mkOption (op_RedirectSeparator opts) (op_AuthorizationExpire opts) (op_AccessExpire opts)
    (op_AllowGetAccess opts) (op_AllowedAccessType opts) (op_TokenType opts) (op_ProviderName opts)
    (op_AuthEndpoint opts) (op_TokenEndpoint opts) (op_InfoEndpoint opts) (op_Session opts) c in
  let done opts := inl (mkOauth2 (o_redirectSeparator o) opts) in
  match kv_get oauth2CSRFTokenPrefix s with
  | inr StoreFailure => (s, inr (EStore StoreFailure))
  | inr KeyNotFound =>
    match op_CsrfSecret opts with
    | Some _ => (s, done opts)
    | None =>
      match secret with
      | None => (s, inr ERandom)
      | Some b =>
        match kv_set oauth2CSRFTokenPrefix b s with
        | (s, Some e) => (s, inr (EStore e))
        | (s, None) => (s, done (withSecret (Some b)))
        end
      end
    end
  | inl csrf =>
    match op_CsrfSecret opts with
    | None => (s, done (withSecret (Some csrf)))
    | Some b =>
      if (csrf =? b)%string then (s, done opts)
      else match kv_set oauth2CSRFTokenPrefix b s with
           | (s, Some e) => (s, inr (EStore e))
           | (s, None) => (s, done opts)
           end
    end
  end.

Definition generateCSRFToken : M (orErr string) :=
  b ← random 32;
  mret (match b with None => inr ERandom | Some b => inl (hexEncode b) end).
End Server.
Arguments world : clear implicits.
