(* ===== verification/OAuthFacts.v ===== *)
(** * Theorems on the OAuth2 server

    Handlers are reasoned about with triples: what holds before a piece of code,
    what of its result and the world after it, and what of the world if it
    panics. *)

From S2P Require Import Prelude GoStrings GoNet GoJSON GoURL RaftStore RaftFacts RaftInstance KVStore OAuth2.

#[local] Open Scope Z_scope.
#[local] Existing Instances M_ret M_bind.

(** ** Triples *)

Section Triples.
Context {St : Type} `{KV : kvStore St} `{J : JSON} `{GU : GoURL} `{E : OAuthEnv}.

Definition triple {A} (P : world St → Prop) (m : M A) (Q : A → world St → Prop) (R : world St → Prop) : Prop :=
  ∀ w, P w → match m w with
             | (Ok a, w') => Q a w'
             | (_, w') => R w'
             end.

Lemma triple_ret {A} (P : world St → Prop) (a : A) Q R : (∀ w, P w → Q a w) → triple P (mret a) Q R.
Proof. intros H w Hw. by apply H. Qed.

Lemma triple_bind {A B} P (m : M A) (f : A → M B) Q1 Q R :
  triple P m Q1 R → (∀ a, triple (Q1 a) (f a) Q R) → triple P (m ≫= f) Q R.
Proof.
  intros Hm Hf w Hw. specialize (Hm w Hw). unfold mbind, M_bind.
  destruct (m w) as [[a| |] w']; [|done..]. by apply Hf.
Qed.

Lemma triple_onErr {A B} P (m : M (orErr A)) (h : oauthError → M B) f Q1 Q R :
  triple P m Q1 R → (∀ e, triple (Q1 (inr e)) (h e) Q R) → (∀ a, triple (Q1 (inl a)) (f a) Q R) →
  triple P (onErr m h f) Q R.
Proof. intros Hm Hh Hf. eapply triple_bind; [exact Hm|]. by intros []. Qed.

Lemma triple_tryBind {A B} P (m : M (orErr A)) (f : A → M (orErr B)) Q1 (Q : orErr B → world St → Prop) R :
  triple P m Q1 R → (∀ e w, Q1 (inr e) w → Q (inr e) w) → (∀ a, triple (Q1 (inl a)) (f a) Q R) →
  triple P (tryBind m f) Q R.
Proof. intros Hm Hh Hf. eapply triple_bind; [exact Hm|]. intros []; [apply Hf|]. apply triple_ret, Hh. Qed.

Lemma triple_weaken {A} (P P' : world St → Prop) (m : M A) (Q Q' : A → world St → Prop) (R R' : world St → Prop) :
  triple P' m Q' R' → (∀ w, P w → P' w) → (∀ a w, Q' a w → Q a w) → (∀ w, R' w → R w) → triple P m Q R.
Proof.
  intros Hm HP HQ HR w Hw. specialize (Hm w (HP w Hw)). destruct (m w) as [[a| |] w']; auto.
Qed.

Lemma triple_panic {A} (P : world St → Prop) p (Q : A → world St → Prop) (R : world St → Prop) :
  (∀ w, P w → R w) → triple P (goPanic p) Q R.
Proof. intros H w Hw. by apply H. Qed.

(** Code that keeps a property of the store, whatever it returns. *)
Definition keeps {A} (I : option St → Prop) (m : M A) (Q : A → Prop) : Prop :=
  triple (λ w, I (w_store w)) m (λ a w, I (w_store w) ∧ Q a) (λ w, I (w_store w)).

Lemma keeps_ret {A} I (a : A) (Q : A → Prop) : Q a → keeps I (mret a) Q.
Proof. intros H. by apply triple_ret. Qed.

Lemma keeps_bind {A B} I (m : M A) (f : A → M B) Q1 Q :
  keeps I m Q1 → (∀ a, Q1 a → keeps I (f a) Q) → keeps I (m ≫= f) Q.
Proof. intros Hm Hf. eapply triple_bind; [exact Hm|]. intros a w [Hw Ha]. by apply (Hf a Ha). Qed.

Lemma keeps_onErr {A B} I (m : M (orErr A)) (h : oauthError → M B) f Q1 Q :
  keeps I m Q1 → (∀ e, Q1 (inr e) → keeps I (h e) Q) → (∀ a, Q1 (inl a) → keeps I (f a) Q) →
  keeps I (onErr m h f) Q.
Proof. intros Hm Hh Hf. eapply keeps_bind; [exact Hm|]. by intros []; auto. Qed.

Lemma keeps_tryBind {A B} I (m : M (orErr A)) (f : A → M (orErr B)) Q1 (Q : orErr B → Prop) :
  keeps I m Q1 → (∀ e, Q1 (inr e) → Q (inr e)) → (∀ a, Q1 (inl a) → keeps I (f a) Q) → keeps I (tryBind m f) Q.
Proof. intros Hm Hh Hf. eapply keeps_bind; [exact Hm|]. intros []; [by auto|]. intros. apply keeps_ret. auto. Qed.

Lemma keeps_weaken {A} I (m : M A) (Q Q' : A → Prop) : keeps I m Q' → (∀ a, Q' a → Q a) → keeps I m Q.
Proof. intros Hm HQ. eapply triple_weaken; [exact Hm|naive_solver..]. Qed.

Lemma keeps_panic {A} I p (Q : A → Prop) : keeps I (goPanic p) Q.
Proof. by apply triple_panic. Qed.

Lemma keeps_lift {A} I (m : res A) : keeps I (lift m) (λ _, True).
Proof. intros w Hw. unfold lift. by destruct m. Qed.

Lemma keeps_now I : keeps I now (λ _, True).
Proof. by intros w Hw. Qed.

Lemma keeps_random I size : keeps I (random size) (λ _, True).
Proof. by intros w Hw. Qed.

Lemma keeps_generate I : keeps I generate (λ _, True).
Proof. eapply keeps_bind; [apply keeps_random|]. intros [] _; by apply keeps_ret. Qed.

Lemma keeps_storeGet I k : keeps I (storeGet k) (λ r, ∃ s, I (Some s) ∧
  match r with inl v => kv_get k s = inl v | inr e => ∃ e', e = EStore e' ∧ kv_get k s = inr e' end).
Proof.
  intros w Hw. unfold storeGet. destruct (w_store w) as [s|] eqn:Es; [|simpl; by rewrite Es].
  rewrite Es. split; [done|]. exists s. split; [done|]. destruct (kv_get k s); eauto.
Qed.

Lemma keeps_fetch {A} I (dec : object → option A) del key : keeps I (fetch dec del key)
  (λ r, match r with
        | inl c => ∃ s b o, I (Some s) ∧ kv_get key s = inl b ∧ unmarshalObject b = Some o ∧
                   dec o = Some c ∧ del c = 0
        | inr _ => True
        end).
Proof.
  eapply keeps_tryBind; [apply keeps_storeGet|done|]. intros b (s & Hs & Hb).
  destruct (unmarshalObject b) as [o|] eqn:Eo; simpl; [|by apply keeps_ret].
  destruct (dec o) as [c|] eqn:Ec; [|by apply keeps_ret].
  apply keeps_ret. destruct (Z.eqb_spec (del c) 0); [|done]. naive_solver.
Qed.

Lemma keeps_user I email : keeps I (user email) (λ r, r = inl None ∨ ∃ e, r = inr e).
Proof.
  eapply keeps_tryBind; [apply keeps_fetch|eauto|]. intros a _. apply keeps_ret. by left.
Qed.

(** No password is ever accepted: a user that exists is a nil pointer. *)
Lemma keeps_valid I name password : keeps I (valid name password) (λ r, ∃ e, r = inr e).
Proof.
  eapply keeps_tryBind; [apply keeps_user|naive_solver|].
  intros a [[= ->]|(e & [=])]. apply keeps_panic.
Qed.

Lemma keeps_failWith I id state e ctx (Q : response → Prop) :
  (∀ ctx', kind ctx' = kind ctx → data ctx' = data (setErrState id "" state ctx) →
           statusCode ctx' = statusCode ctx → headers ctx' = headers ctx → url ctx' = url ctx →
           Q (commit ctx')) →
  keeps I (failWith id state e ctx) Q.
Proof.
  intros H. apply keeps_ret, H; destruct e; unfold setErrState, setErrURI; simpl; by case_match.
Qed.

(** ** Who gets a token *)

(** The client that the request authenticates as: its record is in the store,
    is not deleted, and bcrypt accepts the secret. *)
Definition authenticClient (st : option St) (basic : basicAuth) : Prop :=
  ∃ s b o c, st = Some s ∧ kv_get (oauth2ClientPrefix +:+ ba_UserName basic) s = inl b ∧
    unmarshalObject b = Some o ∧ clientOf o = Some c ∧ cl_DeletedAt c = 0 ∧
    bcryptCompare (cl_Secret c) (ba_Password basic) = true.

Definition carriesToken (resp : response) : Prop :=
  match resp with JSONReply _ _ d => is_Some (d !! oauth2ParamAccessToken) | _ => False end.

Lemma keeps_clientWithSecret st basic : keeps (λ s, s = st) (clientWithSecret basic)
  (λ r, match r with inl c => authenticClient st basic | inr _ => True end).
Proof.
  eapply keeps_tryBind; [apply keeps_fetch|done|].
  intros c (s & b & o & <- & Hb & Ho & Hc & Hd). apply keeps_ret. unfold compareHashedString.
  destruct (bcryptCompare _ _) eqn:Eb; [|done]. by exists s, b, o, c.
Qed.

Lemma failWith_noToken (P : world St → Prop) id state e X R :
  triple P (failWith id state e oauth2Context_init) (λ resp _, carriesToken resp → X) R.
Proof.
  apply triple_ret. intros w _. assert (Hn : ¬ carriesToken (commit (match e with
    None => setErrState id "" state oauth2Context_init
  | Some e => set_internalErr e (setErrState id "" state oauth2Context_init) end))).
  { unfold setErrState, setErrURI. destruct e, (state =? "")%string; simpl;
      unfold clearData, set_data; simpl; unfold oauth2ParamAccessToken, oauth2ParamState, oauth2ParamErrURI,
        oauth2ParamErrDesc, oauth2ParamError; rewrite ?lookup_insert_ne, lookup_empty by done; by intros []. }
  done.
Qed.

(** The part of [access] behind the check of the secret. *)
Lemma guarded_token st basic id (X : Prop) (f : oauth2Client → M response) :
  (authenticClient st basic → X) →
  triple (λ w, w_store w = st)
    (onErr (clientWithSecret basic) (λ e, failWith id "" (Some e) oauth2Context_init) f)
    (λ resp _, carriesToken resp → X) (λ _, True).
Proof.
  intros HX. eapply triple_onErr.
  - eapply triple_weaken; [exact (keeps_clientWithSecret st basic)|done|intros a w H; exact H|done].
  - intros e. apply failWith_noToken.
  - intros c w [_ Hc]. specialize (HX Hc). destruct (f c w) as [[]]; done.
Qed.

Lemma access_guarded st o r basic (Hb : basicAuth_init r true = (basic, true)) (X : Prop) :
  (authenticClient st basic → X) →
  Forall (λ h, triple (λ w, w_store w = st) (h o r basic oauth2Context_init)
                 (λ resp _, carriesToken resp → X) (λ _, True))
    [accessCode; accessRefresh; accessPassword; accessClient; accessAssertion].
Proof.
  intros HX. repeat (apply Forall_cons; split); [..|by apply Forall_nil].
  - unfold accessCode. case_match; [apply failWith_noToken|by apply guarded_token].
  - unfold accessRefresh. case_match; [apply failWith_noToken|by apply guarded_token].
  - unfold accessPassword. case_match; [apply failWith_noToken|].
    eapply triple_onErr; [eapply triple_weaken;
      [exact (keeps_valid (λ s, s = st) _ _)|done|intros a w H'; exact H'|done]|..].
    + intros e. apply failWith_noToken.
    + by intros a w [_ [e [=]]].
  - by apply guarded_token.
  - unfold accessAssertion. case_match; [apply failWith_noToken|by apply guarded_token].
Qed.

(** C10: A token is only issued to an authenticated client.  Whatever the store
    holds and whatever its operations do, when the token endpoint answers with
    an access token, the request named a client, by form or by basic
    authentication, whose record is in the store and not deleted, bcrypt accepted
    the secret, and the grant type is among the allowed ones. *)
Theorem access_token_authentic o r w resp w' :
  access o r w = (Ok resp, w') → carriesToken resp →
  ∃ basic, basicAuth_init r true = (basic, true) ∧ authenticClient (w_store w) basic ∧
    accessAllowed (o_opts o) (FormGet r oauth2ParamGrantType) = true.
Proof.
  intros Ha Ht.
  set (X := ∃ basic, basicAuth_init r true = (basic, true) ∧ authenticClient (w_store w) basic ∧
    accessAllowed (o_opts o) (FormGet r oauth2ParamGrantType) = true).
  assert (H : triple (λ w0, w_store w0 = w_store w) (access o r) (λ resp _, carriesToken resp → X) (λ _, True)).
  { unfold access. case_match; [apply failWith_noToken|]. case_match; [apply failWith_noToken|].
    destruct (basicAuth_init r true) as [basic ok] eqn:Eb. destruct ok; [|apply failWith_noToken]. simpl.
    destruct (accessAllowed _ _) eqn:Ea; [|apply failWith_noToken]. simpl.
    pose proof (access_guarded (w_store w) o r basic Eb X) as Hg.
    rewrite !Forall_cons in Hg. destruct Hg as (?&?&?&?&?&_); [by exists basic|].
    repeat (case_match; [done|]). apply failWith_noToken. }
  specialize (H w eq_refl). rewrite Ha in H. by apply H.
Qed.
End Triples.

(** ** What a run can issue *)

Inductive oauthCall :=
| CallAuthorize (r : oauthRequest) | CallAccess (r : oauthRequest)
| CallInfo (r : oauthRequest) | CallRegister (r : oauthRequest).

Section Runs.
Context {St : Type} `{KV : kvStore St} {KL : kvStoreLaws St} `{J : JSON} `{GU : GoURL} `{E : OAuthEnv}.

Definition serveCall (o : oauth2) (w : world St) (c : oauthCall) : world St :=
  match c with
  | CallAuthorize r => snd (authorize o r w)
  | CallAccess r => snd (access o r w)
  | CallInfo r => snd (info o r w)
  | CallRegister r => snd (register r w)
  end.
Definition serveCalls (o : oauth2) (cs : list oauthCall) (w : world St) : world St := foldl (serveCall o) w cs.

(** Neither a token under its own prefix nor a grant with a code. *)
Definition unissued (st : option St) : Prop :=
  ∀ s, st = Some s →
    (∀ k, kv_lookup s (oauth2TokenPrefix +:+ k) = None) ∧
    (∀ k, k ≠ "" → kv_lookup s (oauth2GrantPrefix +:+ k) = None).

Definition otherKey (key : string) : Prop :=
  (∀ k, key ≠ oauth2TokenPrefix +:+ k) ∧ (∀ k, k ≠ "" → key ≠ oauth2GrantPrefix +:+ k).

(** Keys with different prefixes differ. *)
Ltac prefixes_differ :=
  unfold oauth2ClientPrefix, oauth2UserPrefix, oauth2GrantPrefix, oauth2GrantAccessPrefix,
    oauth2GrantRefreshPrefix, oauth2TokenPrefix, oauth2CSRFTokenPrefix;
  rewrite ?string_app_cons; intros [=].

Lemma otherKey_client k : otherKey (oauth2ClientPrefix +:+ k).
Proof. split; intros k'; [|intros _]; prefixes_differ. Qed.
Lemma otherKey_user k : otherKey (oauth2UserPrefix +:+ k).
Proof. split; intros k'; [|intros _]; prefixes_differ. Qed.
Lemma otherKey_access k : otherKey (oauth2GrantAccessPrefix +:+ k).
Proof. split; intros k'; [|intros _]; prefixes_differ. Qed.
Lemma otherKey_refresh k : otherKey (oauth2GrantRefreshPrefix +:+ k).
Proof. split; intros k'; [|intros _]; prefixes_differ. Qed.
Lemma otherKey_noCode : otherKey (oauth2GrantPrefix +:+ "").
Proof. split; intros k'; [prefixes_differ|]. intros Hk. prefixes_differ. by subst. Qed.
#[local] Hint Resolve otherKey_client otherKey_user otherKey_access otherKey_refresh otherKey_noCode : vince.

Lemma unissued_change (s s' : St) key (v : option string) :
  otherKey key → (∀ k, kv_lookup s' k = if decide (key = k) then v else kv_lookup s k) ∨
                 (∀ k, kv_lookup s' k = kv_lookup s k) →
  unissued (Some s) → unissued (Some s').
Proof.
  intros [Ht Hg] Hs' Hs s0 [= <-]. destruct (Hs s eq_refl) as [H1 H2].
  split; intros k; [|intros Hk]; (destruct Hs' as [Hs'|Hs']; rewrite Hs'; [rewrite decide_False by auto|]); auto.
Qed.

Lemma keeps_storeSet k v : otherKey k → keeps unissued (storeSet k v) (λ _, True).
Proof.
  intros Hk w Hw. unfold storeSet. destruct (w_store w) as [s|] eqn:Es; [|by rewrite Es].
  destruct (kv_set k v s) as [s' [e|]] eqn:Ek; simpl; (split; [|done]).
  - eapply (unissued_change s s' k None); [done| |done]. right. by eapply kv_set_failed.
  - eapply (unissued_change s s' k (Some v)); [done| |done]. left. by eapply kv_set_done.
Qed.

Lemma keeps_marshalSet k o : otherKey k → keeps unissued (marshalSet k o) (λ _, True).
Proof. intros Hk. unfold marshalSet. case_match; [by apply keeps_storeSet|by apply keeps_ret]. Qed.

Lemma keeps_saveToken t : keeps unissued (saveToken t) (λ _, True).
Proof. eapply keeps_bind; [apply keeps_now|]. intros. apply keeps_marshalSet. auto with vince. Qed.

Lemma keeps_saveUser u : keeps unissued (saveUser u) (λ _, True).
Proof. eapply keeps_bind; [apply keeps_now|]. intros. apply keeps_marshalSet. auto with vince. Qed.

Lemma keeps_setUnlessEmpty v k b : otherKey k →
  keeps unissued (if (v =? "")%string then mret (inl ()) else storeSet k b) (λ _, True).
Proof. intros. case_match; [by apply keeps_ret|by apply keeps_storeSet]. Qed.

Lemma keeps_saveGrant g : gr_Code g = "" → keeps unissued (saveGrant g) (λ _, True).
Proof.
  intros Hg. eapply keeps_bind; [apply keeps_now|]. intros t _. simpl.
  destruct (jsonMarshal _) as [b|]; [|by apply keeps_ret].
  eapply keeps_tryBind; [apply keeps_setUnlessEmpty; auto with vince|done|]. intros _ _.
  eapply keeps_tryBind; [apply keeps_setUnlessEmpty; auto with vince|done|]. intros _ _.
  apply keeps_storeSet. simpl. rewrite Hg. auto with vince.
Qed.

Lemma keeps_grant_missing id : id ≠ "" → keeps unissued (grant id) (λ r, ∃ e, r = inr e).
Proof.
  intros Hid. eapply keeps_weaken; [apply keeps_fetch|]. intros [g|e]; [|eauto].
  intros (s & b & o & Hs & Hb & _). apply kv_get_found in Hb.
  destruct (Hs s eq_refl) as [_ H]. by rewrite H in Hb.
Qed.

Lemma keeps_token_missing id : keeps unissued (token id) (λ r, ∃ e, r = inr e).
Proof.
  eapply keeps_weaken; [apply keeps_fetch|]. intros [g|e]; [|eauto].
  intros (s & b & o & Hs & Hb & _). apply kv_get_found in Hb.
  destruct (Hs s eq_refl) as [H _]. by rewrite H in Hb.
Qed.

Lemma keeps_finalize o auth ctx : keeps unissued (finalize o auth ctx) (λ _, True).
Proof.
  unfold finalize.
  eapply keeps_onErr; [apply keeps_generate|by intros; apply keeps_ret|]. intros access _.
  eapply keeps_onErr; [apply keeps_saveToken|by intros; apply keeps_ret|]. intros _ _.
  eapply keeps_onErr; [apply keeps_generate|by intros; apply keeps_ret|]. intros refresh _.
  eapply keeps_onErr; [apply keeps_saveToken|by intros; apply keeps_ret|]. intros _ _.
  eapply keeps_onErr; [by apply keeps_saveGrant|by intros; apply keeps_ret|]. intros _ _.
  destruct (String.eqb_spec (gr_Code auth) ""); [by apply keeps_ret|].
  eapply keeps_onErr.
  - eapply keeps_tryBind; [by apply keeps_grant_missing| |by intros a [e [=]]]. instantiate (1 := λ _, True). done.
  - intros. by apply keeps_ret.
  - intros. by apply keeps_ret.
Qed.

(** An error response of the token or the information endpoint. *)
Definition refuses (resp : response) : Prop :=
  ∃ id d, resp = JSONReply StatusOK (headers oauth2Context_init ++ [("Content-Type", "application/json")]) d ∧
    d !! oauth2ParamError = Some (DStr (errkeyString id)) ∧ d !! oauth2ParamAccessToken = None ∧
    d !! "email" = None.

Lemma failWith_refuses I id state e :
  keeps I (failWith (St := St) id state e oauth2Context_init) refuses.
Proof.
  apply keeps_failWith. intros ctx' Hk Hd Hs Hh Hu. exists id, (data ctx'). split; [|rewrite Hd].
  - unfold commit. rewrite Hk. simpl. by rewrite Hs, Hh.
  - unfold setErrState, setErrURI. destruct (state =? "")%string; simpl; unfold oauth2ParamAccessToken,
      oauth2ParamState, oauth2ParamErrURI, oauth2ParamErrDesc, oauth2ParamError;
      repeat split; repeat (rewrite lookup_insert_ne by done); rewrite ?lookup_insert_eq, ?lookup_empty; done.
Qed.

Lemma keeps_failAny I id state e ctx : keeps I (failWith (St := St) id state e ctx) (λ _, True).
Proof. by apply keeps_failWith. Qed.

Lemma keeps_finishAccess o g ctx : keeps unissued (finishAccess o g ctx) (λ _, True).
Proof.
  eapply keeps_bind; [apply keeps_finalize|]. intros [ctx' [e|]] _; [apply keeps_failAny|by apply keeps_ret].
Qed.

Lemma keeps_secret {B} I basic (h : oauthError → M B) (f : oauth2Client → M B) Q :
  (∀ e, keeps I (h e) Q) → (∀ c, keeps I (f c) Q) → keeps I (onErr (clientWithSecret (St := St) basic) h f) Q.
Proof.
  intros Hh Hf. eapply (keeps_onErr _ _ _ _ (λ _, True)); [|auto..].
  eapply keeps_tryBind; [apply keeps_fetch|done|]. intros c _. by apply keeps_ret.
Qed.

Lemma keeps_authorize o r : keeps unissued (authorize o r) (λ _, True).
Proof.
  unfold authorize. destruct (QueryUnescape _); [|apply keeps_failAny].
  eapply keeps_onErr; [apply keeps_fetch|by intros; apply keeps_failAny|]. intros c _.
  destruct (cl_RedirectURL c =? "")%string; [apply keeps_failAny|].
  destruct (validateURIList _ _ _); [apply keeps_failAny|].
  eapply (keeps_bind _ _ _ (λ u, u = None)).
  - destruct (rq_method r =? "POST")%string; [|by apply keeps_ret].
    eapply keeps_onErr; [apply keeps_valid|by intros; apply keeps_ret|]. by intros a [e [=]].
  - intros u ->. by apply keeps_ret.
Qed.

(** The two grant types that need a grant with a code always refuse. *)
Lemma accessCode_refuses o r basic :
  keeps unissued (accessCode o r basic oauth2Context_init) refuses.
Proof.
  unfold accessCode. destruct (String.eqb_spec (FormGet r oauth2ParamCode) ""); [apply failWith_refuses|].
  apply keeps_secret; [intros; apply failWith_refuses|]. intros c.
  eapply (keeps_onErr _ _ _ _ (λ r, ∃ e, r = inr e)).
  - unfold grantByClient. case_match; [by apply keeps_grant_missing|apply keeps_ret; eauto].
  - intros. apply failWith_refuses.
  - by intros a [e [=]].
Qed.

Lemma accessRefresh_refuses o r basic :
  keeps unissued (accessRefresh o r basic oauth2Context_init) refuses.
Proof.
  unfold accessRefresh. destruct (String.eqb_spec (FormGet r oauth2ParamRefreshToken) ""); [apply failWith_refuses|].
  apply keeps_secret; [intros; apply failWith_refuses|]. intros c.
  eapply keeps_onErr; [by apply keeps_grant_missing|intros; apply failWith_refuses|by intros a [e [=]]].
Qed.

Lemma accessPassword_refuses o r basic I :
  keeps I (accessPassword (St := St) o r basic oauth2Context_init) refuses.
Proof.
  unfold accessPassword. case_match; [apply failWith_refuses|].
  eapply keeps_onErr; [apply keeps_valid|intros; apply failWith_refuses|by intros a [e [=]]].
Qed.

Definition needsGrant (r : oauthRequest) : Prop :=
  FormGet r oauth2ParamGrantType ∈ [oauth2GrantTypeAuthorizationCode; oauth2GrantTypeRefreshToken;
                                    oauth2GrantTypePassword].

Lemma keeps_access o r : keeps unissued (access o r) (λ resp, needsGrant r → refuses resp).
Proof.
  assert (Hw : ∀ m, keeps unissued m refuses → keeps unissued m (λ resp, needsGrant r → refuses resp))
    by (intros m Hm; eapply keeps_weaken; [exact Hm|auto]).
  unfold access. case_match; [apply Hw, failWith_refuses|]. case_match; [apply Hw, failWith_refuses|].
  destruct (basicAuth_init r true) as [basic []]; simpl; [|apply Hw, failWith_refuses].
  case_match; [apply Hw, failWith_refuses|]. unfold needsGrant.
  destruct (String.eqb_spec (FormGet r oauth2ParamGrantType) oauth2GrantTypeAuthorizationCode);
    [apply Hw, accessCode_refuses|].
  destruct (String.eqb_spec (FormGet r oauth2ParamGrantType) oauth2GrantTypeRefreshToken);
    [apply Hw, accessRefresh_refuses|].
  destruct (String.eqb_spec (FormGet r oauth2ParamGrantType) oauth2GrantTypePassword);
    [apply Hw, accessPassword_refuses|].
  eapply (keeps_weaken _ _ _ (λ _, True)); [|set_solver].
  case_match; [|case_match; [|apply keeps_failAny]].
  - apply keeps_secret; [intros; apply keeps_failAny|]. intros. apply keeps_finishAccess.
  - unfold accessAssertion. case_match; [apply keeps_failAny|].
    apply keeps_secret; [intros; apply keeps_failAny|]. intros. apply keeps_finishAccess.
Qed.

Lemma keeps_info o r : keeps unissued (info o r) refuses.
Proof.
  unfold info. case_match; [apply failWith_refuses|].
  eapply keeps_bind; [apply keeps_lift|]. intros [code|] _; [|apply failWith_refuses].
  case_match; [apply failWith_refuses|].
  eapply (keeps_onErr _ _ _ _ (λ r, ∃ e, r = inr e)); [|intros; apply failWith_refuses|by intros a [e [=]]].
  eapply keeps_tryBind; [apply keeps_token_missing|naive_solver|by intros a [e [=]]].
Qed.

Lemma keeps_register r : keeps unissued (register r) (λ _, True).
Proof.
  unfold register. repeat (case_match; [by apply keeps_ret|]).
  eapply (keeps_bind _ _ _ (λ _, True)); [by intros w Hw|]. intros [h|] _; [|by apply keeps_ret].
  eapply keeps_bind; [apply keeps_now|]. intros t _.
  eapply keeps_onErr; [apply keeps_saveUser|by intros; apply keeps_ret..].
Qed.

Lemma keeps_world {A} I (m : M A) Q w : keeps I m Q → I (w_store (St := St) w) → I (w_store (snd (m w))).
Proof. intros Hm Hw. specialize (Hm w Hw). destruct (m w) as [[]]; naive_solver. Qed.

Lemma serveCalls_unissued o cs w : unissued (w_store w) → unissued (w_store (serveCalls o cs w)).
Proof.
  revert w. induction cs as [|c cs IH]; intros w Hw; [done|]. apply IH.
  destruct c; simpl; (eapply keeps_world; [|done]);
    eauto using keeps_authorize, keeps_access, keeps_info, keeps_register.
Qed.

(** What a run can issue.  From a store with neither tokens nor grants (one
    that holds clients and users), after any sequence of requests to the four
    endpoints, panics included: the store still has no token under the prefix
    of tokens and no grant with a code, the information endpoint answers with an
    error or panics, and so does the token endpoint for the grant types
    authorization_code, refresh_token and password. *)
Theorem run_issues_nothing o cs w :
  unissued (w_store w) →
  let w1 := serveCalls o cs w in
  unissued (w_store w1) ∧
  (∀ r resp w2, info o r w1 = (Ok resp, w2) → refuses resp) ∧
  (∀ r resp w2, needsGrant r → access o r w1 = (Ok resp, w2) → refuses resp).
Proof.
  intros Hw w1. pose proof (serveCalls_unissued o cs w Hw) as H1. split; [done|]. split.
  - intros r resp w2 Hi. pose proof (keeps_info o r w1 H1) as Hk. rewrite Hi in Hk. by destruct Hk.
  - intros r resp w2 Hn Ha. pose proof (keeps_access o r w1 H1) as Hk. rewrite Ha in Hk.
    destruct Hk as [_ Hk]. by apply Hk.
Qed.
End Runs.
