(* ===== verification/OAuthReplies.v ===== *)
(** * What the OAuth2 endpoints answer

    The shape of every response, the exact effect of the client_credentials
    grant, redirect URLs, scopes, and the panic of users that exist. *)

From S2P Require Import Prelude GoStrings GoNet GoJSON GoURL RaftStore RaftFacts RaftInstance KVStore OAuth2 OAuthFacts.

#[local] Open Scope Z_scope.
#[local] Existing Instances M_ret M_bind.

(** ** Shapes *)

Definition replyHeaders : list (string * string) :=
  headers oauth2Context_init ++ [("Content-Type", "application/json")].

(** The object of an error response. *)
Definition errorData (id : oauth2Errkey) (state : string) : gmap string dataValue :=
  let d := <[oauth2ParamErrURI := DStr ""]> (<[oauth2ParamErrDesc := DStr (getOauth2Err id)]>
             {[oauth2ParamError := DStr (errkeyString id)]}) in
  if (state =? "")%string then d else <[oauth2ParamState := DStr state]> d.

(** The object of a successful token response. *)
Definition tokenReply (opts : oauth2Option) (access refresh scope : string) : gmap string dataValue :=
  let d := <[oauth2ParamRefreshToken := DStr refresh]> (<[oauth2ParamExpiresIn := DInt (op_AccessExpire opts)]>
            (<[oauth2ParamTokenType := DStr (op_TokenType opts)]> {[oauth2ParamAccessToken := DStr access]})) in
  if (scope =? "")%string then d else <[oauth2ParamScope := DStr scope]> d.

Definition isErrorReply (state : string) (resp : response) : Prop :=
  ∃ id, resp = JSONReply StatusOK replyHeaders (errorData id state).

Definition isTokenReply (opts : oauth2Option) (resp : response) : Prop :=
  ∃ access refresh scope, resp = JSONReply StatusOK replyHeaders (tokenReply opts access refresh scope).

Definition isLoginPage (resp : response) : Prop := resp = HTMLPage "oauth/login.html" ∨ resp = NoReply ETemplate.

Section Shapes.
Context {St : Type} `{KV : kvStore St} `{J : JSON} `{GU : GoURL} `{E : OAuthEnv}.

(** Contexts of the handlers that answer with data. *)
Definition plainContext (c : oauth2Context) : Prop :=
  kind c = oauth2ResponseData ∧ statusCode c = StatusOK ∧ headers c = headers oauth2Context_init.

Abbreviation returns := (keeps (λ _ : option St, True)).

Lemma returns_any {A} (m : M A) : returns m (λ _, True).
Proof. intros w _. by destruct (m w) as [[]]. Qed.

Lemma setErrState_data id state c : data (setErrState id "" state c) = errorData id state.
Proof. unfold setErrState, setErrURI, errorData. simpl. by destruct (state =? "")%string. Qed.

Lemma failWith_error id state e c : plainContext c → returns (failWith id state e c) (isErrorReply state).
Proof.
  intros (Hk & Hs & Hh). apply keeps_failWith. intros c' Hk' Hd Hs' Hh' _. exists id.
  unfold commit. by rewrite Hk', Hk, Hs', Hs, Hh', Hh, Hd, setErrState_data.
Qed.

Lemma tokenData_plain opts g a r c : plainContext c → plainContext (tokenData opts g a r c).
Proof. unfold tokenData. intros Hc. by destruct (gr_Scope g =? "")%string. Qed.

Lemma tokenData_data opts g a r : data (tokenData opts g a r oauth2Context_init) = tokenReply opts a r (gr_Scope g).
Proof. unfold tokenData, tokenReply. by destruct (gr_Scope g =? "")%string. Qed.

Lemma init_plain : plainContext oauth2Context_init.
Proof. done. Qed.

Lemma finalize_context o g : returns (finalize o g oauth2Context_init)
  (λ '(c, err), plainContext c ∧ (err = None → ∃ a r, c = tokenData (o_opts o) g a r oauth2Context_init)).
Proof.
  unfold finalize. do 5 (eapply keeps_onErr; [apply returns_any|by intros; apply keeps_ret|]; intros ? _).
  case_match; [apply keeps_ret|eapply keeps_onErr; [apply returns_any|intros; apply keeps_ret..]];
    (split; [by apply tokenData_plain|by eauto]).
Qed.

Lemma finishAccess_shape o g : returns (finishAccess o g oauth2Context_init)
  (λ resp, isErrorReply "" resp ∨ isTokenReply (o_opts o) resp).
Proof.
  eapply keeps_bind; [apply finalize_context|]. intros [c [e|]] [Hc Ht].
  - eapply keeps_weaken; [by apply failWith_error|auto].
  - apply keeps_ret. right. destruct (Ht eq_refl) as (a & r & ->). eexists a, r, (gr_Scope g).
    unfold commit. destruct Hc as (-> & -> & ->). by rewrite tokenData_data.
Qed.

Lemma keeps_any_onErr {A B} (m : M (orErr A)) (h : oauthError → M B) f Q :
  (∀ e, returns (h e) Q) → (∀ a, returns (f a) Q) → returns (onErr m h f) Q.
Proof. intros. eapply keeps_onErr; [apply returns_any|auto..]. Qed.

Lemma keeps_any_bind {A B} (m : M A) (f : A → M B) Q : (∀ a, returns (f a) Q) → returns (m ≫= f) Q.
Proof. intros. eapply keeps_bind; [apply returns_any|auto]. Qed.

Lemma access_shape o r : returns (access o r) (λ resp, isErrorReply "" resp ∨ isTokenReply (o_opts o) resp).
Proof.
  assert (Hf : ∀ id e, returns (failWith id "" e oauth2Context_init)
    (λ resp, isErrorReply "" resp ∨ isTokenReply (o_opts o) resp)).
  { intros. eapply keeps_weaken; [by apply failWith_error|auto]. }
  pose proof (finishAccess_shape o) as Hs.
  unfold access. case_match; [apply Hf|]. case_match; [apply Hf|].
  destruct (basicAuth_init r true) as [basic []]; simpl; [|apply Hf]. case_match; [apply Hf|].
  unfold accessCode, accessRefresh, accessPassword, accessClient, accessAssertion.
  repeat first
    [ apply Hf | apply Hs | apply keeps_panic
    | apply keeps_any_onErr; intros
    | apply keeps_any_bind; intros
    | match goal with
      | |- keeps _ (if ?b then _ else _) _ => destruct b
      | |- keeps _ (match ?x with _ => _ end) _ => destruct x
      end ].
Qed.

Lemma info_shape o r : returns (info o r) (isErrorReply "").
Proof.
  assert (Hf : ∀ id e, returns (failWith id "" e oauth2Context_init) (isErrorReply ""))
    by (intros; by apply failWith_error).
  unfold info. case_match; [apply Hf|]. apply keeps_any_bind. intros [code|]; [|apply Hf].
  case_match; [apply Hf|]. do 2 (apply keeps_any_onErr; [intros; apply Hf|intros ?]).
  case_match; [apply Hf|]. apply keeps_any_bind. intros [|]; [apply Hf|].
  eapply keeps_onErr; [apply keeps_user|intros; apply Hf|]. intros u [[= ->]|(e & [=])].
  case_match; [apply keeps_panic|apply Hf].
Qed.

Lemma authorize_shape o r : returns (authorize o r)
  (λ resp, isErrorReply "" resp ∨ isErrorReply (FormGet r oauth2ParamState) resp ∨ isLoginPage resp).
Proof.
  assert (Hf : ∀ id e, returns (failWith id (FormGet r oauth2ParamState) e oauth2Context_init)
    (λ resp, isErrorReply "" resp ∨ isErrorReply (FormGet r oauth2ParamState) resp ∨ isLoginPage resp)).
  { intros. eapply keeps_weaken; [by apply failWith_error|auto]. }
  unfold authorize. destruct (QueryUnescape _);
    [|eapply keeps_weaken; [by apply failWith_error|auto]].
  apply keeps_any_onErr; [intros; apply Hf|]. intros c.
  destruct (cl_RedirectURL c =? "")%string; [apply Hf|].
  destruct (validateURIList _ _ _); [apply Hf|].
  eapply (keeps_bind _ _ _ (λ u, u = None)).
  - destruct (rq_method r =? "POST")%string; [|by apply keeps_ret].
    eapply keeps_onErr; [apply keeps_valid|by intros; apply keeps_ret|by intros a [e [=]]].
  - intros u ->. apply keeps_ret. right; right. unfold isLoginPage. case_match; auto.
Qed.

(** C26: The types of the responses.  Whatever the store and the environment
    do, when a handler returns, its response is one of these and no other: the
    authorization endpoint gives the login page or an error object, with the
    state of the request if it has one; the token endpoint an error object or a
    token object; the information endpoint an error object.  Error objects have
    exactly error, error_description (the text of the table) and error_uri, token
    objects exactly access_token, token_type, expires_in, refresh_token and scope
    when it is not empty; the status is 200 and no redirect is ever sent. *)
Theorem reply_types o r w resp w' :
  (authorize o r w = (Ok resp, w') →
    isErrorReply "" resp ∨ isErrorReply (FormGet r oauth2ParamState) resp ∨ isLoginPage resp) ∧
  (access o r w = (Ok resp, w') → isErrorReply "" resp ∨ isTokenReply (o_opts o) resp) ∧
  (info o r w = (Ok resp, w') → isErrorReply "" resp).
Proof.
  repeat split; intros H.
  - pose proof (authorize_shape o r w I) as Hk. rewrite H in Hk. by destruct Hk.
  - pose proof (access_shape o r w I) as Hk. rewrite H in Hk. by destruct Hk.
  - pose proof (info_shape o r w I) as Hk. rewrite H in Hk. by destruct Hk.
Qed.
End Shapes.

(** ** The client_credentials grant *)

(** What a store holds after a list of writes. *)
Definition putAll (f : string → option string) (kvs : list (string * string)) : string → option string :=
  foldl (λ f kv k, if decide (fst kv = k) then Some (snd kv) else f k) f kvs.

Section Credentials.
Context {St : Type} `{KV : kvStore St} {KL : kvStoreLaws St} {KR : kvReliable St}.
Context `{J : JSON} `{GU : GoURL} `{E : OAuthEnv}.

Lemma storeSet_reliable k v s n c : storeKey k = true →
  ∃ s', storeSet k v (mkWorld (Some s) n c) = (Ok (inl ()), mkWorld (Some s') n c) ∧
        ∀ k', kv_lookup s' k' = if decide (k = k') then Some v else kv_lookup s k'.
Proof.
  intros Hk. unfold storeSet. simpl. pose proof (kv_set_total k v s Hk) as Ht.
  destruct (kv_set k v s) as [s' e] eqn:Ek. simpl in Ht. subst e. exists s'. split; [done|].
  by apply kv_set_done.
Qed.

(** The writes of [finalize]. *)
Definition tokenEntry (code : string) (g : oauth2Grant) (t : goTime) : string * string :=
  (oauth2ClientPrefix +:+ code,
   marshalObject (tokenObject (mkToken code (gr_ClientID g) (gr_UserID g) 0 0 t 0))).

Definition issuedEntries (opts : oauth2Option) (g : oauth2Grant) (a r : string) (t1 t2 t3 : goTime)
    : list (string * string) :=
  let text := marshalObject (grantObject (touchGrant t3 (accessGrant opts g a r))) in
  [tokenEntry a g t1; tokenEntry r g t2; (oauth2GrantAccessPrefix +:+ a, text);
   (oauth2GrantRefreshPrefix +:+ r, text); (oauth2GrantPrefix, text)].

Lemma saveToken_reliable code g s n c : jsonTime (clockNow c) = true →
  ∃ s', saveToken (newToken code g) (mkWorld (Some s) n c) = (Ok (inl ()), mkWorld (Some s') n (S c)) ∧
        ∀ k, kv_lookup s' k = putAll (kv_lookup s) [tokenEntry code g (clockNow c)] k.
Proof.
  intros Ht. unfold saveToken. unfold mbind, M_bind, now. simpl. unfold marshalSet, jsonMarshal. simpl.
  rewrite Ht. simpl. destruct (storeSet_reliable (oauth2ClientPrefix +:+ code)
    (marshalObject (tokenObject (mkToken code (gr_ClientID g) (gr_UserID g) 0 0 (clockNow c) 0))) s n (S c))
    as (s' & -> & Hs'); [done|]. by exists s'.
Qed.

Lemma saveGrant_reliable opts g a r s n c : jsonTime (clockNow c) = true → a ≠ "" → r ≠ "" →
  let text := marshalObject (grantObject (touchGrant (clockNow c) (accessGrant opts g a r))) in
  ∃ s', saveGrant (accessGrant opts g a r) (mkWorld (Some s) n c) = (Ok (inl ()), mkWorld (Some s') n (S c)) ∧
        ∀ k, kv_lookup s' k = putAll (kv_lookup s)
          [(oauth2GrantAccessPrefix +:+ a, text); (oauth2GrantRefreshPrefix +:+ r, text); (oauth2GrantPrefix, text)] k.
Proof.
  intros Ht Ha Hr text. unfold saveGrant. unfold mbind at 1, M_bind at 1, now. simpl.
  unfold jsonMarshal. simpl. rewrite Ht. simpl. unfold tryBind, mbind, M_bind.
  destruct (String.eqb_spec a ""); [done|]. destruct (String.eqb_spec r ""); [done|].
  destruct (storeSet_reliable (oauth2GrantAccessPrefix +:+ a) text s n (S c)) as (s1 & E1 & H1); [done|].
  destruct (storeSet_reliable (oauth2GrantRefreshPrefix +:+ r) text s1 n (S c)) as (s2 & E2 & H2); [done|].
  destruct (storeSet_reliable (oauth2GrantPrefix +:+ "") text s2 n (S c)) as (s3 & E3 & H3); [done|].
  unfold text in *. simpl in *. rewrite E1, E2, E3. exists s3. split; [done|].
  intros k. rewrite H3, H2, H1. by rewrite string_app_nil_r.
Qed.

Lemma hexEncode_nonempty b : b ≠ "" → hexEncode b ≠ "".
Proof. by destruct b. Qed.

Lemma finalize_reliable o g s n c b1 b2 : gr_Code g = "" →
  randomBytes n 256 = Some b1 → randomBytes (S n) 256 = Some b2 → b1 ≠ "" → b2 ≠ "" →
  Forall (λ i, jsonTime (clockNow i) = true) [c; S c; S (S c)] →
  ∃ s', finalize o g oauth2Context_init (mkWorld (Some s) n c) =
          (Ok (tokenData (o_opts o) g (hexEncode b1) (hexEncode b2) oauth2Context_init, None),
           mkWorld (Some s') (S (S n)) (S (S (S c)))) ∧
        ∀ k, kv_lookup s' k = putAll (kv_lookup s)
          (issuedEntries (o_opts o) g (hexEncode b1) (hexEncode b2) (clockNow c) (clockNow (S c)) (clockNow (S (S c)))) k.
Proof.
  intros Hg R1 R2 N1 N2 Ht. rewrite !Forall_cons in Ht. destruct Ht as (T1 & T2 & T3 & _).
  destruct (saveToken_reliable (hexEncode b1) g s (S n) c T1) as (s1 & E1 & H1).
  destruct (saveToken_reliable (hexEncode b2) g s1 (S (S n)) (S c) T2) as (s2 & E2 & H2).
  destruct (saveGrant_reliable (o_opts o) g (hexEncode b1) (hexEncode b2) s2 (S (S n)) (S (S c)) T3) as (s3 & E3 & H3);
    [by apply hexEncode_nonempty..|].
  exists s3. split.
  - unfold finalize, onErr, generate, random, mbind, M_bind, mret, M_ret. simpl. rewrite R1. simpl.
    rewrite E1. simpl. rewrite R2. simpl. rewrite E2. simpl. rewrite E3. by rewrite Hg.
  - intros k. rewrite H3. unfold putAll in *. cbn [foldl issuedEntries] in *. by rewrite H2, H1.
Qed.

(** A request for the client_credentials grant with the credentials [u], [p]. *)
Definition credentialsRequest (o : oauth2) (r : oauthRequest) (u p : string) : Prop :=
  rq_method r = "POST" ∧ FormGet r oauth2ParamGrantType = oauth2GrantTypeClientCredentials ∧
  accessAllowed (o_opts o) oauth2GrantTypeClientCredentials = true ∧
  basicAuth_init r true = (mkBasicAuth u p, true).

Definition storedClient (s : St) (u : string) (c : oauth2Client) : Prop :=
  ∃ b ob, kv_lookup s (oauth2ClientPrefix +:+ u) = Some b ∧ unmarshalObject b = Some ob ∧
          clientOf ob = Some c ∧ cl_DeletedAt c = 0.

Lemma clientWithSecret_reliable s u p c n t : storedClient s u c → bcryptCompare (cl_Secret c) p = true →
  clientWithSecret (mkBasicAuth u p) (mkWorld (Some s) n t) = (Ok (inl c), mkWorld (Some s) n t).
Proof.
  intros (b & ob & Hb & Ho & Hc & Hd) Hp.
  unfold clientWithSecret, client, fetch, tryBind, storeGet, mbind, M_bind. simpl.
  rewrite kv_get_total, Hb by done. simpl. rewrite Ho. simpl. rewrite Hc, Hd. simpl.
  unfold compareHashedString. by rewrite Hp.
Qed.

(** C27: The client_credentials grant.  With a store that works, a client whose
    secret bcrypt accepts, random bytes and clock readings that JSON can write,
    the token endpoint answers with the two fresh tokens, the configured type
    and lifetime and the requested scope, and the store afterwards holds exactly
    five more entries: the two tokens (under the prefix of clients) and the
    grant, under the access token, the refresh token and the empty code. *)
Theorem client_credentials_issues o r s n t u p c b1 b2 :
  credentialsRequest o r u p → storedClient s u c → bcryptCompare (cl_Secret c) p = true →
  randomBytes n 256 = Some b1 → randomBytes (S n) 256 = Some b2 → b1 ≠ "" → b2 ≠ "" →
  Forall (λ i, jsonTime (clockNow i) = true) [t; S t; S (S t)] →
  let scope := FormGet r oauth2ParamScope in
  let a := hexEncode b1 in
  let rt := hexEncode b2 in
  let g := mkGrant "" "" (cl_UserID c) (cl_ID c) "" "" "" scope "" "" 0 0 0 0 in
  ∃ s', access o r (mkWorld (Some s) n t) =
          (Ok (JSONReply StatusOK replyHeaders (tokenReply (o_opts o) a rt scope)),
           mkWorld (Some s') (S (S n)) (S (S (S t)))) ∧
        ∀ k, kv_lookup s' k = putAll (kv_lookup s)
          (issuedEntries (o_opts o) g a rt (clockNow t) (clockNow (S t)) (clockNow (S (S t)))) k.
Proof.
  intros (Hm & Hg & Ha & Hb) Hc Hp R1 R2 N1 N2 Ht scope a rt g.
  destruct (finalize_reliable o g s n t b1 b2 eq_refl R1 R2 N1 N2 Ht) as (s' & Ef & Hs').
  exists s'. split; [|exact Hs']. unfold access. rewrite Hm, Hb, Hg, Ha. simpl.
  unfold accessClient, onErr. unfold mbind at 1, M_bind at 1.
  rewrite (clientWithSecret_reliable s u p c n t Hc Hp). unfold finishAccess, mbind, M_bind.
  change (mkGrant _ _ _ _ _ _ _ _ _ _ _ _ _ _) with g. rewrite Ef. unfold mret, M_ret. simpl.
  unfold commit. destruct (tokenData_plain (o_opts o) g a rt _ init_plain) as (Hk & Hs0 & Hh).
  fold a rt. rewrite Hk, Hs0, Hh, tokenData_data. done.
Qed.
End Credentials.

(** ** Accounts *)

Section Accounts.
Context {St : Type} `{KV : kvStore St} {KL : kvStoreLaws St} {KR : kvReliable St}.
Context `{J : JSON} {JL : JSONLaws} `{GU : GoURL} `{E : OAuthEnv}.

Lemma userOf_userObject u : userOf (coerceObject (userObject u)) =
  Some (mkUser (validUTF8 (us_Email u)) (validUTF8 <$> us_Grants u) (validUTF8 <$> us_Tokens u)
          (validUTF8 <$> us_Clients u) (validUTF8 (us_Password u)) (us_CreatedAt u) (us_UpdatedAt u)
          (us_DeletedAt u)).
Proof. reflexivity. Qed.

(** A record of a user that is not deleted. *)
Definition storedUser (st : option St) (email : string) : Prop :=
  ∃ s b ob u, st = Some s ∧ kv_lookup s (oauth2UserPrefix +:+ email) = Some b ∧
    unmarshalObject b = Some ob ∧ userOf ob = Some u ∧ us_DeletedAt u = 0.

Lemma saveUser_stored email hash t w w' :
  saveUser (mkUser email [] [] [] hash t 0 0) w = (Ok (inl ()), w') → storedUser (w_store w') email.
Proof.
  unfold saveUser, mbind, M_bind, now. simpl. unfold marshalSet.
  destruct (jsonMarshal _) as [b|] eqn:Eb; [|by intros [=]]. unfold storeSet. simpl.
  destruct (w_store w) as [s|]; [|by intros [=]].
  destruct (kv_set (oauth2UserPrefix +:+ email) b s) as [s' e] eqn:Es. destruct e; [by intros [=]|]. intros [= <-].
  unfold jsonMarshal in Eb. destruct (forallb _ _); [|done]. injection Eb as <-.
  eexists s', _, _, _. split; [done|]. rewrite (kv_set_done _ _ _ _ Es), decide_True by done.
  split; [done|]. split; [apply json_read_back|]. split; [apply userOf_userObject|done].
Qed.

Lemma register_stored r w w' : register r w = (Ok RegisterPage, w') → storedUser (w_store w') (FormGet r "email").
Proof.
  unfold register. repeat (case_match; [by intros [=]|]).
  unfold hashString, mbind, M_bind. cbn [w_random w_store w_clock].
  destruct (bcryptGenerate _ _) as [hash|]; [|by intros [=]]. unfold onErr, now, mbind, M_bind. simpl.
  match goal with |- context [saveUser ?u ?w0] => destruct (saveUser u w0) as [[[[]|e]| |] w1] eqn:Eu end;
    try by intros [=]. case_match; intros [= <-]. by eapply saveUser_stored.
Qed.

Lemma valid_panics w name password : storedUser (w_store w) name →
  valid name password w = (Panic NilDereference, w).
Proof.
  intros (s & b & ob & u & Hs & Hb & Ho & Hu & Hd).
  unfold valid, user, fetch, tryBind, storeGet, mbind, M_bind. rewrite Hs, kv_get_total, Hb by done. simpl.
  rewrite Ho. simpl. rewrite Hu, Hd. done.
Qed.

(** A user that has registered cannot log in.  After [register] has
    answered with its page, every password grant for that user at the token
    endpoint (with credentials present and the grant type allowed), whatever the
    password, ends in the panic of a nil pointer: user returns no user for a
    record that exists. *)
Theorem registered_user_panics o r w w' rq basic :
  register r w = (Ok RegisterPage, w') →
  rq_method rq = "POST" → FormGet rq oauth2ParamGrantType = oauth2GrantTypePassword →
  accessAllowed (o_opts o) oauth2GrantTypePassword = true → basicAuth_init rq true = (basic, true) →
  FormGet rq "username" = FormGet r "email" → FormGet rq "password" ≠ "" →
  access o rq w' = (Panic NilDereference, w').
Proof.
  intros Hr Hm Hg Ha Hb Hu Hp.
  assert (He : FormGet r "email" ≠ "").
  { intros He. revert Hr. unfold register. rewrite He. simpl. rewrite orb_true_r. by case_match; intros [=]. }
  apply register_stored in Hr. unfold access. rewrite Hm, Hb, Hg, Ha. simpl.
  unfold accessPassword. rewrite Hu. destruct (String.eqb_spec (FormGet r "email") ""); [done|].
  destruct (String.eqb_spec (FormGet rq "password") ""); [done|]. simpl.
  unfold onErr, mbind, M_bind. by rewrite valid_panics.
Qed.
End Accounts.

(** ** Redirect URLs *)

Section Redirects.
Context `{GU : GoURL}.

(** Below the path [base]: the same path, or one that continues it at a slash
    without a parent segment. *)
Definition belowPath (base path : string) : Prop :=
  path = base ∨ ∃ rest, path = TrimRight base 47 +:+ "/" +:+ rest ∧ ".." ∉ Split rest 47.

Definition sameSite (base redirect : string) : Prop :=
  ∃ b u, base ≠ "" ∧ redirect ≠ "" ∧ urlParse base = Some b ∧ urlParse redirect = Some u ∧
    Fragment b = "" ∧ Fragment u = "" ∧ Scheme b = Scheme u ∧ Host b = Host u ∧ belowPath (Path b) (Path u).

Lemma append_slash s rest : (s +:+ "/") +:+ rest = s +:+ "/" +:+ rest.
Proof. by rewrite string_app_assoc. Qed.

Lemma existsb_eqb x l : existsb (String.eqb x) l = bool_decide (x ∈ l).
Proof.
  destruct (existsb _ l) eqn:Ex; symmetry.
  - apply bool_decide_eq_true, list_elem_of_In. apply existsb_exists in Ex as (y & Hy & ->%String.eqb_eq). done.
  - apply bool_decide_eq_false. intros Hin%list_elem_of_In.
    rewrite (proj2 (existsb_exists _ _)) in Ex; [done|]. exists x. by rewrite String.eqb_refl.
Qed.

Lemma validateURI_iff base redirect : validateURI base redirect = None ↔ sameSite base redirect.
Proof.
  unfold validateURI, sameSite, belowPath.
  destruct (String.eqb_spec base "") as [|Hb]; [naive_solver|].
  destruct (String.eqb_spec redirect "") as [|Hr]; [naive_solver|]. cbn [orb].
  destruct (urlParse base) as [b|]; [|naive_solver]. destruct (urlParse redirect) as [u|]; [|naive_solver].
  destruct (String.eqb_spec (Fragment b) ""); [|naive_solver].
  destruct (String.eqb_spec (Fragment u) ""); [|naive_solver]. cbn [negb orb].
  destruct (String.eqb_spec (Scheme b) (Scheme u)); [|naive_solver]. cbn [negb].
  destruct (String.eqb_spec (Host b) (Host u)); [|naive_solver]. cbn [negb].
  destruct (String.eqb_spec (Path b) (Path u)) as [Hp|Hp]; [naive_solver|].
  destruct (HasPrefix (Path u) (TrimRight (Path b) 47 +:+ "/")) eqn:Ep; cbn [negb].
  - apply HasPrefix_split in Ep as [rest Hrest]. rewrite Hrest.
    unfold TrimPrefix. rewrite HasPrefix_app, skipString_app, existsb_eqb.
    case_bool_decide as Hd; split; try done.
    + intros (b' & u' & _ & _ & [= <-] & [= <-] & _ & _ & _ & _ & [H|(rest' & H & Hn)]); [naive_solver|].
      rewrite Hrest, append_slash in H. by apply (inj (String.append _)), (inj (String.append _)) in H as ->.
    + intros _. exists b, u. repeat (split; [done|]). right. exists rest. by rewrite Hrest, append_slash.
  - split; [done|]. intros (b' & u' & _ & _ & [= <-] & [= <-] & _ & _ & _ & _ & [H|(rest' & H & Hn)]);
      [naive_solver|]. by rewrite H, <- append_slash, HasPrefix_app in Ep.
Qed.

(** Redirect URLs.  A redirect is accepted for a list of registered URLs
    exactly when one of them, cut at the separator, parses, has the same scheme
    and host, neither has a fragment, and the path is that of the registered URL
    or continues it after a slash without a parent segment. *)
Theorem redirect_accepted baseList redirect sep :
  validateURIList baseList redirect sep = None ↔
  ∃ base, base ∈ uriList baseList sep ∧ sameSite base redirect.
Proof.
  unfold validateURIList. destruct (existsb _ _) eqn:Ex; split; try done.
  - intros _. apply existsb_exists in Ex as (base & Hin & H). exists base.
    apply list_elem_of_In in Hin. split; [done|]. apply validateURI_iff. by destruct (validateURI base redirect).
  - intros (base & Hin & H%validateURI_iff). rewrite (proj2 (existsb_exists _ _)) in Ex; [done|].
    exists base. apply list_elem_of_In in Hin. by rewrite H.
Qed.

Lemma redirectQuery_lookup u d k : redirectQuery u d !! k =
  match d !! k with Some v => Some [dataText v] | None => ParseQuery (RawQuery u) !! k end.
Proof.
  unfold redirectQuery. revert k. apply (map_fold_weak_ind (λ q (d : gmap string dataValue), ∀ k, q !! k =
    match d !! k with Some v => Some [dataText v] | None => ParseQuery (RawQuery u) !! k end)).
  - intros k. by rewrite lookup_empty.
  - intros i v d' q Hi IH k. unfold Values_Set. destruct (decide (i = k)) as [->|Hne].
    + by rewrite !lookup_insert_eq.
    + by rewrite !lookup_insert_ne.
Qed.

Lemma addPair_nonempty v piece : (∀ k l, v !! k = Some l → l ≠ []) → ∀ k l, addPair v piece !! k = Some l → l ≠ [].
Proof.
  intros Hv k l. unfold addPair. case_match; [apply Hv|]. destruct (default _ _) as [key value].
  destruct (QueryUnescape key) as [k0|]; [|apply Hv]. destruct (QueryUnescape value) as [x|]; [|apply Hv].
  unfold Values_Add. destruct (decide (k0 = k)) as [->|Hne].
  - rewrite lookup_insert_eq. intros [= <-]. by destruct (default [] (v !! k)).
  - rewrite lookup_insert_ne by done. apply Hv.
Qed.

Lemma ParseQuery_nonempty raw k l : ParseQuery raw !! k = Some l → l ≠ [].
Proof.
  unfold ParseQuery. assert (H : ∀ v : urlValues, (∀ k l, v !! k = Some l → l ≠ []) →
    ∀ k l, foldl addPair v (splitAny [38; 59] raw) !! k = Some l → l ≠ []).
  { induction (splitAny [38; 59] raw) as [|p ps IH]; intros v Hv; [done|]. simpl. apply IH, addPair_nonempty, Hv. }
  apply H. intros k' l'. by rewrite lookup_empty.
Qed.

(** Redirects carry their data.  A redirect of a context goes to its URL
    with another query, and that query read back gives for every key of the data
    the text of its value, and for every other key the values of the URL. *)
Theorem redirect_roundtrip c u :
  kind c = oauth2ResponseRedirect → redirectInFragment c = false → urlParse (url c) = Some u →
  ∃ q, getRedirectURL c = inl (urlString (set_RawQuery q u)) ∧
    ∀ k, ParseQuery q !! k =
         match data c !! k with Some v => Some [dataText v] | None => ParseQuery (RawQuery u) !! k end.
Proof.
  intros Hk Hf Hu. exists (Values_Encode (redirectQuery u (data c))). split.
  - unfold getRedirectURL. by rewrite Hk, Hu, Hf.
  - intros k. rewrite ParseQuery_Encode; [apply redirectQuery_lookup|].
    intros k' l. rewrite redirectQuery_lookup. case_match; [by intros [= <-]|apply ParseQuery_nonempty].
Qed.

(** The scope check of the refresh grant.  [extraScopes] holds exactly when
    the two lists share a scope that is not empty; with the scope of the grant on
    both sides, as for a request without a scope, it holds as soon as the grant
    has any scope, and the request is refused. *)
Theorem extraScopes_overlap access refresh :
  (extraScopes access refresh = true ↔
    ∃ scope, scope ≠ "" ∧ scope ∈ Split access 44 ∧ scope ∈ Split refresh 44) ∧
  (extraScopes access access = false ↔ ∀ scope, scope ∈ Split access 44 → scope = "").
Proof.
  assert (H : ∀ a r, extraScopes a r = true ↔ ∃ scope, scope ≠ "" ∧ scope ∈ Split a 44 ∧ scope ∈ Split r 44).
  { intros a r. unfold extraScopes. rewrite existsb_exists. setoid_rewrite existsb_exists.
    setoid_rewrite list_elem_of_In. split.
    - intros (x & Hx & y & Hy & Hb). rewrite !andb_true_iff, !negb_true_iff in Hb.
      destruct Hb as [[Hb _] ->%String.eqb_eq]. exists x. split; [|done]. by apply String.eqb_neq.
    - intros (x & Hn & Ha & Hr). exists x. split; [done|]. exists x. split; [done|].
      apply String.eqb_neq in Hn. by rewrite Hn, String.eqb_refl. }
  split; [apply H|]. rewrite <- not_true_iff_false, H. split.
  - intros Hn scope Hs. destruct (decide (scope = "")); [done|]. naive_solver.
  - naive_solver.
Qed.
End Redirects.

(** ** The theorems at work *)

Definition sampleEnv : OAuthEnv := {|
  bcryptCompare h p := (h =? "hash:" +:+ p)%string;
  bcryptGenerate _ p := Some ("hash:" +:+ p);
  randomBytes n _ := Some (String (zbyte (Z.of_nat n)) "");
  clockNow n := 63000000000000000000 + Z.of_nat n;
  execHTML _ := true;
|}.
Definition pathURL : GoURL := {|
  urlParse s := Some (mkURL "" "" None "" s "" false "" "");
  urlString u := Path u +:+ "?" +:+ RawQuery u;
|}.
#[local] Existing Instances sampleEnv pathURL bitsJSON bitsJSON_laws.

Definition sampleOption : oauth2Option :=
  oauth2Option_init (mkOption "" 0 0 false [] "" "" "" "" "" (mkSession "" 0 "" false false "" 0) None).
Definition sampleServer : oauth2 := mkOauth2 "" sampleOption.
Definition sampleClient : oauth2Client :=
  mkClient "app" "ada" "App" "hash:secret" [] [] "/cb" 1 1 0.
Definition emptyKV : kvStoreDB mapDB := mkKvStoreDB ∅ [] [] [] [].
Definition clientText : string := marshalObject (clientObject sampleClient).
Definition sampleStore : kvStoreDB mapDB := fst (kvStoreDB_set (oauth2ClientPrefix +:+ "app") clientText emptyKV).
Definition formOf (l : list (string * string)) : urlValues := list_to_map ((λ '(k, v), (k, [v])) <$> l).
Definition tokenRequest (grantType : string) (more : list (string * string)) : oauthRequest :=
  mkOauthRequest "POST" (formOf ([("grant_type", grantType); ("client_id", "app"); ("client_secret", "secret")] ++ more))
    false "".

Lemma emptyKV_lookup k : kv_lookup emptyKV k = None.
Proof.
  change (toString <$> (∅ : mapDB) !! ofString k = None).
  by rewrite (lookup_empty (M := gmap bytes) (A := bytes) (ofString k) : (∅ : mapDB) !! ofString k = None).
Qed.

Lemma sampleStore_set : kv_set (oauth2ClientPrefix +:+ "app") clientText emptyKV = (sampleStore, None).
Proof. reflexivity. Qed.

Lemma sampleStore_client : storedClient sampleStore "app" sampleClient.
Proof.
  exists clientText, (clientObject sampleClient). split; [|by vm_compute].
  by rewrite (kv_set_done _ _ _ _ sampleStore_set), decide_True.
Qed.

Definition credentialsSample : oauthRequest := tokenRequest "client_credentials" [("scope", "email")].

Lemma credentialsSample_ok : credentialsRequest sampleServer credentialsSample "app" "secret".
Proof. repeat split; by vm_compute. Qed.

Lemma client_credentials_issues_witness :
  ∃ s', access sampleServer credentialsSample (mkWorld (Some sampleStore) 0 0) =
          (Ok (JSONReply StatusOK replyHeaders
                 (tokenReply sampleOption "00" "01" (FormGet credentialsSample oauth2ParamScope))),
           mkWorld (Some s') 2 3) ∧
        ∀ k, kv_lookup s' k = putAll (kv_lookup sampleStore)
          (issuedEntries sampleOption
             (mkGrant "" "" "ada" "app" "" "" "" (FormGet credentialsSample oauth2ParamScope) "" "" 0 0 0 0) "00" "01"
             (clockNow 0) (clockNow 1) (clockNow 2)) k.
Proof.
  apply (client_credentials_issues sampleServer credentialsSample
    sampleStore 0 0 "app" "secret" sampleClient (str1 0) (str1 1) credentialsSample_ok sampleStore_client).
  all: try done.
  repeat constructor.
Defined.

Lemma access_token_authentic_witness :
  ∃ basic, basicAuth_init (tokenRequest "assertion" [("assertion", "x"); ("assertion_type", "y")]) true = (basic, true) ∧
    authenticClient (Some sampleStore) basic ∧ accessAllowed sampleOption "assertion" = true.
Proof.
  destruct (access sampleServer (tokenRequest "assertion" [("assertion", "x"); ("assertion_type", "y")])
              (mkWorld (Some sampleStore) 0 0)) as [resp w'] eqn:Ha.
  assert (Hr : ∃ r, resp = Ok r ∧ carriesToken r).
  { apply (f_equal fst) in Ha. simpl fst in Ha at 2. rewrite <- Ha. eexists. split; [vm_compute; reflexivity|].
    by vm_compute; eexists. }
  destruct Hr as (r & -> & Ht).
  exact (access_token_authentic sampleServer (tokenRequest "assertion" [("assertion", "x"); ("assertion_type", "y")])
    (mkWorld (Some sampleStore) 0 0) r w' Ha Ht).
Defined.

Lemma run_issues_nothing_witness :
  let w1 := serveCalls sampleServer [CallAccess (tokenRequest "client_credentials" [])] (mkWorld (Some sampleStore) 0 0) in
  unissued (w_store w1) ∧
  (∀ r resp w2, info sampleServer r w1 = (Ok resp, w2) → refuses resp) ∧
  (∀ r resp w2, needsGrant r → access sampleServer r w1 = (Ok resp, w2) → refuses resp).
Proof.
  apply (run_issues_nothing sampleServer [CallAccess (tokenRequest "client_credentials" [])]
           (mkWorld (Some sampleStore) 0 0)).
  eapply (unissued_change emptyKV sampleStore (oauth2ClientPrefix +:+ "app") (Some clientText)).
  - apply otherKey_client.
  - left. exact (kv_set_done _ _ _ _ sampleStore_set).
  - intros s [= <-]. by split; intros; rewrite emptyKV_lookup.
Defined.

Definition registration : oauthRequest :=
  mkOauthRequest "POST" (formOf [("email", "ada"); ("password", "pw"); ("confirm_password", "pw")]) false "".

Lemma registered_user_panics_witness :
  access sampleServer (tokenRequest "password" [("username", "ada"); ("password", "pw")])
    (snd (register registration (mkWorld (Some sampleStore) 0 0))) =
  (Panic NilDereference, snd (register registration (mkWorld (Some sampleStore) 0 0))).
Proof.
  apply (registered_user_panics sampleServer registration (mkWorld (Some sampleStore) 0 0) _ _
           (mkBasicAuth "app" "secret")); try by vm_compute.
Defined.

Lemma redirect_roundtrip_witness :
  ∃ q, getRedirectURL (set_data "state" (DStr "a&b") (setRedirect "/cb" oauth2Context_init)) =
         inl (urlString (set_RawQuery q (mkURL "" "" None "" "/cb" "" false "" ""))) ∧
    ∀ k, ParseQuery q !! k =
      match <["state" := DStr "a&b"]> (∅ : gmap string dataValue) !! k with
      | Some v => Some [dataText v] | None => ParseQuery "" !! k end.
Proof.
  apply (redirect_roundtrip (set_data "state" (DStr "a&b") (setRedirect "/cb" oauth2Context_init))); done.
Defined.

Lemma reply_types_witness :
  isErrorReply "" (JSONReply StatusOK replyHeaders (errorData oauth2ErrInvalidRequest "")).
Proof.
  apply (proj2 (reply_types sampleServer (mkOauthRequest "GET" ∅ false "") (mkWorld (Some sampleStore) 0 0)
    (JSONReply StatusOK replyHeaders (errorData oauth2ErrInvalidRequest "")) (mkWorld (Some sampleStore) 0 0))).
  reflexivity.
Defined.
