(* ===== verification/Proxy.v ===== *)
(** * The proxy of a location (src/ngx_proxy_pass.go)

    [proxy_init] gathers the options of the blocks around a location,
    [director] turns a request into the one for the upstream, [proxy_ServeHTTP]
    checks the target first.  The reverse proxy of net/http/httputil and the
    sockets are outside: a request that is forwarded is the result. *)

From S2P Require Import Prelude GoStrings GoNet GoURL Routing Values Template.

#[local] Open Scope Z_scope.

(** ** Options *)

(** [proxyOption] with the names of its nested structs joined. *)
Record proxyOption := mkProxyOption {
  bind_address : stringValue; bind_transparent : boolValue; bind_off : boolValue;
  buffer_size : intValue; buffer_enable : boolValue;
  cache_enabled : boolValue; cache_bypass : stringSliceValue; cache_key : stringValue;
  pass_uri : stringTemplateValue; pass_header : stringSliceValue; pass_body : boolValue;
  pass_headers : boolValue; pass_method : stringValue;
  redirect_isDefault : boolValue; redirect_off : boolValue; redirect_replace : stringSliceValue;
}.

Section Options.
Context `{T : TextTemplate}.

Definition unset {A} (z : A) : confValue A := mkValue false z.

Definition noOption : proxyOption :=
  mkProxyOption (unset "") (unset false) (unset false) (unset 0) (unset false) (unset false) (unset [])
    (unset "") noTemplate (unset []) (unset false) (unset false) (unset "") (unset false) (unset false) (unset []).

Definition set_bind (a : stringValue) (t off : boolValue) (o : proxyOption) : proxyOption :=
  mkProxyOption a t off (buffer_size o) (buffer_enable o) (cache_enabled o) (cache_bypass o) (cache_key o)
    (pass_uri o) (pass_header o) (pass_body o) (pass_headers o) (pass_method o) (redirect_isDefault o)
    (redirect_off o) (redirect_replace o).

Definition set_pass (u : stringTemplateValue) (h : stringSliceValue) (b : boolValue) (m : stringValue)
    (o : proxyOption) : proxyOption :=
  mkProxyOption (bind_address o) (bind_transparent o) (bind_off o) (buffer_size o) (buffer_enable o)
    (cache_enabled o) (cache_bypass o) (cache_key o) u h b (pass_headers o) m (redirect_isDefault o)
    (redirect_off o) (redirect_replace o).

(** The loop over the arguments of proxy_bind. *)
Definition bindArg (o : proxyOption) (arg : string) : proxyOption :=
  if (arg =? "transparent")%string
  then set_bind (bind_address o) (value_store true (bind_transparent o)) (bind_off o) o
  else if (arg =? "off")%string
  then set_bind (bind_address o) (bind_transparent o) (value_store true (bind_off o)) o
  else o.

Definition loadKey (r : rule) (o : proxyOption) : res proxyOption :=
  let first := go_index (rule_args r) 0 in
  let n := rule_name r in
  if (n =? "proxy_bind")%string then
    a ← first;
    Ok (foldl bindArg (set_bind (value_store a (bind_address o)) (bind_transparent o) (bind_off o) o) (rule_args r))
  else if (n =? "proxy_pass")%string then
    a ← first; u ← template_store a (pass_uri o);
    Ok (set_pass u (pass_header o) (pass_body o) (pass_method o) o)
  else if (n =? "proxy_pass_header")%string then
    a ← first; Ok (set_pass (pass_uri o) (stringSliceValue_store [a] (pass_header o)) (pass_body o) (pass_method o) o)
  else if (n =? "proxy_pass_request_body")%string then
    a ← first;
    Ok (if (a =? "on")%string
        then set_pass (pass_uri o) (pass_header o) (value_store true (pass_body o)) (pass_method o) o
        else if (a =? "off")%string
        then set_pass (pass_uri o) (pass_header o) (value_store false (pass_body o)) (pass_method o) o
        else o)
  else if (n =? "proxy_method")%string then
    a ← first; Ok (set_pass (pass_uri o) (pass_header o) (pass_body o) (value_store a (pass_method o)) o)
  else Ok o.

Fixpoint loadKeys (rs : list rule) (o : proxyOption) : res proxyOption :=
  match rs with [] => Ok o | r :: rs => o ← loadKey r o; loadKeys rs o end.

Definition proxyBlock (n : string) : bool := bool_decide (n ∈ ["http"; "server"; "location"]).

(** [proxyOption.load] along the parent pointers: [chain] is the location and the
    blocks around it, innermost first. *)
Fixpoint proxyOption_load (chain : list rule) (o : proxyOption) : res proxyOption :=
  match chain with
  | [] => Ok o
  | location :: parents =>
    if proxyBlock (rule_name location) then
      o ← proxyOption_load parents o; loadKeys (rule_children location) o
    else Ok o
  end.

(** The rule at a path and its parents. *)
Fixpoint blockChain (depth : nat) (root : rule) (path : list nat) : list rule :=
  let here := match ruleAt root path with Some r => [r] | None => [] end in
  match depth with
  | O => here
  | S d => here ++ blockChain d root (removelast path)
  end.

(** [proxy.init]. *)
Definition proxy_init (root : rule) (path : list nat) : res proxyOption :=
  proxyOption_load (blockChain (length path) root path) noOption.

(** ** Requests *)

Context `{GU : GoURL}.

(** What the proxy reads and changes of a request.  [pr_match] is the location
    that was chosen, its kind and arguments; [pr_vars] the printed variables. *)
Record proxyRequest := mkProxyRequest {
  pr_url : option URL; pr_method : string; pr_body : option string;
  pr_match : option (matchKind * list string); pr_vars : tplData;
}.

Definition set_Host_Path (h p : string) (u : URL) : URL :=
  mkURL (Scheme u) (Opaque u) (User u) h p (RawPath u) (ForceQuery u) (RawQuery u) (Fragment u).

(** [parseProxyURL]: the path of a socket and that of the request are separated
    by a colon, and both are expected. *)
Definition parseProxyURL (s : string) : res (option URL) :=
  match urlParse s with
  | None => Ok None
  | Some u =>
    if negb (Host u =? "unix:")%string then Ok (Some u)
    else
      let p := Split (Path u) 58 in
      p0 ← go_index p 0; p1 ← go_index p 1;
      Ok (Some (set_Host_Path (Host u +:+ p0) p1 u))
  end.

(** The URL for a location that matched by prefix. *)
Definition prefixURL (args : list string) (orig u : URL) : res URL :=
  if (Path u =? "/")%string && negb (Path orig =? "/")%string then
    a ← go_index args 0;
    Ok (set_Host_Path (Host u) (Path u +:+ TrimPrefix (TrimPrefix (Path orig) a) "/") u)
  else Ok u.

(** [director]: the new request; a nil URL is dereferenced only for a prefix
    location. *)
Definition director (o : proxyOption) (r : proxyRequest) : res proxyRequest :=
  target ← template_Value (pass_uri o) (pr_vars r);
  u ← parseProxyURL target;
  u ← match pr_match r with
      | Some (matchPrefix, args) =>
        match u, pr_url r with
        | Some u, Some orig => u ← prefixURL args orig u; Ok (Some u)
        | _, _ => Panic NilDereference
        end
      | _ => Ok u
      end;
  Ok (mkProxyRequest u
        (if set (pass_method o) then value (pass_method o) else pr_method r)
        (if set (pass_body o) && negb (value (pass_body o)) then None else pr_body r)
        (pr_match r) (pr_vars r)).

(** [modifyResponse] on the Location header of a response; [rawPath] is that of
    the request. *)
Definition modifyResponse (o : proxyOption) (rawPath location : string) : string :=
  if set (redirect_isDefault o) then
    if (location =? "")%string then location else rawPath
  else location.

Definition proxy_eval (key : string) : string := key.

(** [valid]: true for no error. *)
Definition proxy_valid (o : proxyOption) : bool :=
  tv_set (pass_uri o) &&
  match urlParse (proxy_eval (tv_value (pass_uri o))) with Some _ => true | None => false end.

Inductive proxyOutcome := BadGateway | Forward (r : proxyRequest).

Definition proxy_ServeHTTP (o : proxyOption) (r : proxyRequest) : res proxyOutcome :=
  if negb (proxy_valid o) then Ok BadGateway else r' ← director o r; Ok (Forward r').
End Options.

(** ** The transport *)

Inductive route := UnixTransport | DefaultTransport.

Definition RoundTrip (u : URL) : route :=
  if HasPrefix (Host u) "unix:" then UnixTransport else DefaultTransport.

(** [dialCtx]: the path of the socket; [h[5:]] needs five bytes. *)
Definition dialCtx (address : string) : res (option string) :=
  match SplitHostPort address with
  | None => Ok None
  | Some (h, _) => if (String.length h <? 5)%nat then Panic IndexOutOfRange else Ok (Some (skipString 5 h))
  end.

(** [dialTLS] and [unixTransport.init]: the functions that the transport dials
    with, set at the first use. *)
Inductive dialFunc := DialNet | DialUnix | DialRefused.
Record unixTransport := mkUnixTransport { ut_once : bool; ut_DialContext : dialFunc; ut_DialTLS : dialFunc }.

Definition baseTransport : unixTransport := mkUnixTransport false DialNet DialNet.

Definition getTransport (t : unixTransport) : unixTransport :=
  if ut_once t then t else mkUnixTransport true DialUnix DialRefused.

(** What dials for each of a sequence of URLs that share the transport. *)
Fixpoint roundTrips (us : list URL) (t : unixTransport) : list (dialFunc * dialFunc) :=
  match us with
  | [] => []
  | u :: us =>
    match RoundTrip u with
    | UnixTransport => let t := getTransport t in (ut_DialContext t, ut_DialTLS t) :: roundTrips us t
    | DefaultTransport => (DialNet, DialNet) :: roundTrips us t
    end
  end.

(** The shared transport never dials a socket address over the network, in
    whatever order the requests come, and never dials another with it. *)
Lemma roundTrips_dial us :
  roundTrips us baseTransport =
  (λ u, if HasPrefix (Host u) "unix:" then (DialUnix, DialRefused) else (DialNet, DialNet)) <$> us.
Proof.
  assert (H : ∀ t, t = baseTransport ∨ t = getTransport baseTransport → roundTrips us t =
    (λ u, if HasPrefix (Host u) "unix:" then (DialUnix, DialRefused) else (DialNet, DialNet)) <$> us); [|auto].
  induction us as [|u us IH]; intros t Ht; [done|]. simpl. unfold RoundTrip.
  destruct (HasPrefix _ _); f_equal; [by destruct Ht as [->| ->]| |by apply IH].
  apply IH. right. by destruct Ht as [->| ->].
Qed.

(** ** The options in force *)

Section OptionFacts.
Context `{T : TextTemplate}.

(** The blocks around a location up to the first that is none of http, server
    and location. *)
Fixpoint proxyBlocks (chain : list rule) : list rule :=
  match chain with
  | r :: rs => if proxyBlock (rule_name r) then r :: proxyBlocks rs else []
  | [] => []
  end.

(** Their directives, outermost block first. *)
Definition proxyKeys (chain : list rule) : list rule := concat (rule_children <$> rev (proxyBlocks chain)).

Lemma loadKeys_app rs1 rs2 o : loadKeys (rs1 ++ rs2) o = (o ← loadKeys rs1 o; loadKeys rs2 o).
Proof.
  revert o. induction rs1 as [|r rs IH]; intros o; [done|]. simpl. rewrite res_bind_assoc.
  destruct (loadKey r o); [|done..]. apply IH.
Qed.

Lemma proxyOption_load_keys chain o : proxyOption_load chain o = loadKeys (proxyKeys chain) o.
Proof.
  unfold proxyKeys. revert o. induction chain as [|r rs IH]; intros o; [done|]. simpl.
  destruct (proxyBlock (rule_name r)); [|done]. simpl.
  rewrite fmap_app, concat_app, loadKeys_app, IH. simpl. by rewrite app_nil_r.
Qed.

Definition named (n : string) (r : rule) : Prop := rule_name r = n.
#[global] Instance named_dec n r : Decision (named n r).
Proof. unfold named. apply _. Defined.

(** The first argument of the last directive of a name. *)
Definition lastArg (n : string) (rs : list rule) : option string :=
  r ← last (filter (named n) rs); rule_args r !! 0%nat.
Definition firstArgs (n : string) (rs : list rule) : list string :=
  omap (λ r, rule_args r !! 0%nat) (filter (named n) rs).

Lemma bindArgs_frame l o :
  pass_method (foldl bindArg o l) = pass_method o ∧ pass_header (foldl bindArg o l) = pass_header o ∧
  redirect_isDefault (foldl bindArg o l) = redirect_isDefault o.
Proof.
  revert o. induction l as [|a l IH]; intros o; [done|]. simpl. destruct (IH (bindArg o a)) as (-> & -> & ->).
  unfold bindArg. by repeat case_match.
Qed.

(** What one directive does to the options that the proxy reads. *)
Definition methodAfter (r : rule) (v : stringValue) : stringValue :=
  if decide (named "proxy_method" r)
  then match rule_args r !! 0%nat with Some a => mkValue true a | None => v end else v.
Definition headersAfter (r : rule) (l : list string) : list string :=
  if decide (named "proxy_pass_header" r)
  then match rule_args r !! 0%nat with Some a => l ++ [a] | None => l end else l.

Lemma loadKey_effect r o o' : loadKey r o = Ok o' →
  pass_method o' = methodAfter r (pass_method o) ∧
  value (pass_header o') = headersAfter r (value (pass_header o)) ∧
  redirect_isDefault o' = redirect_isDefault o ∧
  (named "proxy_method" r → is_Some (rule_args r !! 0%nat)).
Proof.
  unfold loadKey, methodAfter, headersAfter, go_index.
  assert (Hn : ∀ x y, rule_name r = x → x ≠ y → ¬ named y r) by (unfold named; congruence).
  destruct (String.eqb_spec (rule_name r) "proxy_bind") as [E|_].
  { rewrite !decide_False by (by eapply Hn). destruct (rule_args r !! 0%nat) as [a|]; [|by intros [=]].
    intros [= <-]. destruct (bindArgs_frame (rule_args r) (set_bind (value_store a (bind_address o))
      (bind_transparent o) (bind_off o) o)) as (-> & -> & ->). by eauto. }
  destruct (String.eqb_spec (rule_name r) "proxy_pass") as [E|_].
  { rewrite !decide_False by (by eapply Hn). destruct (rule_args r !! 0%nat) as [a|]; [|by intros [=]].
    simpl. destruct (template_store a (pass_uri o)); [|by intros [=]..]. intros [= <-]. by eauto. }
  destruct (String.eqb_spec (rule_name r) "proxy_pass_header") as [E|Hh].
  { rewrite decide_False, decide_True by (done || by eapply Hn).
    destruct (rule_args r !! 0%nat) as [a|]; [|by intros [=]]. intros [= <-]. by eauto. }
  rewrite (decide_False (P := named "proxy_pass_header" r)) by done.
  destruct (String.eqb_spec (rule_name r) "proxy_pass_request_body") as [E|_].
  { rewrite decide_False by (by eapply Hn). destruct (rule_args r !! 0%nat) as [a|]; [|by intros [=]].
    intros [= <-]. repeat case_match; by eauto. }
  destruct (String.eqb_spec (rule_name r) "proxy_method") as [E|Hm].
  { rewrite decide_True by done. destruct (rule_args r !! 0%nat) as [a|]; [|by intros [=]]. intros [= <-]. by eauto. }
  rewrite decide_False by done. by intros [= <-].
Qed.

Lemma loadKeys_effect rs o o' : loadKeys rs o = Ok o' →
  pass_method o' = foldl (λ v r, methodAfter r v) (pass_method o) rs ∧
  value (pass_header o') = foldl (λ l r, headersAfter r l) (value (pass_header o)) rs ∧
  redirect_isDefault o' = redirect_isDefault o ∧
  Forall (λ r, named "proxy_method" r → is_Some (rule_args r !! 0%nat)) rs.
Proof.
  revert o. induction rs as [|r rs IH]; intros o H; simpl in *; [by injection H as <-|].
  apply bind_Ok_inv in H as (o1 & H1 & H). apply loadKey_effect in H1 as (M1 & P1 & R1 & A1).
  apply IH in H as (-> & -> & -> & HA). rewrite M1, P1, R1. auto.
Qed.

Lemma methodAfter_last rs v : Forall (λ r, named "proxy_method" r → is_Some (rule_args r !! 0%nat)) rs →
  foldl (λ v r, methodAfter r v) v rs =
  match lastArg "proxy_method" rs with Some a => mkValue true a | None => v end.
Proof.
  unfold lastArg. revert v. induction rs as [|r rs IH] using rev_ind; intros v; [done|].
  intros [Hf [Hr _]%Forall_cons]%Forall_app. rewrite foldl_app. simpl. rewrite IH by done.
  rewrite filter_app, filter_cons, filter_nil. unfold methodAfter. case_decide as Hn.
  - rewrite last_snoc. simpl. destruct (Hr Hn) as [a ->]. done.
  - by rewrite app_nil_r.
Qed.

Lemma headersAfter_all rs l : foldl (λ l r, headersAfter r l) l rs = l ++ firstArgs "proxy_pass_header" rs.
Proof.
  unfold firstArgs. revert l. induction rs as [|r rs IH]; intros l; simpl; [by rewrite app_nil_r|].
  rewrite IH, filter_cons. unfold headersAfter. case_decide; [|done]. simpl.
  destruct (rule_args r !! 0%nat); [by rewrite <- app_assoc|done].
Qed.

(** C34: The options of a proxy.  If the options of a location load, the method
    is the one of the last proxy_method among the directives of the enclosing
    http, server and location blocks, outermost first, so that an inner block
    overrides an outer one; the passed headers are those of all blocks in that
    order; and no directive sets the rewriting of redirects, so that
    modifyResponse leaves every Location header as it is. *)
Theorem proxy_options_in_force root path o :
  proxy_init root path = Ok o →
  let keys := proxyKeys (blockChain (length path) root path) in
  pass_method o = match lastArg "proxy_method" keys with Some a => mkValue true a | None => unset "" end ∧
  value (pass_header o) = firstArgs "proxy_pass_header" keys ∧
  ∀ rawPath location, modifyResponse o rawPath location = location.
Proof.
  intros H keys. unfold proxy_init in H. rewrite proxyOption_load_keys in H. fold keys in H.
  apply loadKeys_effect in H as (Hm & Hh & Hr & Ha). rewrite methodAfter_last in Hm by done.
  rewrite headersAfter_all in Hh. split; [done|]. split; [done|].
  intros rawPath location. unfold modifyResponse. by rewrite Hr.
Qed.

Context `{GU : GoURL}.

(** The request for the upstream.  For a location that matched by prefix
    with a plain target whose path is [/], a request for the location's prefix
    and [rest] goes to the target's scheme and host with the path [/] and [rest]
    (without a leading slash of its own), with the method and body the options
    ask for; the query is the target's, and the client's query is dropped. *)
Theorem director_prefix o r u orig prefix args rest :
  tv_tpl (pass_uri o) = None → urlParse (tv_value (pass_uri o)) = Some u →
  Host u ≠ "unix:" → Path u = "/" →
  pr_match r = Some (matchPrefix, prefix :: args) → pr_url r = Some orig →
  Path orig = prefix +:+ rest → Path orig ≠ "/" →
  ∃ r', director o r = Ok r' ∧
    pr_url r' = Some (set_Host_Path (Host u) ("/" +:+ TrimPrefix rest "/") u) ∧
    pr_method r' = (if set (pass_method o) then value (pass_method o) else pr_method r) ∧
    pr_body r' = (if set (pass_body o) && negb (value (pass_body o)) then None else pr_body r).
Proof.
  intros Ht Hu Hh Hp Hm Ho Hpath Hne. unfold director, template_Value, parseProxyURL.
  rewrite Ht. simpl. rewrite Hu. apply String.eqb_neq in Hh. rewrite Hh. simpl. rewrite Hm, Ho.
  unfold prefixURL. rewrite Hp. apply String.eqb_neq in Hne. rewrite Hne. simpl.
  unfold TrimPrefix at 2. rewrite Hpath, HasPrefix_app, skipString_app. by eexists.
Qed.

(** Targets on a unix socket.  A target whose host is [unix:] and whose path
    holds no colon makes the proxy panic on every request; with a colon the part
    before it is the socket and goes to the unix transport, the part up to the
    next colon is the path. *)
Theorem unix_target s u : urlParse s = Some u → Host u = "unix:" →
  (hasByte 58 (Path u) = false → parseProxyURL s = Panic IndexOutOfRange) ∧
  (∀ sock path more, Split (Path u) 58 = sock :: path :: more →
    ∃ u', parseProxyURL s = Ok (Some u') ∧ Host u' = "unix:" +:+ sock ∧ Path u' = path ∧
          RoundTrip u' = UnixTransport).
Proof.
  intros Hu Hh. unfold parseProxyURL. rewrite Hu, Hh. simpl. split.
  - intros Hc. by rewrite Split_none.
  - intros sock path more ->. eexists. split; [done|]. simpl. split; [done|]. split; [done|].
    unfold RoundTrip. simpl. by rewrite HasPrefix_app.
Qed.

(** A nested proxy_pass.  Loading a target without variables over one with
    variables, as for a location inside another, changes nothing: requests still
    go to the outer target. *)
Theorem proxy_pass_stale o t target args children :
  tv_tpl (pass_uri o) = Some t → hasByte 36 target = false →
  ∃ o', loadKey (mkRule "proxy_pass" (target :: args) children) o = Ok o' ∧
        ∀ r, director o' r = director o r.
Proof.
  intros Ht Hv. unfold loadKey. simpl. unfold template_store. rewrite Contains_dollar, Hv. simpl.
  eexists. split; [done|]. intros r. unfold director, template_Value. simpl. by rewrite Ht.
Qed.
End OptionFacts.

(** ** The theorems at work *)

#[local] Existing Instance bareTemplate.

Definition nestedLocations : rule :=
  mkRule "main" [] [mkRule "http" [] [mkRule "proxy_method" ["GET"] [];
    mkRule "server" [] [mkRule "proxy_pass_header" ["X-A"] [];
      mkRule "location" ["/app/"] [mkRule "proxy_method" ["POST"] []; mkRule "proxy_pass_header" ["X-B"] [];
                                   mkRule "proxy_pass" ["http://b/"] []]]]].

Definition nestedOption : proxyOption :=
  set_pass (mkTemplateValue "http://b/" true None) (mkValue true ["X-A"; "X-B"]) (unset false) (mkValue true "POST") noOption.

Lemma proxy_options_in_force_witness :
  pass_method nestedOption = mkValue true "POST" ∧ value (pass_header nestedOption) = ["X-A"; "X-B"] ∧
  ∀ rawPath location, modifyResponse nestedOption rawPath location = location.
Proof. exact (proxy_options_in_force nestedLocations [0%nat; 1%nat; 1%nat] nestedOption eq_refl). Defined.

Definition oneURL (u : URL) : GoURL := {| urlParse _ := Some u; urlString _ := "" |}.
Definition backend : URL := mkURL "http" "" None "b" "/" "" false "" "".
Definition appRequestURL : URL := mkURL "http" "" None "a.org" "/app/x" "" false "q=1" "".
Definition appProxyRequest : proxyRequest :=
  mkProxyRequest (Some appRequestURL) "GET" None (Some (matchPrefix, ["/app/"])) ∅.

Lemma director_prefix_witness :
  ∃ r', director (GU := oneURL backend) nestedOption appProxyRequest = Ok r' ∧
    pr_url r' = Some (set_Host_Path "b" "/x" backend) ∧ pr_method r' = "POST" ∧ pr_body r' = None.
Proof.
  by apply (director_prefix (GU := oneURL backend) nestedOption appProxyRequest backend appRequestURL "/app/" [] "x").
Defined.

Definition socketURL : URL := mkURL "http" "" None "unix:" "/tmp/sock:/x" "" false "" "".

Lemma unix_target_witness :
  (hasByte 58 "/tmp/sock:/x" = false → parseProxyURL (GU := oneURL socketURL) "s" = Panic IndexOutOfRange) ∧
  (∀ sock path more, Split "/tmp/sock:/x" 58 = sock :: path :: more →
    ∃ u', parseProxyURL (GU := oneURL socketURL) "s" = Ok (Some u') ∧ Host u' = "unix:" +:+ sock ∧ Path u' = path ∧
          RoundTrip u' = UnixTransport).
Proof. by apply (unix_target (GU := oneURL socketURL) "s" socketURL). Defined.

Lemma proxy_pass_stale_witness :
  ∃ o', loadKey (mkRule "proxy_pass" ["http://b"] [])
          (set_pass (mkTemplateValue "" true (Some [NField "host"])) (unset []) (unset false) (unset "") noOption) = Ok o' ∧
        ∀ r, director (GU := oneURL backend) o' r =
             director (GU := oneURL backend) (set_pass (mkTemplateValue "" true (Some [NField "host"])) (unset []) (unset false) (unset "") noOption) r.
Proof. by apply (proxy_pass_stale (GU := oneURL backend) _ [NField "host"]). Defined.
