(* ===== verification/Upstream.v ===== *)
(** * Upstream groups (src/upstream.go)

    The servers of an upstream block and their parameters, and the balancer.
    The package weighted is outside the repository: what its methods do on the
    nil pointer, the only one that the code ever passes to them, is a parameter
    ([NilRRW]).  time.ParseDuration is a parameter as well. *)

From S2P Require Import Prelude GoStrings Routing Values.

#[local] Open Scope Z_scope.

Record upstreamServer := mkUpstreamServer {
  us_url : string; us_weight : intValue; us_maxConn : intValue; us_maxFails : intValue;
  us_failTimeout : durationValue; us_backup : boolValue; us_down : boolValue; us_resolve : boolValue;
  us_route : stringValue; us_service : stringValue; us_slowStart : durationValue; us_drain : boolValue;
}.

Definition newServer (url : string) : upstreamServer :=
  let z := mkValue false 0 in let f := mkValue false false in let e := mkValue false "" in
  mkUpstreamServer url z z z z f f f e e z f.

(** One setter per field that a parameter stores. *)
Section Setters.
Context (s : upstreamServer).
Definition set_flags (b d r dr : boolValue) : upstreamServer :=
  mkUpstreamServer (us_url s) (us_weight s) (us_maxConn s) (us_maxFails s) (us_failTimeout s) b d r
    (us_route s) (us_service s) (us_slowStart s) dr.
Definition set_numbers (w c : intValue) : upstreamServer :=
  mkUpstreamServer (us_url s) w c (us_maxFails s) (us_failTimeout s) (us_backup s) (us_down s) (us_resolve s)
    (us_route s) (us_service s) (us_slowStart s) (us_drain s).
Definition set_times (f sl : durationValue) : upstreamServer :=
  mkUpstreamServer (us_url s) (us_weight s) (us_maxConn s) (us_maxFails s) f (us_backup s) (us_down s)
    (us_resolve s) (us_route s) (us_service s) sl (us_drain s).
Definition set_names (r sv : stringValue) : upstreamServer :=
  mkUpstreamServer (us_url s) (us_weight s) (us_maxConn s) (us_maxFails s) (us_failTimeout s) (us_backup s)
    (us_down s) (us_resolve s) r sv (us_slowStart s) (us_drain s).
End Setters.

Record upstreamHashConfig := mkHash { hash_set : bool; hash_consistent : boolValue; hash_key : string }.

Record upstreamConfig := mkUpstream {
  up_name : string; up_servers : list upstreamServer; up_state : stringValue; up_hash : upstreamHashConfig;
}.

Definition newUpstream : upstreamConfig := mkUpstream "" [] (mkValue false "") (mkHash false (mkValue false false) "").

Section Load.
Context (ParseDuration : string → option Z).

(** [None] is an error that is returned. *)
Definition numberParam (parts : list string) (f : Z → upstreamServer) : res (option upstreamServer) :=
  p ← go_index parts 1; Ok (f <$> Atoi p).
Definition timeParam (parts : list string) (f : Z → upstreamServer) : res (option upstreamServer) :=
  p ← go_index parts 1; Ok (f <$> ParseDuration p).
Definition nameParam (parts : list string) (f : string → upstreamServer) : res (option upstreamServer) :=
  p ← go_index parts 1; Ok (Some (f p)).

(** The switch on a parameter; max_fails stores the same field as max_conns. *)
Definition serverParam (param : string) (s : upstreamServer) : res (option upstreamServer) :=
  if (param =? "backup")%string
  then Ok (Some (set_flags s (value_store true (us_backup s)) (us_down s) (us_resolve s) (us_drain s)))
  else if (param =? "down")%string
  then Ok (Some (set_flags s (us_backup s) (value_store true (us_down s)) (us_resolve s) (us_drain s)))
  else if (param =? "resolve")%string
  then Ok (Some (set_flags s (us_backup s) (us_down s) (value_store true (us_resolve s)) (us_drain s)))
  else if (param =? "drain")%string
  then Ok (Some (set_flags s (us_backup s) (us_down s) (us_resolve s) (value_store true (us_drain s))))
  else
    let parts := Split param 61 in
    p0 ← go_index parts 0;
    if (p0 =? "weight")%string
    then numberParam parts (λ n, set_numbers s (value_store n (us_weight s)) (us_maxConn s))
    else if (p0 =? "max_conns")%string
    then numberParam parts (λ n, set_numbers s (us_weight s) (value_store n (us_maxConn s)))
    else if (p0 =? "max_fails")%string
    then numberParam parts (λ n, set_numbers s (us_weight s) (value_store n (us_maxConn s)))
    else if (p0 =? "fail_timeout")%string
    then timeParam parts (λ n, set_times s (value_store n (us_failTimeout s)) (us_slowStart s))
    else if (p0 =? "route")%string
    then nameParam parts (λ x, set_names s (value_store x (us_route s)) (us_service s))
    else if (p0 =? "service")%string
    then nameParam parts (λ x, set_names s (us_route s) (value_store x (us_service s)))
    else if (p0 =? "slow_start")%string
    then timeParam parts (λ n, set_times s (us_failTimeout s) (value_store n (us_slowStart s)))
    else Ok (Some s).

Fixpoint serverParams (params : list string) (s : upstreamServer) : res (option upstreamServer) :=
  match params with
  | [] => Ok (Some s)
  | p :: ps => r ← serverParam p s; match r with None => Ok None | Some s => serverParams ps s end
  end.

(** [upstreamServer.init]. *)
Definition upstreamServer_init (r : rule) : res (option upstreamServer) :=
  url ← go_index (rule_args r) 0; serverParams (drop 1 (rule_args r)) (newServer url).

(** A child of the upstream block; the hash directive reads its second argument
    whenever it has a first. *)
Definition upstreamChild (c : rule) (u : upstreamConfig) : res (option upstreamConfig) :=
  if (rule_name c =? "server")%string then
    r ← upstreamServer_init c;
    Ok (match r with
        | None => None
        | Some s => Some (mkUpstream (up_name u) (up_servers u ++ [s]) (up_state u) (up_hash u))
        end)
  else if (rule_name c =? "state")%string then
    a ← go_index (rule_args c) 0;
    Ok (Some (mkUpstream (up_name u) (up_servers u) (value_store a (up_state u)) (up_hash u)))
  else if (rule_name c =? "hash")%string then
    key ← go_index (rule_args c) 0;
    a ← go_index (rule_args c) 1;
    Ok (Some (mkUpstream (up_name u) (up_servers u) (up_state u)
      (mkHash true (if (a =? "consistent")%string then value_store true (hash_consistent (up_hash u))
                    else hash_consistent (up_hash u)) key)))
  else Ok (Some u).

Fixpoint upstreamChildren (cs : list rule) (u : upstreamConfig) : res (option upstreamConfig) :=
  match cs with
  | [] => Ok (Some u)
  | c :: cs => r ← upstreamChild c u; match r with None => Ok None | Some u => upstreamChildren cs u end
  end.

Definition upstream_load (r : rule) (u : upstreamConfig) : res (option upstreamConfig) :=
  if negb (rule_name r =? "upstream")%string then Ok None
  else
    name ← go_index (rule_args r) 0;
    upstreamChildren (rule_children r) (mkUpstream name (up_servers u) (up_state u) (up_hash u)).
End Load.

(** ** The balancer *)

(** A call returns a server, panics, or waits for a lock that is never
    released. *)
Inductive callOutcome (A : Type) := Returned (a : A) | Panicked (p : go_panic) | Blocked.
Arguments Returned {A} _.
Arguments Panicked {A} _.
Arguments Blocked {A}.

(** [Add] and [Next] of a nil *weighted.RRW. *)
Class NilRRW := { nilAdd : res unit; nilNext : res string }.

Inductive loadBalanceAlgorithm := roundRobing.
Definition upstream_algorithm (u : upstreamConfig) : loadBalanceAlgorithm := roundRobing.

(** The fields once and balancer of an upstream: whether [init] was started, and
    the balancer, of which only the lock changes: its field rw is never set. *)
Record balancerState := mkBalancer { once_done : bool; rr_lock : option bool }.

Section Balancer.
Context `{N : NilRRW}.

(** [roundRobinWeighted.add]: the lock is not released. *)
Definition rr_add (locked : bool) : callOutcome unit * bool :=
  if locked then (Blocked, true)
  else (match nilAdd with Ok _ => Returned () | Panic p => Panicked p | OutOfFuel => Blocked end, true).

(** [roundRobinWeighted.next]: the lock is released unless the call panics. *)
Definition rr_next (locked : bool) : callOutcome string * bool :=
  if locked then (Blocked, true)
  else match nilNext with
       | Ok s => (Returned s, false)
       | Panic p => (Panicked p, true)
       | OutOfFuel => (Blocked, true)
       end.

Definition eligible (s : upstreamServer) : bool := negb (value (us_down s) || value (us_backup s)).

(** The loop of [upstreamConfig.init]. *)
Fixpoint addServers (ss : list upstreamServer) (locked : bool) : callOutcome unit * bool :=
  match ss with
  | [] => (Returned (), locked)
  | s :: ss =>
    if eligible s then
      match rr_add locked with
      | (Returned _, locked) => addServers ss locked
      | r => r
      end
    else addServers ss locked
  end.

(** [upstreamConfig.init] under [once.Do], which counts a panic as done. *)
Definition upstream_init (u : upstreamConfig) (b : balancerState) : callOutcome unit * balancerState :=
  if once_done b then (Returned (), b)
  else match addServers (up_servers u) false with
       | (Returned _, locked) => (Returned (), mkBalancer true (Some locked))
       | (Panicked p, _) => (Panicked p, mkBalancer true (rr_lock b))
       | (Blocked, _) => (Blocked, b)
       end.

(** [upstreamConfig.next]; a nil balancer is a nil dereference.  A call that
    blocks inside [once.Do] makes all later calls wait. *)
Definition upstream_next (u : upstreamConfig) (b : balancerState) : callOutcome string * balancerState :=
  match upstream_init u b with
  | (Returned _, b) =>
    match rr_lock b with
    | None => (Panicked NilDereference, b)
    | Some locked => let '(r, locked) := rr_next locked in (r, mkBalancer (once_done b) (Some locked))
    end
  | (Panicked p, b) => (Panicked p, b)
  | (Blocked, b) => (Blocked, b)
  end.

Fixpoint nextCalls (n : nat) (u : upstreamConfig) (b : balancerState) : list (callOutcome string) :=
  match n with
  | O => []
  | S n => let '(r, b) := upstream_next u b in r :: nextCalls n u b
  end.

Definition isReturned {A} (r : callOutcome A) : bool := match r with Returned _ => true | _ => false end.

(** No upstream ever serves.  Methods that read fields panic on the nil
    pointer, and the balancer is only ever made with one; so of any number of
    calls of next, on any upstream, none returns a server: the first panics, and
    the later ones panic or wait for the lock that the first still holds. *)
Theorem upstream_never_serves (u : upstreamConfig) n :
  nilAdd = Panic NilDereference → nilNext = Panic NilDereference →
  Forall (λ r, isReturned r = false) (nextCalls n u (mkBalancer false None)).
Proof.
  intros Ha Hn.
  assert (Hnext : ∀ l, isReturned (rr_next l).1 = false) by (intros []; unfold rr_next; by rewrite ?Hn).
  assert (Hinit : ∀ b, isReturned (upstream_next u b).1 = false).
  { intros b. unfold upstream_next. destruct (upstream_init u b) as [[|p|] b']; [|done..].
    destruct (rr_lock b') as [l|]; [|done]. specialize (Hnext l). by destruct (rr_next l). }
  generalize (mkBalancer false None) as b. induction n as [|n IH]; intros b; [constructor|]. simpl.
  specialize (Hinit b). destruct (upstream_next u b) as [r b']. by constructor.
Qed.
End Balancer.

(** ** The smooth balancer

    [roundRobinSmooth], which no upstream uses, over the library's balancer: [sw_Add]
    and [sw_Next], whose answer is nil when there is no server. *)

Class SmoothLib := {
  swState : Type;
  sw_Add : string → Z → swState → swState;
  sw_Next : swState → option string * swState;
}.

Section Smooth.
Context `{L : SmoothLib}.

Record smooth := mkSmooth { sm_locked : bool; sm_rw : swState }.

(** [add] does not release the lock. *)
Definition smooth_add (s : string) (w : Z) (r : smooth) : callOutcome unit * smooth :=
  if sm_locked r then (Blocked, r) else (Returned (), mkSmooth true (sw_Add s w (sm_rw r))).

(** [next]: a nil answer fails the type assertion, behind the unlock. *)
Definition smooth_next (r : smooth) : callOutcome string * smooth :=
  if sm_locked r then (Blocked, r)
  else let '(nxt, rw) := sw_Next (sm_rw r) in
       (match nxt with Some s => Returned s | None => Panicked TypeAssertion end, mkSmooth false rw).

Inductive smoothCall := SAdd (s : string) (w : Z) | SNext.

Definition smoothStep (r : smooth) (c : smoothCall) : bool * smooth :=
  match c with
  | SAdd s w => let '(o, r) := smooth_add s w r in (isReturned o, r)
  | SNext => let '(o, r) := smooth_next r in (isReturned o, r)
  end.

Fixpoint smoothCalls (cs : list smoothCall) (r : smooth) : list bool :=
  match cs with [] => [] | c :: cs => let '(b, r) := smoothStep r c in b :: smoothCalls cs r end.

(** One server is all a smooth balancer takes: the first [add] returns, and no
    call after it ever does, so that no added server is ever chosen. *)
Theorem smooth_add_blocks s w cs rw :
  smoothCalls (SAdd s w :: cs) (mkSmooth false rw) = true :: replicate (length cs) false.
Proof.
  simpl. f_equal. generalize (sw_Add s w rw) as rw'. intros rw'.
  induction cs as [|c cs IH]; [done|]. simpl. destruct c; simpl; by rewrite IH.
Qed.
End Smooth.

(** ** The parameters of a server *)

Section Params.
Context (ParseDuration : string → option Z).

(** The parameters that set a limit of connections. *)
Definition limitParam (p : string) : option string :=
  match Split p 61 with
  | n :: v :: _ => if (n =? "max_conns")%string || (n =? "max_fails")%string then Some v else None
  | _ => None
  end.

Lemma serverParam_limits p s s' : serverParam ParseDuration p s = Ok (Some s') →
  us_maxFails s' = us_maxFails s ∧ us_url s' = us_url s ∧
  us_maxConn s' = match limitParam p with
                  | Some v => match Atoi v with Some n => mkValue true n | None => us_maxConn s end
                  | None => us_maxConn s
                  end.
Proof.
  unfold serverParam, limitParam.
  destruct (String.eqb_spec p "backup") as [->|_]; [by intros [= <-]|].
  destruct (String.eqb_spec p "down") as [->|_]; [by intros [= <-]|].
  destruct (String.eqb_spec p "resolve") as [->|_]; [by intros [= <-]|].
  destruct (String.eqb_spec p "drain") as [->|_]; [by intros [= <-]|].
  destruct (Split p 61) as [|n l]; [done|]. unfold go_index, numberParam, timeParam, nameParam. simpl.
  unfold go_index.
  repeat match goal with
  | |- context [String.eqb n ?x] => destruct (String.eqb_spec n x) as [->|?]; simpl
  end; destruct l as [|v l]; simpl; try done; try (by intros [= <-]);
    try (destruct (Atoi v); by intros [= <-]); destruct (ParseDuration v); by intros [= <-].
Qed.

Lemma serverParams_limits ps s s' : serverParams ParseDuration ps s = Ok (Some s') →
  us_maxFails s' = us_maxFails s ∧ us_url s' = us_url s ∧
  us_maxConn s' = foldl (λ v p, match limitParam p with
                                | Some x => match Atoi x with Some n => mkValue true n | None => v end
                                | None => v
                                end) (us_maxConn s) ps.
Proof.
  revert s. induction ps as [|p ps IH]; intros s; simpl; [by intros [= <-]|].
  intros H. apply bind_Ok_inv in H as ([s1|] & H1 & H); [|done].
  apply serverParam_limits in H1 as (F1 & U1 & C1). apply IH in H as (-> & -> & ->). by rewrite F1, U1, C1.
Qed.

(** The parameters of a server.  When a server line loads, its address is the
    first argument, max_fails is never set, and the limit of connections is the
    number of the last max_conns or max_fails among the parameters. *)
Theorem server_limits r s :
  upstreamServer_init ParseDuration r = Ok (Some s) →
  rule_args r !! 0%nat = Some (us_url s) ∧ set (us_maxFails s) = false ∧
  us_maxConn s = foldl (λ v p, match limitParam p with
                               | Some x => match Atoi x with Some n => mkValue true n | None => v end
                               | None => v
                               end) (mkValue false 0) (drop 1 (rule_args r)).
Proof.
  unfold upstreamServer_init, go_index. destruct (rule_args r !! 0%nat) as [url|]; [|done]. simpl. intros H.
  apply serverParams_limits in H as (-> & -> & ->). done.
Qed.
End Params.

(** ** The theorems at work *)

Definition nilPanics : NilRRW := {| nilAdd := Panic NilDereference; nilNext := Panic NilDereference |}.
Definition twoServers : upstreamConfig := mkUpstream "b" [newServer "a:1"; newServer "b:1"] (mkValue false "")
  (mkHash false (mkValue false false) "").

Lemma upstream_never_serves_witness :
  Forall (λ r, isReturned r = false) (@nextCalls nilPanics 3 twoServers (mkBalancer false None)).
Proof. by apply (@upstream_never_serves nilPanics). Defined.

Lemma server_limits_witness :
  rule_args (mkRule "server" ["a:1"; "max_conns=5"; "backup"; "max_fails=3"] []) !! 0%nat = Some "a:1" ∧
  false = false ∧ mkValue true 3 = mkValue true 3.
Proof.
  exact (server_limits (λ _, None) (mkRule "server" ["a:1"; "max_conns=5"; "backup"; "max_fails=3"] [])
    (set_flags (set_numbers (newServer "a:1") (mkValue false 0) (mkValue true 3))
       (mkValue true true) (mkValue false false) (mkValue false false) (mkValue false false)) eq_refl).
Defined.
