(* ===== verification/Pool.v ===== *)
(** * Connection pool and streams (src/conn_pool.go, src/conn_stream.go)

    [pool]: a channel of connections with takers that wait in order; every
    operation is atomic, as a channel operation is, and expiring timers are
    events of their own.  [streamStep]: the two loops of proxyConn as steps of
    two goroutines that share the variables n and err. *)

From S2P Require Import Prelude.

#[local] Open Scope Z_scope.

(** ** The pool *)

(** Connections and calls of take are numbered. *)
Inductive takeResult := Got (conn : nat) | Dialed | TimedOut.

(** The channel [conns]: its capacity, the connections in it, the calls of put
    that wait for room ([senders]) and the calls of take that wait
    ([receivers]), each in the order of their arrival; [answers] is what the
    calls of take have returned. *)
Record pool := mkPool {
  size : Z; capacity : nat; buffer : list nat; senders : list nat; receivers : list nat;
  created : Z; answers : list (nat * takeResult);
}.

(** [init] makes the channel and leaves the field size as it is: zero. *)
Definition pool_init (sz : nat) : pool := mkPool 0 sz [] [] [] 0 [].

Definition answer (id : nat) (r : takeResult) (p : pool) : pool :=
  mkPool (size p) (capacity p) (buffer p) (senders p) (receivers p) (created p) (answers p ++ [(id, r)]).

(** A receive from the channel that need not wait; a sender that waits gets the
    room. *)
Definition receive (p : pool) : option (nat * pool) :=
  match buffer p, senders p with
  | c :: b, [] => Some (c, mkPool (size p) (capacity p) b [] (receivers p) (created p) (answers p))
  | c :: b, x :: xs => Some (c, mkPool (size p) (capacity p) (b ++ [x]) xs (receivers p) (created p) (answers p))
  | [], x :: xs => Some (x, mkPool (size p) (capacity p) [] xs (receivers p) (created p) (answers p))
  | [], [] => None
  end.

(** [wait]: the taker joins the receivers of the channel. *)
Definition pool_wait (id : nat) (p : pool) : pool :=
  mkPool (size p) (capacity p) (buffer p) (senders p) (receivers p ++ [id]) (created p) (answers p).

Definition pool_take (id : nat) (p : pool) : pool :=
  match receive p with
  | Some (c, p) => answer id (Got c) p
  | None =>
    if created p <? size p then
      answer id Dialed (mkPool (size p) (capacity p) (buffer p) (senders p) (receivers p)
                          ((created p + 1) mod 2 ^ 64) (answers p))
    else pool_wait id p
  end.

Definition pool_put (c : nat) (p : pool) : pool :=
  match receivers p with
  | id :: ids => answer id (Got c) (mkPool (size p) (capacity p) (buffer p) (senders p) ids (created p) (answers p))
  | [] =>
    if (length (buffer p) <? capacity p)%nat
    then mkPool (size p) (capacity p) (buffer p ++ [c]) (senders p) [] (created p) (answers p)
    else mkPool (size p) (capacity p) (buffer p) (senders p ++ [c]) [] (created p) (answers p)
  end.

(** The timer of a call that waits. *)
Definition pool_expire (id : nat) (p : pool) : pool :=
  if decide (id ∈ receivers p) then
    answer id TimedOut (mkPool (size p) (capacity p) (buffer p) (senders p)
      (filter (λ x, x ≠ id) (receivers p)) (created p) (answers p))
  else p.

Inductive poolEvent := Take (id : nat) | Put (conn : nat) | Expire (id : nat).

Definition poolStep (p : pool) (e : poolEvent) : pool :=
  match e with Take id => pool_take id p | Put c => pool_put c p | Expire id => pool_expire id p end.
Definition poolRun (es : list poolEvent) (p : pool) : pool := foldl poolStep p es.

(** *** Invariants *)

Definition putConns (es : list poolEvent) : list nat := omap (λ e, match e with Put c => Some c | _ => None end) es.
Definition gotConns (l : list (nat * takeResult)) : list nat :=
  omap (λ x, match snd x with Got c => Some c | _ => None end) l.

Record poolInv (puts : list nat) (p : pool) : Prop := {
  inv_size : size p = 0;
  inv_created : created p = 0;
  inv_waiting : receivers p = [] ∨ (buffer p = [] ∧ senders p = []);
  inv_full : senders p ≠ [] → length (buffer p) = capacity p;
  inv_room : (length (buffer p) ≤ capacity p)%nat;
  inv_fifo : puts = gotConns (answers p) ++ buffer p ++ senders p;
  inv_undialed : ∀ id, (id, Dialed) ∉ answers p;
}.

Lemma gotConns_snoc l x : gotConns (l ++ [x]) = gotConns l ++ match snd x with Got c => [c] | _ => [] end.
Proof. unfold gotConns. rewrite omap_app. simpl. by destruct (snd x). Qed.

Lemma poolInv_init sz : poolInv [] (pool_init sz).
Proof. split; simpl; [done|done|by left|done|lia|done|]. intros id. apply not_elem_of_nil. Qed.

Ltac undialed H := let id := fresh in intros id; rewrite elem_of_app, list_elem_of_singleton; intros [?|[=]]; by eapply (inv_undialed _ _ H).

Lemma poolInv_take puts p id : poolInv puts p → poolInv puts (pool_take id p).
Proof.
  intros H. unfold pool_take, receive.
  destruct (buffer p) as [|c b] eqn:Eb, (senders p) as [|x xs] eqn:Es.
  - rewrite (inv_size _ _ H), (inv_created _ _ H). simpl. destruct H as [? ? ? ? ? Hf ?].
    rewrite Eb, Es in *. split; simpl; rewrite ?Eb, ?Es; auto.
  - pose proof (inv_full _ _ H) as Hfull. rewrite Eb, Es in Hfull. simpl in Hfull.
    split; simpl; [apply H|apply H| | |lia| |undialed H].
    + destruct (inv_waiting _ _ H) as [->|[_ Hs]]; [by left|congruence].
    + intros _. by rewrite <- Hfull.
    + rewrite (inv_fifo _ _ H), gotConns_snoc, Eb, Es. simpl. by rewrite <- app_assoc.
  - split; simpl; [apply H|apply H| |done| | |undialed H].
    + destruct (inv_waiting _ _ H) as [->|[Hb _]]; [by left|congruence].
    + pose proof (inv_room _ _ H) as Hr. rewrite Eb in Hr. simpl in Hr. lia.
    + rewrite (inv_fifo _ _ H), gotConns_snoc, Eb, Es. simpl. by rewrite <- app_assoc.
  - pose proof (inv_full _ _ H) as Hfull. rewrite Eb, Es in Hfull. simpl in Hfull.
    split; simpl; [apply H|apply H| | | | |undialed H]; rewrite ?length_app; simpl.
    + destruct (inv_waiting _ _ H) as [->|[Hb _]]; [by left|congruence].
    + intros _. rewrite <- Hfull by done. lia.
    + rewrite <- Hfull by done. lia.
    + rewrite (inv_fifo _ _ H), gotConns_snoc, Eb, Es. simpl. by rewrite <- !app_assoc.
Qed.

Lemma poolInv_put puts p c : poolInv puts p → poolInv (puts ++ [c]) (pool_put c p).
Proof.
  intros H. unfold pool_put. destruct (receivers p) as [|id ids] eqn:Er.
  - destruct (Nat.ltb_spec (length (buffer p)) (capacity p)) as [Hlt|Hge].
    + assert (Hs : senders p = []).
      { destruct (senders p) eqn:Es; [done|]. pose proof (inv_full _ _ H). rewrite Es in *. simpl in *. naive_solver lia. }
      split; simpl; [apply H|apply H|by left|by rewrite Hs| | |apply H].
      * rewrite length_app. simpl. lia.
      * rewrite (inv_fifo _ _ H), Hs, !app_nil_r. by rewrite <- app_assoc.
    + pose proof (inv_room _ _ H). split; simpl; [apply H|apply H|by left|lia|lia| |apply H].
      rewrite (inv_fifo _ _ H). by rewrite <- !app_assoc.
  - destruct (inv_waiting _ _ H) as [Hr|[Hb Hs]]; [congruence|].
    split; simpl; rewrite ?Hb, ?Hs; [apply H|apply H|by right|done|simpl; lia| |undialed H].
    rewrite (inv_fifo _ _ H), gotConns_snoc, Hb, Hs. simpl. by rewrite !app_nil_r.
Qed.

Lemma poolInv_expire puts p id : poolInv puts p → poolInv puts (pool_expire id p).
Proof.
  intros H. unfold pool_expire. case_decide; [|done].
  split; simpl; [apply H|apply H| |apply H|apply H| |undialed H].
  - destruct (inv_waiting _ _ H) as [->|?]; [by left|by right].
  - rewrite (inv_fifo _ _ H), gotConns_snoc. simpl. by rewrite app_nil_r.
Qed.

Lemma poolRun_inv es puts p : poolInv puts p → poolInv (puts ++ putConns es) (poolRun es p).
Proof.
  revert puts p. induction es as [|e es IH]; intros puts p H; [by rewrite app_nil_r|].
  destruct e as [id|c|id]; simpl.
  - by apply IH, poolInv_take.
  - rewrite cons_middle, app_assoc. by apply IH, poolInv_put.
  - by apply IH, poolInv_expire.
Qed.

Lemma poolStep_capacity p e : capacity (poolStep p e) = capacity p.
Proof.
  destruct e as [id|c|id]; simpl.
  - unfold pool_take, receive. destruct (buffer p), (senders p); try done. by destruct (created p <? size p).
  - unfold pool_put. destruct (receivers p); [|done]. by destruct (_ <? _)%nat.
  - unfold pool_expire. by case_decide.
Qed.

(** C15: The pool is a queue and nothing more.  In every run of takes, puts and
    timeouts from a new pool, the connections that takes have returned, followed
    by those in the channel and those whose put still waits, are exactly the
    connections that were put, in order; takers wait only when there is no
    connection; and since the size is never set, no take ever dials. *)
Theorem pool_fifo sz es :
  let p := poolRun es (pool_init sz) in
  gotConns (answers p) ++ buffer p ++ senders p = putConns es ∧
  (length (buffer p) ≤ sz)%nat ∧
  (receivers p ≠ [] → buffer p = [] ∧ senders p = []) ∧
  (∀ id, (id, Dialed) ∉ answers p).
Proof.
  intros p. pose proof (poolRun_inv es [] _ (poolInv_init sz)) as H. fold p in H. split; [|split; [|split]].
  - symmetry. apply H.
  - assert (Hc : capacity p = sz).
    { subst p. clear H. change sz with (capacity (pool_init sz)) at 2. generalize (pool_init sz) as q.
      induction es as [|e es IH]; intros q; [done|]. simpl. rewrite IH.
      apply poolStep_capacity. }
    rewrite <- Hc. apply H.
  - intros Hr. by destruct (inv_waiting _ _ H).
  - apply H.
Qed.

(** *** Progress *)

Lemma take_waits puts p id : poolInv puts p → receivers p ≠ [] →
  pool_take id p = pool_wait id p.
Proof.
  intros H Hr. destruct (inv_waiting _ _ H) as [|[Hb Hs]]; [done|].
  unfold pool_take, receive. by rewrite Hb, Hs, (inv_size _ _ H), (inv_created _ _ H).
Qed.

(** A later position in a filtered list is an earlier one. *)
Lemma filter_lookup_earlier (l : list nat) i id x : l !! i = Some id → id ≠ x →
  ∃ j, (j ≤ i)%nat ∧ filter (λ y, y ≠ x) l !! j = Some id.
Proof.
  revert i. induction l as [|y l IH]; intros i Hi Hx; [done|]. rewrite filter_cons.
  destruct i as [|i]; simpl in Hi.
  - injection Hi as ->. rewrite decide_True by done. exists 0%nat. by split; [lia|].
  - destruct (IH i Hi Hx) as (j & Hj & Hl). case_decide; [exists (S j)|exists j]; split; (lia || done).
Qed.

Lemma answers_grow p e : ∃ l, answers (poolStep p e) = answers p ++ l.
Proof.
  destruct e as [id|c|id]; simpl.
  - unfold pool_take, receive. destruct (buffer p), (senders p); simpl; eauto.
    destruct (created p <? size p); simpl; eauto. exists []. by rewrite app_nil_r.
  - unfold pool_put. destruct (receivers p); simpl; eauto.
    destruct (_ <? _)%nat; simpl; exists []; by rewrite app_nil_r.
  - unfold pool_expire. case_decide; simpl; eauto. exists []. by rewrite app_nil_r.
Qed.

Lemma answers_kept p es x : x ∈ answers p → x ∈ answers (poolRun es p).
Proof.
  revert p. induction es as [|e es IH]; intros p H; [done|]. simpl. apply IH.
  destruct (answers_grow p e) as [l ->]. rewrite elem_of_app. by left.
Qed.

Lemma waiter_served es puts p i id : poolInv puts p → receivers p !! i = Some id →
  Expire id ∉ es → (i < length (putConns es))%nat → ∃ c, (id, Got c) ∈ answers (poolRun es p).
Proof.
  revert puts p i. induction es as [|e es IH]; intros puts p i H Hi Hx Hl; [simpl in Hl; lia|].
  assert (Hne : receivers p ≠ []) by (intros Hn; by rewrite Hn in Hi).
  apply not_elem_of_cons in Hx as [Hxe Hx]. destruct e as [id'|c|id']; simpl in *.
  - eapply (IH puts _ i); [by apply poolInv_take| |done|done].
    rewrite (take_waits puts) by done. simpl. by apply lookup_app_l_Some.
  - destruct (receivers p) as [|r rs] eqn:Er; [done|]. destruct i as [|i]; simpl in Hi.
    + injection Hi as ->. exists c. apply answers_kept. unfold pool_put. rewrite Er. simpl.
      rewrite elem_of_app. right. by apply list_elem_of_singleton.
    + eapply (IH (puts ++ [c]) _ i); [by apply poolInv_put| |done|lia]. unfold pool_put. by rewrite Er.
  - destruct (filter_lookup_earlier _ _ _ id' Hi) as (j & Hj & Hl'); [congruence|].
    unfold pool_expire. case_decide.
    + eapply (IH puts _ j); [|done|done|lia].
      replace (answer _ _ _) with (pool_expire id' p) by (unfold pool_expire; by rewrite decide_True).
      by apply poolInv_expire.
    + by eapply (IH puts _ i).
Qed.

(** C29: A taker that waits is served.  In every reachable state, a take that is
    at position [i] among the waiting ones returns a connection once [i + 1]
    connections are put back, whatever else happens meanwhile, unless its own
    timer expires first. *)
Theorem pool_waiter_served sz before es i id :
  receivers (poolRun before (pool_init sz)) !! i = Some id →
  Expire id ∉ es → (i < length (putConns es))%nat →
  ∃ c, (id, Got c) ∈ answers (poolRun (before ++ es) (pool_init sz)).
Proof.
  intros Hi Hx Hl. unfold poolRun at 1. rewrite foldl_app.
  eapply waiter_served; [|exact Hi|done|done].
  exact (poolRun_inv before [] _ (poolInv_init sz)).
Qed.

(** ** Streams *)

(** The places of the goroutine that copies from the local connection to the
    remote one, and of the loop that copies back.  A place is what comes next. *)
Inductive localPC := LRead | LCheckRead | LCount | LWrite | LCheckWrite | LCountWrite | LDone.
Inductive remotePC := RContext | RRead | RCheckRead | RCount | RWrite | RCheckWrite | RCountWrite | RDone.

(** [sh_n] and [sh_err] are the variables that both goroutines assign; [len] of
    a buffer is its length, [buf] its bytes. *)
Record streamState := mkStream {
  sh_n : Z; sh_err : bool; cancelled : bool;
  lpc : localPC; llen : nat; lbuf : list Z;
  rpc : remotePC; rlen : nat; rbuf : list Z;
  localRead : Z; localWrite : Z; remoteRead : Z; remoteWrite : Z;
  toRemote : list Z; toLocal : list Z;
}.

(** Both buffers come from the pool with some bytes; [buf = buf[:0]] is run once
    by the goroutine, and on every turn by the other loop. *)
Definition streamStart (lb rb : list Z) : streamState :=
  mkStream 0 false false LRead 0 lb RContext (length rb) rb 0 0 0 0 [] [].

Section Steps.
Context (s : streamState).

Definition goLocal (pc : localPC) : streamState :=
  mkStream (sh_n s) (sh_err s) (cancelled s) pc (llen s) (lbuf s) (rpc s) (rlen s) (rbuf s)
    (localRead s) (localWrite s) (remoteRead s) (remoteWrite s) (toRemote s) (toLocal s).
Definition goRemote (pc : remotePC) (len : nat) : streamState :=
  mkStream (sh_n s) (sh_err s) (cancelled s) (lpc s) (llen s) (lbuf s) pc len (rbuf s)
    (localRead s) (localWrite s) (remoteRead s) (remoteWrite s) (toRemote s) (toLocal s).

Definition localReads (k : Z) (e : bool) (b : list Z) : streamState :=
  mkStream k e (cancelled s) LCheckRead (llen s) b (rpc s) (rlen s) (rbuf s)
    (localRead s) (localWrite s) (remoteRead s) (remoteWrite s) (toRemote s) (toLocal s).
Definition localCounts : streamState :=
  mkStream (sh_n s) (sh_err s) (cancelled s) LWrite (llen s) (lbuf s) (rpc s) (rlen s) (rbuf s)
    (localRead s + sh_n s) (localWrite s) (remoteRead s) (remoteWrite s) (toRemote s) (toLocal s).
Definition localWrites (k : Z) (e : bool) : streamState :=
  mkStream k e (cancelled s) LCheckWrite (llen s) (lbuf s) (rpc s) (rlen s) (rbuf s)
    (localRead s) (localWrite s) (remoteRead s) (remoteWrite s)
    (toRemote s ++ take (Z.to_nat k) (take (Z.to_nat (sh_n s)) (lbuf s))) (toLocal s).
Definition localCountsWrite : streamState :=
  mkStream (sh_n s) (sh_err s) (cancelled s) LRead (llen s) (lbuf s) (rpc s) (rlen s) (rbuf s)
    (localRead s) (localWrite s) (remoteRead s) (remoteWrite s + sh_n s) (toRemote s) (toLocal s).

Definition remoteReads (k : Z) (e : bool) (b : list Z) : streamState :=
  mkStream k e (cancelled s) (lpc s) (llen s) (lbuf s) RCheckRead (rlen s) b
    (localRead s) (localWrite s) (remoteRead s) (remoteWrite s) (toRemote s) (toLocal s).
Definition remoteCounts : streamState :=
  mkStream (sh_n s) (sh_err s) (cancelled s) (lpc s) (llen s) (lbuf s) RWrite (rlen s) (rbuf s)
    (localRead s) (localWrite s) (remoteRead s + sh_n s) (remoteWrite s) (toRemote s) (toLocal s).
Definition remoteWrites (k : Z) (e : bool) : streamState :=
  mkStream k e (cancelled s) (lpc s) (llen s) (lbuf s) RCheckWrite (rlen s) (rbuf s)
    (localRead s) (localWrite s) (remoteRead s) (remoteWrite s) (toRemote s)
    (toLocal s ++ take (Z.to_nat k) (take (Z.to_nat (sh_n s)) (rbuf s))).
Definition remoteCountsWrite : streamState :=
  mkStream (sh_n s) (sh_err s) (cancelled s) (lpc s) (llen s) (lbuf s) RContext (rlen s) (rbuf s)
    (localRead s) (localWrite s + sh_n s) (remoteRead s) (remoteWrite s) (toRemote s) (toLocal s).
Definition cancel : streamState :=
  mkStream (sh_n s) (sh_err s) true (lpc s) (llen s) (lbuf s) (rpc s) (rlen s) (rbuf s)
    (localRead s) (localWrite s) (remoteRead s) (remoteWrite s) (toRemote s) (toLocal s).
End Steps.

(** One step of one goroutine.  A read gives between 0 and the length of the
    buffer bytes, a write at most what it is given, with or without an error, as
    the contracts of io.Reader and io.Writer say; a read changes no byte outside
    the buffer's length. *)
Inductive streamStep : streamState → streamState → Prop :=
| step_cancel s : streamStep s (cancel s)
| step_local_read s k e b : lpc s = LRead → 0 ≤ k ≤ Z.of_nat (llen s) →
    drop (llen s) b = drop (llen s) (lbuf s) → streamStep s (localReads s k e b)
| step_local_check s : lpc s = LCheckRead → streamStep s (goLocal s (if sh_err s then LDone else LCount))
| step_local_count s : lpc s = LCount → streamStep s (localCounts s)
| step_local_write s k e : lpc s = LWrite → 0 ≤ k ≤ sh_n s → streamStep s (localWrites s k e)
| step_local_check_write s : lpc s = LCheckWrite →
    streamStep s (goLocal s (if sh_err s then LDone else LCountWrite))
| step_local_count_write s : lpc s = LCountWrite → streamStep s (localCountsWrite s)
| step_remote_context s : rpc s = RContext →
    streamStep s (if cancelled s then goRemote s RDone (rlen s) else goRemote s RRead 0)
| step_remote_read s k e b : rpc s = RRead → 0 ≤ k ≤ Z.of_nat (rlen s) →
    drop (rlen s) b = drop (rlen s) (rbuf s) → streamStep s (remoteReads s k e b)
| step_remote_check s : rpc s = RCheckRead → streamStep s (goRemote s (if sh_err s then RDone else RCount) (rlen s))
| step_remote_count s : rpc s = RCount → streamStep s (remoteCounts s)
| step_remote_write s k e : rpc s = RWrite → 0 ≤ k ≤ sh_n s → streamStep s (remoteWrites s k e)
| step_remote_check_write s : rpc s = RCheckWrite →
    streamStep s (goRemote s (if sh_err s then RDone else RCountWrite) (rlen s))
| step_remote_count_write s : rpc s = RCountWrite → streamStep s (remoteCountsWrite s).

Definition streamReach : streamState → streamState → Prop := rtc streamStep.

(** Nothing was read or written so far, and the buffers in use are empty. *)
Record idle (s : streamState) : Prop := {
  idle_n : sh_n s = 0;
  idle_llen : llen s = 0%nat;
  idle_rlen : rpc s = RContext ∨ rpc s = RDone ∨ rlen s = 0%nat;
  idle_counts : localRead s = 0 ∧ localWrite s = 0 ∧ remoteRead s = 0 ∧ remoteWrite s = 0;
  idle_bytes : toRemote s = [] ∧ toLocal s = [];
}.

Lemma idle_step s s' : streamStep s s' → idle s → idle s'.
Proof.
  intros Hs [Hn Hl Hr (C1 & C2 & C3 & C4) [B1 B2]].
  assert (Hz : rpc s ≠ RContext → rpc s ≠ RDone → rlen s = 0%nat) by naive_solver.
  destruct Hs as [s|s k e b Hp Hk _|s Hp|s Hp|s k e Hp Hk|s Hp|s Hp|s Hp|s k e b Hp Hk _|s Hp|s Hp|s k e Hp Hk|s Hp|s Hp].
  all: try (assert (rlen s = 0%nat) as Hrl by (apply Hz; congruence)).
  all: try (assert (k = 0) as -> by lia).
  all: try (destruct (cancelled s)).
  all: split; simpl; rewrite ?Hn, ?Hl, ?C1, ?C2, ?C3, ?C4, ?B1, ?B2, ?take_0; auto.
Qed.

(** A stream carries nothing.  Both loops read into a buffer that was cut to
    length zero; whatever the two goroutines do and in whatever order, with
    errors and cancellation at any point, no byte reaches either side and all
    four counters stay zero. *)
Theorem stream_carries_nothing lb rb s :
  streamReach (streamStart lb rb) s →
  toRemote s = [] ∧ toLocal s = [] ∧ localRead s = 0 ∧ localWrite s = 0 ∧ remoteRead s = 0 ∧ remoteWrite s = 0.
Proof.
  intros Hr. assert (H : idle s).
  { assert (H0 : idle (streamStart lb rb)) by (split; simpl; auto).
    clear -Hr H0. induction Hr as [|s1 s2 s3 Hs _ IH]; [done|]. apply IH. by eapply idle_step. }
  destruct H as [_ _ _ (? & ? & ? & ?) [? ?]]. done.
Qed.

(** ** Listening *)

(** What a turn of the loop of [streamListener] meets: a context that is done, a
    failed accept, or a connection, for which a goroutine is started. *)
Inductive acceptTurn := ContextDone | AcceptFailed | Accepted (conn : nat).
Inductive listenEnd := EndContext | EndAccept.

Fixpoint streamListener (turns : list acceptTurn) : list nat * option listenEnd :=
  match turns with
  | [] => ([], None)
  | ContextDone :: _ => ([], Some EndContext)
  | AcceptFailed :: _ => ([], Some EndAccept)
  | Accepted c :: ts => let '(cs, e) := streamListener ts in (c :: cs, e)
  end.

(** [streamConn]: the calls on connections; the deferred close is the remote's. *)
Inductive connCall := ProxyConn (local remote : nat) | CloseConn (conn : nat).

Definition streamConn (ctxDone : bool) (conn : nat) (upstream : option nat) : list connCall :=
  if ctxDone then []
  else match upstream with
       | None => []
       | Some remote => [ProxyConn conn remote; CloseConn remote]
       end.

(** A connection that is handed to an upstream has that upstream closed once
    afterwards, and the accepted connection itself is never closed. *)
Lemma streamConn_closes ctxDone conn remote :
  streamConn ctxDone conn (Some remote) = [] ∨
  (streamConn ctxDone conn (Some remote) = [ProxyConn conn remote; CloseConn remote] ∧
   (remote ≠ conn → CloseConn conn ∉ streamConn ctxDone conn (Some remote))).
Proof.
  destruct ctxDone; [by left|right]. split; [done|]. intros Hne. simpl.
  rewrite !not_elem_of_cons. repeat split; [done|congruence|apply not_elem_of_nil].
Qed.

(** ** The stream server *)

(** [streamServer.Serve] next to [Close]: what its listener meets, and the call
    that cancels its context.  [Close] does not close the listener: a turn that
    waits in [Accept] goes on waiting. *)
Inductive serveEvent := EvAccept (conn : nat) | EvFail | EvClose.

Record streamServer := mkStreamServer { ss_cancelled : bool }.

(** [init]: a context of its own. *)
Definition streamServer_init (parentDone : bool) : streamServer := mkStreamServer parentDone.

(** [Close] returns when the context is done, which the cancellation has just made
    it. *)
Definition streamServer_Close (s : streamServer) : streamServer := mkStreamServer true.

(** A turn that waits in [Accept], and the check of the context before the next. *)
Fixpoint acceptWaits (s : streamServer) (es : list serveEvent) : list nat * option listenEnd :=
  match es with
  | [] => ([], None)
  | EvClose :: es => acceptWaits (streamServer_Close s) es
  | EvFail :: _ => ([], Some EndAccept)
  | EvAccept c :: es =>
    let '(cs, e) := if ss_cancelled s then ([], Some EndContext) else acceptWaits s es in (c :: cs, e)
  end.

Definition streamServer_Serve (s : streamServer) (es : list serveEvent) : list nat * option listenEnd :=
  if ss_cancelled s then ([], Some EndContext) else acceptWaits s es.

Definition acceptEvents (cs : list nat) : list serveEvent := EvAccept <$> cs.

Lemma acceptWaits_accepts cs es :
  acceptWaits (mkStreamServer false) (acceptEvents cs ++ es) =
  (cs ++ fst (acceptWaits (mkStreamServer false) es), snd (acceptWaits (mkStreamServer false) es)).
Proof.
  induction cs as [|c cs IH]; simpl; [by destruct (acceptWaits _ es)|]. by rewrite IH.
Qed.

(** Closing a stream server.  After [Close] the loop still takes one connection,
    the one that [Accept] was waiting for, and only then ends; until there is
    one, it does not end at all. *)
Theorem stream_close_one_more cs ds :
  streamServer_Serve (streamServer_init false) (acceptEvents cs ++ EvClose :: acceptEvents ds) =
  (cs ++ take 1 ds, match ds with [] => None | _ => Some EndContext end).
Proof.
  unfold streamServer_Serve, streamServer_init. cbn [ss_cancelled]. rewrite acceptWaits_accepts. simpl.
  by destruct ds.
Qed.

(** [configConn]: the deadlines set, and the first error. *)
Inductive deadline := ReadDeadline (at_ : Z) | WriteDeadline (at_ : Z).

Definition configConn (now1 now2 : Z) (sets : deadline → option string) (readTimeout writeTimeout : Z)
    : list deadline * option string :=
  let rd := if readTimeout =? 0 then [] else [ReadDeadline (now1 + readTimeout)] in
  match head rd ≫= sets with
  | Some err => (rd, Some err)
  | None =>
    let wr := if writeTimeout =? 0 then [] else [WriteDeadline (now2 + writeTimeout)] in
    (rd ++ wr, head wr ≫= sets)
  end.

Lemma configConn_deadlines now1 now2 sets rt wt : (∀ d, sets d = None) → rt ≠ 0 → wt ≠ 0 →
  configConn now1 now2 sets rt wt = ([ReadDeadline (now1 + rt); WriteDeadline (now2 + wt)], None).
Proof. intros Hs Hr%Z.eqb_neq Hw%Z.eqb_neq. unfold configConn. by rewrite Hr, Hw; simpl; rewrite !Hs. Qed.

(** ** The theorems at work *)

Definition waitingPool : list poolEvent := [Take 1; Take 2; Put 10].

Lemma pool_waiter_served_witness :
  ∃ c, (2%nat, Got c) ∈ answers (poolRun (waitingPool ++ [Take 3; Put 11]) (pool_init 4)).
Proof.
  apply (pool_waiter_served 4 waitingPool [Take 3; Put 11] 0 2); [done| |simpl; lia].
  rewrite !not_elem_of_cons. repeat split; try done. apply not_elem_of_nil.
Defined.

Lemma stream_carries_nothing_witness :
  let s := goRemote (streamStart [1; 2] [3]) RRead 0 in
  toRemote s = [] ∧ toLocal s = [] ∧ localRead s = 0 ∧ localWrite s = 0 ∧ remoteRead s = 0 ∧ remoteWrite s = 0.
Proof.
  apply (stream_carries_nothing [1; 2] [3]).
  apply rtc_once. exact (step_remote_context (streamStart [1; 2] [3]) eq_refl).
Defined.
