(* ===== verification/KeyGen.v ===== *)
(** * The generator of the context keys (src/scripts/nginx_configuration.go)

    The script walks the fields of the configuration structs by reflection and
    writes src/ngx_ctx_keys.go, a type per field.  A struct is its fields, each
    with the value of its nginx tag; an embedded struct is a field of its own
    name.  [Connection_String] is the printing of addresses. *)

From S2P Require Import Prelude GoStrings Parse GoNet GoURL Servers.

#[local] Open Scope Z_scope.

Abbreviation structField := (string * string)%type.

Definition Events_fields : list structField :=
  [("AcceptMutex", "accept_mutex,off");
   ("AcceptMutextDelay", "accept_mutex_delay,500ms");
   ("DebugConnection", "debug_connection");
   ("MultiAccept", "master_process");
   ("Use", "use");
   ("WorkerAIORequests", "worker_aio_requests");
   ("WorkerConnections", "worker_connections")].

Definition Core_fields : list structField :=
  [("Daemon", "daemon,off");
   ("DebugPoints", "debug_points");
   ("Env", "env");
   ("ErrorLog", "error_log");
   ("LockFile", "lock_file");
   ("MasterProcess", "master_process");
   ("PCREJit", "pcre_jit");
   ("PID", "pid");
   ("SSLEngine", "ssl_engine");
   ("ThreadPool", "thread_pool");
   ("TimerResolution", "timer_resolution");
   ("User", "user");
   ("Events", "events");
   ("WorkerCPUAffinity", "worker_cpu_affinity");
   ("WorkerPriority", "worker_priority");
   ("WorkerProcess", "worker_processes");
   ("WorkerRLimitNoFile", "worker_rlimit_nofile");
   ("WorkerShutdownTimeout", "worker_shutdown_timeout");
   ("WorkingDirectory", "working_directory");
   ("LogSubrequests", "log_subrequest")].

Definition HTTP_fields : list structField :=
  [("SharedHTTP", "");
   ("RequestPoolSize", "request_pool_size");
   ("Server", "server");
   ("ServerNameHashBucketSize", "server_names_hash_bucket_size");
   ("ServerNameHashMaxSize", "server_names_hash_max_size");
   ("UnderscoreInHeaders", "underscores_in_headers");
   ("VariablesHashBucketSize", "variables_hash_bucket_size");
   ("VariablesHashMaxSize", "variables_hash_max_size")].

Definition SharedHTTP_fields : list structField :=
  [("ErrorLog", "error_log");
   ("Alias", "alias");
   ("AbsoluteRedirect", "absolute_redirect");
   ("AIO", "aio");
   ("AIOWrite", "aio_write");
   ("ChunkedTransferEncoding", "chunked_transfer_encoding");
   ("ClientBodyBufferSize", "client_body_buffer_size");
   ("ClientBodyInFileOnly", "client_body_in_file_only");
   ("ClientBodyInSingleBuffer", "client_body_in_single_buffer");
   ("ClientBodyTempPath", "client_body_temp_path");
   ("ClientBodyTimeout", "client_body_timeout");
   ("ClientHeaderBufferSize", "client_header_buffer_size");
   ("ClientHeaderTimeout", "client_header_timeout");
   ("ClientMaxBodySize", "client_max_body_size");
   ("ConnectionPoolSize", "connection_pool_size");
   ("DefaultType", "default_type");
   ("DirectIO", "directio");
   ("DirectIOAlignment", "directio_alignment");
   ("DisableSymlink", "disable_symlinks");
   ("ErrorPage", "error_page");
   ("Etag", "etag");
   ("IfModifiedSince", "if_modified_since");
   ("IgnoreInvalidHeaders", "ignore_invalid_headers");
   ("DisableKeepAlive", "keepalive_disable");
   ("KeepAliveRequests", "keepalive_requests");
   ("KeepAliveTimeout", "keepalive_timeout");
   ("LargeClientHeaderBuffers", "large_client_header_buffers");
   ("LimitRate", "limit_rate");
   ("LimitRateAfter", "limit_rate_after");
   ("LingeringClose", "lingering_close");
   ("LingeringTime", "lingering_time");
   ("LingeringTimeout", "lingering_timeout");
   ("LogNotFound", "log_not_found");
   ("LogSubrequests", "log_subrequest");
   ("MaxRanges", "max_ranges");
   ("MergeSlashes", "merge_slashes");
   ("MSEPadding", "msie_padding");
   ("MSERefresh", "msie_refresh");
   ("OpenFileCache", "open_file_cache");
   ("OpenFileCacheErrors", "open_file_cache_errors");
   ("OpenFileCacheMinUses", "open_file_cache_min_uses");
   ("OpenFileCacheValid", "open_file_cache_valid");
   ("OutputBuffer", "output_buffers");
   ("PortOnRedirect", "port_in_redirect");
   ("PostponeOutput", "postpone_output");
   ("ReadAhead", "read_ahead");
   ("RecursiveErrorPage", "recursive_error_pages");
   ("ResetTimeoutConnection", "reset_timedout_connection");
   ("Resolver", "resolver");
   ("ResolverTimeout", "resolver_timeout");
   ("Root", "root");
   ("Satisfy", "satisfy");
   ("SendIOWAT", "send_lowat");
   ("SendTimeout", "send_timeout");
   ("SendFile", "sendfile");
   ("SendFileMaxChunkSize", "sendfile_max_chunk");
   ("ServerNameInRedirect", "server_name_in_redirect");
   ("ServerTokens", "server_tokens");
   ("SubrequestBufferSize", "subrequest_output_buffer_size");
   ("TCPNoDelay", "tcp_nodelay");
   ("TCPNoPush", "tcp_nopush");
   ("Types", "types");
   ("TypesHashBucketSize", "types_hash_bucket_size");
   ("TypesHashMaxSize", "types_hash_max_size")].

Definition Server_fields : list structField :=
  [("SharedHTTP", "");
   ("Listen", "listen");
   ("Location", "location");
   ("RequestPoolSize", "request_pool_size");
   ("ServerName", "server_name");
   ("TryFiles", "try_files");
   ("UnderscoreInHeaders", "underscores_in_headers")].

(** ** The generator *)

(** [toName]; an empty name has no first byte. *)
Definition toName (n : string) : res string :=
  match n with
  | "" => Panic IndexOutOfRange
  | String a s => Ok (String (lowerByte a) s)
  end.

(** The loop that writes a type for every name it has not met. *)
Fixpoint writeKeys (fields : list structField) (seen : list string) : res (list (string * string)) :=
  match fields with
  | [] => Ok []
  | (n, tag) :: fs =>
    if decide (n ∈ seen) then writeKeys fs seen
    else
      k ← toName n;
      rest ← writeKeys fs (n :: seen);
      Ok ((k +:+ "Key", tag) :: rest)
  end.

Definition keyLine (k : string * string) : string := fst k +:+ " struct{} //" +:+ snd k +:+ str1 10.

Definition keysHeader : string :=
  "// DO NOT EDIT this file was auto generated" +:+ str1 10 +:+ str1 9 +:+ "package main" +:+ str1 10 +:+ str1 9.

(** The text for a list of types. *)
Definition keysText (ks : list (string * string)) : string :=
  keysHeader +:+ "type (" +:+ str1 10 +:+ foldr (λ k acc, keyLine k +:+ acc) "" ks +:+ ")".

(** [dumpKeys]; [sorted] is what sort.Slice makes of the fields: it sorts by
    name, and equal names come in any order. *)
Definition dumpKeys (sortFields : list structField → list structField) (obs : list (list structField)) : res string :=
  ks ← writeKeys (sortFields (concat obs)) [];
  Ok (keysText ks).

Definition scriptStructs : list (list structField) :=
  [Core_fields; Events_fields; SharedHTTP_fields; HTTP_fields; Server_fields].

(** ** The generated file *)

(** src/ngx_ctx_keys.go: the types and their comments. *)
Definition ctxKeys : list (string * string) :=
  [("aIOKey", "aio");
   ("aIOWriteKey", "aio_write");
   ("absoluteRedirectKey", "absolute_redirect");
   ("acceptMutexKey", "accept_mutex,off");
   ("acceptMutextDelayKey", "accept_mutex_delay,500ms");
   ("aliasKey", "alias");
   ("chunkedTransferEncodingKey", "chunked_transfer_encoding");
   ("clientBodyBufferSizeKey", "client_body_buffer_size");
   ("clientBodyInFileOnlyKey", "client_body_in_file_only");
   ("clientBodyInSingleBufferKey", "client_body_in_single_buffer");
   ("clientBodyTempPathKey", "client_body_temp_path");
   ("clientBodyTimeoutKey", "client_body_timeout");
   ("clientHeaderBufferSizeKey", "client_header_buffer_size");
   ("clientHeaderTimeoutKey", "client_header_timeout");
   ("clientMaxBodySizeKey", "client_max_body_size");
   ("connectionPoolSizeKey", "connection_pool_size");
   ("daemonKey", "daemon,off");
   ("debugConnectionKey", "debug_connection");
   ("debugPointsKey", "debug_points");
   ("defaultTypeKey", "default_type");
   ("directIOKey", "directio");
   ("directIOAlignmentKey", "directio_alignment");
   ("disableKeepAliveKey", "keepalive_disable");
   ("disableSymlinkKey", "disable_symlinks");
   ("envKey", "env");
   ("errorLogKey", "error_log");
   ("errorPageKey", "error_page");
   ("etagKey", "etag");
   ("eventsKey", "events");
   ("ifModifiedSinceKey", "if_modified_since");
   ("ignoreInvalidHeadersKey", "ignore_invalid_headers");
   ("keepAliveRequestsKey", "keepalive_requests");
   ("keepAliveTimeoutKey", "keepalive_timeout");
   ("largeClientHeaderBuffersKey", "large_client_header_buffers");
   ("limitRateKey", "limit_rate");
   ("limitRateAfterKey", "limit_rate_after");
   ("lingeringCloseKey", "lingering_close");
   ("lingeringTimeKey", "lingering_time");
   ("lingeringTimeoutKey", "lingering_timeout");
   ("listenKey", "listen");
   ("locationKey", "location");
   ("lockFileKey", "lock_file");
   ("logNotFoundKey", "log_not_found");
   ("logSubrequestsKey", "log_subrequest");
   ("mSEPaddingKey", "msie_padding");
   ("mSERefreshKey", "msie_refresh");
   ("masterProcessKey", "master_process");
   ("maxRangesKey", "max_ranges");
   ("mergeSlashesKey", "merge_slashes");
   ("multiAcceptKey", "master_process");
   ("openFileCacheKey", "open_file_cache");
   ("openFileCacheErrorsKey", "open_file_cache_errors");
   ("openFileCacheMinUsesKey", "open_file_cache_min_uses");
   ("openFileCacheValidKey", "open_file_cache_valid");
   ("outputBufferKey", "output_buffers");
   ("pCREJitKey", "pcre_jit");
   ("pIDKey", "pid");
   ("portOnRedirectKey", "port_in_redirect");
   ("postponeOutputKey", "postpone_output");
   ("readAheadKey", "read_ahead");
   ("recursiveErrorPageKey", "recursive_error_pages");
   ("requestPoolSizeKey", "request_pool_size");
   ("resetTimeoutConnectionKey", "reset_timedout_connection");
   ("resolverKey", "resolver");
   ("resolverTimeoutKey", "resolver_timeout");
   ("rootKey", "root");
   ("sSLEngineKey", "ssl_engine");
   ("satisfyKey", "satisfy");
   ("sendFileKey", "sendfile");
   ("sendFileMaxChunkSizeKey", "sendfile_max_chunk");
   ("sendIOWATKey", "send_lowat");
   ("sendTimeoutKey", "send_timeout");
   ("serverKey", "server");
   ("serverNameKey", "server_name");
   ("serverNameHashBucketSizeKey", "server_names_hash_bucket_size");
   ("serverNameHashMaxSizeKey", "server_names_hash_max_size");
   ("serverNameInRedirectKey", "server_name_in_redirect");
   ("serverTokensKey", "server_tokens");
   ("sharedHTTPKey", "");
   ("subrequestBufferSizeKey", "subrequest_output_buffer_size");
   ("tCPNoDelayKey", "tcp_nodelay");
   ("tCPNoPushKey", "tcp_nopush");
   ("threadPoolKey", "thread_pool");
   ("timerResolutionKey", "timer_resolution");
   ("tryFilesKey", "try_files");
   ("typesKey", "types");
   ("typesHashBucketSizeKey", "types_hash_bucket_size");
   ("typesHashMaxSizeKey", "types_hash_max_size");
   ("underscoreInHeadersKey", "underscores_in_headers");
   ("useKey", "use");
   ("userKey", "user");
   ("variablesHashBucketSizeKey", "variables_hash_bucket_size");
   ("variablesHashMaxSizeKey", "variables_hash_max_size");
   ("workerAIORequestsKey", "worker_aio_requests");
   ("workerCPUAffinityKey", "worker_cpu_affinity");
   ("workerConnectionsKey", "worker_connections");
   ("workerPriorityKey", "worker_priority");
   ("workerProcessKey", "worker_processes");
   ("workerRLimitNoFileKey", "worker_rlimit_nofile");
   ("workerShutdownTimeoutKey", "worker_shutdown_timeout");
   ("workingDirectoryKey", "working_directory")].

(** ** Sorting *)

Definition byName (a b : structField) : Prop := stringOrder (fst a) (fst b).

(** A function that sorts the fields by name. *)
Definition sortsByName (f : list structField → list structField) : Prop :=
  ∀ l, Permutation (f l) l ∧ StronglySorted byName (f l).

Fixpoint firstOf (fields : list structField) (seen : list string) : list structField :=
  match fields with
  | [] => []
  | (n, tag) :: fs => if decide (n ∈ seen) then firstOf fs seen else (n, tag) :: firstOf fs (n :: seen)
  end.

Lemma writeKeys_firstOf fs seen : Forall (λ f, fst f ≠ "") fs →
  writeKeys fs seen = Ok ((λ '(n, t), (match n with String a s => String (lowerByte a) s | "" => "" end +:+ "Key", t))
                            <$> firstOf fs seen).
Proof.
  revert seen. induction fs as [|[n t] fs IH]; intros seen H; [done|].
  apply Forall_cons in H as [Hn H]. simpl. case_decide; [by apply IH|].
  destruct n as [|a s]; [done|]. simpl. by rewrite IH.
Qed.

Lemma firstOf_elem fs seen n : n ∈ (firstOf fs seen).*1 ↔ n ∈ fs.*1 ∧ n ∉ seen.
Proof.
  revert seen. induction fs as [|[m t] fs IH]; intros seen; simpl; [set_solver|].
  case_decide as Hm; [rewrite IH|simpl; rewrite elem_of_cons, IH, not_elem_of_cons].
  - set_solver.
  - destruct (decide (n = m)); set_solver.
Qed.

Lemma firstOf_sub fs seen x : x ∈ firstOf fs seen → x ∈ fs.
Proof.
  revert seen. induction fs as [|[m t] fs IH]; intros seen; simpl; [done|]. case_decide; [set_solver|].
  rewrite !elem_of_cons. naive_solver.
Qed.

Lemma firstOf_NoDup fs seen : NoDup (firstOf fs seen).*1.
Proof.
  revert seen. induction fs as [|[m t] fs IH]; intros seen; simpl; [constructor|]. case_decide; [apply IH|].
  simpl. constructor; [|apply IH]. rewrite firstOf_elem. set_solver.
Qed.

Lemma firstOf_sorted fs seen : StronglySorted byName fs → StronglySorted stringOrder (firstOf fs seen).*1.
Proof.
  intros Hs. revert seen. induction Hs as [|[m t] fs Hs IH Hf]; intros seen; simpl; [constructor|].
  case_decide; [apply IH|]. simpl. constructor; [apply IH|]. apply Forall_forall. intros n Hn.
  apply firstOf_elem in Hn as [Hn _]. apply list_elem_of_fmap in Hn as (x & -> & Hx).
  rewrite Forall_forall in Hf. by apply Hf.
Qed.

#[local] Instance stringOrder_antisym : AntiSymm (=) stringOrder.
Proof. intros a b. apply stringLe_antisym. Qed.

(** With one tag per name, every sort gives the same list of first fields. *)
Lemma firstOf_unique (tag : string → string) l1 l2 :
  StronglySorted byName l1 → StronglySorted byName l2 → Permutation l1 l2 →
  (∀ n t, (n, t) ∈ l1 → t = tag n) → firstOf l1 [] = firstOf l2 [].
Proof.
  intros S1 S2 Hp Ht.
  assert (Hn : (firstOf l1 []).*1 = (firstOf l2 []).*1).
  { apply (StronglySorted_unique stringOrder); [by apply firstOf_sorted..|].
    apply NoDup_Permutation; [apply firstOf_NoDup..|]. intros n. rewrite !firstOf_elem, Hp. done. }
  assert (Hm : ∀ l, Permutation l l1 → firstOf l [] = (λ n, (n, tag n)) <$> (firstOf l []).*1).
  { intros l Hl. rewrite <- list_fmap_compose. rewrite <- (list_fmap_id (firstOf l [])) at 1.
    apply list_fmap_ext. intros i [n t] Hi. simpl. f_equal. apply Ht. rewrite <- Hl.
    eapply firstOf_sub, list_elem_of_lookup_2, Hi. }
  rewrite (Hm l1), (Hm l2), Hn by done. done.
Qed.

#[local] Instance byName_dec : RelDecision byName.
Proof. unfold byName. intros a b. apply _. Defined.
#[local] Instance byName_trans : Transitive byName.
Proof. intros a b c. apply stringLe_trans. Qed.
#[local] Instance byName_total : Total byName.
Proof.
  intros [a s] [b t]. unfold byName, stringOrder. simpl.
  destruct (stringLe a b) eqn:E; [by left|right]. by apply stringLe_total.
Qed.

(** The tag of a name. *)
Definition tagOf (fields : list structField) (n : string) : string :=
  match List.find (λ f, String.eqb (fst f) n) fields with Some f => snd f | None => "" end.

Lemma scriptStructs_tags n t : (n, t) ∈ concat scriptStructs → t = tagOf (concat scriptStructs) n.
Proof.
  intros Hin. assert (H : forallb (λ f, String.eqb (snd f) (tagOf (concat scriptStructs) (fst f))) (concat scriptStructs) = true)
    by (vm_compute; reflexivity).
  rewrite forallb_forall in H. apply list_elem_of_In in Hin. apply H in Hin. by apply String.eqb_eq in Hin.
Qed.

Lemma scriptStructs_named : Forall (λ f, fst f ≠ "") (concat scriptStructs).
Proof.
  assert (H : forallb (λ f, negb (String.eqb (fst f) "")) (concat scriptStructs) = true) by (vm_compute; reflexivity).
  apply forallb_Forall in H. eapply Forall_impl; [exact H|]. intros f Hf. apply negb_true_iff in Hf.
  by apply String.eqb_neq in Hf.
Qed.

Lemma merge_sort_byName : sortsByName (merge_sort byName).
Proof. intros l. split; [apply merge_sort_Permutation|apply StronglySorted_merge_sort; apply _]. Qed.

Lemma dumpKeys_current sortFields :
  sortsByName sortFields → dumpKeys sortFields scriptStructs = Ok (keysText ctxKeys).
Proof.
  intros Hs. destruct (Hs (concat scriptStructs)) as [Hp Hso].
  destruct (merge_sort_byName (concat scriptStructs)) as [Hp' Hso'].
  assert (Hf : firstOf (sortFields (concat scriptStructs)) [] = firstOf (merge_sort byName (concat scriptStructs)) []).
  { apply (firstOf_unique (tagOf (concat scriptStructs))); [done|done|by rewrite Hp, Hp'|].
    intros n t. rewrite Hp. apply scriptStructs_tags. }
  unfold dumpKeys. rewrite writeKeys_firstOf by (rewrite Hp; apply scriptStructs_named). rewrite Hf.
  clear. vm_compute. reflexivity.
Qed.

(** C39: The generated file is up to date.  Whatever order sort.Slice leaves
    equal names in, the script writes for its structs exactly the types of
    src/ngx_ctx_keys.go, in the order of that file, each with the directive in
    its comment (before gofmt lines the columns up). *)
Theorem keys_file_current sortFields :
  sortsByName sortFields → dumpKeys sortFields scriptStructs = Ok (keysText ctxKeys).
Proof. apply dumpKeys_current. Qed.

Lemma keys_file_current_witness : dumpKeys (merge_sort byName) scriptStructs = Ok (keysText ctxKeys).
Proof. apply (keys_file_current (merge_sort byName)), merge_sort_byName. Defined.

(** [main]: the formatted text goes to the file; an error of go/format or of
    writing ends the program. *)
Inductive scriptEnd := LogFatal (err : string) | FileWritten (file text : string).

Definition scriptMain (sortFields : list structField → list structField) (formatSource : string → string + string)
    (writeFile : string → string → option string) : res scriptEnd :=
  src ← dumpKeys sortFields scriptStructs;
  Ok (match formatSource src with
      | inr err => LogFatal err
      | inl b => match writeFile "ngx_ctx_keys.go" b with
                 | Some err => LogFatal err
                 | None => FileWritten "ngx_ctx_keys.go" b
                 end
      end).

(** What the script writes is the formatted text of the types of the file, or it
    ends with the error of formatting or writing. *)
Lemma scriptMain_writes sortFields formatSource writeFile : sortsByName sortFields →
  scriptMain sortFields formatSource writeFile =
  Ok (match formatSource (keysText ctxKeys) with
      | inr err => LogFatal err
      | inl b => default (FileWritten "ngx_ctx_keys.go" b) (LogFatal <$> writeFile "ngx_ctx_keys.go" b)
      end).
Proof.
  intros Hs. unfold scriptMain. rewrite dumpKeys_current by done. cbn [mbind res_bind].
  destruct (formatSource _) as [b|]; [|done]. by destruct (writeFile _ b).
Qed.

(** ** Addresses *)

Inductive ConnType := Unset | Local | Remote | Socket.

(** [Connection]; the network of a CIDR is its printed form. *)
Record Connection := mkConnection {
  Type_ : ConnType; Localhost : bool; All : bool; Port : Z; cIP : option IP; Net : option string; cURL : option URL;
}.

(** [net.JoinHostPort]. *)
Definition JoinHostPort (h p : string) : string :=
  if hasByte 58 h then "[" +:+ h +:+ "]:" +:+ p else h +:+ ":" +:+ p.

Definition Connection_String `{GU : GoURL} (c : Connection) : string :=
  match Type_ c with
  | Remote =>
    match cURL c, Net c with
    | Some u, _ => urlString u
    | None, Some n => n
    | None, None => ""
    end
  | Socket => match cURL c with Some u => "unix:" +:+ Path u | None => "" end
  | Local =>
    let h := if Localhost c then "localhost" else "" in
    let h := match cIP c with Some ip => IP_String ip | None => h end in
    let h := if All c then "*" else h in
    if negb (Port c =? 0) then
      if (h =? "")%string then Itoa (Port c) else JoinHostPort h (Itoa (Port c))
    else if hasByte 58 h then "[" +:+ h +:+ "]" else h
  | Unset => ""
  end.

(** [ServerList.Filter]. *)
Definition ServerList_Filter {A} (f : A → bool) (s : list A) : list A :=
  foldl (λ ls v, if f v then ls ++ [v] else ls) [] s.
