(* ===== verification/Vars.v ===== *)
(** * The variables of a request (src/ngx_ctx_variables.go)

    Every request has a map of variables, which [setRequestVariables] fills and
    the templates of [Template] read.  The texts of the constants are those of
    the source, blanks included. *)

From S2P Require Import Prelude GoStrings GoURL Template.

#[local] Open Scope Z_scope.

Definition vArg : string := "$arg".
Definition vArgs : string := "$args".
Definition vContentLength : string := "$content_length".
Definition vContentType : string := "$content_type".
Definition vCookie : string := "$cookie".
Definition vDocumentRoot : string := "$document_root".
Definition vDocumentURI : string := "$document_uri".
Definition vHost : string := "$host".
Definition vHostname : string := "$hostname".
Definition vHTTP : string := "$http".
Definition vIsArgs : string := "$is_args".
Definition vURI : string := "$uri".
Definition vRequestMatchKind : string := "request_match_kind".

(** All the names of the source. *)
Definition nginxVariables : list string :=
  ["$ancient_browser";
   "$arg";
   "$args";
   "$binary_remote_addr ";
   "$body_bytes_sent";
   "$bytes_received";
   "$bytes_sent";
   "$connection ";
   "$connection_requests";
   "$connections_active";
   "$connections_reading";
   "$connections_waiting";
   "$connections_writing";
   "$content_length";
   "$content_type";
   "$cookie";
   "$date_gmt";
   "$date_local";
   "$document_root";
   "$document_uri";
   "$fastcgi_path_info";
   "$geoip_area_code ";
   "$geoip_city  ";
   "$geoip_city_continent_code";
   "$geoip_city_country_code";
   "$geoip_city_country_code3";
   "$geoip_city_country_name";
   "$geoip_country_code";
   "$geoip_country_code3";
   "$geoip_country_name";
   "$geoip_dma_name";
   "$geoip_latitude";
   "$geoip_longitude";
   "$geoip_org";
   "$geoip_postal_code";
   "$geoip_region";
   "$geoip_region_name";
   "$gzip_ratio";
   "$host";
   "$hostname";
   "$http2";
   "$http";
   "$https";
   "$invalid_referer";
   "$is_args";
   "$jwt_claim";
   "$jwt_header";
   "$limit_conn_status";
   "$limit_rate";
   "$limit_req_status";
   "$memcached_key";
   "$modern_browser";
   "$msec";
   "$msie";
   "$nginx_version";
   "$pid";
   "$pipe";
   "$protocol";
   "$proxy_add_x_forwarded_for";
   "$proxy_host";
   "$proxy_port";
   "$proxy_protocol_addr";
   "$proxy_protocol_port";
   "$proxy_protocol_server_addr";
   "$proxy_protocol_server_port";
   "$query_string";
   "$realip_remote_addr ";
   "$realip_remote_port ";
   "$realpath_root ";
   "$remote_addr";
   "$remote_port";
   "$remote_user";
   "$request";
   "$request_body";
   "$request_body_file";
   "$request_completion";
   "$request_filename";
   "$request_id";
   "$request_length";
   "$request_method";
   "$request_time";
   "$request_uri";
   "$scheme";
   "$secure_link";
   "$secure_link_expires";
   "$sent_http";
   "$sent_trailer";
   "$server_addr";
   "$server_port";
   "$server_protocol";
   "$session_log_binary_id";
   "$session_log_id";
   "$session_time";
   "$slice_range";
   "$spdy";
   "$spdy_request_priority";
   "$ssl_cipher";
   "$ssl_ciphers";
   "$ssl_client_fingerprint";
   "$ssl_client_i_dn";
   "$ssl_client_i_dn_legacy";
   "$ssl_client_raw_cert";
   "$ssl_client_s_dn";
   "$ssl_client_s_dn_legacy";
   "$ssl_client_serial";
   "$ssl_client_v_end";
   "$ssl_client_v_remain";
   "$ssl_client_v_start";
   "$ssl_client_verify";
   "$ssl_curves";
   "$ssl_early_data";
   "$ssl_preread_alpn_protocols";
   "$ssl_preread_protocols";
   "$ssl_preread_server_name";
   "$ssl_protocol";
   "$ssl_server_name";
   "$ssl_session_id";
   "$ssl_session_reused";
   "$status";
   "$tcpinfo_rtt";
   "$tcpinfo_rttvar";
   "$tcpinfo_snd_cwnd";
   "$tcpinfo_rcv_space";
   "$time_iso8601";
   "$time_local";
   "$uid_got";
   "$uid_reset";
   "$uid_set";
   "$upstream_addr";
   "$upstream_bytes_received";
   "$upstream_bytes_sent";
   "$upstream_cache_status";
   "$upstream_connect_time";
   "$upstream_cookie";
   "$upstream_first_byte_time";
   "$upstream_header_time";
   "$upstream_http";
   "$upstream_queue_time";
   "$upstream_response_length";
   "$upstream_response_time";
   "$upstream_session_time";
   "$upstream_status";
   "$upstream_trailer";
   "$uri"].

(** A value of the map: a text, a URL (printed by its method String) or the match
    of the location. *)
Inductive varValue := VText (s : string) | VURL (u : URL) | VMatch.

Abbreviation varMap := (gmap string varValue).

(** [setVariable]; without a map in the context nothing happens. *)
Definition setVariable (key : string) (v : varValue) (m : option varMap) : option varMap :=
  match m with Some m => Some (<[key := v]> m) | None => None end.

(** What [setRequestVariables] reads of a request and of its context. *)
Record varRequest := mkVarRequest {
  vr_url : URL; vr_host : string; vr_header : gmap string (list string); vr_cookies : list (string * string);
  vr_root : option string; vr_alias : option string; vr_serverName : option string;
}.

(** [Header.Get] on canonical names. *)
Definition headerGet (h : gmap string (list string)) (k : string) : string := Values_Get h k.

(** [m[prefix+"_"+k] = h.Get(k)] for every key of a map of lists. *)
Definition setEach (prefix : string) (h : gmap string (list string)) (m : varMap) : varMap :=
  map_fold (λ k _ m, <[prefix +:+ "_" +:+ k := VText (Values_Get h k)]> m) m h.

Definition setCookies (cookies : list (string * string)) (m : varMap) : varMap :=
  foldl (λ m '(n, v), <[vCookie +:+ "_" +:+ n := VText v]> m) m cookies.

Definition documentRoot (r : varRequest) : string :=
  match vr_root r, vr_alias r with Some x, _ => x | None, Some x => x | None, None => "" end.

Definition hostVariable (r : varRequest) : string :=
  if negb (vr_host r =? "")%string then vr_host r
  else
    let h := headerGet (vr_header r) "Host" in
    if negb (h =? "")%string then h else default "" (vr_serverName r).

Definition setRequestVariables (hostname : string) (r : varRequest) (m : varMap) : varMap :=
  let query := ParseQuery (RawQuery (vr_url r)) in
  let m := setEach vArg query m in
  let m := <[vArgs := VText (RawQuery (vr_url r))]> m in
  let m := <[vContentLength := VText (headerGet (vr_header r) "Content-Length")]> m in
  let m := <[vContentType := VText (headerGet (vr_header r) "Content-Type")]> m in
  let m := setCookies (vr_cookies r) m in
  let m := <[vDocumentRoot := VText (documentRoot r)]> m in
  let m := <[vDocumentURI := VURL (vr_url r)]> m in
  let m := <[vURI := VURL (vr_url r)]> m in
  let m := <[vHost := VText (hostVariable r)]> m in
  let m := <[vHostname := VText hostname]> m in
  let m := setEach vHTTP (vr_header r) m in
  <[vIsArgs := VText (if decide (query = ∅) then "" else "?")]> m.

(** The data that a template prints. *)
Definition printed `{GU : GoURL} (m : varMap) : tplData :=
  (λ v, match v with VText s => s | VURL u => urlString u | VMatch => "" end) <$> m.

(** ** Lemmas *)

Lemma setEach_in prefix h m x : is_Some (h !! x) →
  setEach prefix h m !! (prefix +:+ "_" +:+ x) = Some (VText (Values_Get h x)).
Proof.
  intros Hx. unfold setEach. revert Hx. generalize (Values_Get h) as f. intros f.
  apply (map_fold_weak_ind (λ r (h : gmap string (list string)), is_Some (h !! x) →
    r !! (prefix +:+ "_" +:+ x) = Some (VText (f x)))); [rewrite lookup_empty; by intros []|].
  intros i l h' r Hi IH. destruct (decide (i = x)) as [->|Hne]; [intros _; apply lookup_insert_eq|].
  rewrite lookup_insert_ne by done. rewrite lookup_insert_ne; [done|].
  intros H. by do 2 apply (inj (String.append _)) in H.
Qed.

Lemma setEach_out prefix h m k : (∀ x, k ≠ prefix +:+ "_" +:+ x) → setEach prefix h m !! k = m !! k.
Proof.
  intros Hk. unfold setEach. generalize (Values_Get h) as f. intros f.
  apply (map_fold_weak_ind (λ r (_ : gmap string (list string)), r !! k = m !! k)); [done|].
  intros i l h' r Hi IH. rewrite lookup_insert_ne; [done|]. intros <-. by eapply Hk.
Qed.

Lemma setCookies_out cookies m k : (∀ x, k ≠ vCookie +:+ "_" +:+ x) → setCookies cookies m !! k = m !! k.
Proof.
  intros Hk. unfold setCookies. revert m. induction cookies as [|[n v] cs IH]; intros m; [done|]. simpl.
  rewrite IH. apply lookup_insert_ne. intros <-. by eapply Hk.
Qed.

Lemma setCookies_last cookies m n v : setCookies (cookies ++ [(n, v)]) m !! (vCookie +:+ "_" +:+ n) = Some (VText v).
Proof. unfold setCookies. rewrite foldl_app. apply lookup_insert_eq. Qed.

(** Names of variables that differ within their first bytes. *)
Ltac names_differ :=
  unfold vArg, vArgs, vContentLength, vContentType, vCookie, vDocumentRoot, vDocumentURI, vHost, vHostname,
    vHTTP, vIsArgs, vURI; rewrite ?string_app_cons; intros [=].

Ltac skip_others :=
  repeat first
  [ rewrite lookup_insert_ne by names_differ
  | rewrite setEach_out by (intros ?; names_differ)
  | rewrite setCookies_out by (intros ?; names_differ) ].

(** The variables of a request.  Every query parameter has its first value
    under arg_, every header under http_, the last cookie of a name its value
    under cookie_; the host is that of the request line, else that of the Host
    header, else the name of the server; and is_args says whether there are
    parameters. *)
Theorem request_variables hostname r m :
  let m' := setRequestVariables hostname r m in
  let query := ParseQuery (RawQuery (vr_url r)) in
  (∀ k, is_Some (query !! k) → m' !! (vArg +:+ "_" +:+ k) = Some (VText (Values_Get query k))) ∧
  (∀ k, is_Some (vr_header r !! k) → m' !! (vHTTP +:+ "_" +:+ k) = Some (VText (headerGet (vr_header r) k))) ∧
  (∀ n v, last (vr_cookies r) = Some (n, v) → m' !! (vCookie +:+ "_" +:+ n) = Some (VText v)) ∧
  m' !! vArgs = Some (VText (RawQuery (vr_url r))) ∧ m' !! vHost = Some (VText (hostVariable r)) ∧
  m' !! vHostname = Some (VText hostname) ∧ m' !! vDocumentRoot = Some (VText (documentRoot r)) ∧
  m' !! vURI = Some (VURL (vr_url r)) ∧
  m' !! vIsArgs = Some (VText (if decide (query = ∅) then "" else "?")).
Proof.
  unfold setRequestVariables. repeat split.
  - intros k Hk. skip_others. by rewrite setEach_in.
  - intros k Hk. skip_others. by rewrite setEach_in.
  - intros n v Hl. skip_others. apply last_Some in Hl as [cs ->]. apply setCookies_last.
  - skip_others. apply lookup_insert_eq.
  - skip_others. apply lookup_insert_eq.
  - skip_others. apply lookup_insert_eq.
  - skip_others. apply lookup_insert_eq.
  - skip_others. apply lookup_insert_eq.
  - apply lookup_insert_eq.
Qed.

(** ** Variables in templates *)

(** The keys of a map: with a dollar, but for the match of the location. *)
Definition dollarKeys {A} (m : gmap string A) : Prop :=
  ∀ k, is_Some (m !! k) → startsWithByte k 36 = true ∨ k = vRequestMatchKind.

Lemma dollarKeys_insert {A} (m : gmap string A) k v :
  dollarKeys m → startsWithByte k 36 = true → dollarKeys (<[k := v]> m).
Proof.
  intros Hm Hk k'. destruct (decide (k = k')) as [->|Hne]; [by left|]. rewrite lookup_insert_ne by done. apply Hm.
Qed.

Lemma dollarKeys_setEach prefix h m : startsWithByte prefix 36 = true → dollarKeys m → dollarKeys (setEach prefix h m).
Proof.
  intros Hp Hm. unfold setEach. generalize (Values_Get h) as f. intros f.
  apply (map_fold_weak_ind (λ r (_ : gmap string (list string)), dollarKeys r)); [done|].
  intros i l h' r Hi IH. apply dollarKeys_insert; [done|]. by destruct prefix.
Qed.

Lemma dollarKeys_cookies cookies m : dollarKeys m → dollarKeys (setCookies cookies m).
Proof.
  unfold setCookies. revert m. induction cookies as [|[n v] cs IH]; intros m Hm; [done|]. simpl.
  by apply IH, dollarKeys_insert.
Qed.

Lemma dollarKeys_request hostname r m : dollarKeys m → dollarKeys (setRequestVariables hostname r m).
Proof.
  intros Hm. unfold setRequestVariables.
  repeat first [apply dollarKeys_insert; [|done] | apply dollarKeys_setEach; [done|] | apply dollarKeys_cookies | done].
Qed.

(** The variables of a text do not name the match of the location. *)
Definition noMatchVar (v : string) : Prop := Var vRequestMatchKind ∉ scanVars v None.

Lemma variableKey_undollared n : pieceOK (Var n) → startsWithByte (variableKey n) 36 = false.
Proof.
  intros Hn. destruct (variableKey_word n Hn) as [(a & w & E & _) Hw]. rewrite E in *.
  unfold startsWithByte. simpl in *. apply andb_true_iff in Hw as [Hw _].
  unfold isWord, inRange in Hw. lia.
Qed.

Lemma variableKey_other n x : variableKey n = x → startsWithByte x 110 = false → n = x.
Proof.
  unfold variableKey. destruct n as [|a n]; [done|]. case_match; [|done]. intros <-. done.
Qed.

Lemma expandPieces_empty ps (d : tplData) : dollarKeys d → Forall pieceOK ps → Var vRequestMatchKind ∉ ps →
  expandPieces d ps = expandPieces ∅ ps.
Proof.
  intros Hd Hok. induction Hok as [|p ps Hp _ IH]; intros Hn; [done|].
  apply not_elem_of_cons in Hn as [Hp' Hn]. simpl. rewrite IH by done. f_equal.
  destruct p as [a|n]; [done|]. simpl. rewrite lookup_empty. destruct (d !! variableKey n) eqn:E; [|done].
  exfalso. destruct (Hd (variableKey n)) as [H|H]; [eauto|by rewrite variableKey_undollared in H|].
  apply variableKey_other in H as ->; done.
Qed.

(** No variable is ever expanded.  The map's names have a dollar and the
    templates ask for names without one; so for every request the value of a
    text with variables is the one without any variables: each of them, $host and
    the others, is written as a missing value. *)
Theorem variables_never_expand `{T : TextTemplate} `{GU : GoURL} hostname r m v tv :
  dollarKeys m → hasByte 123 v = false → usesFunc v = false → noMatchVar v →
  template_store v noTemplate = Ok tv →
  template_Value tv (printed (setRequestVariables hostname r m)) = Ok (expandVars v ∅).
Proof.
  intros Hm Hb Hf Hn Hs. destruct (template_value_expands v Hb Hf) as (tv' & Hs' & _ & Hv).
  rewrite Hs in Hs'. injection Hs' as <-. rewrite Hv. f_equal. apply expandPieces_empty; [|by apply scanVars_ok|done].
  intros k. unfold printed. rewrite lookup_fmap, fmap_is_Some. by apply dollarKeys_request.
Qed.

Lemma variables_never_expand_witness :
  ∃ tv, @template_store bareTemplate "http://$host/" noTemplate = Ok tv ∧
    template_Value tv (printed (GU := {| urlParse _ := None; urlString _ := "" |})
      (setRequestVariables "h" (mkVarRequest (mkURL "" "" None "" "/" "" false "a=1" "") "a.org" ∅ [] None None None) ∅)) =
    Ok "http://<no value>/".
Proof.
  destruct (@template_value_expands bareTemplate "http://$host/" eq_refl eq_refl) as (tv & Hs & _).
  exists tv. split; [exact Hs|].
  apply (variables_never_expand (T := bareTemplate) (GU := {| urlParse _ := None; urlString _ := "" |}) "h"
    (mkVarRequest (mkURL "" "" None "" "/" "" false "a=1" "") "a.org" ∅ [] None None None) ∅ "http://$host/" tv); [|done|done| |done].
  - intros k. rewrite lookup_empty. by intros [].
  - unfold noMatchVar. by vm_compute; intros H; repeat (apply elem_of_cons in H as [[=]|H]); apply elem_of_nil in H.
Defined.
