(* ===== verification/GitOps.v ===== *)
(** * Repositories over HTTP (src/gitops.go)

    The configuration is served as git repositories.  The git library, gzip and
    the file system are parameters ([GitEnv]); a handler is the list of what it
    does: which repository it opens or makes, and what it answers. *)

From S2P Require Import Prelude GoStrings GoNet GoJSON GoURL RaftStore KVStore Parse OAuth2.

#[local] Open Scope Z_scope.

Record gitOpsOptions := mkGitOpts { go_dir : string; go_auth : bool }.

(** [auth] is nil or a check of the user and the password. *)
Record repoLoader := mkLoader {
  rl_allowed : list string; rl_dir : string; rl_auth : option (string → string → bool);
}.

Record endpoint := mkEndpoint { ep_User : string; ep_Password : string; ep_Path : string }.

Inductive gitError := ErrAuthenticationRequired | ErrAuthorizationFailed | ErrRepositoryNotFound
  | ErrMkdir | ErrGit.

Inductive gitEvent :=
| MkdirAll (path : string) | Mkdir (path : string) | PlainInit (path : string) | PlainOpen (path : string)
| Header (name value : string) | Status (code : Z) | Service (rpc : string) | Body (what : string).

(** [notExist] is os.IsNotExist of os.Stat; the others say whether a call
    succeeds.  go-git's sessions are made by loading the repository and nothing
    else. *)
Class GitEnv := {
  notExist : string → bool;
  mkdirAllOK : string → bool;
  mkdirOK : string → bool;
  initOK : string → bool;
  openOK : string → bool;
  gzipOK : bool;
  decodeOK : bool;
  packOK : string → bool;
  advertiseOK : bool;
  encodeOK : bool;
}.

Section Git.
Context `{GE : GitEnv}.

(** [repoLoader.init]: [None] is a panic. *)
Definition repoLoader_init (dir : string) (auth : option (string → string → bool))
  : list gitEvent * option repoLoader :=
  if notExist dir && negb (mkdirAllOK dir) then ([], None)
  else ((if notExist dir then [MkdirAll dir] else []), Some (mkLoader ["vince"; "project"; "project.git"] dir auth)).

(** [filepath.FromSlash] is the identity here. *)
Fixpoint loadLoop (allowed : list string) (dir e : string) : list gitEvent * (string + gitError) :=
  match allowed with
  | [] => ([], inr ErrRepositoryNotFound)
  | a :: rest =>
    if (JoinPath dir a =? e)%string then
      if notExist e then
        if negb (mkdirOK e) then ([], inr ErrMkdir)
        else if initOK e then ([Mkdir e; PlainInit e], inl e) else ([Mkdir e], inr ErrGit)
      else if openOK e then ([PlainOpen e], inl e) else ([], inr ErrGit)
    else loadLoop rest dir e
  end.

(** [repoLoader.load] and [Load]. *)
Definition repoLoader_load (r : repoLoader) (ep : endpoint) : list gitEvent * (string + gitError) :=
  match rl_auth r with
  | Some auth =>
    if (ep_User ep =? "")%string || (ep_Password ep =? "")%string then ([], inr ErrAuthenticationRequired)
    else if negb (auth (ep_User ep) (ep_Password ep)) then ([], inr ErrAuthorizationFailed)
    else loadLoop (rl_allowed r) (rl_dir r) (ep_Path ep)
  | None => loadLoop (rl_allowed r) (rl_dir r) (ep_Path ep)
  end.

Record gitOps := mkGitOps { g_opts : gitOpsOptions; g_repos : repoLoader }.

(** [gitOps.init]: the loader gets no check, whatever the options ask for. *)
Definition gitOps_init (opts : gitOpsOptions) : list gitEvent * option gitOps :=
  let '(es, r) := repoLoader_init (go_dir opts) None in (es, mkGitOps opts <$> r).

(** A request: its path, the query parameter service, whether its body is
    compressed, and the rest as the OAuth2 server has it. *)
Record gitRequest := mkGitRequest {
  gq_path : string; gq_service : string; gq_gzip : bool; gq_request : oauthRequest;
}.

Definition git_setup (r : gitRequest) : list gitEvent * bool :=
  if (rq_auth (gq_request r) =? "")%string
  then ([Header "WWW-Authenticate" ("Basic realm=" +:+ str1 34 +:+ str1 34); Status 401], false)
  else ([], true).

(** [endpoint]. *)
Definition git_endpoint (o : gitOps) (r : gitRequest) (service : string) : endpoint :=
  let '(basic, _) := basicAuth_init (gq_request r) false in
  let p := TrimSuffix (gq_path r) service in
  let p := TrimPrefix p "/git" in
  let p := JoinPath (go_dir (g_opts o)) p in
  mkEndpoint (ba_UserName basic) (ba_Password basic) (Clean p).

(** [upload] and [receive]: the advertised references of a session. *)
Definition advertise (o : gitOps) (ep : endpoint) : list gitEvent :=
  match repoLoader_load (g_repos o) ep with
  | (es, inl p) => es ++ (if advertiseOK && encodeOK then [Body "refs"] else [])
  | (es, inr _) => es
  end.

Definition git_service (rpc : string) : list gitEvent := [Service rpc].

Definition git_refs (o : gitOps) (r : gitRequest) : list gitEvent :=
  let rpc := gq_service r in
  let '(es, ok) := git_setup r in
  if negb ok then es
  else
    let ep := git_endpoint o r "/info/refs" in
    es ++ [Header "Content-Type" ("application/x-" +:+ rpc +:+ "-advertisement"); Header "Cache-Control" "no-cache"] ++
    (if (rpc =? "git-upload-pack")%string || (rpc =? "git-receive-pack")%string
     then [Status 200] ++ git_service rpc ++ advertise o ep
     else [Header "Content-Type" "text/plain; charset=utf-8"; Header "X-Content-Type-Options" "nosniff"; Status 404;
           Body "Not Found"]).

(** [e500]: the status and the rendered page. *)
Definition e500 : list gitEvent := [Status 500; Body "errors/error.html"].

Definition setHeaders (cmd : string) : list gitEvent :=
  [Header "Content-Type" ("application/x-" +:+ cmd +:+ "-result"); Header "Cache-Control" "no-cache"].

(** [upSession] and [downSession]: a session loads the repository of the request. *)
Definition upSession (o : gitOps) (r : gitRequest) : list gitEvent * (string + gitError) :=
  repoLoader_load (g_repos o) (git_endpoint o r "/git-upload-pack").
Definition downSession (o : gitOps) (r : gitRequest) : list gitEvent * (string + gitError) :=
  repoLoader_load (g_repos o) (git_endpoint o r "/git-receive-pack").

(** [up]: a failed write of the result ends the handler, the headers come after
    the body. *)
Definition git_up (o : gitOps) (r : gitRequest) : list gitEvent :=
  let '(es, ok) := git_setup r in
  if negb ok then es
  else
    let '(es', s) := upSession o r in
    es ++ es' ++
    match s with
    | inr _ => e500
    | inl p =>
      if gq_gzip r && negb gzipOK then e500
      else if negb decodeOK then e500
      else if negb (packOK p) then e500
      else if negb encodeOK then []
      else [Body "upload-pack"] ++ setHeaders "git-upload-pack" ++ [Status 200]
    end.

(** [down]: without a session nothing is answered. *)
Definition git_down (o : gitOps) (r : gitRequest) : list gitEvent :=
  let '(es, ok) := git_setup r in
  if negb ok then es
  else
    let '(es', s) := downSession o r in
    es ++ es' ++
    match s with
    | inr _ => []
    | inl p =>
      if gq_gzip r && negb gzipOK then e500
      else if negb decodeOK then e500
      else if negb (packOK p) then e500
      else if negb encodeOK then e500
      else [Body "receive-pack"] ++ setHeaders "git-receive-pack" ++ [Status 200]
    end.

(** ** Which repositories are touched *)

Definition touches (e : gitEvent) : option string :=
  match e with MkdirAll p | Mkdir p | PlainInit p | PlainOpen p => Some p | _ => None end.

Lemma loadLoop_touches allowed dir e ev p :
  ev ∈ fst (loadLoop allowed dir e) → touches ev = Some p → p ∈ JoinPath dir <$> allowed.
Proof.
  induction allowed as [|a rest IH]; simpl; [by intros ?%elem_of_nil|].
  destruct (String.eqb_spec (JoinPath dir a) e) as [<-|Hne]; [|set_solver].
  intros Hev Ht. apply elem_of_cons. left.
  repeat case_match; simpl in Hev; rewrite ?elem_of_cons, ?elem_of_nil in Hev; naive_solver.
Qed.

Lemma load_touches r ep ev p :
  ev ∈ fst (repoLoader_load r ep) → touches ev = Some p → p ∈ JoinPath (rl_dir r) <$> rl_allowed r.
Proof.
  unfold repoLoader_load. repeat case_match; simpl; try (by intros ?%elem_of_nil); apply loadLoop_touches.
Qed.

Lemma setup_touches r ev : ev ∈ fst (git_setup r) → touches ev = None.
Proof. unfold git_setup. case_match; simpl; rewrite ?elem_of_cons, ?elem_of_nil; naive_solver. Qed.

Definition confined (o : gitOps) (es : list gitEvent) : Prop :=
  ∀ ev p, ev ∈ es → touches ev = Some p → p ∈ JoinPath (rl_dir (g_repos o)) <$> rl_allowed (g_repos o).

Lemma confined_app o es1 es2 : confined o es1 → confined o es2 → confined o (es1 ++ es2).
Proof. intros H1 H2 ev p Hin. apply elem_of_app in Hin as [?|?]; eauto. Qed.

Lemma confined_quiet o es : Forall (λ ev, touches ev = None) es → confined o es.
Proof. intros H ev p Hin Ht. rewrite Forall_forall in H. by rewrite H in Ht. Qed.

Lemma confined_load o ep : confined o (fst (repoLoader_load (g_repos o) ep)).
Proof. intros ev p. apply load_touches. Qed.

Lemma confined_setup o r : confined o (fst (git_setup r)).
Proof. intros ev p Hin Ht. apply setup_touches in Hin. congruence. Qed.

Lemma confined_advertise o ep : confined o (advertise o ep).
Proof.
  unfold advertise. pose proof (confined_load o ep) as H. destruct (repoLoader_load (g_repos o) ep) as [es [p|e]]; [|done].
  apply confined_app; [done|]. apply confined_quiet. case_match; by repeat constructor.
Qed.

Ltac quiet := apply confined_quiet; repeat case_match; by repeat constructor.

Lemma confined_refs o r : confined o (git_refs o r).
Proof.
  unfold git_refs. pose proof (confined_setup o r) as Hs. destruct (git_setup r) as [es []]; cbn [fst snd negb] in *; [|done].
  repeat apply confined_app; [done|quiet|]. case_match; [|quiet].
  repeat apply confined_app; [quiet|quiet|apply confined_advertise].
Qed.

Lemma confined_up o r : confined o (git_up o r).
Proof.
  unfold git_up, upSession. pose proof (confined_setup o r) as Hs. destruct (git_setup r) as [es []]; cbn [fst snd negb] in *; [|done].
  pose proof (confined_load o (git_endpoint o r "/git-upload-pack")) as Hl.
  destruct (repoLoader_load _ _) as [es' s]. repeat apply confined_app; [done|done|quiet].
Qed.

Lemma confined_down o r : confined o (git_down o r).
Proof.
  unfold git_down, downSession. pose proof (confined_setup o r) as Hs. destruct (git_setup r) as [es []]; cbn [fst snd negb] in *; [|done].
  pose proof (confined_load o (git_endpoint o r "/git-receive-pack")) as Hl.
  destruct (repoLoader_load _ _) as [es' s]. repeat apply confined_app; [done|done|quiet].
Qed.

Lemma init_repos opts es o :
  gitOps_init opts = (es, Some o) → g_repos o = mkLoader ["vince"; "project"; "project.git"] (go_dir opts) None.
Proof. unfold gitOps_init, repoLoader_init. repeat case_match; naive_solver. Qed.

(** C37: Repositories stay in their directory.  Whatever path a request names and
    whatever it carries, the handlers open or make no repository but those of
    the three names in the configured directory. *)
Theorem git_paths_confined opts es o r ev p :
  gitOps_init opts = (es, Some o) →
  ev ∈ git_refs o r ++ git_up o r ++ git_down o r → touches ev = Some p →
  p ∈ JoinPath (go_dir opts) <$> ["vince"; "project"; "project.git"].
Proof.
  intros Hi Hin Ht. apply init_repos in Hi.
  assert (H : confined o (git_refs o r ++ git_up o r ++ git_down o r))
    by auto using confined_app, confined_refs, confined_up, confined_down.
  specialize (H ev p Hin Ht). by rewrite Hi in H.
Qed.

(** No credentials are needed.  Asking for authentication in the options
    changes nothing: a request answers as it does under any other name and
    password, as long as its Authorization header is not empty. *)
Theorem git_auth_ignored opts es o r1 r2 :
  gitOps_init opts = (es, Some o) →
  gq_path r1 = gq_path r2 → gq_service r1 = gq_service r2 → gq_gzip r1 = gq_gzip r2 →
  rq_auth (gq_request r1) ≠ ""%string → rq_auth (gq_request r2) ≠ ""%string →
  git_refs o r1 = git_refs o r2 ∧ git_up o r1 = git_up o r2 ∧ git_down o r1 = git_down o r2.
Proof.
  intros Hi%init_repos Hp Hs Hz H1 H2.
  assert (Hl : ∀ sv, repoLoader_load (g_repos o) (git_endpoint o r1 sv) = repoLoader_load (g_repos o) (git_endpoint o r2 sv)).
  { intros sv. rewrite Hi. unfold repoLoader_load, git_endpoint. rewrite Hp. by repeat case_match. }
  unfold git_refs, git_up, git_down, upSession, downSession, advertise, git_setup.
  rewrite <-String.eqb_neq in H1, H2. by rewrite H1, H2, !Hl, Hs, Hz.
Qed.
End Git.

(** ** Witnesses *)

Section Witnesses.
#[local] Instance freshDisk : GitEnv := {|
  notExist := λ _, true; mkdirAllOK := λ _, true; mkdirOK := λ _, true; initOK := λ _, true; openOK := λ _, true;
  gzipOK := true; decodeOK := true; packOK := λ _, true; advertiseOK := true; encodeOK := true |}.

Definition bareRequest (auth : string) : gitRequest :=
  mkGitRequest "/git/project/git-upload-pack" "" false (mkOauthRequest "POST" ∅ false auth).

Lemma git_paths_confined_witness :
  PlainInit "/srv/project" ∈ git_up (mkGitOps (mkGitOpts "/srv" true) (mkLoader ["vince"; "project"; "project.git"] "/srv" None)) (bareRequest "Basic eDp5")
  ∧ "/srv/project" ∈ JoinPath "/srv" <$> ["vince"; "project"; "project.git"].
Proof.
  assert (Hin : PlainInit "/srv/project" ∈ git_up (mkGitOps (mkGitOpts "/srv" true)
    (mkLoader ["vince"; "project"; "project.git"] "/srv" None)) (bareRequest "Basic eDp5")).
  { vm_compute. right. left. }
  split; [exact Hin|].
  apply (git_paths_confined (mkGitOpts "/srv" true) [MkdirAll "/srv"]
    (mkGitOps (mkGitOpts "/srv" true) (mkLoader ["vince"; "project"; "project.git"] "/srv" None))
    (bareRequest "Basic eDp5") (PlainInit "/srv/project")); [reflexivity| |reflexivity].
  apply elem_of_app; right. apply elem_of_app; left. exact Hin.
Defined.

Lemma git_auth_ignored_witness :
  git_up (mkGitOps (mkGitOpts "/srv" true) (mkLoader ["vince"; "project"; "project.git"] "/srv" None)) (bareRequest "Basic eDp5")
  = git_up (mkGitOps (mkGitOpts "/srv" true) (mkLoader ["vince"; "project"; "project.git"] "/srv" None)) (bareRequest "x").
Proof.
  apply (git_auth_ignored (mkGitOpts "/srv" true) [MkdirAll "/srv"]
    (mkGitOps (mkGitOpts "/srv" true) (mkLoader ["vince"; "project"; "project.git"] "/srv" None))
    (bareRequest "Basic eDp5") (bareRequest "x")); [reflexivity|reflexivity|reflexivity|reflexivity|discriminate|discriminate].
Defined.
End Witnesses.
