(* ===== verification/HttpCore.v ===== *)
(** * The rest of the HTTP core (src/ngx_http_core.go)

    The TLS configuration that the ssl options give, the cache of client
    sessions, the default port, and the options of [httpCoreConfig]. *)

From S2P Require Import Prelude GoStrings GoNet Values Stmt Routing RoutingFacts Listen.

#[local] Open Scope Z_scope.

(** ** TLS *)

(** What [tls.LoadX509KeyPair] accepts, and the files that can be read. *)
Class TLSEnv := { keyPairLoads : string → string → bool; ReadFile : string → option (list Z) }.

(** The fields of [tls.Config] that the code sets. *)
Record tlsConfig := mkTLSConfig {
  Certificates : list (string * string);
  CipherSuites : list Z;
  PreferServerCipherSuites : bool;
  SessionTicketsDisabled : bool;
  SessionTicketKeys : list (list Z);
  ClientSessionCache : bool;
  NextProtos : list string;
}.

(** [copy] into an array of 32 bytes. *)
Definition copy32 (b : list Z) : list Z := take 32 (b ++ replicate 32 0).

Section TLS.
Context `{TE : TLSEnv}.

(** [sslOptions.config]: [None] for an error. *)
Definition sslOptions_config (ss : sslOptions) : option tlsConfig :=
  if negb (keyPairLoads (value (certificate ss)) (value (certificateKey ss))) then None
  else
    keys ← (if set (sessionTicketKey ss)
            then b ← ReadFile (value (sessionTicketKey ss)); Some [copy32 b]
            else Some []);
    Some (mkTLSConfig
      [(value (certificate ss), value (certificateKey ss))]
      (if set (ciphers ss) then (λ f, default 0 (standardCipherSuits !! f)) <$> value (ciphers ss) else [])
      (set (preferServerCiphers ss) && value (preferServerCiphers ss))
      (set (sessionTickets ss) && negb (value (sessionTickets ss)))
      keys
      (set (sessionCache ss))
      (if set (protocols ss) then value (protocols ss) else [])).
End TLS.

(** [tlsClientCache]: the sessions by key, shared by all configurations. *)
Definition tlsCache_Get {A} (key : string) (cache : gmap string A) : option A := cache !! key.
Definition tlsCache_Put {A} (key : string) (cs : A) (cache : gmap string A) : gmap string A := <[key := cs]> cache.

(** ** Which suites are configured *)

(** Every name is one that the table knows. *)
Definition ciphersKnown (ss : sslOptions) : Prop := Forall (λ f, is_Some (standardCipherSuits !! f)) (value (ciphers ss)).

#[local] Opaque standardCipherSuits.

Section Suites.
Context `{E : Env} `{TE : TLSEnv}.

Lemma standardCiphers_known cs :
  Forall (λ f, is_Some (standardCipherSuits !! f)) (cipher_String <$> standardCiphers cs).
Proof.
  unfold standardCiphers. apply Forall_fmap, Forall_forall. intros c Hc.
  by apply list_elem_of_filter in Hc as [Hc _].
Qed.

Lemma load_ciphersKnown r ss ss' : sslOptions_load r ss = Ok (Some ss') → ciphersKnown ss → ciphersKnown ss'.
Proof.
  destruct r as [nm args kids]. intros H Hk. unfold sslOptions_load in H. cbn [rule_name rule_args] in H.
  load_cases H; unfold fileCase, onOffCase, withArg in H; destruct args as [|a args]; load_result H; try exact Hk.
  unfold ciphersKnown in *. simpl. apply Forall_app. split; [exact Hk|apply standardCiphers_known].
Qed.

Lemma sslLoop_ciphersKnown rules ss ss' : sslLoop rules ss = Ok ss' → ciphersKnown ss → ciphersKnown ss'.
Proof.
  revert ss. induction rules as [|b bs IH]; intros ss H Hk; simpl in H; [by injection H as <-|].
  apply bind_Ok_inv in H as ([ss1|] & H1 & H); [|by injection H as <-].
  eapply IH; [exact H|]. by eapply load_ciphersKnown.
Qed.

Lemma parseListen_ciphersKnown root path r port ls :
  parseListen root path r port = Ok ls → ciphersKnown (sslOpts ls).
Proof.
  unfold parseListen. intros H.
  set (ls0 := match rule_args r with [] => _ | a :: more => _ end) in H.
  assert (H0 : sslOpts ls0 = zeroSsl).
  { unfold ls0. destruct (rule_args r) as [|a more]; [done|]. destruct (listenAddr a port).
    by rewrite listenFlags_sslOpts. }
  assert (Hz : ciphersKnown zeroSsl) by apply Forall_nil_2.
  destruct (ssl ls0); [|injection H as <-; by rewrite H0].
  apply bind_Ok_inv in H as ([p1 r1] & _ & H). apply bind_Ok_inv in H as ([p2 r2] & _ & H).
  apply bind_Ok_inv in H as (so1 & L1 & H). apply bind_Ok_inv in H as (so2 & L2 & H). injection H as <-. simpl.
  rewrite H0 in L1. eapply sslLoop_ciphersKnown; [exact L2|]. by eapply sslLoop_ciphersKnown.
Qed.

(** The suites of a listener.  Whatever ciphers the configuration names, the
    suites of an ssl listener are suites of the standard table: a name that the
    table does not have is left out, and never ends up as the suite zero. *)
Theorem listener_suites root path r port ls c :
  parseListen root path r port = Ok ls → sslOptions_config (sslOpts ls) = Some c →
  Forall (λ id, ∃ f, standardCipherSuits !! f = Some id) (CipherSuites c) ∧
  Certificates c = [(value (certificate (sslOpts ls)), value (certificateKey (sslOpts ls)))].
Proof.
  intros Hl Hc. apply parseListen_ciphersKnown in Hl. unfold sslOptions_config in Hc.
  destruct (negb _); [done|]. apply bind_Some in Hc as (keys & _ & [= <-]). simpl. split; [|done].
  destruct (set (ciphers (sslOpts ls))); [|constructor]. apply Forall_fmap.
  eapply Forall_impl; [exact Hl|]. intros f [id Hf]. exists f. by rewrite Hf.
Qed.
End Suites.

#[local] Transparent standardCipherSuits.

(** ** The default port *)

(** [defaultPort]: [port] is what the variable [ngxPort] holds, [free] says which
    ports can be bound. *)
Definition ngxDefaultPort (free : Z → bool) (port : option Z) : res Z * option Z :=
  match port with
  | Some p => (Ok p, port)
  | None =>
    if free 80 then (Ok 80, Some 80)
    else if free 8000 then (Ok 8000, Some 8000)
    else (Panic ExplicitPanic, None)
  end.

(** ** The options of the core *)

Record httpCoreConfig := mkCoreConfig {
  cc_root : stringValue; cc_alias : stringValue;
  body_bufferSize : intValue; body_timeout : durationValue; body_maxSize : intValue;
}.

Definition noCoreConfig : httpCoreConfig :=
  mkCoreConfig (mkValue false "") (mkValue false "") (mkValue false 0) (mkValue false 0) (mkValue false 0).

Definition set_cc_root (v : string) (c : httpCoreConfig) : httpCoreConfig :=
  mkCoreConfig (value_store v (cc_root c)) (cc_alias c) (body_bufferSize c) (body_timeout c) (body_maxSize c).
Definition set_cc_alias (v : string) (c : httpCoreConfig) : httpCoreConfig :=
  mkCoreConfig (cc_root c) (value_store v (cc_alias c)) (body_bufferSize c) (body_timeout c) (body_maxSize c).
Definition set_bufferSize (v : Z) (c : httpCoreConfig) : httpCoreConfig :=
  mkCoreConfig (cc_root c) (cc_alias c) (value_store v (body_bufferSize c)) (body_timeout c) (body_maxSize c).
Definition set_timeout (v : Z) (c : httpCoreConfig) : httpCoreConfig :=
  mkCoreConfig (cc_root c) (cc_alias c) (body_bufferSize c) (value_store v (body_timeout c)) (body_maxSize c).

Section Core.
Context `{E : Env}.

(** [httpCoreConfig.load]: [None] for an error.  The last case stores into the
    field of the buffer size. *)
Definition httpCoreConfig_load (r : rule) (c : httpCoreConfig) : res (option httpCoreConfig) :=
  let first := go_index (rule_args r) 0 in
  let named s := (rule_name r =? s)%string in
  if named "root" then a ← first; Ok (Some (set_cc_root a c))
  else if named "alias" then a ← first; Ok (Some (set_cc_alias a c))
  else if named "client_body_buffer_size" then
    a ← first; Ok (v ← ToBytes a; Some (set_bufferSize (toInt64 v) c))
  else if named "client_body_timeout" then
    a ← first; Ok (v ← ParseDuration a; Some (set_timeout v c))
  else if named "client_max_body_size" then
    a ← first; Ok (v ← ToBytes a; Some (set_bufferSize (toInt64 v) c))
  else Ok (Some c).

Fixpoint loadCore (rs : list rule) (c : httpCoreConfig) : res (option httpCoreConfig) :=
  match rs with
  | [] => Ok (Some c)
  | r :: rs =>
    o ← httpCoreConfig_load r c;
    match o with Some c => loadCore rs c | None => Ok None end
  end.

(** The size that a directive of one of the two names gives. *)
Definition sizeOf (r : rule) : option Z :=
  if (rule_name r =? "client_body_buffer_size")%string || (rule_name r =? "client_max_body_size")%string
  then a ← rule_args r !! 0%nat; v ← ToBytes a; Some (toInt64 v) else None.

Lemma load_sizes r c c' : httpCoreConfig_load r c = Ok (Some c') →
  body_maxSize c' = body_maxSize c ∧
  body_bufferSize c' = match sizeOf r with Some v => mkValue true v | None => body_bufferSize c end.
Proof.
  unfold httpCoreConfig_load, sizeOf, go_index. intros H.
  repeat match type of H with
  | (if (?n =? ?s)%string then _ else _) = _ =>
      let Eq := fresh "Eq" in
      destruct (n =? s)%string eqn:Eq; [apply String.eqb_eq in Eq; rewrite ?Eq|]
  end; try (destruct (rule_args r !! 0%nat) as [a|]; [|done]); simpl in *.
  all: try (destruct (ToBytes a)); try (destruct (ParseDuration a)); simpl in *; simplify_eq; try done.
Qed.

(** The sizes of the core.  The limit of a request body is never set; the
    directive for it writes the size of the buffer, which is that of the last of
    the two directives. *)
Theorem core_sizes rs c :
  loadCore rs noCoreConfig = Ok (Some c) →
  body_maxSize c = mkValue false 0 ∧
  body_bufferSize c = match last (omap sizeOf rs) with Some v => mkValue true v | None => mkValue false 0 end.
Proof.
  change (mkValue false 0) with (body_maxSize noCoreConfig) at 1.
  change (mkValue false 0) with (body_bufferSize noCoreConfig).
  generalize noCoreConfig. induction rs as [|r rs IH]; intros c0 H; simpl in H.
  - by injection H as <-.
  - apply bind_Ok_inv in H as ([c1|] & H1 & H); [|done]. apply load_sizes in H1 as [M1 B1].
    apply IH in H as [-> ->]. rewrite M1, B1. split; [done|]. simpl.
    destruct (sizeOf r) as [v|]; [|done]. simpl. rewrite last_cons. by destruct (last _).
Qed.
End Core.

(** ** The theorems at work *)

#[local] Instance smallEnv : Env := {|
  Listen.ToBytes s := if (s =? "1K")%string then Some 1024 else Some 2048; canOpen _ := true;
  Listen.ParseDuration _ := None; urlParse _ := None; opensslOutput _ := Some "AES128-SHA256:AES128-SHA" |}.
#[local] Instance allKeys : TLSEnv := {| keyPairLoads _ _ := true; ReadFile _ := None |}.

Definition secured : rule :=
  mkRule "http" [] [mkRule "server" [] [mkRule "listen" ["443"; "ssl"] []; mkRule "ssl_ciphers" ["ALL"] []]].
Definition securedListen : httpListenOpts :=
  match parseListen secured [0%nat; 0%nat] (mkRule "listen" ["443"; "ssl"] []) "80" with
  | Ok l => l | _ => mkListen "" "" false false false false false zeroSsl end.
Definition securedConfig : tlsConfig :=
  match sslOptions_config (sslOpts securedListen) with Some c => c | None => mkTLSConfig [] [] false false [] false [] end.

Lemma listener_suites_witness :
  CipherSuites securedConfig = [0x003c] ∧
  Forall (λ id, ∃ f, standardCipherSuits !! f = Some id) (CipherSuites securedConfig) ∧
  Certificates securedConfig = [("", "")].
Proof.
  split; [vm_compute; reflexivity|].
  apply (listener_suites secured [0%nat; 0%nat] (mkRule "listen" ["443"; "ssl"] []) "80" securedListen securedConfig);
    vm_compute; reflexivity.
Defined.

Definition twoSizes : list rule :=
  [mkRule "client_body_buffer_size" ["1K"] []; mkRule "client_max_body_size" ["2K"] []].

Lemma core_sizes_witness :
  loadCore twoSizes noCoreConfig = Ok (Some (set_bufferSize 2048 noCoreConfig)) ∧
  body_maxSize (set_bufferSize 2048 noCoreConfig) = mkValue false 0 ∧
  body_bufferSize (set_bufferSize 2048 noCoreConfig) =
    match last (omap sizeOf twoSizes) with Some v => mkValue true v | None => mkValue false 0 end.
Proof.
  split; [vm_compute; reflexivity|].
  apply (core_sizes twoSizes (set_bufferSize 2048 noCoreConfig)). vm_compute. reflexivity.
Defined.
