(* ===== verification/VinceConfig.v ===== *)
(** * The configuration of the program (src/vince_config.go, src/main.go)

    The configuration file that is used, the directories that are set up
    beneath it, and the databases.  The disk is a map from paths to what is
    there; whether the operating system grants an operation is the class
    [OsEnv], and whether a database opens and closes is the class [BadgerEnv]. *)

From S2P Require Import Prelude GoStrings Parse.

#[local] Open Scope Z_scope.

(** ** The disk *)

(** What [os.Stat] finds: a file, a directory, or an error that is not the
    absence of the file.  A path that is not in the map does not exist. *)
Inductive entry := AFile | ADirectory | Unreadable.
Abbreviation disk := (gmap string entry).

#[global] Instance entry_eq_dec : EqDecision entry.
Proof. solve_decision. Defined.

Class OsEnv := { mkdirGranted : string → bool }.

(** [filepath.Join] of any number of elements. *)
Fixpoint JoinPaths (elems : list string) : string :=
  match elems with
  | [] => ""
  | e :: es => if (e =? "")%string then JoinPaths es else Clean (Join elems "/")
  end.

(** ** Which configuration *)

Record vinceConfiguration := mkVinceConfiguration {
  vc_dir : string;
  dirs_metrics : string; dirs_auth : string; dirs_backups : string; dirs_vince : string;
  confFile : string;
  defaultPort : Z;
  management_enabled : bool; management_port : Z;
}.

(** The errors: those of the operating system and the ones of the source. *)
Inductive configError := EStat (path : string) | EMkdir (path : string)
  | ENotDirectory (path : string) | EFlagNotDirectory | EMissingFile.

#[global] Instance configError_eq_dec : EqDecision configError.
Proof. solve_decision. Defined.

(** As in the source, with the blanks. *)
Definition defaultWorkDirectories : list string :=
  ["/usr/local/vince"; " /etc/vince"; "/usr/local/etc/vince"].
Definition defaultConfigFiles : list string :=
  ["/usr/local/vince/conf/vince.conf"; " /etc/vince/conf/vince.conf"; "/usr/local/etc/vince/conf/vince.conf"].

(** [os.Stat] succeeds. *)
Definition statOK (d : disk) (p : string) : bool :=
  match d !! p with Some AFile | Some ADirectory => true | _ => false end.

Fixpoint firstConfig (d : disk) (files : list string) : option string :=
  match files with
  | [] => None
  | f :: fs => if statOK d f then Some f else firstConfig d fs
  end.

(** [getConfig]: [c] and [p] are the flags of the command line; a flag that was
    not given is the empty text and zero. *)
Definition getConfig (d : disk) (c : string) (p : Z) : vinceConfiguration + configError :=
  let conf dir file := mkVinceConfiguration dir "" "" "" "" file p true 9000 in
  if negb (c =? "")%string then
    match d !! c with
    | Some ADirectory => inl (conf c (JoinPaths [c; "conf"; "vince.conf"]))
    | Some AFile => inr EFlagNotDirectory
    | _ => inr (EStat c)
    end
  else
    match firstConfig d defaultConfigFiles with
    | Some f => inl (conf (Dir f) f)
    | None => inr EMissingFile
    end.

Section Setup.
Context `{OS : OsEnv}.

(** [checkDir]: a directory that is missing is made; an error of [os.Stat] other
    than its absence leaves [info] nil, and the next line dereferences it. *)
Definition checkDir (path : string) (d : disk) : res (option configError) * disk :=
  match d !! path with
  | None => if mkdirGranted path then (Ok None, <[path := ADirectory]> d) else (Ok (Some (EMkdir path)), d)
  | Some Unreadable => (Panic NilDereference, d)
  | Some AFile => (Ok (Some (ENotDirectory path)), d)
  | Some ADirectory => (Ok None, d)
  end.

Fixpoint checkDirs (dirs : list string) (d : disk) : res (option configError) * disk :=
  match dirs with
  | [] => (Ok None, d)
  | dir :: ds =>
    match checkDir dir d with
    | (Ok None, d) => checkDirs ds d
    | r => r
    end
  end.

(** [setup]: the directories, then their creation in the order of the source. *)
Definition withDirs (c : vinceConfiguration) : vinceConfiguration :=
  let sub n := JoinPath (vc_dir c) n in
  mkVinceConfiguration (vc_dir c) (sub "metrics") (sub "auth") (sub "backups") (sub "vince")
    (confFile c) (defaultPort c) (management_enabled c) (management_port c).

Definition setup (c : vinceConfiguration) (d : disk) : vinceConfiguration * (res (option configError) * disk) :=
  if negb (statOK d (vc_dir c)) then (c, (Ok (Some (EStat (vc_dir c))), d))
  else
    let c := withDirs c in
    (c, checkDirs [dirs_auth c; dirs_metrics c; dirs_backups c; dirs_vince c] d).

(** ** What the set-up leaves *)

Lemma checkDir_grows path d r d' : checkDir path d = (r, d') → d ⊆ d' ∧
  (r = Ok None → d' !! path = Some ADirectory).
Proof.
  unfold checkDir. destruct (d !! path) as [[]|] eqn:E; try (intros [= <- <-]; done).
  case_match; intros [= <- <-]; [|done]. split; [by apply insert_subseteq|]. intros _. apply lookup_insert_eq.
Qed.

Lemma checkDirs_grows dirs d r d' : checkDirs dirs d = (r, d') → d ⊆ d' ∧
  (r = Ok None → ∀ p, p ∈ dirs → d' !! p = Some ADirectory).
Proof.
  revert d. induction dirs as [|p ps IH]; intros d H; simpl in H.
  { injection H as <- <-. split; [done|]. set_solver. }
  destruct (checkDir p d) as [r1 d1] eqn:E. apply checkDir_grows in E as [Hd Hp].
  assert (Hstop : (r1, d1) = (r, d') → r ≠ Ok None → d ⊆ d' ∧ (r = Ok None → ∀ q, q ∈ p :: ps → d' !! q = Some ADirectory))
    by (intros [= <- <-]; done).
  destruct r1 as [[e|]| |]; try (apply Hstop; [done|by injection H as <- _]).
  apply IH in H as [Hd' Hps]. split; [by etrans|]. intros -> q [->|Hq]%elem_of_cons; [|by apply Hps].
  eapply lookup_weaken; [by apply Hp|done].
Qed.

(** The directories of the program.  A set-up that reports no error leaves
    the four directories in place, and it changes nothing that was on the disk
    before; one of them that is a file, or that the system refuses to make, is
    reported. *)
Theorem setup_makes_directories c d c' r d' :
  setup c d = (c', (r, d')) →
  d ⊆ d' ∧
  (r = Ok None → ∀ n, n ∈ ["auth"; "metrics"; "backups"; "vince"] → d' !! JoinPath (vc_dir c) n = Some ADirectory) ∧
  (∀ n, n ∈ ["auth"; "metrics"; "backups"; "vince"] → d !! JoinPath (vc_dir c) n = Some AFile → r ≠ Ok None).
Proof.
  unfold setup. destruct (negb _); [intros [= <- <- <-]; done|]. intros H. apply (f_equal snd) in H. cbn [snd] in H.
  apply checkDirs_grows in H as [Hd Hp]. split; [done|].
  assert (Hall : r = Ok None → ∀ n, n ∈ ["auth"; "metrics"; "backups"; "vince"] → d' !! JoinPath (vc_dir c) n = Some ADirectory).
  { intros Hr n Hn. apply Hp; [done|]. rewrite !elem_of_cons, elem_of_nil in Hn. simpl.
    rewrite !elem_of_cons. destruct Hn as [->|[->|[->|[->|[]]]]]; auto. }
  split; [done|]. intros n Hn Hf Hr. specialize (Hall Hr n Hn).
  apply (lookup_weaken _ _ _ _ Hf) in Hd. congruence.
Qed.
End Setup.

(** ** The databases *)

Class BadgerEnv := { badgerOpens : string → bool; badgerCloseErr : string → option string }.

(** A database is a number; the open ones come with their directory. *)
Record dbState := mkDbState { db_open : list (nat * string); db_next : nat }.

Record vinceDatabases := mkDatabases {
  raft_stable : option nat; raft_logs : option nat; raft_snap : option nat;
  db_kv : option nat; db_config : option nat; db_auth : option nat;
}.

Definition noDatabases : vinceDatabases := mkDatabases None None None None None None.

Section Databases.
Context `{BE : BadgerEnv}.

(** [open]: [None] for an error. *)
Definition db_openAt (dirs : list string) (s : dbState) : option nat * dbState :=
  let dir := JoinPaths dirs in
  if badgerOpens dir then (Some (db_next s), mkDbState (db_open s ++ [(db_next s, dir)]) (S (db_next s)))
  else (None, s).

(** The fields. *)
Definition set_raft_stable (h : option nat) (db : vinceDatabases) : vinceDatabases :=
  mkDatabases h (raft_logs db) (raft_snap db) (db_kv db) (db_config db) (db_auth db).
Definition set_raft_logs (h : option nat) (db : vinceDatabases) : vinceDatabases :=
  mkDatabases (raft_stable db) h (raft_snap db) (db_kv db) (db_config db) (db_auth db).
Definition set_db_kv (h : option nat) (db : vinceDatabases) : vinceDatabases :=
  mkDatabases (raft_stable db) (raft_logs db) (raft_snap db) h (db_config db) (db_auth db).
Definition set_db_config (h : option nat) (db : vinceDatabases) : vinceDatabases :=
  mkDatabases (raft_stable db) (raft_logs db) (raft_snap db) (db_kv db) h (db_auth db).
Definition set_db_auth (h : option nat) (db : vinceDatabases) : vinceDatabases :=
  mkDatabases (raft_stable db) (raft_logs db) (raft_snap db) (db_kv db) (db_config db) h.

(** One assignment of [init] and the test of its error: the field is assigned
    whether the database opened or not. *)
Definition openInto (dirs : list string) (field : option nat → vinceDatabases → vinceDatabases)
    (next : vinceDatabases → dbState → bool * vinceDatabases * dbState)
    (db : vinceDatabases) (s : dbState) : bool * vinceDatabases * dbState :=
  match db_openAt dirs s with
  | (Some h, s) => next (field (Some h) db) s
  | (None, s) => (false, field None db, s)
  end.

(** [init]: the third database is assigned to the field of the second. *)
Definition databases_init (dir : string) : vinceDatabases → dbState → bool * vinceDatabases * dbState :=
  openInto [dir; "raft"; "stable"] set_raft_stable (
  openInto [dir; "raft"; "logs"] set_raft_logs (
  openInto [dir; "raft"; "snaps"] set_raft_logs (
  openInto [dir; "kv"] set_db_kv (
  openInto [dir; "config"] set_db_config (
  openInto [dir; "auth"] set_db_auth (λ db s, (true, db, s))))))).

Definition closeHandle (n : nat) (l : list (nat * string)) : list (nat * string) :=
  List.filter (λ x, negb (Nat.eqb (fst x) n)) l.

(** One of the blocks of [Close]. *)
Definition db_close (h : option nat) (acc : list string * dbState) : list string * dbState :=
  match h with
  | None => acc
  | Some n =>
    let '(errs, s) := acc in
    (errs ++ match List.find (λ x, Nat.eqb (fst x) n) (db_open s) with
             | Some (_, dir) => match badgerCloseErr dir with Some e => [e] | None => [] end
             | None => []
             end,
     mkDbState (closeHandle n (db_open s)) (db_next s))
  end.

Definition databases_Close (db : vinceDatabases) (s : dbState) : option string * dbState :=
  let '(errs, s) := foldl (λ acc h, db_close h acc) ([], s)
    [raft_stable db; raft_logs db; raft_snap db; db_kv db; db_config db; db_auth db] in
  (match errs with [] => None | _ => Some ("vince: error trying to close databases " +:+ Join errs ",") end, s).

Lemma databases_Close_open db s : db_open (snd (databases_Close db s)) =
  foldl (λ m h, match h with Some n => closeHandle n m | None => m end) (db_open s)
    [raft_stable db; raft_logs db; raft_snap db; db_kv db; db_config db; db_auth db].
Proof.
  assert (H : ∀ l errs s, db_open (snd (foldl (λ acc h, db_close h acc) (errs, s) l)) =
    foldl (λ m h, match h with Some n => closeHandle n m | None => m end) (db_open s) l).
  { induction l as [|[n|] l IH]; intros errs' s'; [done| |]; simpl; by rewrite IH. }
  unfold databases_Close. rewrite <- (H _ []). by destruct (foldl _ _ _).
Qed.

(** What is open once some of the databases were opened and closed. *)
Ltac left_open :=
  intros [= <- <- <-]; rewrite databases_Close_open; split; [first [by left|by right]|by intros [=]].

(** The databases that are closed.  Whichever databases open, closing them
    all leaves open at most the one of the raft log, whose handle the database of
    the snapshots has replaced; when all of them opened it is that one exactly. *)
Theorem databases_leak dir ok db s e s' :
  databases_init dir noDatabases (mkDbState [] 0) = (ok, db, s) → databases_Close db s = (e, s') →
  (db_open s' = [] ∨ db_open s' = [(1%nat, JoinPaths [dir; "raft"; "logs"])]) ∧
  (ok = true → db_open s' = [(1%nat, JoinPaths [dir; "raft"; "logs"])]).
Proof.
  intros Hi Hc. apply (f_equal snd) in Hc. cbn [snd] in Hc. subst s'. revert Hi. unfold databases_init, noDatabases.
  do 6 (unfold openInto at 1, db_openAt; cbn [db_next db_open];
        match goal with |- context [badgerOpens ?d] => destruct (badgerOpens d) end; [|by left_open]).
  by left_open.
Qed.
End Databases.

(** ** The theorems at work *)

Definition freshConfig : vinceConfiguration :=
  mkVinceConfiguration "/srv" "" "" "" "" "/srv/conf/vince.conf" 0 true 9000.

Lemma setup_makes_directories_witness :
  let d' := (snd (snd (setup (OS := {| mkdirGranted _ := true |}) freshConfig {[ "/srv" := ADirectory ]}))) in
  d' !! "/srv/auth" = Some ADirectory ∧ d' !! "/srv" = Some ADirectory.
Proof.
  destruct (setup_makes_directories (OS := {| mkdirGranted _ := true |}) freshConfig {[ "/srv" := ADirectory ]}
    (withDirs freshConfig) (Ok None)
    (snd (snd (setup (OS := {| mkdirGranted _ := true |}) freshConfig {[ "/srv" := ADirectory ]})))) as (_ & H & _).
  { vm_compute. reflexivity. }
  split; [|vm_compute; reflexivity]. apply (H eq_refl "auth"). apply elem_of_cons. left. reflexivity.
Defined.

#[local] Instance allOpen : BadgerEnv := {| badgerOpens _ := true; badgerCloseErr _ := None |}.

Lemma databases_leak_witness :
  db_open (snd (databases_Close (mkDatabases (Some 0%nat) (Some 2%nat) None (Some 3%nat) (Some 4%nat) (Some 5%nat))
    (snd (databases_init "/srv" noDatabases (mkDbState [] 0))))) = [(1%nat, "/srv/raft/logs")].
Proof.
  apply (databases_leak "/srv" true
    (mkDatabases (Some 0%nat) (Some 2%nat) None (Some 3%nat) (Some 4%nat) (Some 5%nat))
    (snd (databases_init "/srv" noDatabases (mkDbState [] 0))) None
    (snd (databases_Close (mkDatabases (Some 0%nat) (Some 2%nat) None (Some 3%nat) (Some 4%nat) (Some 5%nat))
      (snd (databases_init "/srv" noDatabases (mkDbState [] 0)))))); vm_compute; reflexivity.
Defined.
