(* ===== verification/Startup.v ===== *)
(** * Starting and stopping (src/ngx_startup.go)

    [startEverything] parses the configuration, listens on the addresses, makes
    a server for each, starts them and waits for signals; [shutdown] runs at its
    end.  The state is that of the context of the program: the maps of
    listeners and servers, the records of the connections, which addresses are
    bound, which servers run and which connections are open.  An address is bound
    by one listener at a time.  A connection is accepted and gets its record in one
    step, and none is accepted while [shutdown] runs. *)

From S2P Require Import Prelude GoStrings FileCache GoNet Values Lexer Directives Stmt Analyze Parse Routing RoutingFacts Servers Access ConnManager Listen Serve HttpCore GitOps VinceConfig.

#[local] Open Scope Z_scope.

(** What the operating system and net/http do: listening on an address that is
    free, the errors of closing, and the connections that [http.Server.Shutdown]
    closes before it returns. *)
Class NetEnv := {
  canListen : string → string → bool;
  closeErr : string → option string;
  shutdownErr : string → option string;
  drained : string → list conn;
  connCloseErr : conn → option string;
}.

(** ** The state *)

Section Start.
Context `{R : Regexp}.

(** The handler of a server: the pages of the management, or the servers of an
    address with their matcher. *)
Inductive serverHandler := Management (git : gitOps)
  | Vince (rules : list (list nat * rule)) (hm : handlerMatch).

(** [serverCtx.http] and the world around it.  A listener is the address it is
    bound to, or nil. *)
Record startState := mkStart {
  maps : addressMaps;
  listeners : gmap string (option string);
  servers : gmap string serverHandler;
  connMgr : connManager;
  bound : gset string;
  running : gset string;
  fileCache : option readWriterCloserCache;
  openConns : gset conn;
}.

(** [serverCtx.init]: empty maps, no connections, and the file cache with its
    default options. *)
Definition zeroCacheOption : readWriterCloserCacheOption :=
  mkCacheOption (mkValue false false) (mkValue false 0) (mkValue false 0) (mkValue false 0) (mkValue false 0).
Definition startInit : startState :=
  mkStart (mkMaps ∅ ∅) ∅ ∅ connManager_init ∅ ∅ (cache_init (cacheOption_defaults zeroCacheOption)) ∅.

Definition set_maps (m : addressMaps) (s : startState) : startState :=
  mkStart m (listeners s) (servers s) (connMgr s) (bound s) (running s) (fileCache s) (openConns s).
Definition set_listener (a : string) (l : option string) (s : startState) : startState :=
  mkStart (maps s) (<[a := l]> (listeners s)) (servers s) (connMgr s) (bound s) (running s) (fileCache s) (openConns s).
Definition set_server (a : string) (h : serverHandler) (s : startState) : startState :=
  mkStart (maps s) (listeners s) (<[a := h]> (servers s)) (connMgr s) (bound s) (running s) (fileCache s) (openConns s).
Definition set_connMgr (m : connManager) (s : startState) : startState :=
  mkStart (maps s) (listeners s) (servers s) m (bound s) (running s) (fileCache s) (openConns s).
Definition set_bound (b : gset string) (s : startState) : startState :=
  mkStart (maps s) (listeners s) (servers s) (connMgr s) b (running s) (fileCache s) (openConns s).
Definition set_running (r : gset string) (s : startState) : startState :=
  mkStart (maps s) (listeners s) (servers s) (connMgr s) (bound s) r (fileCache s) (openConns s).
Definition set_openConns (cs : gset conn) (s : startState) : startState :=
  mkStart (maps s) (listeners s) (servers s) (connMgr s) (bound s) (running s) (fileCache s) cs.

(** Code that may panic; the state at a panic is what the deferred call sees. *)
Definition SM (A : Type) : Type := startState → res A * startState.

#[local] Instance SM_ret : MRet SM := λ A a s, (Ok a, s).
#[local] Instance SM_bind : MBind SM := λ A B f m s,
  match m s with
  | (Ok a, s) => f a s
  | (Panic p, s) => (Panic p, s)
  | (OutOfFuel, s) => (OutOfFuel, s)
  end.
Definition lift {A} (m : res A) : SM A := λ s, (m, s).
Definition get {A} (f : startState → A) : SM A := λ s, (Ok (f s), s).
Definition put (f : startState → startState) : SM unit := λ s, (Ok tt, f s).

Inductive startError := EParse | EListen (addr : string) | ECertificate (addr : string)
  | EExiting | EShutdown (errs : list string) | EContext.

Context `{E : Env} `{TE : TLSEnv} `{NE : NetEnv} `{GE : GitEnv} `{U : Unicode} `{F : Fmt} `{FS : FileSystem}.

(** [net.Listen] and [tls.Listen]: [None] for an error. *)
Definition listen (network addr : string) : SM (option string) := λ s,
  if canListen network addr && negb (bool_decide (addr ∈ bound s))
  then (Ok (Some addr), set_bound ({[ addr ]} ∪ bound s) s)
  else (Ok None, s).

(** ** process *)

(** [srvCtx.http.address[k]]: the zero value for a missing key. *)
Definition addressOf (m : addressMaps) (k : string) : httpListenOpts :=
  match address m !! k with
  | Some opts => opts
  | None => mkListen "" "" false false false false false zeroSsl
  end.

(** The loop that listens.  In the branch for ssl the error of [tls.Listen] is
    assigned to a variable of that block, so that the test behind it sees no
    error and a nil listener is stored. *)
Fixpoint listenAll (order : list string) : SM (option startError) :=
  match order with
  | [] => mret None
  | k :: ks =>
    m ← get maps;
    let opts := addressOf m k in
    if ssl opts then
      match sslOptions_config (sslOpts opts) with
      | None => mret (Some (ECertificate (addrPort opts)))
      | Some c =>
        l ← listen (lnet opts) (addrPort opts);
        _ ← put (set_listener (addrPort opts) l);
        listenAll ks
      end
    else
      l ← listen (lnet opts) (addrPort opts);
      match l with
      | None => mret (Some (EListen (addrPort opts)))
      | Some _ => _ ← put (set_listener (addrPort opts) l); listenAll ks
      end
  end.

(** [createHTTPServer] with [vinceHandler]: the matcher is set up at once. *)
Definition createVince (rules : list (list nat * rule)) : SM serverHandler :=
  hm ← lift (vinceHandler rules);
  mret (Vince rules hm).

Fixpoint createAll (order : list string) : SM unit :=
  match order with
  | [] => mret tt
  | k :: ks =>
    m ← get maps;
    let opts := addressOf m k in
    srv ← createVince (default [] (serverRules m !! k));
    _ ← put (set_server (addrPort opts) srv);
    createAll ks
  end.

(** The loop that starts the servers prints the address of each listener. *)
Fixpoint startAll (order : list string) : SM unit :=
  match order with
  | [] => mret tt
  | k :: ks =>
    ls ← get listeners;
    match ls !! k with
    | Some (Some addr) => _ ← put (λ s, set_running ({[ k ]} ∪ running s) s); startAll ks
    | _ => lift (Panic NilDereference)
    end
  end.

(** The orders in which a run walks the maps. *)
Record mapOrders := mkOrders {
  listenOrder : list string; createOrder : list string; startOrder : list string;
}.

(** [process]. *)
Definition processAll (core : rule) (port : Z) (o : mapOrders) : SM (option startError) :=
  m ← lift (process core port);
  _ ← put (set_maps m);
  e ← listenAll (listenOrder o);
  match e with
  | Some e => mret (Some e)
  | None =>
    _ ← createAll (createOrder o);
    _ ← startAll (startOrder o);
    mret None
  end.

(** ** Connections *)

(** [Serve] accepts a connection, and calls [ConnContext]. *)
Definition acceptConn (a : string) (c : conn) (s : startState) : startState :=
  if decide (a ∈ running s ∧ a ∈ bound s ∧ c ∉ openConns s)
  then set_openConns ({[ c ]} ∪ openConns s) (set_connMgr (snd (connContext c (connMgr s))) s)
  else s.

(** The server reports the state of a connection; one that it reports as closed is
    closed. *)
Definition reportConn (c : conn) (st : ConnState) (s : startState) : startState :=
  let s := set_connMgr (manageConnState c st (connMgr s)) s in
  if decide (st = StateClosed) then set_openConns (openConns s ∖ {[ c ]}) s else s.

(** A hijacked connection is closed by its user, who may tell the manager. *)
Definition dropConn (c : conn) (told : bool) (s : startState) : startState :=
  set_openConns (openConns s ∖ {[ c ]}) (if told then set_connMgr (CloseConn c (connMgr s)) s else s).

(** ** shutdown *)

(** [http.Server.Shutdown] closes the listener that the server has been given, and
    connections as they become idle. *)
Definition shutdownServer (a : string) (s : startState) : startState :=
  if decide (a ∈ running s)
  then foldl (λ s c, reportConn c StateClosed s)
         (set_running (running s ∖ {[ a ]}) (set_bound (bound s ∖ {[ a ]}) s)) (drained a)
  else s.

Definition shutdownServers (addrs : list string) (s : startState) : list string * startState :=
  foldl (λ '(errs, s) a, (errs ++ option_list (shutdownErr a), shutdownServer a s)) ([], s) addrs.

(** [l.Close()]: an error when the address is not bound any more, a panic for a
    nil listener. *)
Fixpoint closeListeners (ls : list (string * option string)) (errs : list string) : SM (list string) :=
  match ls with
  | [] => mret errs
  | (_, None) :: _ => lift (Panic NilDereference)
  | (_, Some a) :: ls => λ s,
    let e := if decide (a ∈ bound s) then match closeErr a with Some e => [e] | None => [] end
             else ["use of closed network connection"] in
    closeListeners ls (errs ++ e) (set_bound (bound s ∖ {[ a ]}) s)
  end.

(** [connManager.Close] and the connections it closes; closing a connection again
    is an error. *)
Definition closeConns (s : startState) : option string * startState :=
  let closeConn c := if decide (c ∈ openConns s) then connCloseErr c else Some "use of closed network connection" in
  let '(m, e) := connManager_Close closeConn (connMgr s) in
  (e, set_openConns (openConns s ∖ dom (conns (connMgr s))) (set_connMgr m s)).

(** [serverCtx.shutdown]. *)
Definition shutdown : SM (option startError) := λ s,
  let '(errs, s) := shutdownServers (map_to_list (servers s)).*1 s in
  match closeListeners (map_to_list (listeners s)) errs s with
  | (Ok errs, s) =>
    let '(e, s) := closeConns s in
    let errs := errs ++ option_list e in
    (Ok (match errs with [] => None | _ => Some (EShutdown errs) end), s)
  | (Panic p, s) => (Panic p, s)
  | (OutOfFuel, s) => (OutOfFuel, s)
  end.

(** ** startEverything *)

Inductive signal := SIGTERM | SIGINT | SIGABRT | SIGHUP | SIGQUIT | SIGUSR1 | SIGUSR2 | SIGWINCH | ContextDone.

(** What happens while the program waits: a signal, or something with a
    connection. *)
Inductive runEvent :=
| Sig (sig : signal)
| Accept (addr : string) (c : conn)
| Report (c : conn) (st : ConnState)
| Drop (c : conn) (told : bool).

(** The loop over the signals: [None] while it waits for the next one. *)
Fixpoint signalLoop (events : list runEvent) : SM (option (option startError)) :=
  match events with
  | [] => mret None
  | Sig ContextDone :: _ => mret (Some (Some EContext))
  | Sig SIGTERM :: _ | Sig SIGINT :: _ | Sig SIGABRT :: _ => mret (Some (Some EExiting))
  | Sig SIGQUIT :: _ => e ← shutdown; mret (Some e)
  | Sig _ :: rest => signalLoop rest
  | Accept a c :: rest => _ ← put (acceptConn a c); signalLoop rest
  | Report c st :: rest => _ ← put (reportConn c st); signalLoop rest
  | Drop c told :: rest => _ ← put (dropConn c told); signalLoop rest
  end.

(** The server of the management pages. *)
Definition startManagement (c : vinceConfiguration) : SM (option startError) :=
  let addr := ":" +:+ Itoa (management_port c) in
  l ← listen "tcp" addr;
  match l with
  | None => mret (Some (EListen addr))
  | Some _ =>
    _ ← put (set_listener addr l);
    match gitOps_init (mkGitOpts (JoinPath (vc_dir c) "configs") false) with
    | (_, None) => lift (Panic ExplicitPanic)
    | (_, Some git) => _ ← put (set_server addr (Management git)); mret None
    end
  end.

(** The body behind the deferred call. *)
Definition startBody (c : vinceConfiguration) (core : rule) (o : mapOrders) (events : list runEvent)
    : SM (option (option startError)) :=
  e ← (if management_enabled c then startManagement c else mret None);
  match e with
  | Some e => mret (Some (Some e))
  | None =>
    e ← processAll core (VinceConfig.defaultPort c) o;
    match e with
    | Some e => mret (Some (Some e))
    | None => signalLoop events
    end
  end.

(** How a run stands: it waits for signals, it has returned, or it has ended in
    a panic. *)
Inductive startOutcome := Waiting | Ended (e : option startError) | Crashed (p : go_panic) | NoFuel.

(** The deferred call of [shutdown], at a return and at a panic. *)
Definition deferShutdown (out : startOutcome) (s : startState) : startOutcome * startState :=
  match shutdown s with
  | (Ok _, s) => (out, s)
  | (Panic p, s) => (Crashed p, s)
  | (OutOfFuel, s) => (NoFuel, s)
  end.

(** The tree of the configuration that [parse] gives. *)
Definition coreRule (parsed : list Stmt) : rule := ruleFromStmt (mkStmt "main" "" 0 [] "" [] (Some parsed)).

(** The function from the parsed configuration on. *)
Definition startParsed (p : payload) (c : vinceConfiguration) (o : mapOrders) (events : list runEvent)
    : startOutcome * startState :=
  match pld_Errors p with
  | _ :: _ => (Ended (Some EParse), startInit)
  | [] =>
    match Config p !! 0%nat with
    | Some (Some cfg) =>
      match startBody c (coreRule (Parsed cfg)) o events startInit with
      | (Ok None, s) => (Waiting, s)
      | (Ok (Some e), s) => deferShutdown (Ended e) s
      | (Panic p, s) => deferShutdown (Crashed p) s
      | (OutOfFuel, s) => (NoFuel, s)
      end
    | Some None => (Crashed NilDereference, startInit)
    | None => (Crashed IndexOutOfRange, startInit)
    end
  end.

(** [startEverything]; [dirs] is the directive table. *)
Definition startEverything (fuel : nat) (dirs : gmap string (list Z)) (c : vinceConfiguration) (o : mapOrders)
    (events : list runEvent) : startOutcome * startState :=
  match parse fuel (confFile c) defaultParseOpts dirs with
  | Ok (p, _, _) => startParsed p c o events
  | Panic p => (Crashed p, startInit)
  | OutOfFuel => (NoFuel, startInit)
  end.

(** ** Every listener and every connection is closed *)

(** A bound address has its listener in the map, unless a nil one took its
    place, and an open connection has its record. *)
Definition tracked (s : startState) : Prop :=
  (∀ a, a ∈ bound s → listeners s !! a = Some (Some a) ∨ listeners s !! a = Some None) ∧
  openConns s ⊆ dom (conns (connMgr s)).

(** Code that keeps it. *)
Definition tracks {A} (m : SM A) : Prop := ∀ s, tracked s → tracked (snd (m s)).

Lemma tracks_ret {A} (a : A) : tracks (mret a).
Proof. by intros s. Qed.

Lemma tracks_lift {A} (m : res A) : tracks (lift m).
Proof. by intros s. Qed.

Lemma tracks_get {A} (f : startState → A) : tracks (get f).
Proof. by intros s. Qed.

Lemma tracks_bind {A B} (m : SM A) (f : A → SM B) : tracks m → (∀ a, tracks (f a)) → tracks (m ≫= f).
Proof.
  intros Hm Hf s Hs. unfold mbind, SM_bind. specialize (Hm s Hs). destruct (m s) as [[a| |] s']; [by apply Hf|done..].
Qed.

Lemma tracks_put f : (∀ s, tracked s → tracked (f s)) → tracks (put f).
Proof. by intros H s Hs; apply H. Qed.

Lemma listen_tracked n a s l s' : tracked s → listen n a s = (Ok l, s') → tracked (set_listener a l s').
Proof.
  unfold listen. intros [Hs Ho] H.
  destruct (canListen n a && _); injection H as <- <-; (split; [|exact Ho]); intros b; simpl;
    (destruct (decide (a = b)) as [->|Hne]; [rewrite lookup_insert_eq; by auto|rewrite lookup_insert_ne by done]).
  - intros [Hb|Hb]%elem_of_union; [set_solver|by apply Hs].
  - by apply Hs.
Qed.

(** Listening and storing the listener. *)
Lemma tracks_listen_store {B} n a (k : option string → SM B) :
  (∀ l s, tracked (set_listener a l s) → (l = None → tracked s) → tracked (snd (k l s))) →
  tracks (l ← listen n a; k l).
Proof.
  intros Hk s Hs. unfold mbind, SM_bind. destruct (listen n a s) as [r s'] eqn:El.
  assert (∃ l, r = Ok l ∧ (l = None → tracked s')) as (l & -> & Hl)
    by (unfold listen in El; case_match; injection El as <- <-; eauto; naive_solver).
  apply Hk; [by eapply listen_tracked|done].
Qed.

Lemma tracks_listenAll order : tracks (listenAll order).
Proof.
  induction order as [|k ks IH]; [apply tracks_ret|]. simpl. apply tracks_bind; [apply tracks_get|]. intros m.
  case_match; [case_match; [|apply tracks_ret]|]; apply tracks_listen_store; intros l s Hl Hn.
  - by apply IH.
  - destruct l as [l|]; [by apply IH|by apply Hn].
Qed.

Lemma tracks_createAll order : tracks (createAll order).
Proof.
  induction order as [|k ks IH]; [apply tracks_ret|]. simpl. apply tracks_bind; [apply tracks_get|]. intros m.
  apply tracks_bind; [apply tracks_bind; [apply tracks_lift|]; intros hm; apply tracks_ret|]. intros srv.
  apply tracks_bind; [by apply tracks_put|]. done.
Qed.

Lemma tracks_startAll order : tracks (startAll order).
Proof.
  induction order as [|k ks IH]; [apply tracks_ret|]. simpl. apply tracks_bind; [apply tracks_get|]. intros ls.
  repeat case_match; try apply tracks_lift. apply tracks_bind; [by apply tracks_put|]. done.
Qed.

Lemma tracks_processAll core port o : tracks (processAll core port o).
Proof.
  apply tracks_bind; [apply tracks_lift|]. intros m. apply tracks_bind; [by apply tracks_put|]. intros _.
  apply tracks_bind; [apply tracks_listenAll|]. intros [e|]; [apply tracks_ret|].
  apply tracks_bind; [apply tracks_createAll|]. intros _. apply tracks_bind; [apply tracks_startAll|]. intros _.
  apply tracks_ret.
Qed.

Lemma tracks_startManagement c : tracks (startManagement c).
Proof.
  apply tracks_listen_store. intros [l|] s Hl Hn; [|by apply Hn]. unfold mbind, SM_bind, put.
  destruct (gitOps_init _) as [es [git|]]; exact Hl.
Qed.

(** What the manager keeps when a state is reported. *)
Lemma manageConnState_dom c st m :
  dom (conns m) ∖ (if decide (st = StateClosed) then {[ c ]} else ∅) ⊆ dom (conns (manageConnState c st m)).
Proof.
  unfold manageConnState, changeState.
  destruct st; simpl; destruct (conns m !! c) eqn:Ec; simpl; rewrite ?lookup_insert_eq, ?Ec; simpl;
    rewrite ?dom_delete_L, ?dom_insert_L; try (destruct (decide (state _ = StateNew)); simpl); set_solver.
Qed.

Lemma reportConn_frame c st s : tracked s → tracked (reportConn c st s) ∧ bound (reportConn c st s) = bound s ∧
  listeners (reportConn c st s) = listeners s.
Proof.
  intros [Hl Ho]. pose proof (manageConnState_dom c st (connMgr s)) as Hd. unfold reportConn.
  case_decide; simpl; (split; [|done]); (split; [exact Hl|]); simpl; set_solver.
Qed.

Lemma acceptConn_tracked a c s : tracked s → tracked (acceptConn a c s).
Proof.
  intros [Hl Ho]. unfold acceptConn. case_decide; [|by split]. split; [exact Hl|]. simpl. rewrite dom_insert_L. set_solver.
Qed.

Lemma dropConn_tracked c told s : tracked s → tracked (dropConn c told s).
Proof.
  intros [Hl Ho]. unfold dropConn. split; [by destruct told|]. destruct told; simpl; [|set_solver].
  unfold CloseConn. repeat case_match; simpl; rewrite ?dom_delete_L; set_solver.
Qed.

Lemma shutdownServer_frame a s : tracked s → tracked (shutdownServer a s) ∧ bound (shutdownServer a s) ⊆ bound s ∧
  listeners (shutdownServer a s) = listeners s.
Proof.
  intros Hs. unfold shutdownServer. case_decide; [|done].
  set (s1 := set_running _ _). assert (H1 : tracked s1 ∧ bound s1 ⊆ bound s ∧ listeners s1 = listeners s).
  { destruct Hs as [Hl Ho]. split; [split; [|exact Ho]|]; simpl; [|set_solver]. intros b Hb. apply Hl. set_solver. }
  clearbody s1. generalize (drained a). intros cs. revert s1 H1. induction cs as [|c cs IH]; intros s1 (T & B & L); [done|].
  simpl. apply IH. destruct (reportConn_frame c StateClosed s1 T) as (T' & -> & ->). done.
Qed.

Lemma shutdownServers_frame addrs errs s : tracked s →
  let s' := snd (foldl (λ '(errs, s) a, (errs ++ option_list (shutdownErr a), shutdownServer a s)) (errs, s) addrs) in
  tracked s' ∧ bound s' ⊆ bound s ∧ listeners s' = listeners s.
Proof.
  revert errs s. induction addrs as [|a addrs IH]; intros errs s Hs; [done|]. cbn [foldl].
  destruct (shutdownServer_frame a s Hs) as (H1 & H2 & H3).
  destruct (IH (errs ++ option_list (shutdownErr a)) (shutdownServer a s) H1) as (Q1 & Q2 & Q3).
  split_and!; [done|set_solver|by rewrite Q3, H3].
Qed.

Lemma closeListeners_bound ls errs s r s' : closeListeners ls errs s = (r, s') →
  bound s' ⊆ bound s ∧ listeners s' = listeners s ∧ openConns s' = openConns s ∧ connMgr s' = connMgr s ∧
  (∀ e, r = Ok e → (∀ k, (k, None) ∉ ls) ∧ ∀ k a, (k, Some a) ∈ ls → a ∉ bound s') ∧
  (∀ p, r = Panic p → p = NilDereference ∧ ∃ k, (k, None) ∈ ls) ∧ r ≠ OutOfFuel.
Proof.
  revert errs s. induction ls as [|[k [a|]] ls IH]; intros errs s H; simpl in H.
  - injection H as <- <-. split_and!; [done..| | |]; set_solver.
  - apply IH in H as (Hb & Hl & Ho & Hm & Hr & Hp & Hf). simpl in *. split_and!; [set_solver|done|done|done| | |done].
    + intros e He. destruct (Hr e He) as [H1 H2]. split; [set_solver|]. set_solver.
    + intros p Hpp. destruct (Hp p Hpp) as [-> [k' Hk']]. split; [done|]. exists k'. set_solver.
  - injection H as <- <-. split_and!; [done|done|done|done|done| |done]. intros p [= <-]. split; [done|]. exists k. set_solver.
Qed.

(** Nothing is bound and no connection is open or has a record. *)
Definition released (s : startState) : Prop := bound s = ∅ ∧ conns (connMgr s) = ∅ ∧ openConns s = ∅.

(** [shutdown] releases everything, or meets a nil listener. *)
Lemma shutdown_bound s r s' : shutdown s = (r, s') → tracked s →
  tracked s' ∧ ((∃ e, r = Ok e) ∧ released s' ∨ r = Panic NilDereference ∧ ∃ k, listeners s' !! k = Some None).
Proof.
  unfold shutdown. intros H Hs.
  destruct (shutdownServers _ s) as [errs s1] eqn:E1.
  destruct (shutdownServers_frame (map_to_list (servers s)).*1 [] s Hs) as (Hs1 & Hb1 & Hl1).
  unfold shutdownServers in E1. rewrite E1 in Hs1, Hb1, Hl1. simpl in Hs1, Hb1, Hl1.
  destruct (closeListeners _ errs s1) as [r2 s2] eqn:E2.
  apply closeListeners_bound in E2 as (Hb2 & Hl2 & Ho2 & Hm2 & Hr & Hp & Hf).
  assert (Hs2 : tracked s2).
  { destruct Hs1 as [T1 T2]. split; [intros a Ha; rewrite Hl2; apply T1; set_solver|by rewrite Ho2, Hm2]. }
  destruct r2 as [errs2|p|]; [| |done].
  - unfold closeConns in H. destruct (connManager_Close _ _) as [m e] eqn:Ec. unfold connManager_Close in Ec.
    injection Ec as <- _. injection H as <- <-.
    assert (Hbound : bound s2 = ∅).
    { destruct (Hr errs2 eq_refl) as [HN HA]. apply set_eq. intros a. split; [|set_solver]. intros Ha. exfalso.
      destruct Hs1 as [T1 _]. destruct (T1 a) as [H|H]; [set_solver| |]; apply elem_of_map_to_list in H;
        [by apply (HA a a)|by apply (HN a)]. }
    assert (Hopen : openConns s2 ∖ dom (conns (connMgr s2)) = ∅) by (destruct Hs2; set_solver).
    split.
    + split; simpl; [rewrite Hbound; set_solver|rewrite Hopen; set_solver].
    + left. split; [by eexists|]. unfold released. simpl. by rewrite Hbound, Hopen.
  - injection H as <- <-. split; [done|right]. destruct (Hp p eq_refl) as [-> [k Hk]]. split; [done|].
    exists k. rewrite Hl2. by apply elem_of_map_to_list.
Qed.

Lemma tracks_shutdown : tracks shutdown.
Proof. intros s Hs. destruct (shutdown s) as [r s'] eqn:Es. by apply shutdown_bound in Es as [? _]. Qed.

Lemma tracks_signalLoop events : tracks (signalLoop events).
Proof.
  induction events as [|[sig|a c|c st|c told] events IH]; simpl; [apply tracks_ret|destruct sig|..];
    try apply tracks_ret; try exact IH; (apply tracks_bind; [|intros ?; try exact IH; apply tracks_ret]).
  - apply tracks_shutdown.
  - apply tracks_put, acceptConn_tracked.
  - apply tracks_put. intros s Hs. by apply reportConn_frame.
  - apply tracks_put, dropConn_tracked.
Qed.

Lemma tracks_startBody c core o events : tracks (startBody c core o events).
Proof.
  apply tracks_bind; [case_match; [apply tracks_startManagement|apply tracks_ret]|]. intros [e|]; [apply tracks_ret|].
  apply tracks_bind; [apply tracks_processAll|]. intros [e|]; [apply tracks_ret|]. apply tracks_signalLoop.
Qed.

Lemma startInit_released : released startInit ∧ tracked startInit.
Proof. split; [done|]. split; [intros a|]; simpl; set_solver. Qed.

(** Nothing stays open.  However the program returns, with an error of the
    configuration or of an address, at a signal, or because the context is done,
    every address that it had bound is free again and every connection is closed;
    so it is at a panic, unless a listener is nil. *)
Lemma start_releases fuel dirs c o events out s :
  startEverything fuel dirs c o events = (out, s) →
  match out with
  | Ended _ => released s
  | Crashed p => released s ∨ p = NilDereference ∧ ∃ k, listeners s !! k = Some None
  | _ => True
  end.
Proof.
  unfold startEverything, startParsed. intros H. destruct startInit_released as [HI HT].
  assert (Hd : ∀ o1 s1, tracked s1 → deferShutdown o1 s1 = (out, s) →
    out = o1 ∧ released s ∨ out = Crashed NilDereference ∧ ∃ k, listeners s !! k = Some None).
  { intros o1 s1 Hs1 Hdef. unfold deferShutdown in Hdef. destruct (shutdown s1) as [r s2] eqn:Es.
    apply shutdown_bound in Es as [_ [[[e ->] Hrel]|[-> Hk]]]; [| |done]; injection Hdef as <- <-; auto. }
  destruct (parse _ _ _ _) as [[[p ?] ?]| |]; [|by injection H as <- <-; auto..].
  destruct (pld_Errors p); [|by injection H as <- <-].
  destruct (Config p !! 0%nat) as [[cfg|]|]; [|by injection H as <- <-; auto..].
  pose proof (tracks_startBody c (coreRule (Parsed cfg)) o events startInit HT) as Hk.
  destruct (startBody _ _ _ _ _) as [[[e'|]|p'|] s1]; simpl in Hk; [| | |by injection H as <- <-].
  - destruct (Hd _ _ Hk H) as [[-> ?]|[-> ?]]; auto.
  - by injection H as <- <-.
  - destruct (Hd _ _ Hk H) as [[-> ?]|[-> ?]]; auto.
Qed.

(** ** What is started *)

(** The options of an address; the certificate of an ssl address loads, and any
    other address can be bound. *)
Definition addrReady (m : addressMaps) (k : string) : Prop :=
  ∃ opts, address m !! k = Some opts ∧ addrPort opts = k ∧
    if ssl opts then is_Some (sslOptions_config (sslOpts opts)) else canListen (lnet opts) k = true.

Definition addrFree (m : addressMaps) (k : string) : bool :=
  match address m !! k with Some opts => canListen (lnet opts) k | None => false end.

(** Everything of a state but the listeners and what is bound. *)
Definition sameRest (s s' : startState) : Prop :=
  maps s' = maps s ∧ servers s' = servers s ∧ connMgr s' = connMgr s ∧ running s' = running s.

Lemma listenAll_result order s :
  NoDup order → Forall (addrReady (maps s)) order → (∀ k, k ∈ order → k ∉ bound s) →
  ∃ s', listenAll order s = (Ok None, s') ∧ sameRest s s' ∧
    (∀ k, k ∈ order → listeners s' !! k = Some (if addrFree (maps s) k then Some k else None)) ∧
    (∀ k, k ∉ order → listeners s' !! k = listeners s !! k) ∧
    (∀ k, k ∈ bound s' ↔ k ∈ bound s ∨ k ∈ order ∧ addrFree (maps s) k = true).
Proof.
  revert s. induction order as [|k ks IH]; intros s Hnd Hr Hb.
  { exists s. split; [done|]. split; [done|]. split; [by intros k ?%elem_of_nil|]. split; [done|]. set_solver. }
  apply NoDup_cons in Hnd as [Hk Hnd]. apply Forall_cons in Hr as [(opts & Ha & Hp & Hs) Hr].
  assert (Hfree : addrFree (maps s) k = canListen (lnet opts) k) by (unfold addrFree; by rewrite Ha).
  set (l := if canListen (lnet opts) k then Some k else None).
  set (s1 := set_listener k l (if canListen (lnet opts) k then set_bound ({[ k ]} ∪ bound s) s else s)).
  assert (Hrest : sameRest s s1) by (unfold s1, sameRest; destruct (canListen (lnet opts) k); by repeat split).
  assert (Hopt : addressOf (maps s) k = opts) by (unfold addressOf; by rewrite Ha).
  assert (Hstep : listenAll (k :: ks) s = listenAll ks s1).
  { simpl. unfold mbind, SM_bind, get, put, listen. cbn beta iota zeta. rewrite Hopt, Hp.
    assert (Hd : bool_decide (k ∈ bound s) = false) by (apply bool_decide_eq_false_2, Hb; set_solver).
    unfold s1, l. destruct (ssl opts).
    - destruct Hs as [cfg ->]. rewrite Hd, andb_true_r. by destruct (canListen (lnet opts) k).
    - rewrite Hd, Hs. done. }
  destruct Hrest as (R1 & R2 & R3 & R4).
  assert (Hb1 : ∀ a, a ∈ bound s1 ↔ a ∈ bound s ∨ a = k ∧ addrFree (maps s) k = true).
  { intros a. unfold s1. rewrite Hfree. destruct (canListen (lnet opts) k); simpl; set_solver. }
  destruct (IH s1) as (s' & Hl & (Q1 & Q2 & Q3 & Q4) & Hin & Hout & Hbd).
  - done.
  - by rewrite R1.
  - intros a Hai. rewrite Hb1. intros [?|[-> _]]; [by apply (Hb a); [set_solver|]|done].
  - exists s'. rewrite Hstep, Hl. split; [done|]. split; [unfold sameRest; by rewrite Q1, Q2, Q3, Q4, R1, R2, R3, R4|].
    rewrite R1 in *. split; [|split].
    + intros a [->|Hai]%elem_of_cons; [|by apply Hin]. rewrite Hout by done. unfold s1, l. rewrite Hfree.
      simpl. by rewrite lookup_insert_eq.
    + intros a [Hne Hai]%not_elem_of_cons. rewrite Hout by done. unfold s1. simpl. rewrite lookup_insert_ne by done.
      by destruct (canListen (lnet opts) k).
    + intros a. rewrite Hbd, Hb1. rewrite elem_of_cons. naive_solver.
Qed.

(** The matcher of an address. *)
Definition rulesReady (m : addressMaps) (k : string) : Prop :=
  ∃ rules hm, serverRules m !! k = Some rules ∧ vinceHandler rules = Ok hm.

Definition addrServer (m : addressMaps) (k : string) : option serverHandler :=
  match serverRules m !! k with
  | Some rules => match vinceHandler rules with Ok hm => Some (Vince rules hm) | _ => None end
  | None => None
  end.

Lemma createAll_result order s :
  (∀ k, k ∈ order → ∃ opts, address (maps s) !! k = Some opts ∧ addrPort opts = k) →
  Forall (rulesReady (maps s)) order →
  ∃ s', createAll order s = (Ok tt, s') ∧ maps s' = maps s ∧ listeners s' = listeners s ∧ bound s' = bound s ∧
    connMgr s' = connMgr s ∧ running s' = running s ∧
    (∀ k, k ∈ order → servers s' !! k = addrServer (maps s) k) ∧
    (∀ k, k ∉ order → servers s' !! k = servers s !! k).
Proof.
  revert s. induction order as [|k ks IH]; intros s Ha Hr.
  { exists s. do 6 (split; [done|]). split; [by intros k ?%elem_of_nil|done]. }
  apply Forall_cons in Hr as [(rules & hm & Hk & Hm) Hr].
  destruct (Ha k) as (opts & Hopts & Hp); [set_solver|].
  assert (Hstep : createAll (k :: ks) s = createAll ks (set_server k (Vince rules hm) s)).
  { simpl. unfold createVince, mbind, SM_bind, get, lift, put. rewrite Hk. simpl.
    rewrite Hm. simpl. unfold addressOf. by rewrite Hopts, Hp. }
  assert (Hsrv : addrServer (maps s) k = Some (Vince rules hm)) by (unfold addrServer; by rewrite Hk, Hm).
  destruct (IH (set_server k (Vince rules hm) s)) as (s' & H & Q1 & Q2 & Q3 & Q4 & Q5 & Hin & Hout).
  - intros a Hai. apply Ha. set_solver.
  - done.
  - exists s'. rewrite Hstep, H. simpl in *. do 6 (split; [done|]). split.
    + intros a [->|Hai]%elem_of_cons; [|by apply Hin].
      destruct (decide (k ∈ ks)) as [Hks|Hks]; [by apply Hin|]. rewrite Hout by done. by rewrite lookup_insert_eq.
    + intros a [Hne Hai]%not_elem_of_cons. rewrite Hout by done. by rewrite lookup_insert_ne.
Qed.

Lemma startAll_result order s :
  (∀ k, k ∈ order → ∃ a, listeners s !! k = Some (Some a)) →
  ∃ s', startAll order s = (Ok tt, s') ∧ maps s' = maps s ∧ listeners s' = listeners s ∧ bound s' = bound s ∧
    servers s' = servers s ∧ connMgr s' = connMgr s ∧ ∀ k, k ∈ running s' ↔ k ∈ running s ∨ k ∈ order.
Proof.
  revert s. induction order as [|k ks IH]; intros s H.
  { exists s. do 6 (split; [done|]). set_solver. }
  destruct (H k) as [a Hk]; [set_solver|].
  assert (Hstep : startAll (k :: ks) s = startAll ks (set_running ({[ k ]} ∪ running s) s))
    by (simpl; unfold mbind, SM_bind, get; by rewrite Hk).
  destruct (IH (set_running ({[ k ]} ∪ running s) s)) as (s' & Hs & Q1 & Q2 & Q3 & Q4 & Q5 & Q6).
  - intros b Hb. apply H. set_solver.
  - exists s'. rewrite Hstep, Hs. simpl in *. do 6 (split; [done|]). intros b. rewrite Q6. set_solver.
Qed.

Lemma startAll_nil order s : (∃ k, k ∈ order ∧ listeners s !! k = Some None) →
  ∃ s', startAll order s = (Panic NilDereference, s') ∧ listeners s' = listeners s.
Proof.
  intros (k & Hk & Hn). revert s Hn. induction order as [|a ks IH]; intros s Hn; [by apply elem_of_nil in Hk|].
  simpl. unfold mbind, SM_bind, get. destruct (listeners s !! a) as [[b|]|] eqn:Ea; [|by eexists..].
  apply elem_of_cons in Hk as [->|Hk]; [congruence|].
  destruct (IH Hk (set_running ({[ a ]} ∪ running s) s) Hn) as (s' & Hs & Hl). by exists s'.
Qed.

Lemma process_address core port m k rules : process core port = Ok m → serverRules m !! k = Some rules →
  ∃ opts, address m !! k = Some opts ∧ addrPort opts = k.
Proof.
  intros H Hk. apply (processServers_groups core port _ [] (mkMaps ∅ ∅)) in H as (ps & _ & HG);
    [|intros k'; simpl; by rewrite !lookup_empty].
  destruct (HG k) as [Ha Hr]. rewrite Hk in Hr. simpl in *.
  destruct (onAddr k ps) as [|[v opts] ps'] eqn:Eo; [done|]. exists opts. split; [done|].
  assert (Hin : (v, opts) ∈ onAddr k ps) by (rewrite Eo; set_solver).
  by apply list_elem_of_filter in Hin as [Hin _].
Qed.

Definition managementAddr (c : vinceConfiguration) : string := ":" +:+ Itoa (management_port c).

(** A run can come up: the tree has listeners, the names of the servers compile,
    the certificates load, plain addresses can be bound, and so can the address
    of the management, which no server of the configuration uses. *)
Record comesUp (c : vinceConfiguration) (core : rule) (m : addressMaps) : Prop := {
  up_maps : process core (VinceConfig.defaultPort c) = Ok m;
  up_rules : ∀ k, is_Some (serverRules m !! k) → rulesReady m k;
  up_addrs : ∀ k, is_Some (serverRules m !! k) → addrReady m k;
  up_free : management_enabled c = true → canListen "tcp" (managementAddr c) = true;
  up_other : serverRules m !! managementAddr c = None;
  up_git : management_enabled c = true →
    ∃ es git, gitOps_init (mkGitOpts (JoinPath (vc_dir c) "configs") false) = (es, Some git);
}.

(** The addresses that get a server. *)
Definition served (c : vinceConfiguration) (m : addressMaps) (k : string) : Prop :=
  is_Some (serverRules m !! k) ∨ management_enabled c = true ∧ k = managementAddr c.

(** The maps are walked in some order, each key once. *)
Definition walks (l : list string) (P : string → Prop) : Prop := NoDup l ∧ ∀ k, k ∈ l ↔ P k.
Definition ordersOK (c : vinceConfiguration) (m : addressMaps) (o : mapOrders) : Prop :=
  walks (listenOrder o) (λ k, is_Some (serverRules m !! k)) ∧
  walks (createOrder o) (λ k, is_Some (serverRules m !! k)) ∧ walks (startOrder o) (served c m).

Lemma startManagement_result c core m : comesUp c core m →
  ∃ s, (if management_enabled c then startManagement c else mret None) startInit = (Ok None, s) ∧
    connMgr s = connManager_init ∧ running s = ∅ ∧
    (∀ k, listeners s !! k = if decide (management_enabled c = true ∧ k = managementAddr c) then Some (Some k) else None) ∧
    (∀ k, k ∈ bound s ↔ management_enabled c = true ∧ k = managementAddr c).
Proof.
  intros HU. destruct (management_enabled c) eqn:Em.
  - destruct (up_git _ _ _ HU Em) as (es & git & Hg). pose proof (up_free _ _ _ HU Em) as Hf.
    unfold startManagement, mbind, SM_bind, listen, put. fold (managementAddr c). simpl. rewrite Hf, Hg. simpl.
    eexists. split; [done|]. split; [done|]. split; [done|]. simpl. split; [|set_solver].
    intros k. case_decide as Hk; [destruct Hk as [_ ->]; by rewrite lookup_insert_eq|].
    rewrite lookup_insert_ne by naive_solver. apply lookup_empty.
  - eexists. split; [done|]. split; [done|]. split; [done|]. split; [|set_solver].
    intros k. rewrite decide_False by naive_solver. apply lookup_empty.
Qed.

(** Up to the start of the servers, a run is decided. *)
Lemma created c core m o : comesUp c core m → ordersOK c m o → ∃ s0 s1 s2,
  (if management_enabled c then startManagement c else mret None) startInit = (Ok None, s0) ∧
  listenAll (listenOrder o) (set_maps m s0) = (Ok None, s1) ∧ createAll (createOrder o) s1 = (Ok tt, s2) ∧
  running s2 = ∅ ∧
  (∀ k, is_Some (serverRules m !! k) → servers s2 !! k = addrServer m k) ∧
  (∀ k, is_Some (serverRules m !! k) → listeners s2 !! k = Some (if addrFree m k then Some k else None)) ∧
  (∀ k, management_enabled c = true → k = managementAddr c → listeners s2 !! k = Some (Some k)) ∧
  (∀ k, k ∈ bound s2 ↔ management_enabled c = true ∧ k = managementAddr c ∨ is_Some (serverRules m !! k) ∧ addrFree m k = true).
Proof.
  intros HU ([N1 O1] & [_ O2] & _). destruct (startManagement_result c core m HU) as (s0 & H0 & _ & R0 & L0 & B0).
  assert (Hnot : ∀ k, is_Some (serverRules m !! k) → k ≠ managementAddr c)
    by (intros k [rules Hk] ->; by rewrite (up_other _ _ _ HU) in Hk).
  destruct (listenAll_result (listenOrder o) (set_maps m s0)) as (s1 & H1 & (M1 & _ & _ & R1) & L1 & L1' & B1); simpl in *.
  { done. }
  { apply Forall_forall. intros k Hk. by apply (up_addrs _ _ _ HU), O1. }
  { intros k Hk%O1. rewrite B0. intros [_ ?]. by apply (Hnot k). }
  destruct (createAll_result (createOrder o) s1) as (s2 & H2 & M2 & L2 & B2 & _ & R2 & S2 & _).
  { intros k [rules Hk]%O2. rewrite M1. by eapply process_address; [apply (up_maps _ _ _ HU)|]. }
  { apply Forall_forall. intros k Hk. rewrite M1. by apply (up_rules _ _ _ HU), O2. }
  exists s0, s1, s2. split; [done|]. split; [done|]. split; [done|]. split; [by rewrite R2, R1|].
  split; [intros k Hk; rewrite S2 by (by apply O2); by rewrite M1|].
  split; [intros k Hk; rewrite L2; by apply L1, O1|]. split.
  - intros k He Hk. rewrite L2, L1'; [by rewrite L0, decide_True|]. rewrite O1. intros ?. by apply (Hnot k).
  - intros k. rewrite B2, B1, B0, O1. done.
Qed.

(** The configuration file parses without errors. *)
Definition parsedOK (fuel : nat) (dirs : gmap string (list Z)) (c : vinceConfiguration) (cfg : parsingContext) : Prop :=
  ∃ p o' dirs', parse fuel (confFile c) defaultParseOpts dirs = Ok (p, o', dirs') ∧
    pld_Errors p = [] ∧ Config p !! 0%nat = Some (Some cfg).

Lemma parsedOK_match fuel dirs c cfg :
  match parse fuel (confFile c) defaultParseOpts dirs with
  | Ok (p, _, _) => pld_Errors p = [] ∧ Config p !! 0%nat = Some (Some cfg)
  | _ => False
  end → parsedOK fuel dirs c cfg.
Proof. unfold parsedOK. destruct (parse _ _ _ _) as [[[p o'] dirs']| |]; naive_solver. Qed.

Lemma startEverything_parsed fuel dirs c cfg o events : parsedOK fuel dirs c cfg →
  startEverything fuel dirs c o events =
  match startBody c (coreRule (Parsed cfg)) o events startInit with
  | (Ok None, s) => (Waiting, s)
  | (Ok (Some e), s) => deferShutdown (Ended e) s
  | (Panic p, s) => deferShutdown (Crashed p) s
  | (OutOfFuel, s) => (NoFuel, s)
  end.
Proof.
  intros (p & o' & dirs' & Hp & He & Hc). unfold startEverything, startParsed. by rewrite Hp, He, Hc.
Qed.

Lemma startBody_created c core m o events s0 s1 s2 : comesUp c core m →
  (if management_enabled c then startManagement c else mret None) startInit = (Ok None, s0) →
  listenAll (listenOrder o) (set_maps m s0) = (Ok None, s1) → createAll (createOrder o) s1 = (Ok tt, s2) →
  startBody c core o events startInit = (_ ← startAll (startOrder o); signalLoop events) s2.
Proof.
  intros HU H0 H1 H2. unfold startBody, mbind, SM_bind. rewrite H0. unfold processAll, mbind, SM_bind, lift, put.
  rewrite (up_maps _ _ _ HU), H1, H2. by destruct (startAll (startOrder o) s2) as [[]].
Qed.

(** C12: The servers that run.  When the configuration can come up and its
    addresses are free, the program starts, for every address that a server of
    the configuration listens on, one server with exactly the servers of that
    address, and the management server; it waits for signals with just these
    addresses bound. *)
Theorem start_serves fuel dirs cfg c m o :
  parsedOK fuel dirs c cfg → comesUp c (coreRule (Parsed cfg)) m → ordersOK c m o →
  (∀ k, is_Some (serverRules m !! k) → addrFree m k = true) →
  ∃ s, startEverything fuel dirs c o [] = (Waiting, s) ∧
    (∀ k, k ∈ running s ↔ served c m k) ∧ (∀ k, k ∈ bound s ↔ served c m k) ∧
    (∀ k rules, serverRules m !! k = Some rules →
      ∃ hm, vinceHandler rules = Ok hm ∧ servers s !! k = Some (Vince rules hm)).
Proof.
  intros HP HU HO HF. destruct (created _ _ _ o HU HO) as (s0 & s1 & s2 & H0 & H1 & H2 & R2 & S2 & L2 & L2' & B2).
  destruct HO as (_ & _ & [_ O3]).
  destruct (startAll_result (startOrder o) s2) as (s3 & H3 & _ & _ & B3 & S3 & _ & R3).
  { intros k [Hk|[Hm Hk]]%O3; [|by eauto]. exists k. rewrite L2 by done. by rewrite HF. }
  exists s3. rewrite (startEverything_parsed _ _ _ _ _ _ HP), (startBody_created _ _ _ _ [] _ _ _ HU H0 H1 H2).
  unfold mbind, SM_bind. rewrite H3. split; [done|].
  split; [intros k; rewrite R3, R2, <- O3; set_solver|]. split.
  - intros k. rewrite B3, B2. unfold served. specialize (HF k). naive_solver.
  - intros k rules Hk. destruct (up_rules _ _ _ HU k) as (rules' & hm & Hk' & Hm); [by eexists|].
    rewrite Hk in Hk'. injection Hk' as <-. exists hm. split; [done|]. rewrite S3, S2 by (by eexists).
    unfold addrServer. by rewrite Hk, Hm.
Qed.

Lemma shutdown_ends s : (∃ e s', shutdown s = (Ok e, s')) ∨ (∃ s', shutdown s = (Panic NilDereference, s')).
Proof.
  assert (H : ∀ ls errs t, (∃ e t', closeListeners ls errs t = (Ok e, t')) ∨
      ∃ t', closeListeners ls errs t = (Panic NilDereference, t')).
  { induction ls as [|[k [a|]] ls IH]; intros errs t; simpl; [by left; eexists _, _| |by right; eexists].
    apply IH. }
  unfold shutdown. destruct (shutdownServers _ s) as [errs s1].
  destruct (H (map_to_list (listeners s1)) errs s1) as [(e & s' & ->)|(s' & ->)]; [|by eauto].
  destruct (closeConns s'). eauto.
Qed.

(** C40: An ssl address that is taken.  The error of listening there is lost: in
    a configuration that could come up otherwise, the program ends in a nil
    dereference instead of reporting it. *)
Theorem ssl_listen_error_lost fuel dirs cfg c m o events k :
  parsedOK fuel dirs c cfg → comesUp c (coreRule (Parsed cfg)) m → ordersOK c m o →
  is_Some (serverRules m !! k) → addrFree m k = false →
  fst (startEverything fuel dirs c o events) = Crashed NilDereference.
Proof.
  intros HP HU HO Hk HF. destruct (created _ _ _ o HU HO) as (s0 & s1 & s2 & H0 & H1 & H2 & _ & _ & L2 & _).
  destruct HO as (_ & _ & [_ O3]).
  destruct (startAll_nil (startOrder o) s2) as (s3 & H3 & _).
  { exists k. split; [by apply O3; left|]. by rewrite L2, HF. }
  rewrite (startEverything_parsed _ _ _ _ _ _ HP), (startBody_created _ _ _ _ events _ _ _ HU H0 H1 H2).
  unfold mbind, SM_bind. rewrite H3. unfold deferShutdown.
  by destruct (shutdown_ends s3) as [(e & s' & ->)|(s' & ->)].
Qed.
End Start.

(** ** The theorems at work *)

Section Witnesses.
#[local] Existing Instance noRegexp.
#[local] Instance plainEnv : Env := {|
  Listen.ToBytes _ := None; canOpen _ := true; Listen.ParseDuration _ := None; urlParse _ := None; opensslOutput _ := None |}.
#[local] Instance plainTLS : TLSEnv := {| keyPairLoads _ _ := true; ReadFile _ := None |}.
#[local] Instance plainGit : GitEnv := {|
  notExist _ := false; mkdirAllOK _ := true; mkdirOK _ := true; initOK _ := true; openOK _ := true;
  gzipOK := true; decodeOK := true; packOK _ := true; advertiseOK := true; encodeOK := true |}.
(** Port 443 is taken. *)
#[local] Instance plainNet : NetEnv := {|
  canListen _ a := negb (HasSuffix a ":443"); closeErr _ := None; shutdownErr _ := None; drained _ := [];
  connCloseErr _ := None |}.

(** The configuration file. *)
#[local] Instance oneFile (args : list string) : FileSystem := {|
  fs_Open _ := inl ("http { server { listen " +:+ Join args " " +:+ "; } }"); Glob _ := inl [] |}.
#[local] Existing Instance asciiOnly.
#[local] Existing Instance noFmt.
Definition srvConf : vinceConfiguration := mkVinceConfiguration "/srv" "" "" "" "" "/srv/conf/vince.conf" 0 true 9000.
Definition configOn (args : list string) : parsingContext :=
  match parse (FS := oneFile args) 300 "/srv/conf/vince.conf" defaultParseOpts directives with
  | Ok (mkPayload _ _ [Some cfg], _, _) => cfg
  | _ => mkParsing "" "" [] []
  end.
Definition mapsOn (args : list string) : addressMaps :=
  match process (coreRule (Parsed (configOn args))) 0 with Ok m => m | _ => mkMaps ∅ ∅ end.
Definition serverOn (args : list string) : rule := mkRule "server" [] [mkRule "listen" args []].
Definition ordersOn (a : string) : mapOrders := mkOrders [a] [a] [a; ":9000"].

Lemma rules_8080 : serverRules (mapsOn ["8080"]) = {[ "0.0.0.0:8080" := [([0%nat; 0%nat], serverOn ["8080"])] ]}.
Proof. vm_compute. reflexivity. Qed.
Lemma rules_443 : serverRules (mapsOn ["443"; "ssl"]) = {[ "0.0.0.0:443" := [([0%nat; 0%nat], serverOn ["443"; "ssl"])] ]}.
Proof. vm_compute. reflexivity. Qed.

(** One address, which is not that of the management. *)
Lemma comesUp_single args a v : serverRules (mapsOn args) = {[ a := v ]} → a ≠ ":9000" →
  process (coreRule (Parsed (configOn args))) 0 = Ok (mapsOn args) →
  addrReady (mapsOn args) a → finished (vinceHandler v) = true → (∀ p, vinceHandler v ≠ Panic p) →
  comesUp srvConf (coreRule (Parsed (configOn args))) (mapsOn args).
Proof.
  intros Hr Ha Hp Hready Hf Hn. split; [done| | |done| |].
  - intros k [x Hx]. rewrite Hr in Hx. apply lookup_singleton_Some in Hx as [<- <-]. unfold rulesReady. rewrite Hr.
    destruct (vinceHandler v) as [hm|pc|] eqn:E; [|by destruct (Hn pc)|done].
    exists v, hm. split; [by rewrite lookup_singleton_eq|done].
  - intros k [x Hx]. rewrite Hr in Hx. by apply lookup_singleton_Some in Hx as [<- _].
  - rewrite Hr. by apply lookup_singleton_ne.
  - intros _. vm_compute. by eexists _, _.
Qed.

Lemma ordersOK_single m a v : serverRules m = {[ a := v ]} → a ≠ ":9000" → ordersOK srvConf m (ordersOn a).
Proof.
  intros Hr Ha. unfold ordersOK, walks, served. rewrite Hr.
  assert (Hk : ∀ k, is_Some (({[ a := v ]} : gmap string _) !! k) ↔ k = a).
  { intros k. split; [by intros [x [<- _]%lookup_singleton_Some]|]. intros ->. by rewrite lookup_singleton_eq. }
  change (managementAddr srvConf) with ":9000". simpl.
  repeat split; try (repeat constructor; set_solver); intros H; rewrite ?Hk in *; set_solver.
Qed.

Lemma start_serves_witness :
  ∃ s, startEverything (FS := oneFile ["8080"]) 300 directives srvConf (ordersOn "0.0.0.0:8080") [] = (Waiting, s) ∧
    "0.0.0.0:8080" ∈ running s ∧ ":9000" ∈ running s.
Proof.
  destruct (start_serves (FS := oneFile ["8080"]) 300 directives (configOn ["8080"]) srvConf (mapsOn ["8080"]) (ordersOn "0.0.0.0:8080"))
    as (s & H & Hr & _).
  - apply parsedOK_match. vm_compute. split; reflexivity.
  - apply (comesUp_single _ _ _ rules_8080); [discriminate|vm_compute; reflexivity| |vm_compute; reflexivity|vm_compute; discriminate].
    eexists. split; [vm_compute; reflexivity|]. split; vm_compute; reflexivity.
  - apply (ordersOK_single _ _ _ rules_8080). discriminate.
  - intros k [x Hx]. rewrite rules_8080 in Hx. apply lookup_singleton_Some in Hx as [<- _]. vm_compute. reflexivity.
  - exists s. split; [exact H|]. split; apply Hr; [left; rewrite rules_8080, lookup_singleton_eq; by eexists|right; by split].
Defined.

Lemma ssl_listen_error_lost_witness :
  fst (startEverything (FS := oneFile ["443"; "ssl"]) 300 directives srvConf (ordersOn "0.0.0.0:443") []) = Crashed NilDereference.
Proof.
  apply (ssl_listen_error_lost (FS := oneFile ["443"; "ssl"]) 300 directives (configOn ["443"; "ssl"]) srvConf (mapsOn ["443"; "ssl"])
    (ordersOn "0.0.0.0:443") [] "0.0.0.0:443").
  - apply parsedOK_match. vm_compute. split; reflexivity.
  - apply (comesUp_single _ _ _ rules_443); [discriminate|vm_compute; reflexivity| |vm_compute; reflexivity|vm_compute; discriminate].
    eexists. split; [vm_compute; reflexivity|]. split; [vm_compute; reflexivity|]. vm_compute. by eexists.
  - apply (ordersOK_single _ _ _ rules_443). discriminate.
  - rewrite rules_443, lookup_singleton_eq. by eexists.
  - vm_compute. reflexivity.
Defined.
End Witnesses.
