(* ===== verification/Logging.v ===== *)
(** * Logging (src/ngx_log.go)

    The levels, the log formats, the logger over the file cache, and the access
    log with the templates of its lines, which all requests share. *)

From S2P Require Import Prelude GoStrings FileCache Values Routing GoNet Access GoURL Template Vars.

#[local] Open Scope Z_scope.

(** ** Levels and formats *)

Definition levels : gmap string Z := list_to_map [
  ("debug", 6); ("info", 5); ("notice", 4); ("warn", 3); ("error", 2); ("crit", 1); ("alert", 0)].

(** A level that is not in the map counts as 0. *)
Definition withinLevel (a b : string) : bool := default 0 (levels !! a) <? default 0 (levels !! b).

Record logFormat := mkLogFormat { lf_name : string; lf_template : string; lf_escape : string }.

Definition logFormat_defaults (l : logFormat) : logFormat := mkLogFormat "combined" defaultLogFormat "default".

(** [logFormat.load]. *)
Definition logFormat_load (r : rule) (l : logFormat) : logFormat :=
  match rule_args r with
  | [] => l
  | n :: rest =>
    match rest with
    | [] => mkLogFormat n (lf_template l) (lf_escape l)
    | a :: more =>
      if bool_decide (a ∈ ["default"; "json"; "none"]) then
        mkLogFormat n (match more with [] => lf_template l | _ => Join more "" end) a
      else mkLogFormat n (Join rest "") (lf_escape l)
    end
  end.

(** ** The logger *)

(** What the operating system does: opening a file (for reading, as [os.Open]
    does), writing to an open file, and flushing it. *)
Class LogEnv := {
  osOpen : string → handle + string;
  osWrite : handle → string → option string;
  osSync : handle → option string;
}.

Section Logger.
Context `{LE : LogEnv}.

(** What reached a file. *)
Abbreviation written := (list (handle * string)).

(** [cacheLogger.sync]: the error, and what was written. *)
Definition logSync (h : handle) (data : string) : option string * written :=
  match osWrite h data with
  | Some e => (Some e, [])
  | None => (osSync h, [(h, data)])
  end.

(** [cacheLogger.Print]. *)
Definition logPrint (path : string) (level message : string) (c : readWriterCloserCache)
    : res (option string * written * readWriterCloserCache) :=
  '(f, c) ← cache_Get path c;
  match f with
  | Some h => Ok (logSync h message, c)
  | None =>
    '(r, c) ← cache_Put path (osOpen path) c;
    match r with
    | inr e => Ok (Some e, [], c)
    | inl h => Ok (logSync h message, c)
    end
  end.

Fixpoint logAll (lines : list (string * string * string)) (c : readWriterCloserCache)
    : res (list (option string) * written) :=
  match lines with
  | [] => Ok ([], [])
  | (path, level, msg) :: rest =>
    '(e, w, c) ← logPrint path level msg c;
    '(es, ws) ← logAll rest c;
    Ok (e :: es, w ++ ws)
  end.

(** The files of the cache are ones that were opened. *)
Definition filesOpened (c : readWriterCloserCache) : Prop :=
  ∀ n v, heap c !! n = Some v → ∃ p, osOpen p = inl (file v).

(** An operation of the cache that succeeds keeps it. *)
Lemma cache_Get_opened path c f c' : cache_Get path c = Ok (f, c') → filesOpened c →
  filesOpened c' ∧ ∀ h, f = Some h → ∃ p, osOpen p = inl h.
Proof.
  unfold cache_Get, object. intros H Hc. destruct (hash c !! path) as [n|]; [|by injection H as <- <-].
  destruct (heap c !! n) as [v|] eqn:Ev; [|done]. injection H as <- <-. split; [done|].
  intros h [= <-]. by apply (Hc n).
Qed.

Lemma deleteUnsafe_heap nd c c' : deleteUnsafe nd c = Ok c' → heap c' = heap c.
Proof.
  unfold deleteUnsafe, object. destruct nd as [n|]; [|by intros [= <-]].
  destruct (heap c !! n); [|done]. by intros [= <-].
Qed.

Lemma cache_Put_opened path c r c' : cache_Put path (osOpen path) c = Ok (r, c') → filesOpened c →
  filesOpened c' ∧ ∀ h, r = inl h → ∃ p, osOpen p = inl h.
Proof.
  unfold cache_Put. intros H Hc. destruct (osOpen path) as [h|e] eqn:Eo; [|by injection H as <- <-].
  assert (Hins : ∀ (m : gmap nat fileObject) n, (∀ n' v, m !! n' = Some v → ∃ p, osOpen p = inl (file v)) →
    ∀ n' v, <[n := mkFile path h]> m !! n' = Some v → ∃ p, osOpen p = inl (file v)).
  { intros m n Hm n' v [[<- <-]|[_ Hn]]%lookup_insert_Some; [by exists path|by eapply Hm]. }
  apply bind_Ok_inv in H as (c1 & H1 & H). injection H as <- <-.
  split; [|intros h' [= <-]; by exists path]. unfold filesOpened in *. simpl.
  destruct (hash c !! path) as [n|]; apply bind_Ok_inv in H1 as (x & H1 & H2); injection H2 as <-; simpl.
  - by apply Hins.
  - apply Hins. case_match; [apply deleteUnsafe_heap in H1; by rewrite H1|by injection H1 as <-].
Qed.

Lemma logPrint_fails path level msg c e w c' : (∀ p h data, osOpen p = inl h → osWrite h data ≠ None) →
  filesOpened c → logPrint path level msg c = Ok (e, w, c') → e ≠ None ∧ w = [] ∧ filesOpened c'.
Proof.
  intros Hro Hc H. unfold logPrint in H. apply bind_Ok_inv in H as ([f c1] & H1 & H).
  apply cache_Get_opened in H1 as [Hc1 Hf]; [|done].
  assert (Hs : ∀ h p, osOpen p = inl h → (logSync h msg).1 ≠ None ∧ (logSync h msg).2 = []).
  { intros h p Hh. unfold logSync. specialize (Hro p h msg Hh). by destruct (osWrite h msg). }
  destruct f as [h|].
  - destruct (Hf h eq_refl) as [p Hp]. destruct (Hs h p Hp). injection H as H ?; subst. by rewrite H in *.
  - apply bind_Ok_inv in H as ([r c2] & H2 & H). apply cache_Put_opened in H2 as [Hc2 Hr]; [|done].
    destruct r as [h|err]; [|by injection H as <- <- <-].
    destruct (Hr h eq_refl) as [p Hp]. destruct (Hs h p Hp). injection H as H ?; subst. by rewrite H in *.
Qed.

(** Nothing is ever logged.  The cache opens the log files for reading, and
    a file opened so refuses every write: whatever is printed, and however the
    cache evicts files, each print returns an error and no file gets a byte. *)
Theorem logger_never_writes c lines es ws :
  (∀ p h data, osOpen p = inl h → osWrite h data ≠ None) → filesOpened c →
  logAll lines c = Ok (es, ws) → ws = [] ∧ length es = length lines ∧ Forall (λ e, e ≠ None) es.
Proof.
  intros Hro. revert c es ws. induction lines as [|[[path level] msg] lines IH]; intros c es ws Hc H; simpl in H.
  - by injection H as <- <-.
  - apply bind_Ok_inv in H as ([[e w] c1] & H1 & H). apply logPrint_fails in H1 as (He & -> & Hc1); [|done..].
    apply bind_Ok_inv in H as ([es' ws'] & H2 & H). apply IH in H2 as (-> & Hl & HF); [|done].
    injection H as <- <-. simpl. auto.
Qed.
End Logger.

(** ** The error log *)

(** [errorLog]: the line for the logger, if the context has a file and a logger;
    a logger that is none is a failed type assertion. *)
Definition errorLog (file : option string) (logger : option bool) (level message : string)
    : res (option (string * string * string)) :=
  match file, logger with
  | Some f, Some true => Ok (Some (f, level, message))
  | Some _, Some false => Panic TypeAssertion
  | _, _ => Ok None
  end.

Definition logDebug f lg msg := errorLog f lg "info" msg.
Definition logInfo f lg msg := errorLog f lg "debug" msg.
Definition logNotice f lg msg := errorLog f lg "notice" msg.
Definition logWarn f lg msg := errorLog f lg "warn" msg.
Definition logError f lg msg := errorLog f lg "error" msg.
Definition logCrit f lg msg := errorLog f lg "crit" msg.
Definition logAlert f lg msg := errorLog f lg "alert" msg.

(** ** The access log *)

Section AccessLog.
Context `{T : TextTemplate}.

(** The templates by their format. *)
Abbreviation templates := (gmap string stringTemplateValue).

(** What a request leaves behind: it was served, an error was shown, a line was
    printed. *)
Inductive logEvent := Served | Shown | Line (dest level text : string).

(** [accessLog], the middleware of the management pages.  [failed] says whether
    the next handler returns an error, [vars] is the map of variables of the
    context, [ms] the duration.  The result is whether an error is returned. *)
Definition accessLog (c : logCtx) (vars : option tplData) (ms : string) (failed : bool) (tpls : templates)
    : list logEvent * res bool * templates :=
  match logPath c with
  | None => ([Served], Ok failed, tpls)
  | Some destPath =>
    if (destPath =? "")%string || (destPath =? "/dev/null")%string then ([Served], Ok failed, tpls)
    else
      let level := default "info" (logLevel c) in
      match logger c with
      | None => ([], Ok false, tpls)
      | Some false => ([], Panic TypeAssertion, tpls)
      | Some true =>
        let served := Served :: if failed then [Shown] else [] in
        match vars with
        | None => (served, Panic TypeAssertion, tpls)
        | Some m =>
          let '(line, tpls) := logLine (default defaultLogFormat (Access.logFormat c)) (<[vRequestTime := ms]> m) tpls in
          match line with
          | Ok text => (served ++ [Line destPath level text], Ok false, tpls)
          | Panic p => (served, Panic p, tpls)
          | OutOfFuel => (served, OutOfFuel, tpls)
          end
        end
      end
  end.

(** The requests one after the other. *)
Fixpoint accessLogAll (rs : list (logCtx * option tplData * string * bool)) (tpls : templates)
    : list (list logEvent * res bool) :=
  match rs with
  | [] => []
  | (c, vars, ms, failed) :: rest =>
    let '(es, r, tpls) := accessLog c vars ms failed tpls in (es, r) :: accessLogAll rest tpls
  end.

(** ** What is kept *)

(** The template under a format is the one that the format gives. *)
Definition templatesOK (tpls : templates) : Prop :=
  ∀ f s, tpls !! f = Some s → template_store f noTemplate = Ok s.

Lemma logLine_kept f vars tpls : templatesOK tpls →
  fst (logLine f vars tpls) = fst (logLine f vars ∅) ∧ templatesOK (snd (logLine f vars tpls)).
Proof.
  intros H. unfold logLine. rewrite lookup_empty. destruct (tpls !! f) as [s|] eqn:Es.
  - by rewrite (H f s Es).
  - destruct (template_store f noTemplate) as [s| |] eqn:Et; [|done..]. split; [done|].
    intros f' s'. cbn [snd]. intros [[<- <-]|[_ Hs]]%lookup_insert_Some; [done|by apply H].
Qed.

Lemma accessLog_kept c vars ms failed tpls : templatesOK tpls →
  fst (accessLog c vars ms failed tpls) = fst (accessLog c vars ms failed ∅) ∧
  templatesOK (snd (accessLog c vars ms failed tpls)).
Proof.
  intros H. unfold accessLog. destruct (logPath c) as [d|]; [|done]. case_match; [done|].
  destruct (logger c) as [[]|]; [|done..]. destruct vars as [m|]; [|done].
  destruct (logLine_kept (default defaultLogFormat (Access.logFormat c)) (<[vRequestTime := ms]> m) tpls H) as [E K].
  destruct (logLine _ _ tpls) as [l1 t1], (logLine _ _ ∅) as [l2 t2]. simpl in *. subst l2. by destruct l1.
Qed.

Lemma accessLogAll_kept rs tpls : templatesOK tpls →
  accessLogAll rs tpls = (λ '(c, vars, ms, failed), fst (accessLog c vars ms failed ∅)) <$> rs.
Proof.
  revert tpls. induction rs as [|[[[c vars] ms] failed] rs IH]; intros tpls H; [done|]. simpl.
  destruct (accessLog_kept c vars ms failed tpls H) as [E K].
  destruct (accessLog c vars ms failed tpls) as [[es r] t]. simpl in *. rewrite <- E. f_equal. by apply IH.
Qed.

(** The lines of the access log.  The templates that requests share change
    no line: every request is logged as it would be by itself, with the text of
    its format in which every variable is replaced by its value, whatever was
    logged before and whatever panicked. *)
Theorem access_log_lines rs :
  accessLogAll rs ∅ = (λ '(c, vars, ms, failed), fst (accessLog c vars ms failed ∅)) <$> rs ∧
  ∀ c d m ms failed f tpls, templatesOK tpls → logPath c = Some d → d ≠ ""%string → d ≠ "/dev/null"%string →
    logger c = Some true → Access.logFormat c = Some f → hasByte 123 f = false → usesFunc f = false →
    fst (accessLog c (Some m) ms failed tpls) =
    ((Served :: if failed then [Shown] else []) ++
       [Line d (default "info" (logLevel c)) (expandVars f (<[vRequestTime := ms]> m))], Ok false).
Proof.
  split; [apply accessLogAll_kept; intros f s; by rewrite lookup_empty|].
  intros c d m ms failed f tpls Ht Hd H1 H2 Hl Hf Hb Hu.
  destruct (accessLog_kept c (Some m) ms failed tpls Ht) as [-> _]. unfold accessLog. rewrite Hd, Hl, Hf.
  rewrite <- String.eqb_neq in H1, H2. rewrite H1, H2. cbn [orb default from_option id]. unfold logLine. rewrite lookup_empty.
  destruct (template_value_expands f Hb Hu) as (tv & -> & _ & Hv). by rewrite Hv.
Qed.

(** The default format.  It names the local time, which the templates do not
    know as a function: a request that is logged in the default format is served
    and then ends in a panic. *)
Theorem default_format_panics c d m ms failed tpls :
  (∀ f, IsVariableFunc f = true → parseWord f = None) → templatesOK tpls →
  logPath c = Some d → d ≠ ""%string → d ≠ "/dev/null"%string → logger c = Some true → Access.logFormat c = None →
  fst (accessLog c (Some m) ms failed tpls) = (Served :: if failed then [Shown] else [], Panic ExplicitPanic).
Proof.
  intros Hu Ht Hd H1 H2 Hl Hf. destruct (accessLog_kept c (Some m) ms failed tpls Ht) as [-> _].
  unfold accessLog. rewrite Hd, Hl, Hf. rewrite <- String.eqb_neq in H1, H2. rewrite H1, H2.
  cbn [orb default from_option id]. unfold logLine. rewrite lookup_empty.
  rewrite template_func_panics; [done|done|vm_compute; reflexivity|vm_compute; reflexivity].
Qed.
End AccessLog.

(** ** The theorems at work *)

#[local] Instance readOnly : LogEnv := {|
  osOpen p := inl (String.length p); osWrite _ _ := Some "bad file descriptor"; osSync _ := None |}.

Definition smallCache : readWriterCloserCache :=
  mkCache (mkCacheOption (mkValue true true) (mkValue true 1) (mkValue true 1) (mkValue true 1) (mkValue true 1)) [] ∅ ∅ ∅ [].

Lemma logger_never_writes_witness :
  ∃ es ws, logAll [("a.log", "info", "x"); ("b.log", "info", "y"); ("a.log", "info", "z")] smallCache = Ok (es, ws) ∧
    ws = [] ∧ length es = 3%nat ∧ Forall (λ e, e ≠ None) es.
Proof.
  eexists _, _. split; [vm_compute; reflexivity|].
  apply (logger_never_writes smallCache [("a.log", "info", "x"); ("b.log", "info", "y"); ("a.log", "info", "z")]).
  - discriminate.
  - intros n v. vm_compute. discriminate.
  - vm_compute. reflexivity.
Defined.

Definition logged (format : option string) : logCtx := mkLogCtx (Some "a.log") None format (Some true).

Lemma access_log_lines_witness :
  fst (accessLog (T := bareTemplate) (logged (Some "$uri took")) (Some {[ "uri" := "/x" ]}) "3" true ∅) =
  ([Served; Shown; Line "a.log" "info" (expandVars "$uri took" (<[vRequestTime := "3"]> {[ "uri" := "/x" ]}))], Ok false).
Proof.
  destruct (access_log_lines (T := bareTemplate) []) as [_ H].
  apply (H (logged (Some "$uri took")) "a.log" {[ "uri" := "/x" ]} "3" true "$uri took" ∅);
    [intros f s; rewrite lookup_empty; discriminate|reflexivity|discriminate|discriminate|reflexivity|reflexivity|vm_compute; reflexivity|vm_compute; reflexivity].
Defined.

Lemma default_format_panics_witness :
  fst (accessLog (T := bareTemplate) (logged None) (Some ∅) "3" false ∅) = ([Served], Panic ExplicitPanic).
Proof.
  apply (default_format_panics (T := bareTemplate) (logged None) "a.log" ∅ "3" false ∅);
    [reflexivity|intros f s; rewrite lookup_empty; discriminate|reflexivity|discriminate|discriminate|reflexivity|reflexivity].
Defined.
