(* ===== verification/Html.v ===== *)
(** * Buffers and the tags of pages (src/buffers/buffers.go, src/templates/tpl.go
    and src/conn_tcp_info.go)

    The pools of buffers that the request handlers share, and the meta tags that
    are written with them.  A [sync.Pool] gives any of its items or a new one:
    the choice is an argument. *)

From S2P Require Import Prelude GoStrings.

#[local] Open Scope Z_scope.

(** ** The pools *)

(** What a pool can hold: a [*bytes.Buffer] and a [*strings.Builder] with their
    contents, a []byte with its length. *)
Inductive item := ItemBytes (content : string) | ItemBuilder (content : string) | ItemSlice (len : nat).

Record buffers := mkBuffers { bytesBuf : list item; stringsBuf : list item; sliceBuffer : list item }.

Definition noBuffers : buffers := mkBuffers [] [] [].

(** [Pool.Get]. *)
Definition syncPool_Get (choice : option nat) (new : item) (pool : list item) : item * list item :=
  match choice with
  | None => (new, pool)
  | Some i => match pool !! i with Some x => (x, delete i pool) | None => (new, pool) end
  end.

Definition GetBytes (choice : option nat) (b : buffers) : res string * buffers :=
  let '(x, pool) := syncPool_Get choice (ItemBytes "") (bytesBuf b) in
  (match x with ItemBytes s => Ok s | _ => Panic TypeAssertion end, mkBuffers pool (stringsBuf b) (sliceBuffer b)).

(** The buffer is reset, whatever it holds. *)
Definition PutBytes (content : string) (b : buffers) : buffers :=
  mkBuffers (ItemBytes "" :: bytesBuf b) (stringsBuf b) (sliceBuffer b).

Definition GetString (choice : option nat) (b : buffers) : res string * buffers :=
  let '(x, pool) := syncPool_Get choice (ItemBuilder "") (stringsBuf b) in
  (match x with ItemBuilder s => Ok s | _ => Panic TypeAssertion end, mkBuffers (bytesBuf b) pool (sliceBuffer b)).

Definition PutString (content : string) (b : buffers) : buffers :=
  mkBuffers (bytesBuf b) (ItemBuilder "" :: stringsBuf b) (sliceBuffer b).

Definition GetSlice (choice : option nat) (b : buffers) : res nat * buffers :=
  let '(x, pool) := syncPool_Get choice (ItemSlice 1024) (sliceBuffer b) in
  (match x with ItemSlice n => Ok n | _ => Panic TypeAssertion end, mkBuffers (bytesBuf b) (stringsBuf b) pool).

(** The slice goes into the pool of the builders. *)
Definition PutSlice (len : nat) (b : buffers) : buffers :=
  mkBuffers (bytesBuf b) (ItemSlice 0 :: stringsBuf b) (sliceBuffer b).

(** [getTCPConnInfo], as far as the pools go: the slice is put back when the
    connection is a TCP one, whether or not the option can be read. *)
Definition getTCPConnInfo {Info} (isTCP : bool) (readOpt : nat → Info + string) (choice : option nat) (b : buffers)
    : res (Info + string) * buffers :=
  if negb isTCP then (Ok (inr "unknown connection type"), b)
  else let '(r, b) := GetSlice choice b in
       match r with
       | Ok n => (Ok (readOpt n), PutSlice n b)
       | Panic p => (Panic p, b)
       | OutOfFuel => (OutOfFuel, b)
       end.

(** ** Tags *)

(** [template.HTMLEscapeString], byte by byte. *)
Definition escapeByte (a : Ascii.ascii) : string :=
  let c := byteZ a in
  if c =? 0 then runeString 0xFFFD
  else if c =? 34 then "&#34;"
  else if c =? 39 then "&#39;"
  else if c =? 38 then "&amp;"
  else if c =? 60 then "&lt;"
  else if c =? 62 then "&gt;"
  else String a "".

Fixpoint HTMLEscapeString (s : string) : string :=
  match s with "" => "" | String a s' => escapeByte a +:+ HTMLEscapeString s' end.

(** [attribute.html]: the pairs in the order in which the map is walked, appended
    to what the builder holds. *)
Definition attributeText (kv : string * string) : string :=
  fst kv +:+ if (snd kv =? "")%string then "" else "=" +:+ str1 34 +:+ HTMLEscapeString (snd kv) +:+ str1 34.

Fixpoint attribute_html (l : list (string * string)) (s : string) : string :=
  match l with
  | [] => s
  | kv :: l => attribute_html l ((if (s =? "")%string then s else s +:+ " ") +:+ attributeText kv)
  end.

(** [Meta.HTML]. *)
Definition Meta_HTML (order : list (string * string)) (choice : option nat) (b : buffers) : res string * buffers :=
  let '(r, b) := GetString choice b in
  match r with
  | Ok s => let s := attribute_html order (s +:+ "<meta ") +:+ ">" in (Ok s, PutString s b)
  | Panic p => (Panic p, b)
  | OutOfFuel => (OutOfFuel, b)
  end.

(** ** Runs of the clients of the pools *)

(** A client gets a buffer, or puts back one it has written to. *)
Inductive bufferOp := OGetBytes (choice : option nat) | OPutBytes (content : string)
  | OGetString (choice : option nat) | OPutString (content : string)
  | OGetSlice (choice : option nat) | OPutSlice (len : nat).

(** What a client gets. *)
Inductive bufferOut := OutText (r : res string) | OutSlice (r : res nat) | OutNone.

Definition bufferStep (o : bufferOp) (b : buffers) : bufferOut * buffers :=
  match o with
  | OGetBytes c => let '(r, b) := GetBytes c b in (OutText r, b)
  | OPutBytes s => (OutNone, PutBytes s b)
  | OGetString c => let '(r, b) := GetString c b in (OutText r, b)
  | OPutString s => (OutNone, PutString s b)
  | OGetSlice c => let '(r, b) := GetSlice c b in (OutSlice r, b)
  | OPutSlice n => (OutNone, PutSlice n b)
  end.

Fixpoint bufferRun (os : list bufferOp) (b : buffers) : list bufferOut * buffers :=
  match os with
  | [] => ([], b)
  | o :: os => let '(r, b) := bufferStep o b in let '(rs, b) := bufferRun os b in (r :: rs, b)
  end.

(** What each call gives as long as no slice was put back. *)
Definition cleanOut (o : bufferOp) : bufferOut :=
  match o with
  | OGetBytes _ | OGetString _ => OutText (Ok "")
  | OGetSlice _ => OutSlice (Ok 1024%nat)
  | _ => OutNone
  end.

Definition putsSlice (o : bufferOp) : bool := match o with OPutSlice _ => true | _ => false end.

(** Every pool has empty items of its own kind, but that the pool of the builders
    may have slices when [slices] says so. *)
Definition poolsOK (slices : bool) (b : buffers) : Prop :=
  Forall (eq (ItemBytes "")) (bytesBuf b) ∧
  Forall (λ x, x = ItemBuilder "" ∨ slices = true ∧ x = ItemSlice 0) (stringsBuf b) ∧
  sliceBuffer b = [].

Lemma syncPool_Get_Forall (P : item → Prop) choice new pool x pool' :
  P new → Forall P pool → syncPool_Get choice new pool = (x, pool') → P x ∧ Forall P pool'.
Proof.
  intros Hn Hp. unfold syncPool_Get. destruct choice as [i|]; [|by intros [= <- <-]].
  destruct (pool !! i) as [y|] eqn:Hi; intros [= <- <-]; [|done].
  split; [by eapply Forall_lookup_1|by apply Forall_delete].
Qed.

(** A call gives what it should, or it is [GetString] and slices are about. *)
Lemma bufferStep_OK slices o b : poolsOK slices b →
  (fst (bufferStep o b) = cleanOut o ∨
   slices = true ∧ (∃ c, o = OGetString c) ∧ fst (bufferStep o b) = OutText (Panic TypeAssertion)) ∧
  poolsOK (slices || putsSlice o) (snd (bufferStep o b)).
Proof.
  intros (Hb & Hs & Hl). destruct o as [c|s|c|s|c|n]; simpl; rewrite ?orb_false_r.
  - unfold GetBytes. destruct (syncPool_Get c (ItemBytes "") (bytesBuf b)) as [x p] eqn:E.
    destruct (syncPool_Get_Forall _ _ _ _ _ _ eq_refl Hb E) as [<- ?]. by split; [left|].
  - split; [by left|]. split; [by constructor|done].
  - unfold GetString. destruct (syncPool_Get c (ItemBuilder "") (stringsBuf b)) as [x p] eqn:E.
    destruct (syncPool_Get_Forall _ _ _ _ _ _ (or_introl eq_refl) Hs E) as [[->|[-> ->]] ?].
    + by split; [left|].
    + split; [right; eauto|done].
  - split; [by left|]. split; [done|]. split; [|done]. constructor; [by left|done].
  - unfold GetSlice. rewrite Hl. destruct c; (split; [by left|done]).
  - split; [by left|]. rewrite orb_true_r. split; [done|]. split; [|done].
    constructor; [by right|]. eapply Forall_impl; [exact Hs|]. naive_solver.
Qed.

(** The pools.  In any run of calls on fresh pools, whatever the pools choose,
    [GetBytes] gives an empty buffer and [GetSlice] a slice of 1024 bytes; and as
    long as no slice was put back [GetString] gives an empty builder. *)
Theorem buffers_clean os i o :
  os !! i = Some o →
  (∀ c, o = OGetString c → Forall (λ o', putsSlice o' = false) (take i os)) →
  fst (bufferRun os noBuffers) !! i = Some (cleanOut o).
Proof.
  intros Ho Hc.
  assert (Hgen : ∀ slices b, poolsOK slices b → (∀ c, o = OGetString c → slices = false) →
    fst (bufferRun os b) !! i = Some (cleanOut o)); [|apply (Hgen false); [|done]; by split_and!].
  revert i Ho Hc. induction os as [|o1 os IH]; intros i Ho Hc slices b Hb Hsl; [done|].
  destruct (bufferStep_OK slices o1 b Hb) as [Hout Hb1]. simpl.
  destruct (bufferStep o1 b) as [r b1]. simpl in *. destruct (bufferRun os b1) as [rs b2] eqn:Er.
  destruct i as [|i]; simpl in *.
  - injection Ho as ->. destruct Hout as [->|(Hs & [c Hgs] & _)]; [done|]. by rewrite (Hsl c Hgs) in Hs.
  - specialize (IH i Ho).
    assert (fst (bufferRun os b1) !! i = Some (cleanOut o)) as HI; [|by rewrite Er in HI].
    apply (IH (λ c Hg, proj2 (proj1 (Forall_cons _ _ _) (Hc c Hg))) (slices || putsSlice o1) b1 Hb1).
    intros c Hg. rewrite (Hsl c Hg). by destruct (proj1 (Forall_cons _ _ _) (Hc c Hg)).
Qed.

(** A slice in the wrong pool.  Once [getTCPConnInfo] has read a connection,
    the pool may answer the next [Meta.HTML] with the slice, which panics. *)
Theorem slice_breaks_meta {Info} (readOpt : nat → Info + string) c b order :
  sliceBuffer b = [] →
  ∃ b', getTCPConnInfo true readOpt c b = (Ok (readOpt 1024%nat), b') ∧
        fst (Meta_HTML order (Some 0%nat) b') = Panic TypeAssertion.
Proof.
  intros Hl. unfold getTCPConnInfo, GetSlice. rewrite Hl. destruct c; simpl; eauto.
Qed.

(** ** Reading a tag

    The tokenization of HTML for one start tag, to compare the writer with: the
    newlines of the input stream are normalised, and the states from the name of
    the tag to its end are run byte by byte.  Every character with a meaning is
    ASCII, so on UTF-8 text the bytes give what the characters give.  The table
    of the character references is a parameter, of which the five that the writer
    uses are assumed. *)

(** What the text after an ampersand stands for in an attribute, and how many of
    its bytes are used; [None] when the ampersand stands for itself. *)
Definition writtenReferences : list (string * Z) := [("#34;", 34); ("#39;", 39); ("amp;", 38); ("lt;", 60); ("gt;", 62)].

Class CharacterReferences := {
  reference : string → option (string * nat);
  reference_written name c s : (name, c) ∈ writtenReferences → reference (name +:+ s) = Some (str1 c, String.length name);
}.

(** The preprocessing of the input stream: CR LF and CR are LF.  [cr]: the byte
    before was a CR. *)
Fixpoint newlines (cr : bool) (s : string) : string :=
  match s with
  | "" => ""
  | String a s' =>
    if byteZ a =? 13 then String (zbyte 10) (newlines true s')
    else if (byteZ a =? 10) && cr then newlines false s'
    else String a (newlines false s')
  end.

Definition isBlank (c : Z) : bool := (c =? 9) || (c =? 10) || (c =? 12) || (c =? 32).

(** A byte of a value and one of a name: U+0000 is replaced, capitals become
    small. *)
Definition valueByte (a : Ascii.ascii) : string := if byteZ a =? 0 then runeString 0xFFFD else String a "".
Definition nameByte (a : Ascii.ascii) : string :=
  if inRange (byteZ a) 65 90 then str1 (byteZ a + 32) else valueByte a.

(** A start tag; the attributes in order, a name that is there already is
    dropped. *)
Record startTag := mkTag { tag_name : string; tag_attrs : list (string * string); tag_selfClosing : bool }.
Definition addAttr (n v : string) (t : startTag) : startTag :=
  if decide (n ∈ (tag_attrs t).*1) then t
  else mkTag (tag_name t) (tag_attrs t ++ [(n, v)]) (tag_selfClosing t).

(** The states of the tokenizer; [skip] bytes of a character reference are still
    to be passed over. *)
Inductive tagState :=
| TagName | BeforeName | InName (n : string) | AfterName (n : string) | BeforeValue (n : string)
| Quoted (quote : Z) (n v : string) (skip : nat) | Unquoted (n v : string) (skip : nat) | AfterQuoted | SelfClosing.

Inductive tagOutcome := Go (st : tagState) (t : startTag) | Emit (t : startTag).

Section Tokenizer.
Context `{CR : CharacterReferences}.

(** The attribute name state, with the name so far. *)
Definition inNameStep (n : string) (a : Ascii.ascii) (t : startTag) : tagOutcome :=
  let c := byteZ a in
  if isBlank c then Go (AfterName n) t
  else if c =? 47 then Go SelfClosing (addAttr n "" t)
  else if c =? 62 then Emit (addAttr n "" t)
  else if c =? 61 then Go (BeforeValue n) t
  else Go (InName (n +:+ nameByte a)) t.

Definition beforeNameStep (a : Ascii.ascii) (t : startTag) : tagOutcome :=
  let c := byteZ a in
  if isBlank c then Go BeforeName t
  else if c =? 47 then Go SelfClosing t
  else if c =? 62 then Emit t
  else if c =? 61 then Go (InName "=") t
  else inNameStep "" a t.

(** A byte of a value, [s'] after it: the value and what of [s'] is used. *)
Definition valueStep (v : string) (a : Ascii.ascii) (s' : string) : string * nat :=
  if byteZ a =? 38 then
    match reference s' with Some (r, k) => (v +:+ r, k) | None => (v +:+ String a "", O) end
  else (v +:+ valueByte a, O).

Definition unquotedStep (n v : string) (a : Ascii.ascii) (s' : string) (t : startTag) : tagOutcome :=
  let c := byteZ a in
  if isBlank c then Go BeforeName (addAttr n v t)
  else if c =? 62 then Emit (addAttr n v t)
  else let '(v, k) := valueStep v a s' in Go (Unquoted n v k) t.

Definition tagStep (st : tagState) (a : Ascii.ascii) (s' : string) (t : startTag) : tagOutcome :=
  let c := byteZ a in
  match st with
  | TagName =>
    if isBlank c then Go BeforeName t
    else if c =? 47 then Go SelfClosing t
    else if c =? 62 then Emit t
    else Go TagName (mkTag (tag_name t +:+ nameByte a) (tag_attrs t) (tag_selfClosing t))
  | BeforeName => beforeNameStep a t
  | InName n => inNameStep n a t
  | AfterName n =>
    if isBlank c then Go (AfterName n) t
    else if c =? 47 then Go SelfClosing (addAttr n "" t)
    else if c =? 61 then Go (BeforeValue n) t
    else if c =? 62 then Emit (addAttr n "" t)
    else inNameStep "" a (addAttr n "" t)
  | BeforeValue n =>
    if isBlank c then Go (BeforeValue n) t
    else if (c =? 34) || (c =? 39) then Go (Quoted c n "" 0) t
    else if c =? 62 then Emit (addAttr n "" t)
    else unquotedStep n "" a s' t
  | Quoted q n v (S k) => Go (Quoted q n v k) t
  | Quoted q n v O =>
    if c =? q then Go AfterQuoted (addAttr n v t)
    else let '(v, k) := valueStep v a s' in Go (Quoted q n v k) t
  | Unquoted n v (S k) => Go (Unquoted n v k) t
  | Unquoted n v O => unquotedStep n v a s' t
  | AfterQuoted =>
    if isBlank c then Go BeforeName t
    else if c =? 47 then Go SelfClosing t
    else if c =? 62 then Emit t
    else beforeNameStep a t
  | SelfClosing =>
    if c =? 62 then Emit (mkTag (tag_name t) (tag_attrs t) true) else beforeNameStep a t
  end.

(** The tag and what is left after it; [None] when the text ends inside it. *)
Fixpoint runTag (st : tagState) (t : startTag) (s : string) : option (startTag * string) :=
  match s with
  | "" => None
  | String a s' =>
    match tagStep st a s' t with
    | Go st t => runTag st t s'
    | Emit t => Some (t, s')
    end
  end.

Definition isAlpha (c : Z) : bool := inRange c 65 90 || inRange c 97 122.

(** A start tag at the start of a text. *)
Definition readTag (s : string) : option (startTag * string) :=
  match newlines false s with
  | String a (String b s') =>
    if (byteZ a =? 60) && isAlpha (byteZ b) then runTag TagName (mkTag "" [] false) (String b s') else None
  | _ => None
  end.

(** What is read of a value: newlines are normalised and U+0000 is replaced. *)
Fixpoint replaceNul (s : string) : string :=
  match s with "" => "" | String a s' => valueByte a +:+ replaceNul s' end.
Definition readValue (v : string) : string := replaceNul (newlines false v).

(** A name that is read as it is written: it has a byte, and no blank, slash,
    equals sign, end of tag, capital or zero byte. *)
Definition plainByte (a : Ascii.ascii) : bool :=
  let c := byteZ a in
  negb (isBlank c) && negb (c =? 13) && negb (c =? 47) && negb (c =? 61) && negb (c =? 62) &&
  negb (inRange c 65 90) && negb (c =? 0).
Fixpoint plainBytes (s : string) : bool :=
  match s with "" => true | String a s' => plainByte a && plainBytes s' end.
Definition nameOK (n : string) : Prop := n ≠ "" ∧ plainBytes n = true.

Lemma byteZ_eq a c : byteZ a = c → a = zbyte c.
Proof. intros <-. by rewrite zbyte_byteZ. Qed.

(** The conditions on a plain byte, for rewriting. *)
Lemma plainByte_tests a : plainByte a = true →
  isBlank (byteZ a) = false ∧ (byteZ a =? 13) = false ∧ (byteZ a =? 10) = false ∧ (byteZ a =? 47) = false ∧
  (byteZ a =? 61) = false ∧ (byteZ a =? 62) = false ∧ nameByte a = String a "".
Proof.
  unfold plainByte, nameByte, valueByte. rewrite !andb_true_iff, !negb_true_iff. intros ((((((H1 & H2) & H3) & H4) & H5) & H6) & H7).
  rewrite H1, H2, H3, H4, H5, H6, H7. split_and!; try done. unfold isBlank in H1. rewrite !orb_false_iff in H1. tauto.
Qed.

Lemma inNameStep_plain n a t : plainByte a = true → inNameStep n a t = Go (InName (n +:+ String a "")) t.
Proof.
  intros (H1 & _ & _ & H2 & H3 & H4 & H5)%plainByte_tests. unfold inNameStep. by rewrite H1, H2, H3, H4, H5.
Qed.

Lemma runTag_name n m t s : plainBytes m = true → runTag (InName n) t (m +:+ s) = runTag (InName (n +:+ m)) t s.
Proof.
  revert n. induction m as [|a m IH]; intros n; [by rewrite string_app_nil_r|].
  cbn [plainBytes]. intros [Ha Hm]%andb_true_iff. rewrite string_app_cons. cbn [runTag tagStep].
  rewrite inNameStep_plain, IH by done. by rewrite <- string_app_assoc.
Qed.

(** A name after a blank. *)
Lemma runTag_start st a m t t' s : nameOK (String a m) →
  tagStep st a (m +:+ s) t = inNameStep "" a t' → runTag st t (String a m +:+ s) = runTag (InName (String a m)) t' s.
Proof.
  intros [_ [Ha Hm]%andb_true_iff] Hst. rewrite string_app_cons. cbn [runTag]. rewrite Hst, inNameStep_plain by done.
  by rewrite runTag_name.
Qed.

(** ** Reading an escaped value *)

Lemma runTag_skip q n v r t s : runTag (Quoted q n v (String.length r)) t (r +:+ s) = runTag (Quoted q n v 0) t s.
Proof. induction r as [|a r IH]; [done|]. by rewrite string_app_cons. Qed.

Lemma runTag_reference n v name c t s : (name, c) ∈ writtenReferences →
  runTag (Quoted 34 n v 0) t (String (zbyte 38) (name +:+ s)) = runTag (Quoted 34 n (v +:+ str1 c) 0) t s.
Proof.
  intros Hr. cbn [runTag tagStep]. unfold valueStep. rewrite byteZ_zbyte by lia. simpl (38 =? 34). simpl (38 =? 38). cbn iota.
  rewrite (reference_written name c s Hr). apply runTag_skip.
Qed.

Lemma runTag_byte n v a t s :
  runTag (Quoted 34 n v 0) t (escapeByte a +:+ s) = runTag (Quoted 34 n (v +:+ valueByte a) 0) t s.
Proof.
  unfold escapeByte, valueByte. destruct (Z.eqb_spec (byteZ a) 0) as [H0|H0].
  { change (runeString 0xFFFD) with (String (zbyte 0xEF) (String (zbyte 0xBF) (String (zbyte 0xBD) ""))).
    rewrite !string_app_cons, string_app_nil_l. cbn [runTag tagStep]. unfold valueStep, valueByte. rewrite !byteZ_zbyte by lia.
    simpl. by rewrite <- !string_app_assoc. }
  assert (Href : ∀ name c, (name, c) ∈ writtenReferences → byteZ a = c →
    runTag (Quoted 34 n v 0) t ((String (zbyte 38) name) +:+ s) = runTag (Quoted 34 n (v +:+ String a "") 0) t s).
  { intros name c Hin ->%byteZ_eq. rewrite string_app_cons. by apply runTag_reference. }
  repeat match goal with
  | |- context [byteZ a =? ?c] =>
    destruct (Z.eqb_spec (byteZ a) c) as [E|]; [apply (Href _ c); [unfold writtenReferences; set_solver|done]|]
  end.
  rewrite string_app_cons, string_app_nil_l. cbn [runTag tagStep]. unfold valueStep, valueByte.
  by rewrite !(proj2 (Z.eqb_neq _ _)) by done.
Qed.

Lemma runTag_value n v w t s :
  runTag (Quoted 34 n v 0) t (HTMLEscapeString w +:+ String (zbyte 34) s) =
  runTag AfterQuoted (addAttr n (v +:+ replaceNul w) t) s.
Proof.
  revert v. induction w as [|a w IH]; intros v; simpl; [by rewrite string_app_nil_r|].
  rewrite <- string_app_assoc, runTag_byte, IH. by rewrite <- string_app_assoc.
Qed.

(** ** Reading the attributes *)

(** The attributes, each after a blank, and the end of the tag. *)
Fixpoint attributesText (l : list (string * string)) : string :=
  match l with [] => ">" | kv :: l => String (zbyte 32) (attributeText kv +:+ attributesText l) end.

Lemma attribute_html_text l s : s ≠ "" → attribute_html l s +:+ ">" = s +:+ attributesText l.
Proof.
  revert s. induction l as [|kv l IH]; intros s Hs; [done|]. cbn [attribute_html attributesText].
  rewrite (proj2 (String.eqb_neq _ _) Hs), IH by (by intros [[? _]%string_app_eq_nil _]%string_app_eq_nil).
  by rewrite <- !string_app_assoc.
Qed.

Definition addAll (l : list (string * string)) (t : startTag) : startTag :=
  foldl (λ t kv, addAttr (fst kv) (replaceNul (snd kv)) t) t l.

(** The end of a quoted value, and of a name without a value, before the next
    attribute. *)
Lemma runTag_afterQuoted t l : runTag AfterQuoted t (attributesText l) = runTag BeforeName t (attributesText l).
Proof. by destruct l. Qed.

Lemma runTag_blank t s : runTag BeforeName t (String (zbyte 32) s) = runTag BeforeName t s.
Proof. reflexivity. Qed.

Lemma runTag_nameBlank n t s : runTag (InName n) t (String (zbyte 32) s) = runTag (AfterName n) t s.
Proof. reflexivity. Qed.

Lemma runTag_bareName k t l : Forall (λ kv, nameOK (fst kv)) l →
  runTag (InName k) t (attributesText l) = runTag BeforeName (addAttr k "" t) (attributesText l).
Proof.
  intros [|[[|a n] v] l' [Hne Hn] _]; [done|done|]. cbn [attributesText]. unfold attributeText. simpl fst. simpl snd.
  rewrite runTag_nameBlank, runTag_blank, <- !string_app_assoc. simpl in Hn. apply andb_true_iff in Hn as [Ha Hn].
  destruct (plainByte_tests a Ha) as (H1 & _ & _ & H2 & H3 & H4 & _).
  assert (nameOK (String a n)) by (by split; [|by apply andb_true_iff]).
  rewrite (runTag_start (AfterName k) a n t (addAttr k "" t)); [|done|by unfold tagStep; rewrite H1, H2, H3, H4].
  by rewrite (runTag_start BeforeName a n (addAttr k "" t) (addAttr k "" t));
    [|done|unfold tagStep, beforeNameStep; rewrite H1, H2, H3, H4].
Qed.

Lemma runTag_one kv t l : nameOK (fst kv) → Forall (λ kv, nameOK (fst kv)) l →
  runTag BeforeName t (attributesText (kv :: l)) = runTag BeforeName (addAll [kv] t) (attributesText l).
Proof.
  destruct kv as [[|a k] v]; intros [Hne Hk] Hl; [done|]. clear Hne. unfold addAll. cbn [attributesText foldl fst snd] in *.
  unfold attributeText. cbn [fst snd]. rewrite runTag_blank, <- string_app_assoc.
  pose proof (proj1 (proj1 (andb_true_iff _ _) Hk)) as Ha. destruct (plainByte_tests a Ha) as (H1 & _ & _ & H2 & H3 & H4 & _).
  rewrite (runTag_start BeforeName a k t t); [|done|by unfold tagStep, beforeNameStep; rewrite H1, H2, H3, H4].
  destruct (String.eqb_spec v "") as [->|Hv].
  - rewrite string_app_nil_l. by rewrite runTag_bareName.
  - change ("=" +:+ str1 34 +:+ HTMLEscapeString v +:+ str1 34) with
      (String (zbyte 61) (String (zbyte 34) (HTMLEscapeString v +:+ str1 34))).
    rewrite !string_app_cons, <- string_app_assoc. unfold str1. rewrite string_app_cons, string_app_nil_l.
    cbn [runTag tagStep]. unfold inNameStep. rewrite !byteZ_zbyte by lia. simpl. rewrite runTag_value.
    apply runTag_afterQuoted.
Qed.

Lemma runTag_attributes l t : Forall (λ kv, nameOK (fst kv)) l →
  runTag BeforeName t (attributesText l) = Some (addAll l t, "").
Proof.
  intros Hl. revert t. induction Hl as [|kv l Hkv Hl IH]; intros t; [done|]. by rewrite runTag_one, IH.
Qed.

Lemma addAll_fresh l t : NoDup ((tag_attrs t ++ l).*1) →
  addAll l t = mkTag (tag_name t) (tag_attrs t ++ (prod_map id replaceNul <$> l)) (tag_selfClosing t).
Proof.
  revert t. induction l as [|[k v] l IH]; intros [n attrs sc] Hnd; simpl in *; [by rewrite app_nil_r|].
  unfold addAttr. simpl. rewrite decide_False.
  - rewrite IH; simpl; [by rewrite <- (assoc_L (++))|]. rewrite <- (assoc_L (++)), !fmap_app in *. done.
  - rewrite fmap_app in Hnd. apply NoDup_app in Hnd as (_ & Hd & _). intros Hin. apply (Hd k Hin). left.
Qed.

(** ** Newlines *)

Lemma newlines_kept cr a s : byteZ a ≠ 13 → byteZ a ≠ 10 → newlines cr (String a s) = String a (newlines false s).
Proof. intros H1 H2. simpl. by rewrite !(proj2 (Z.eqb_neq _ _)) by done. Qed.

Lemma newlines_clean cr p s : p ≠ "" → hasByte 13 p = false → hasByte 10 p = false → newlines cr (p +:+ s) = p +:+ newlines false s.
Proof.
  revert cr. induction p as [|a p IH]; intros cr Hne; [done|]. cbn [hasByte].
  intros [H1%Z.eqb_neq H2]%orb_false_iff [H3%Z.eqb_neq H4]%orb_false_iff. rewrite !string_app_cons, newlines_kept by done.
  destruct p as [|b p]; [by rewrite !string_app_nil_l|]. by rewrite IH.
Qed.

Lemma newlines_escape cr v a s : byteZ a ≠ 13 → byteZ a ≠ 10 →
  newlines cr (HTMLEscapeString v +:+ String a s) = HTMLEscapeString (newlines cr v) +:+ String a (newlines false s).
Proof.
  intros H1 H2. revert cr. induction v as [|b v IH]; intros cr; [simpl; rewrite !string_app_nil_l; by apply newlines_kept|].
  cbn [HTMLEscapeString newlines]. rewrite <- string_app_assoc.
  destruct (Z.eqb_spec (byteZ b) 13) as [->%byteZ_eq|H13].
  { change (escapeByte (zbyte 13)) with (String (zbyte 13) ""). rewrite string_app_cons, string_app_nil_l. cbn [newlines].
    rewrite byteZ_zbyte by lia. simpl (13 =? 13). cbn iota. rewrite IH. reflexivity. }
  destruct (Z.eqb_spec (byteZ b) 10) as [->%byteZ_eq|H10].
  { change (escapeByte (zbyte 10)) with (String (zbyte 10) ""). rewrite string_app_cons, string_app_nil_l. cbn [newlines].
    rewrite byteZ_zbyte by lia. simpl (10 =? 13). simpl (10 =? 10). cbn iota. destruct cr; simpl; by rewrite IH. }
  simpl (_ && _). cbn iota. cbn [HTMLEscapeString]. rewrite <- string_app_assoc, <- IH. apply newlines_clean.
  - unfold escapeByte. by repeat case_match.
  - unfold escapeByte. repeat (case_match; [done|]). simpl. by rewrite (proj2 (Z.eqb_neq _ _) H13).
  - unfold escapeByte. repeat (case_match; [done|]). simpl. by rewrite (proj2 (Z.eqb_neq _ _) H10).
Qed.

Lemma newlines_nil v : newlines false v = "" → v = "".
Proof. destruct v as [|a v]; [done|]. simpl. rewrite andb_false_r. by destruct (_ =? _). Qed.

Lemma plainBytes_clean n : plainBytes n = true → hasByte 13 n = false ∧ hasByte 10 n = false.
Proof.
  induction n as [|a n IH]; [done|]. simpl. intros [Ha Hn]%andb_true_iff. apply plainByte_tests in Ha as (_ & -> & -> & _). auto.
Qed.

Lemma newlines_attributes l cr : Forall (λ kv, nameOK (fst kv)) l →
  newlines cr (attributesText l) = attributesText (prod_map id (newlines false) <$> l).
Proof.
  intros Hl. revert cr. induction Hl as [|[k v] l [Hne Hk] Hl IH]; intros cr; [done|]. cbn [fmap list_fmap attributesText].
  simpl in Hne, Hk. rewrite newlines_kept by (rewrite byteZ_zbyte; lia). f_equal.
  unfold attributeText. simpl. rewrite <- !string_app_assoc. apply plainBytes_clean in Hk as [H13 H10].
  rewrite newlines_clean by done. f_equal. unfold id. f_equal.
  destruct (String.eqb_spec v "") as [->|Hv]; [by rewrite !string_app_nil_l, IH|].
  destruct (String.eqb_spec (newlines false v) "") as [?%newlines_nil|_]; [done|].
  rewrite <- !string_app_assoc. rewrite (newlines_clean false "=") by done. f_equal.
  rewrite (newlines_clean false (str1 34)) by done. f_equal.
  unfold str1. rewrite !string_app_cons, !string_app_nil_l, newlines_escape by (rewrite byteZ_zbyte; lia). by rewrite IH.
Qed.

Lemma readTag_meta l : Forall (λ kv, nameOK (fst kv)) l → NoDup (l.*1) →
  readTag ("<meta " +:+ attributesText l) = Some (mkTag "meta" (prod_map id readValue <$> l) false, "").
Proof.
  intros Hl Hnd. unfold readTag. rewrite (newlines_clean false "<meta ") by done. rewrite newlines_attributes by done.
  rewrite !string_app_cons, string_app_nil_l.
  set (text := attributesText _). change (runTag BeforeName (mkTag "meta" [] false) text =
    Some (mkTag "meta" (prod_map id readValue <$> l) false, "")). subst text.
  rewrite runTag_attributes by (apply Forall_fmap; exact Hl). rewrite addAll_fresh.
  - simpl. rewrite <- list_fmap_compose. done.
  - simpl. rewrite <- list_fmap_compose. by rewrite (list_fmap_ext _ fst l) by done.
Qed.

(** C25: a tag read back.  As long as no slice was put into the pools, whatever
    builder it is given and in whatever order the map is walked, the text of
    [Meta.HTML] is read as HTML as one start tag named meta, nothing left, with
    the attributes of the map: the names are the same, and a value is read with
    its newlines normalised and its zero bytes replaced by U+FFFD, whatever it
    holds, so that none ends its quotes or the tag.  The names must be ones that
    HTML reads as they are written. *)
Theorem meta_roundtrip (m : gmap string string) order choice b :
  order ≡ₚ map_to_list m → poolsOK false b → map_Forall (λ k _, nameOK k) m →
  ∃ text b' attrs, Meta_HTML order choice b = (Ok text, b') ∧ poolsOK false b' ∧
    readTag text = Some (mkTag "meta" attrs false, "") ∧
    list_to_map attrs = readValue <$> m.
Proof.
  intros Ho Hb Hm. unfold Meta_HTML.
  destruct (bufferStep_OK false (OGetString choice) b Hb) as [Hout Hb1]. simpl in Hout, Hb1.
  destruct (GetString choice b) as [r b1]. simpl in Hout, Hb1.
  destruct Hout as [[= ->]|[? _]]; [|done]. eexists _, _, _. split; [reflexivity|]. split.
  { exact (proj2 (bufferStep_OK false (OPutString "") b1 Hb1)). }
  rewrite string_app_nil_l, attribute_html_text by done.
  assert (HF : Forall (λ kv, nameOK (fst kv)) order).
  { rewrite Ho. apply Forall_forall. intros [k v] Hkv. by apply (Hm k v), elem_of_map_to_list. }
  assert (Hnd : NoDup (order.*1)) by (rewrite Ho; apply NoDup_fst_map_to_list).
  split; [by apply readTag_meta|]. rewrite list_to_map_fmap. f_equal.
  rewrite (list_to_map_proper _ (map_to_list m)); [apply list_to_map_to_list|done|done].
Qed.
End Tokenizer.

(** ** The theorems at work *)

Definition someCalls : list bufferOp :=
  [OGetString None; OPutString "x"; OGetBytes (Some 0%nat); OGetString (Some 0%nat); OPutSlice 1024; OGetBytes None].

Lemma buffers_clean_witness :
  fst (bufferRun someCalls noBuffers) !! 3%nat = Some (OutText (Ok "")) ∧
  fst (bufferRun someCalls noBuffers) !! 5%nat = Some (OutText (Ok "")).
Proof.
  split.
  - apply (buffers_clean someCalls 3 (OGetString (Some 0%nat)) eq_refl). intros _ _. repeat constructor.
  - apply (buffers_clean someCalls 5 (OGetBytes None) eq_refl). done.
Defined.

Lemma slice_breaks_meta_witness :
  ∃ b', getTCPConnInfo true (λ n, inl n) None noBuffers = (Ok (inl (B := string) 1024%nat), b') ∧
        fst (Meta_HTML [("name", "viewport")] (Some 0%nat) b') = Panic TypeAssertion.
Proof. exact (slice_breaks_meta (λ n, inl n) None noBuffers [("name", "viewport")] eq_refl). Defined.

(** A value that would end the tag. *)
Definition evilValue : string := "a" +:+ str1 34 +:+ "><script>" +:+ str1 13 +:+ str1 10 +:+ "&amp;".

(** The references that the writer uses, and no others. *)
#[local] Instance writtenOnly : CharacterReferences.
Proof.
  refine {| reference s := (λ '(_, (name, c)), (str1 c, String.length name)) <$>
              list_find (λ r, HasPrefix s (fst r) = true) writtenReferences |}.
  intros name c s Hin. unfold writtenReferences in Hin. rewrite !elem_of_cons, elem_of_nil in Hin.
  destruct Hin as [[= -> ->]|[[= -> ->]|[[= -> ->]|[[= -> ->]|[[= -> ->]|[]]]]]]; by destruct s.
Defined.

Lemma meta_roundtrip_witness :
  ∃ text b' attrs, Meta_HTML [("content", evilValue); ("hidden", "")] None noBuffers = (Ok text, b') ∧ poolsOK false b' ∧
    readTag text = Some (mkTag "meta" attrs false, "") ∧
    list_to_map attrs = readValue <$> ({[ "content" := evilValue; "hidden" := "" ]} : gmap string string).
Proof.
  apply (meta_roundtrip {[ "content" := evilValue; "hidden" := "" ]}).
  - by vm_compute.
  - by split_and!; [constructor|constructor|].
  - apply map_Forall_insert_2; [by split; vm_compute|]. apply map_Forall_singleton. by split; vm_compute.
Defined.
