(* ===== verification/Metrics.v ===== *)
(** * Metrics (src/metrics.go)

    The counters and histograms of the requests, the two middlewares that fill
    them, and the conversion of gathered metrics to samples of a time series
    store.  A vector maps label values to what was observed under them; the
    numbers are whole. *)

From S2P Require Import Prelude GoStrings Parse Servers Html.

#[local] Open Scope Z_scope.

(** ** Vectors *)

Record metricVec := mkVec { vec_name : string; vec_labels : list string; vec_data : gmap (list string) (list Z) }.

Definition newVec (subsystem name : string) (labels : list string) : metricVec :=
  mkVec ("vince_" +:+ subsystem +:+ "_" +:+ name) labels ∅.

Definition httpLabels : list string := ["server"; "code"; "method"; "handler"].
Definition tcpLabels : list string := ["local_local"; "local_remote"; "remote_local"; "remote_remote"].

Definition httpTotalRequests : metricVec := newVec "http" "total_requests" httpLabels.
Definition httpRequestDuration : metricVec := newVec "http" "request_duration" httpLabels.
Definition httpRequestSize : metricVec := newVec "http" "request_size" httpLabels.
Definition httpResponseSize : metricVec := newVec "http" "response_size" httpLabels.
Definition tcpLocalBytesRead : metricVec := newVec "stream" "local_bytes_read" tcpLabels.
Definition tcpLocalBytesWritten : metricVec := newVec "stream" "local_bytes_written" tcpLabels.
Definition tcpRemoteBytesRead : metricVec := newVec "stream" "remote_bytes_read" tcpLabels.
Definition tcpRemoteBytesWritten : metricVec := newVec "stream" "remote_bytes_written" tcpLabels.
Definition tcpStreamDuration : metricVec := newVec "stream" "stream_duration" tcpLabels.
Definition tcpTotalAcceptedConnection : metricVec :=
  newVec "stream" "accepted_connections" ["local_local"; "local_remote"].

(** The vectors that are registered, and so exported. *)
Definition registered : list metricVec :=
  [httpTotalRequests; httpRequestDuration; httpRequestSize; httpResponseSize;
   tcpLocalBytesRead; tcpLocalBytesWritten; tcpRemoteBytesRead; tcpRemoteBytesWritten].

(** [utf8.ValidString]. *)
Definition ValidString (s : string) : bool :=
  forallb validRune (utf8Decode s) && (runesString (utf8Decode s) =? s)%string.

(** [WithLabelValues(...).Observe(x)]: a panic when the number of values is not
    that of the labels, or when a value is not valid UTF-8.  [Inc] is an
    observation of 1. *)
Definition observe (lvs : list string) (x : Z) (v : metricVec) : res metricVec :=
  if decide (length lvs = length (vec_labels v))
  then
    if forallb ValidString lvs
    then Ok (mkVec (vec_name v) (vec_labels v) (<[lvs := default [] (vec_data v !! lvs) ++ [x]]> (vec_data v)))
    else Panic ExplicitPanic
  else Panic ExplicitPanic.

(** The vectors of the requests. *)
Record httpMetrics := mkHttpMetrics { hm_total : metricVec; hm_duration : metricVec; hm_size : metricVec; hm_response : metricVec }.

Definition httpMetrics_init : httpMetrics :=
  mkHttpMetrics httpTotalRequests httpRequestDuration httpRequestSize httpResponseSize.

(** ** Requests *)

(** [int] arithmetic. *)
Definition wrap64 (z : Z) : Z := (z + 2 ^ 63) mod 2 ^ 64 - 2 ^ 63.

(** What the size of a request is computed from; the URL may be nil. *)
Record sizedRequest := mkSized {
  sz_url : option string; sz_method : string; sz_proto : string; sz_header : list (string * list string);
  sz_host : string; sz_contentLength : Z;
}.

Definition strLen (s : string) : Z := Z.of_nat (String.length s).

Definition computeApproximateRequestSize (r : sizedRequest) : Z :=
  let s := match sz_url r with Some u => strLen u | None => 0 end in
  let s := wrap64 (s + strLen (sz_method r)) in
  let s := wrap64 (s + strLen (sz_proto r)) in
  let s := foldl (λ s '(name, values), foldl (λ s v, wrap64 (s + strLen v)) (wrap64 (s + strLen name)) values) s (sz_header r) in
  let s := wrap64 (s + strLen (sz_host r)) in
  if negb (sz_contentLength r =? -1) then wrap64 (s + sz_contentLength r) else s.

(** [wrapResponseWriter] and the two calls a handler makes on it; the writer
    inside accepts [n] bytes of a write. *)
Record wrapResponseWriter := mkWriter { w_code : Z; w_size : Z }.
Inductive writerCall := WriteHeader (status : Z) | Write (n : Z).

Definition writerStep (w : wrapResponseWriter) (c : writerCall) : wrapResponseWriter :=
  match c with
  | WriteHeader status => mkWriter status (w_size w)
  | Write n => mkWriter (w_code w) (wrap64 (w_size w + n))
  end.

(** The four observations of a request, in the order of the source. *)
Definition observeAll (duration lvs : list string) (d size response : Z) (m : httpMetrics) : res httpMetrics :=
  dur ← observe duration d (hm_duration m);
  sz ← observe lvs size (hm_size m);
  rs ← observe lvs response (hm_response m);
  tot ← observe lvs 1 (hm_total m);
  Ok (mkHttpMetrics tot dur sz rs).

(** A request through [instrumentEcho].  [ec_addr] is the address of the listener,
    [None] when the context has no server; the status is the one before the error
    of the handler is shown, the size the one after. *)
Record echoCall := mkEchoCall {
  ec_addr : option string; ec_status : Z; ec_failed : bool; ec_sizeAfter : Z;
  ec_method : string; ec_path : string; ec_request : sizedRequest; ec_duration : Z;
}.

Definition echoLabels (addr : string) (c : echoCall) : list string :=
  [addr; Itoa (ec_status c); ec_method c; ec_path c].

Definition instrumentEcho (c : echoCall) (m : httpMetrics) : res (bool * httpMetrics) :=
  match ec_addr c with
  | None => Panic TypeAssertion
  | Some addr =>
    let lvs := echoLabels addr c in
    m ← observeAll lvs lvs (ec_duration c) (computeApproximateRequestSize (ec_request c)) (ec_sizeAfter c) m;
    Ok (ec_failed c, m)
  end.

(** A request through [instrumentHandler]: the labels of the duration lack the
    address. *)
Definition instrumentHandler (addr : option string) (calls : list writerCall) (method path : string)
    (r : sizedRequest) (duration : Z) (m : httpMetrics) : res httpMetrics :=
  match addr with
  | None => Panic TypeAssertion
  | Some addr =>
    let d := foldl writerStep (mkWriter 0 0) calls in
    let status := if w_code d =? 0 then 200 else w_code d in
    observeAll [Itoa status; method; path] [addr; Itoa status; method; path] duration
      (computeApproximateRequestSize r) (w_size d) m
  end.

Fixpoint echoAll (cs : list echoCall) (m : httpMetrics) : res httpMetrics :=
  match cs with [] => Ok m | c :: cs => '(_, m) ← instrumentEcho c m; echoAll cs m end.

(** ** What is counted *)

Definition vecsOK (m : httpMetrics) : Prop :=
  vec_labels (hm_total m) = httpLabels ∧ vec_labels (hm_duration m) = httpLabels ∧
  vec_labels (hm_size m) = httpLabels ∧ vec_labels (hm_response m) = httpLabels.

(** What a vector holds under some values. *)
Definition observed (v : metricVec) (lvs : list string) : list Z := default [] (vec_data v !! lvs).

(** The requests of a server with the given status, method and path. *)
Definition withLabels (srv code method path : string) (cs : list echoCall) : list echoCall :=
  filter (λ c, ec_addr c = Some srv ∧ Itoa (ec_status c) = code ∧ ec_method c = method ∧ ec_path c = path) cs.

(** A request whose server, method and path are valid UTF-8. *)
Definition labelsValid (addr : option string) (method path : string) : Prop :=
  (∀ a, addr = Some a → validText a) ∧ validText method ∧ validText path.

Lemma ValidString_spec s : ValidString s = true ↔ validText s.
Proof.
  unfold ValidString. split; intros H.
  - reflect_bools. exists (utf8Decode s). split; [by apply forallb_Forall|done].
  - apply validText_decode in H as [H1 H2]. by rewrite H2, String.eqb_refl, (proj2 (forallb_Forall _ _) H1).
Qed.

#[export] Instance validText_dec s : Decision (validText s).
Proof.
  destruct (ValidString s) eqn:E; [left; by apply ValidString_spec|right]. intros H%ValidString_spec. congruence.
Defined.

#[export] Instance labelsValid_dec addr method path : Decision (labelsValid addr method path).
Proof.
  unfold labelsValid. apply and_dec; [|apply _]. destruct addr as [a|]; [|by left].
  destruct (decide (validText a)) as [H|H]; [left|right]; naive_solver.
Defined.

Lemma validText_ascii a s : byteZ a < 128 → validText s → validText (String a s).
Proof.
  intros Ha Hs. pose proof (byteZ_range a).
  assert (String a s = runeString (byteZ a) +:+ s) as ->.
  { unfold runeString. replace ((0 <=? byteZ a) && (byteZ a <=? 0x7F)) with true by lia.
    unfold str1. by rewrite zbyte_byteZ, string_app_cons, string_app_nil_l. }
  apply validText_app; [apply validText_rune|done]. unfold validRune. lia.
Qed.

Lemma itoaGo_valid fuel n acc : 0 ≤ n → validText acc → validText (itoaGo fuel n acc).
Proof.
  revert n acc. induction fuel as [|f IH]; intros n acc Hn Hacc; simpl; [done|].
  assert (validText (String (zbyte (48 + n mod 10)) acc)).
  { pose proof (Z.mod_pos_bound n 10). apply validText_ascii; [rewrite byteZ_zbyte by lia; lia|done]. }
  destruct (n <? 10); [done|]. apply IH; [apply Z.div_pos; lia|done].
Qed.

Lemma Itoa_valid n : validText (Itoa n).
Proof.
  unfold Itoa. destruct (n <? 0) eqn:E.
  - apply validText_ascii; [rewrite byteZ_zbyte; lia|]. apply itoaGo_valid; [lia|apply validText_nil].
  - apply itoaGo_valid; [lia|apply validText_nil].
Qed.

Lemma observe_labels lvs x v : length lvs = length (vec_labels v) → Forall validText lvs → ∃ v', observe lvs x v = Ok v' ∧
  vec_labels v' = vec_labels v ∧ ∀ l, observed v' l = observed v l ++ (if decide (l = lvs) then [x] else []).
Proof.
  intros Hl Hv. unfold observe. rewrite decide_True by done.
  rewrite (proj2 (forallb_Forall ValidString lvs)) by (eapply Forall_impl; [exact Hv|by intros ? ?%ValidString_spec]).
  eexists. split; [done|]. split; [done|].
  intros l. unfold observed. simpl. case_decide as E; [subst l; by rewrite lookup_insert_eq|].
  rewrite lookup_insert_ne by done. by rewrite app_nil_r.
Qed.

Lemma observe_short lvs x v : length lvs ≠ length (vec_labels v) → observe lvs x v = Panic ExplicitPanic.
Proof. intros H. unfold observe. by rewrite decide_False. Qed.

Lemma observe_invalid lvs x v : ¬ Forall validText lvs → observe lvs x v = Panic ExplicitPanic.
Proof.
  intros H. unfold observe. case_decide; [|done]. destruct (forallb ValidString lvs) eqn:E; [|done].
  exfalso. apply H. apply forallb_Forall in E. eapply Forall_impl; [exact E|by intros ? ?%ValidString_spec].
Qed.

Lemma echoLabels_valid c addr : ec_addr c = Some addr →
  Forall validText (echoLabels addr c) ↔ labelsValid (ec_addr c) (ec_method c) (ec_path c).
Proof.
  intros ->. unfold echoLabels, labelsValid. rewrite !Forall_cons, Forall_nil. pose proof (Itoa_valid (ec_status c)).
  naive_solver.
Qed.

(** A vector after some requests, each of which was observed as [f] says. *)
Definition counts (f : echoCall → Z) (cs : list echoCall) (v v' : metricVec) : Prop :=
  ∀ srv code method path, observed v' [srv; code; method; path] =
    observed v [srv; code; method; path] ++ (f <$> withLabels srv code method path cs).

Definition countsAll (cs : list echoCall) (m m' : httpMetrics) : Prop :=
  counts (λ _, 1) cs (hm_total m) (hm_total m') ∧ counts ec_duration cs (hm_duration m) (hm_duration m') ∧
  counts (λ c, computeApproximateRequestSize (ec_request c)) cs (hm_size m) (hm_size m') ∧
  counts ec_sizeAfter cs (hm_response m) (hm_response m').

Lemma counts_one f c addr v v' : ec_addr c = Some addr →
  (∀ l, observed v' l = observed v l ++ (if decide (l = echoLabels addr c) then [f c] else [])) → counts f [c] v v'.
Proof.
  intros Ha H srv code method path. rewrite H. f_equal. unfold withLabels. rewrite filter_cons, filter_nil.
  unfold echoLabels. repeat case_decide; naive_solver.
Qed.

Lemma counts_trans f cs1 cs2 v1 v2 v3 : counts f cs1 v1 v2 → counts f cs2 v2 v3 → counts f (cs1 ++ cs2) v1 v3.
Proof.
  intros H1 H2 srv code method path. unfold withLabels. by rewrite filter_app, fmap_app, H2, H1, (assoc_L (++)).
Qed.

Lemma countsAll_trans cs1 cs2 m1 m2 m3 : countsAll cs1 m1 m2 → countsAll cs2 m2 m3 → countsAll (cs1 ++ cs2) m1 m3.
Proof. unfold countsAll. intuition eauto using counts_trans. Qed.

Lemma countsAll_nil m : countsAll [] m m.
Proof. unfold countsAll, counts, withLabels. split_and!; intros ????; by rewrite app_nil_r. Qed.

Lemma instrumentEcho_counts c m addr : vecsOK m → ec_addr c = Some addr → labelsValid (ec_addr c) (ec_method c) (ec_path c) →
  ∃ m', instrumentEcho c m = Ok (ec_failed c, m') ∧ vecsOK m' ∧ countsAll [c] m m'.
Proof.
  intros (H1 & H2 & H3 & H4) Ha Hv. apply (echoLabels_valid c addr Ha) in Hv. unfold instrumentEcho, observeAll. rewrite Ha.
  destruct (observe_labels (echoLabels addr c) (ec_duration c) (hm_duration m)) as (d & -> & L1 & O1); [by rewrite H2|done|].
  destruct (observe_labels (echoLabels addr c) (computeApproximateRequestSize (ec_request c)) (hm_size m))
    as (z & -> & L2 & O2); [by rewrite H3|done|].
  destruct (observe_labels (echoLabels addr c) (ec_sizeAfter c) (hm_response m)) as (r & -> & L3 & O3); [by rewrite H4|done|].
  destruct (observe_labels (echoLabels addr c) 1 (hm_total m)) as (t & -> & L4 & O4); [by rewrite H1|done|].
  simpl. eexists. split; [done|]. unfold vecsOK. simpl. rewrite L1, L2, L3, L4. split; [done|].
  unfold countsAll. split_and!; by eapply counts_one.
Qed.

Lemma instrumentEcho_invalid c m : is_Some (ec_addr c) → ¬ labelsValid (ec_addr c) (ec_method c) (ec_path c) →
  instrumentEcho c m = Panic ExplicitPanic.
Proof.
  intros [addr Ha] Hv. unfold instrumentEcho, observeAll. rewrite Ha. cbv zeta.
  rewrite (observe_invalid _ (ec_duration c)); [done|]. by rewrite (echoLabels_valid c addr Ha).
Qed.

Lemma echoAll_counts cs m : vecsOK m → Forall (λ c, is_Some (ec_addr c)) cs →
  Forall (λ c, labelsValid (ec_addr c) (ec_method c) (ec_path c)) cs →
  ∃ m', echoAll cs m = Ok m' ∧ vecsOK m' ∧ countsAll cs m m'.
Proof.
  intros Hm Hcs Hv. revert m Hm. induction Hcs as [|c cs [addr Ha] _ IH]; intros m Hm; [eauto using countsAll_nil|].
  inversion_clear Hv as [|?? Hc Hv'].
  destruct (instrumentEcho_counts c m addr Hm Ha Hc) as (m1 & E1 & H1 & O1). simpl. rewrite E1. simpl.
  destruct (IH Hv' m1 H1) as (m' & -> & H' & O'). exists m'. split_and!; [done..|].
  by apply (countsAll_trans [c] cs m m1 m').
Qed.

Lemma echoAll_invalid cs m : vecsOK m → Forall (λ c, is_Some (ec_addr c)) cs →
  ¬ Forall (λ c, labelsValid (ec_addr c) (ec_method c) (ec_path c)) cs → echoAll cs m = Panic ExplicitPanic.
Proof.
  intros Hm Hcs Hv. revert m Hm. induction Hcs as [|c cs [addr Ha] _ IH]; intros m Hm; [by destruct Hv|].
  simpl. destruct (decide (labelsValid (ec_addr c) (ec_method c) (ec_path c))) as [Hc|Hc].
  - destruct (instrumentEcho_counts c m addr Hm Ha Hc) as (m1 & -> & H1 & _). simpl. apply IH; [|done].
    intros H. apply Hv. by constructor.
  - by rewrite instrumentEcho_invalid.
Qed.

(** C36: What is counted.  For every sequence of requests that came through a
    server, with a server address, a method and a path that are valid UTF-8, no
    request panics, and under the address of a server, a status, a method and a
    path (the labels server, code, method and handler) the counter holds the
    number of the requests to this server with this status, method and path, and
    the histograms of durations, request sizes and response sizes hold theirs in
    order.  One address, method or path that is not valid UTF-8 makes the run
    panic.  The status is that from before the error of a handler is shown. *)
Theorem requests_counted cs :
  Forall (λ c, is_Some (ec_addr c)) cs →
  (Forall (λ c, labelsValid (ec_addr c) (ec_method c) (ec_path c)) cs →
   ∃ m, echoAll cs httpMetrics_init = Ok m ∧ vec_labels (hm_total m) = ["server"; "code"; "method"; "handler"] ∧
    ∀ srv code method path,
      let lvs := [srv; code; method; path] in
      let matching := filter (λ c, ec_addr c = Some srv ∧ Itoa (ec_status c) = code ∧ ec_method c = method ∧ ec_path c = path) cs in
      length (observed (hm_total m) lvs) = length matching ∧
      observed (hm_duration m) lvs = ec_duration <$> matching ∧
      observed (hm_size m) lvs = (λ c, computeApproximateRequestSize (ec_request c)) <$> matching ∧
      observed (hm_response m) lvs = ec_sizeAfter <$> matching) ∧
  (¬ Forall (λ c, labelsValid (ec_addr c) (ec_method c) (ec_path c)) cs →
   echoAll cs httpMetrics_init = Panic ExplicitPanic).
Proof.
  intros Hcs. split; [|by apply echoAll_invalid]. intros Hv.
  destruct (echoAll_counts cs httpMetrics_init) as (m & Hm & [Hl _] & C1 & C2 & C3 & C4); [done..|].
  exists m. split_and!; [done|by rewrite Hl|]. intros srv code method path. cbv zeta.
  rewrite (C1 srv code method path), (C2 srv code method path), (C3 srv code method path), (C4 srv code method path).
  unfold observed. simpl. rewrite !lookup_empty. simpl. by rewrite length_fmap.
Qed.

(** The other middleware.  It names three labels for the duration, which has
    four: every request that goes through it is served and then panics. *)
Theorem instrumentHandler_panics addr calls method path r duration m :
  vecsOK m → instrumentHandler (Some addr) calls method path r duration m = Panic ExplicitPanic.
Proof.
  intros (_ & H & _). unfold instrumentHandler, observeAll. rewrite (observe_short [_; method; path]); [done|].
  by rewrite H.
Qed.

(** ** The page of the metrics *)

(** What [metricsHandler] answers: [http.Error], or the text under the headers
    Content-Type and Content-Length. *)
Inductive metricsReply := Failure (status : Z) (message : string) | Page (contentType contentLength body : string).

(** [gathered] are the families or the error of gathering, [encode] the text of a
    family in a format or the error of encoding it. *)
Fixpoint encodeFamilies {A} (encode : A → string + string) (mfs : list A) (buf : string) : string * option string :=
  match mfs with
  | [] => (buf, None)
  | mf :: rest => match encode mf with inl t => encodeFamilies encode rest (buf +:+ t) | inr e => (buf, Some e) end
  end.

(** The buffer comes from the pool and goes back to it on every return. *)
Definition metricsHandler {A H} (negotiate : H → string) (header : H) (gathered : list A + string)
    (encode : string → A → string + string) (choice : option nat) (b : buffers) : res metricsReply * buffers :=
  match gathered with
  | inr e => (Ok (Failure 500 e), b)
  | inl mfs =>
    let contentType := negotiate header in
    let '(buf, b) := GetBytes choice b in
    match buf with
    | Panic p => (Panic p, b)
    | OutOfFuel => (OutOfFuel, b)
    | Ok buf =>
      let '(buf, err) := encodeFamilies (encode contentType) mfs buf in
      (Ok (match err with
           | Some e => Failure 500 e
           | None => Page contentType (Itoa (strLen buf)) buf
           end), PutBytes buf b)
    end
  end.

Lemma metricsHandler_OK {A H} negotiate (header : H) (gathered : list A + string) encode choice b :
  poolsOK true b → ∃ reply b', metricsHandler negotiate header gathered encode choice b = (Ok reply, b') ∧ poolsOK true b'.
Proof.
  intros Hb. unfold metricsHandler. destruct gathered as [mfs|e]; [|by eauto].
  destruct (bufferStep_OK true (OGetBytes choice) _ Hb) as [Hout Hb1]. simpl in Hout, Hb1.
  destruct (GetBytes choice b) as [buf b1]. simpl in Hout, Hb1. destruct Hout as [[= ->]|(_ & [? [=]] & _)].
  destruct (encodeFamilies (encode (negotiate header)) mfs "") as [text err].
  pose proof (proj2 (bufferStep_OK true (OPutBytes text) b1 Hb1)). eauto.
Qed.

(** A page is sent when every family has a text, and it is all of them in order,
    under its type and its length. *)
Lemma metricsHandler_page {A H} negotiate (header : H) (mfs : list A) encode (texts : list string) choice b :
  poolsOK true b → Forall2 (λ mf t, encode (negotiate header) mf = inl t) mfs texts →
  ∃ b', metricsHandler negotiate header (inl mfs) encode choice b =
    (Ok (Page (negotiate header) (Itoa (strLen (Join texts ""))) (Join texts "")), b') ∧ poolsOK true b'.
Proof.
  intros Hb HF. unfold metricsHandler.
  destruct (bufferStep_OK true (OGetBytes choice) _ Hb) as [Hout Hb1]. simpl in Hout, Hb1.
  destruct (GetBytes choice b) as [buf b1]. simpl in Hout, Hb1. destruct Hout as [[= ->]|(_ & [? [=]] & _)].
  assert (Hgo : ∀ buf, encodeFamilies (encode (negotiate header)) mfs buf = (buf +:+ foldr String.append "" texts, None)).
  { induction HF as [|mf t mfs texts Ht _ IH]; intros buf; simpl; [by rewrite string_app_nil_r|].
    rewrite Ht, IH. by rewrite string_app_assoc. }
  rewrite Hgo, string_app_nil_l.
  assert (foldr String.append "" texts = Join texts "") as ->.
  { clear. induction texts as [|t texts IH]; [done|]. simpl. rewrite IH.
    destruct texts as [|t' texts]; [simpl; by rewrite string_app_nil_r|done]. }
  eexists. split; [done|]. exact (proj2 (bufferStep_OK true (OPutBytes (Join texts "")) b1 Hb1)).
Qed.

(** ** Samples *)

Section Samples.
(** Floating-point numbers, their text, and the conversion of whole ones. *)
Context {V : Type} (zero : V) (ofInt : Z → V) (show : V → string).

Inductive metricType := COUNTER | GAUGE | SUMMARY | UNTYPED | HISTOGRAM.

(** A label pair and a metric of the data model; every field may be missing. *)
Abbreviation labelPair := (option string * option string)%type.
Record metric := mkMetric {
  m_label : list labelPair; m_ts : option Z;
  m_gauge : option V; m_counter : option V; m_untyped : option V;
  m_summary : option (V * Z * list (V * V)); m_histogram : option (V * Z * list (V * Z));
}.
Record metricFamily := mkFamily { f_name : option string; f_type : metricType; f_metric : list metric }.

Abbreviation labels := (list (string * string)).
Record metricEntry := mkEntry { e_labels : labels; e_ts : Z; e_value : V }.

(** [Builder.Set] and [Builder.Labels] of the library, on no base. *)
Fixpoint builderSet (n v : string) (add : labels) : labels :=
  match add with
  | [] => [(n, v)]
  | (n', v') :: ls => if (n' =? n)%string then (n', v) :: ls else (n', v') :: builderSet n v ls
  end.
Definition labelOrder (a b : string * string) : Prop := stringLe (fst a) (fst b) = true.
#[local] Instance labelOrder_dec : RelDecision labelOrder := λ a b, decide (stringLe (fst a) (fst b) = true).
Definition builderLabels (pairs : list labelPair) : labels :=
  merge_sort labelOrder (foldl (λ add '(n, v), builderSet (default "" n) (default "" v) add) [] pairs).

Definition metricEntryFor (name : string) (base : labels) (ts : Z) (sum : V) : metricEntry :=
  mkEntry (("__name__", name) :: base) ts sum.

(** The bodies of the two loops. *)
Definition summaryEntries (name : string) (m : metric) : list metricEntry :=
  let ts := default 0 (m_ts m) in
  let base := builderLabels (m_label m) in
  match m_summary m with
  | None => []
  | Some (sum, count, quantiles) =>
    [metricEntryFor (name +:+ "_sum") base ts sum; metricEntryFor (name +:+ "_count") base ts (ofInt count)] ++
    map (λ '(q, v), metricEntryFor name (base ++ [("quantile", show q)]) ts v) quantiles
  end.

Definition histogramEntries (name : string) (m : metric) : list metricEntry :=
  let ts := default 0 (m_ts m) in
  let base := builderLabels (m_label m) in
  match m_histogram m with
  | None => []
  | Some (sum, count, buckets) =>
    [metricEntryFor (name +:+ "_sum") base ts sum; metricEntryFor (name +:+ "_count") base ts (ofInt count)] ++
    map (λ '(bound, n), metricEntryFor (name +:+ "_size_bucket") (base ++ [("le", show bound)]) ts (ofInt n)) buckets
  end.

Definition summaryMetrics (f : metricFamily) : list metricEntry :=
  concat (map (summaryEntries (default "" (f_name f))) (f_metric f)).

Definition histogramMetrics (f : metricFamily) : list metricEntry :=
  concat (map (histogramEntries (default "" (f_name f))) (f_metric f)).

(** A nil pointer is dereferenced for a missing name. *)
Definition deref {A} (o : option A) : res A := match o with Some a => Ok a | None => Panic NilDereference end.

Definition digestBasicMetric (name : string) (m : metric) : res metricEntry :=
  ls ← go_concat_map (λ '(n, v), n ← deref n; v ← deref v; Ok [(n, v)]) (m_label m);
  let v := default zero (m_gauge m) in
  let v := default v (m_counter m) in
  let v := default v (m_untyped m) in
  Ok (mkEntry (("__name__", name) :: ls) (default 0 (m_ts m)) v).

Definition basicMetrics (f : metricFamily) : res (list metricEntry) :=
  go_concat_map (λ m, n ← deref (f_name f); e ← digestBasicMetric n m; Ok [e]) (f_metric f).

(** The entries of a family, by its type. *)
Definition familyEntries (f : metricFamily) : res (list metricEntry) :=
  match f_type f with
  | HISTOGRAM => Ok (histogramMetrics f)
  | SUMMARY => Ok (summaryMetrics f)
  | _ => basicMetrics f
  end.

(** [storeMertics]: what is added to the store. *)
Definition storeMertics (f : metricFamily) (defTime : Z) : res (list (labels * Z * V)) :=
  es ← familyEntries f;
  Ok (map (λ e, (e_labels e, if negb (e_ts e =? 0) then e_ts e else defTime, e_value e)) es).

(** The samples that a metric has. *)
Definition sampleCount (t : metricType) (m : metric) : nat :=
  match t with
  | HISTOGRAM => match m_histogram m with Some (_, _, b) => 2 + length b | None => 0 end
  | SUMMARY => match m_summary m with Some (_, _, q) => 2 + length q | None => 0 end
  | _ => 1
  end.

(** Every pair is there. *)
Definition named (f : metricFamily) : Prop :=
  is_Some (f_name f) ∧ Forall (λ m, Forall (λ '(n, v), is_Some n ∧ is_Some v) (m_label m)) (f_metric f).

Lemma digest_named n m : Forall (λ '(a, b), is_Some a ∧ is_Some b) (m_label m) →
  ∃ e, digestBasicMetric n m = Ok e ∧ head (e_labels e) = Some ("__name__", n) ∧ e_ts e = default 0 (m_ts m).
Proof.
  intros H. unfold digestBasicMetric.
  destruct (go_concat_map_Ok (λ '(n, v), n ← deref n; v ← deref v; Ok [(n, v)]) (λ _ _, True) (m_label m)) as (outs & -> & _).
  { eapply Forall_impl; [exact H|]. intros [a b] [[x ->] [y ->]]. by eexists. }
  simpl. by eexists.
Qed.

(** The entries of a metric: how many, and what they carry. *)
Definition entriesOf (t : metricType) (m : metric) (es : list metricEntry) : Prop :=
  length es = sampleCount t m ∧
  Forall (λ e, (∃ n ls, e_labels e = ("__name__", n) :: ls) ∧ e_ts e = default 0 (m_ts m)) es.

Lemma basicMetrics_shape f t : (∀ m, sampleCount t m = 1%nat) → named f →
  ∃ es, basicMetrics f = Ok (concat es) ∧ Forall2 (entriesOf t) (f_metric f) es.
Proof.
  intros Ht [[n Hn] Hl]. unfold basicMetrics. rewrite Hn. apply go_concat_map_Ok.
  eapply Forall_impl; [exact Hl|]. intros m Hm.
  destruct (digest_named n m Hm) as (e & He & Hh & Hts). simpl. rewrite He. simpl. eexists. split; [done|].
  split; [by rewrite Ht|]. apply Forall_singleton. split; [|done].
  destruct (e_labels e); [done|]. injection Hh as ->. by eexists _, _.
Qed.

Lemma entriesOf_cons t m n1 b1 v1 n2 b2 v2 es :
  sampleCount t m = (2 + length es)%nat →
  Forall (λ e, (∃ n ls, e_labels e = ("__name__", n) :: ls) ∧ e_ts e = default 0 (m_ts m)) es →
  entriesOf t m ([metricEntryFor n1 b1 (default 0 (m_ts m)) v1; metricEntryFor n2 b2 (default 0 (m_ts m)) v2] ++ es).
Proof.
  intros Hc He. split; [by rewrite Hc|]. constructor; [by split; [eexists _, _|]|].
  constructor; [by split; [eexists _, _|]|done].
Qed.

Lemma summaryEntries_of n m : entriesOf SUMMARY m (summaryEntries n m).
Proof.
  unfold summaryEntries. destruct (m_summary m) as [[[sum count] qs]|] eqn:Em; [|by split; [simpl; rewrite Em|]].
  apply entriesOf_cons; [simpl; by rewrite Em, length_map|]. apply Forall_fmap, Forall_true. intros [q v].
  split; [by eexists _, _|done].
Qed.

Lemma histogramEntries_of n m : entriesOf HISTOGRAM m (histogramEntries n m).
Proof.
  unfold histogramEntries. destruct (m_histogram m) as [[[sum count] bs]|] eqn:Em; [|by split; [simpl; rewrite Em|]].
  apply entriesOf_cons; [simpl; by rewrite Em, length_map|]. apply Forall_fmap, Forall_true. intros [q v].
  split; [by eexists _, _|done].
Qed.

Lemma familyEntries_shape f : named f →
  ∃ es, familyEntries f = Ok (concat es) ∧ Forall2 (entriesOf (f_type f)) (f_metric f) es.
Proof.
  intros Hf. unfold familyEntries. destruct (f_type f) eqn:Et; try (by apply basicMetrics_shape).
  all: eexists; split; [reflexivity|]; apply Forall2_fmap_r, Forall_Forall2_diag, Forall_true; intros m;
    auto using summaryEntries_of, histogramEntries_of.
Qed.

(** The samples of a family.  Storing a family whose names are there gives,
    metric by metric, one sample for a plain metric and, for a histogram or a
    summary, one for the sum, one for the count and one for each bucket or
    quantile; every sample is labelled with a name first, and its time is that of
    the metric, or the given one for a metric without a time. *)
Theorem family_samples f defTime :
  named f → ∃ samples,
    storeMertics f defTime = Ok (concat samples) ∧
    Forall2 (λ m ss, length ss = sampleCount (f_type f) m ∧
      Forall (λ s, (∃ n ls, s.1.1 = ("__name__", n) :: ls) ∧
        s.1.2 = if negb (default 0 (m_ts m) =? 0) then default 0 (m_ts m) else defTime) ss) (f_metric f) samples.
Proof.
  intros Hf. unfold storeMertics. destruct (familyEntries_shape f Hf) as (es & -> & HF). simpl.
  exists (map (map (λ e, (e_labels e, if negb (e_ts e =? 0) then e_ts e else defTime, e_value e))) es).
  split; [by rewrite concat_map|]. apply Forall2_fmap_r. eapply Forall2_impl; [exact HF|].
  intros m ms [Hlen Hms]. split; [by rewrite length_map|]. apply Forall_fmap. eapply Forall_impl; [exact Hms|].
  intros e [(n' & ls & He) Ht]. simpl. rewrite Ht. split; [by eexists _, _|done].
Qed.
End Samples.

(** ** The theorems at work *)

Definition shortRequest : sizedRequest := mkSized (Some "/x") "GET" "HTTP/1.1" [("Host", ["a"])] "a" (-1).
Definition pageCall (status size : Z) : echoCall := mkEchoCall (Some ":9000") status false size "GET" "/" shortRequest 5.

Lemma requests_counted_witness :
  ∃ m, echoAll [pageCall 200 10; pageCall 404 3; pageCall 200 12] httpMetrics_init = Ok m ∧
    observed (hm_response m) [":9000"; "200"; "GET"; "/"] = [10; 12].
Proof.
  destruct (requests_counted [pageCall 200 10; pageCall 404 3; pageCall 200 12]) as [H _].
  - repeat (constructor; [by eexists|]). constructor.
  - destruct H as (m & Hm & _ & H).
    { assert (labelsValid (Some ":9000") "GET" "/").
      { split_and!; [intros ? [= <-]| |]; apply ValidString_spec; reflexivity. }
      repeat (constructor; [done|]). constructor. }
    exists m. split; [exact Hm|]. destruct (H ":9000" "200" "GET" "/") as (_ & _ & _ & ->). vm_compute. reflexivity.
Defined.

Lemma instrumentHandler_panics_witness :
  instrumentHandler (Some ":80") [WriteHeader 200; Write 5] "GET" "/" shortRequest 1 httpMetrics_init = Panic ExplicitPanic.
Proof. apply (instrumentHandler_panics ":80" [WriteHeader 200; Write 5] "GET" "/" shortRequest 1 httpMetrics_init). repeat split. Defined.

Definition oneHistogram : metricFamily (V := Z) :=
  mkFamily (Some "size") HISTOGRAM
    [mkMetric [(Some "code", Some "200")] None None None None None (Some (30, 2, [(10, 1); (20, 2)]))].

Lemma family_samples_witness :
  ∃ samples, storeMertics 0 id Itoa oneHistogram 7 = Ok (concat samples) ∧ length (concat samples) = 4%nat.
Proof.
  destruct (family_samples 0 id Itoa oneHistogram 7) as (samples & H & HF).
  - split; [by eexists|]. constructor; [|constructor]. constructor; [|constructor]. split; by eexists.
  - exists samples. split; [exact H|]. generalize dependent (concat samples). intros l H. vm_compute in H.
    injection H as <-. reflexivity.
Defined.
