(* ===== verification/OpaStore.v ===== *)
(** * The store for policies (src/opa_backend_store.go)

    A transaction is a goroutine that answers events over two unbuffered
    channels.  The state has the places of the goroutine and of its client, who
    sends one event after the other; a communication is a step of both. *)

From stdpp Require Import relations.
From S2P Require Import Prelude GoStrings.

#[local] Open Scope Z_scope.

(** ** Events *)

Inductive txnEvent := ERead (key : string) | EWrite (key value : string) | EId | EAbort | ECommit.

(** What comes back: the error of the database, or a value. *)
Inductive txnError := ErrKeyNotFound | ErrEmptyKey | ErrInvalidKey | ErrReadOnlyTxn | ErrTooBig | ErrContext | ErrClosed.
Inductive txnAnswer := AError (e : txnError) | AValue (v : string) | ADone | ATxn (id : Z).

Record transactionParams := mkParams { Write : bool }.

(** ** The goroutine and its client *)

(** [start] has not been run, the loop waits for an event, it sends an answer, or
    the function has returned. *)
Inductive managerPC := Starting | Serving | Answering (a : txnAnswer) | Finished.

(** The client has events to send, is blocked on sending one, waits for its
    answer, or has got the error of the transaction. *)
Inductive clientPC := Ready (es : list txnEvent) | Sending (e : txnEvent) (es : list txnEvent)
  | Waiting (e : txnEvent) (es : list txnEvent) | Refused (e : txnError).

Record opaState := mkOpa {
  params : transactionParams;
  txnId : Z;
  txnErr : option txnError;
  closed : bool;
  manager : managerPC;
  client : clientPC;
  answers : list (txnEvent * txnAnswer);
  stored : gmap string string;
  pending : gmap string string;
  cancelled : bool;
}.

(** [newTxn]: the parameters are not taken over. *)
Definition newTxn (p : transactionParams) (es : list txnEvent) (db : gmap string string) : opaState :=
  mkOpa (mkParams false) 0 None false Starting (Ready es) [] db ∅ false.

Definition go (m : managerPC) (c : clientPC) (s : opaState) : opaState :=
  mkOpa (params s) (txnId s) (txnErr s) (closed s) m c (answers s) (stored s) (pending s) (cancelled s).

Section Opa.
(** The read timestamp of the transaction, and whether the entry fits into the
    limits of the database on values and transactions. *)
Context (readTs : Z) (fits : string → string → bool).

(** [Txn.Get] and [Txn.Set] of the database: a transaction sees its own writes,
    one that is not for writing refuses them, and the empty key, the keys of the
    database itself and long ones are refused. *)
Definition txnGet (k : string) (s : opaState) : txnAnswer :=
  if (k =? "")%string then AError ErrEmptyKey
  else match pending s !! k, stored s !! k with
  | Some v, _ => AValue v
  | None, Some v => AValue v
  | None, None => AError ErrKeyNotFound
  end.

Definition txnSet (k v : string) (s : opaState) : txnAnswer * opaState :=
  if negb (Write (params s)) then (AError ErrReadOnlyTxn, s)
  else if (k =? "")%string then (AError ErrEmptyKey, s)
  else if HasPrefix k "!badger!" then (AError ErrInvalidKey, s)
  else if (65000 <? Z.of_nat (String.length k)) || negb (fits k v) then (AError ErrTooBig, s)
  else (ADone, mkOpa (params s) (txnId s) (txnErr s) (closed s) (manager s) (client s) (answers s) (stored s)
                 (<[k := v]> (pending s)) (cancelled s)).

(** The function given to [Update] or [View] returns: [Update] commits unless
    there is an error, which is kept in the transaction. *)
Definition finish (err : option txnError) (s : opaState) : opaState :=
  mkOpa (params s) (txnId s) (match err with Some e => Some e | None => txnErr s end) true Finished (client s)
    (answers s)
    (match err with None => if Write (params s) then pending s ∪ stored s else stored s | Some _ => stored s end)
    (pending s) (cancelled s).

(** One turn of the loop of [manage] with an event. *)
Definition manage (e : txnEvent) (s : opaState) : opaState :=
  match e with
  | ERead k => go (Answering (txnGet k s)) (client s) s
  | EWrite k v => let '(a, s) := txnSet k v s in go (Answering a) (client s) s
  | EId =>
    let i := if txnId s =? 0 then readTs else txnId s in
    mkOpa (params s) i (txnErr s) (closed s) (Answering (ATxn i)) (client s) (answers s) (stored s) (pending s) (cancelled s)
  | EAbort | ECommit => finish None s
  end.

Inductive opaStep : opaState → opaState → Prop :=
| step_start s : manager s = Starting → opaStep s (go Serving (client s) s)
| step_start_fails s : manager s = Starting → opaStep s (finish (Some ErrClosed) s)
| step_cancel s : opaStep s (mkOpa (params s) (txnId s) (txnErr s) (closed s) (manager s) (client s) (answers s) (stored s) (pending s) true)
| step_context s : manager s = Serving → cancelled s = true → opaStep s (finish (Some ErrContext) s)
(** [send] looks at the error first. *)
| step_send s e es : client s = Ready (e :: es) → txnErr s = None → opaStep s (go (manager s) (Sending e es) s)
| step_refuse s e es err : client s = Ready (e :: es) → txnErr s = Some err → opaStep s (go (manager s) (Refused err) s)
(** The event goes over the first channel, the answer over the second. *)
| step_event s e es : client s = Sending e es → manager s = Serving →
    opaStep s (manage e (go Serving (Waiting e es) s))
| step_answer s e es a : client s = Waiting e es → manager s = Answering a →
    opaStep s (let s' := go Serving (Ready es) s in
      mkOpa (params s') (txnId s') (txnErr s') (closed s') (manager s') (client s') (answers s' ++ [(e, a)]) (stored s')
        (pending s') (cancelled s')).

Definition opaReach : opaState → opaState → Prop := rtc opaStep.

(** ** What a transaction does *)

(** The answer that an event gets from a database that is only read. *)
Definition readOnlyAnswer (db : gmap string string) (e : txnEvent) (a : txnAnswer) : Prop :=
  match e with
  | ERead k => a = if (k =? "")%string then AError ErrEmptyKey else match db !! k with Some v => AValue v | None => AError ErrKeyNotFound end
  | EWrite _ _ => a = AError ErrReadOnlyTxn
  | EId => a = ATxn readTs
  | EAbort | ECommit => False
  end.

Record readOnly (db : gmap string string) (s : opaState) : Prop := {
  ro_params : Write (params s) = false;
  ro_stored : stored s = db;
  ro_pending : pending s = ∅;
  ro_id : txnId s = 0 ∨ txnId s = readTs;
  ro_answers : Forall (λ '(e, a), readOnlyAnswer db e a) (answers s);
  ro_waiting : ∀ a e es, manager s = Answering a → client s = Waiting e es → readOnlyAnswer db e a;
}.

Lemma readOnly_step db s s' : opaStep s s' → readOnly db s → readOnly db s'.
Proof.
  intros Hs [Hp Hd Hw Hi Ha Hq].
  destruct Hs as [s Hm|s Hm|s|s Hm Hc|s e es Hc He|s e es err Hc He|s e es Hc Hm|s e es a Hc Hm].
  1-6: split; simpl; rewrite ?Hp; naive_solver.
  - destruct e as [k|k v| | |]; unfold manage, txnSet, txnGet, finish; simpl; rewrite ?Hp; simpl.
    + split; simpl; try done. intros a e es' [= <-] [= <- <-]. simpl. rewrite Hw, lookup_empty, Hd. by destruct (_ =? _)%string.
    + split; simpl; try done. intros a e es' [= <-] [= <- <-]. done.
    + assert (Ei : (if txnId s =? 0 then readTs else txnId s) = readTs).
      { destruct Hi as [->| ->]; [done|]. by destruct (readTs =? 0). }
      rewrite Ei. split; simpl; auto. intros a e es' [= <-] [= <- <-]. done.
    + split; simpl; try done.
    + split; simpl; try done.
  - split; simpl; try done. apply Forall_app. split; [done|]. apply Forall_singleton. by eapply Hq.
Qed.

Lemma opaReach_readOnly p es db s : opaReach (newTxn p es db) s → readOnly db s.
Proof.
  intros Hr. assert (H0 : readOnly db (newTxn p es db)) by (split; simpl; auto; done).
  clear -Hr H0. induction Hr as [|s1 s2 s3 Hs _ IH]; [done|]. by apply IH, (readOnly_step _ s1).
Qed.

(** C30: A transaction writes nothing.  Whatever the parameters ask for and in
    whatever order the goroutine and its client run, with cancellation and
    failures at any point, the database stays as it is, every read is answered
    with its value there (the empty key with an error), every write with the error of a transaction that only
    reads, and every request for the number of the transaction with the same. *)
Theorem opa_never_writes p es db s :
  opaReach (newTxn p es db) s → stored s = db ∧ Forall (λ '(e, a), readOnlyAnswer db e a) (answers s).
Proof. intros [_ Hd _ _ Ha _]%opaReach_readOnly. done. Qed.

(** [opaStore.NewTransaction]: the first event asks for the number, under which the
    transaction (the [n]th) is kept. *)
Definition NewTransaction (ps : list transactionParams) (es : list txnEvent) (db : gmap string string) : opaState :=
  newTxn (default (mkParams false) (head ps)) (EId :: es) db.

Definition keepTransaction (n : nat) (s : opaState) (txns : gmap Z nat) : option (Z * gmap Z nat) :=
  match answers s with (EId, ATxn id) :: _ => Some (id, <[id := n]> txns) | _ => None end.

(** Numbers collide: of the transactions that begin at one timestamp of the
    database, only the last can be found again. *)
Lemma transactions_collide ps1 es1 ps2 es2 db s1 s2 n1 n2 txns i1 txns1 i2 txns2 :
  opaReach (NewTransaction ps1 es1 db) s1 → keepTransaction n1 s1 txns = Some (i1, txns1) →
  opaReach (NewTransaction ps2 es2 db) s2 → keepTransaction n2 s2 txns1 = Some (i2, txns2) →
  i1 = i2 ∧ txns2 !! i1 = Some n2.
Proof.
  assert (Hid : ∀ ps es s n t i t', opaReach (NewTransaction ps es db) s → keepTransaction n s t = Some (i, t') →
    i = readTs ∧ t' = <[i := n]> t).
  { intros ps es s n t i t' Hr. unfold NewTransaction in Hr. destruct (opaReach_readOnly _ _ _ _ Hr) as [_ _ _ _ Ha _].
    unfold keepTransaction.
    destruct (answers s) as [|[[] []] l]; intros [=]. apply Forall_cons in Ha as [Hx _].
    simpl in Hx. split; congruence. }
  intros R1 [-> _]%(Hid _ _ _ _ _ _ _ R1) R2 [-> ->]%(Hid _ _ _ _ _ _ _ R2). by rewrite lookup_insert_eq.
Qed.

(** The client can go on only with the goroutine. *)
Definition stuck (s : opaState) : Prop :=
  manager s = Finished ∧ match client s with Sending _ _ | Waiting _ _ => True | _ => False end.

Lemma stuck_step s s' : opaStep s s' → stuck s → client s' = client s ∧ stuck s'.
Proof.
  intros Hs [Hm Hc]. destruct Hs as [s H|s H|s|s H ?|s e es H ?|s e es err H ?|s e es H H'|s e es a H H'];
    try congruence; try (rewrite H in Hc; done). split; [done|]. by split.
Qed.

(** The end of a transaction.  The event that commits or aborts ends the
    goroutine without an answer, so that the client who sent it waits for ever,
    as does one who was about to send when the goroutine failed or was
    cancelled. *)
Theorem opa_end_blocks s s' s'' :
  opaStep s s' →
  (manager s = Serving ∧ (∃ es, client s = Sending ECommit es ∨ client s = Sending EAbort es) ∧ client s' ≠ client s) ∨
  (manager s ≠ Finished ∧ manager s' = Finished ∧ ∃ e es, client s = Sending e es) →
  opaReach s' s'' → client s'' = client s' ∧ manager s'' = Finished.
Proof.
  intros Hs Hcase Hr.
  assert (Hst : stuck s').
  { destruct Hcase as [(Hm & [es Hc] & Hne)|(Hm & Hf & e & es & Hc)].
    - destruct Hs as [s H|s H|s|s H ?|s e es' H ?|s e es' err H ?|s e es' H H'|s e es' a H H'];
        destruct Hc as [Hc|Hc]; try congruence; simpl in Hne; try done.
      all: rewrite H in Hc; injection Hc as -> ->; split; [reflexivity|exact I].
    - split; [done|]. destruct Hs as [s H|s H|s|s H ?|s e' es' H ?|s e' es' err H ?|s e' es' H H'|s e' es' a H H'];
        simpl in *; try congruence; try (by rewrite Hc).
      destruct e'; simpl in *; try done. unfold txnSet in Hf. repeat case_match; done. }
  clear Hs Hcase. induction Hr as [s'|s1 s2 s3 Hs _ IH]; [by destruct Hst|].
  destruct (stuck_step _ _ Hs Hst) as [E K]. rewrite <- E. by apply IH.
Qed.
End Opa.

(** ** The theorems at work *)

Definition policyDB : gmap string string := {[ "/p" := "allow" ]}.

Lemma opa_never_writes_witness :
  ∃ s, opaReach 7 (λ _ _, true) (newTxn (mkParams true) [EWrite "/p" "deny"] policyDB) s ∧
    answers s = [(EWrite "/p" "deny", AError ErrReadOnlyTxn)] ∧ stored s = policyDB.
Proof.
  eexists. split.
  - eapply rtc_l; [by apply step_start|]. eapply rtc_l; [by eapply step_send|]. eapply rtc_l; [by eapply step_event|].
    eapply rtc_l; [by eapply step_answer|]. apply rtc_refl.
  - split; [reflexivity|]. eapply (opa_never_writes 7 (λ _ _, true) (mkParams true) [EWrite "/p" "deny"] policyDB).
    eapply rtc_l; [by apply step_start|]. eapply rtc_l; [by eapply step_send|]. eapply rtc_l; [by eapply step_event|].
    eapply rtc_l; [by eapply step_answer|]. apply rtc_refl.
Defined.

Definition committing : opaState := mkOpa (mkParams false) 0 None false Serving (Sending ECommit []) [] policyDB ∅ false.

Lemma opa_end_blocks_witness :
  let s' := manage 7 (λ _ _, true) ECommit (go Serving (Waiting ECommit []) committing) in
  client s' = Waiting ECommit [] ∧ manager s' = Finished.
Proof.
  apply (opa_end_blocks 7 (λ _ _, true) committing
    (manage 7 (λ _ _, true) ECommit (go Serving (Waiting ECommit []) committing))).
  - apply step_event; reflexivity.
  - left. split; [reflexivity|]. split; [exists []; by left|discriminate].
  - apply rtc_refl.
Defined.
