(* ===== verification/Policy.v ===== *)
(** * Access control by policy (src/access_control.go)

    The adapter that keeps the models of the policy library in a key-value store,
    one per file, and the enforcers that are reloaded when the store changes.
    The library and its JSON text are the class [PolicyModel]; the store is any
    [kvStore]. *)

From S2P Require Import Prelude GoStrings RaftStore RaftFacts RaftInstance KVStore.

#[local] Open Scope Z_scope.

(** A model, its text, and the operations of the library on it; an operation on a
    section that the model lacks is a panic.  [decodeInto] adds what a text holds
    to a model, as [json.Unmarshal] does with a map; [roleLinks] gives the model
    its role links and says whether that worked. *)
Class PolicyModel (Mod : Type) := {
  emptyModel : Mod;
  encodeModel : Mod → option string;
  decodeInto : string → Mod → option Mod;
  modelAdd : string → string → list string → Mod → res Mod;
  modelRemove : string → string → list string → Mod → res Mod;
  modelRemoveFiltered : string → string → Z → list string → Mod → res Mod;
  clearPolicy : Mod → Mod;
  roleLinks : Mod → Mod * bool;
}.

Definition accessControlPrefix : string := "/access/".
Definition accessControlModelPrefix : string := "/access/model".

Inductive policyError := NotStored (e : kvError) | BadText | NoText | BadLinks.

Section Adapter.
Context {St : Type} `{KV : kvStore St} {Mod : Type} `{PM : PolicyModel Mod}.

(** The adapter of a file; [joinSlice] is concatenation. *)
Definition modelKey (file : string) : string := accessControlModelPrefix +:+ file.

Definition LoadPolicy (file : string) (m : Mod) (st : St) : Mod + policyError :=
  match kv_get (modelKey file) st with
  | inr e => inr (NotStored e)
  | inl b => match decodeInto b m with Some m => inl m | None => inr BadText end
  end.

Definition SavePolicy (file : string) (m : Mod) (st : St) : St * option policyError :=
  match encodeModel m with
  | None => (st, Some NoText)
  | Some b => let '(st, e) := kv_set (modelKey file) b st in (st, NotStored <$> e)
  end.

(** The three operations load the model, change it and save it. *)
Definition changePolicy (file : string) (change : Mod → res Mod) (st : St) : res (option policyError) * St :=
  match LoadPolicy file emptyModel st with
  | inr e => (Ok (Some e), st)
  | inl m =>
    match change m with
    | Ok m => let '(st, e) := SavePolicy file m st in (Ok e, st)
    | Panic p => (Panic p, st)
    | OutOfFuel => (OutOfFuel, st)
    end
  end.

Definition AddPolicy (file sec ptype : string) (rule : list string) : St → res (option policyError) * St :=
  changePolicy file (modelAdd sec ptype rule).
Definition RemovePolicy (file sec ptype : string) (rule : list string) : St → res (option policyError) * St :=
  changePolicy file (modelRemove sec ptype rule).
Definition RemoveFilteredPolicy (file sec ptype : string) (index : Z) (values : list string)
    : St → res (option policyError) * St :=
  changePolicy file (modelRemoveFiltered sec ptype index values).

(** ** Enforcers *)

(** An enforcer: its file and its model. *)
Record accessControl := mkAccessControl { ac_file : string; ac_model : Mod }.

(** [Enforcer.LoadPolicy]: the model is cleared, loaded into and linked. *)
Definition enforcerLoad (file : string) (m : Mod) (st : St) : Mod * option policyError :=
  match LoadPolicy file (clearPolicy m) st with
  | inl m => let '(m, ok) := roleLinks m in (m, if ok then None else Some BadLinks)
  | inr e => (clearPolicy m, Some e)
  end.

(** [accessControl.init]; [with] is the same for another file. *)
Definition accessControl_init (file : string) (st : St) : accessControl + policyError :=
  match enforcerLoad file emptyModel st with
  | (m, None) => inl (mkAccessControl file m)
  | (_, Some e) => inr e
  end.

(** [reload]: any key of a model reloads. *)
Definition reload (key : string) (a : accessControl) (st : St) : accessControl :=
  if HasPrefix key accessControlModelPrefix
  then mkAccessControl (ac_file a) (fst (enforcerLoad (ac_file a) (ac_model a) st)) else a.

(** ** The stored models *)

Inductive policyOp := OpAdd (file sec ptype : string) (rule : list string)
  | OpRemove (file sec ptype : string) (rule : list string)
  | OpRemoveFiltered (file sec ptype : string) (index : Z) (values : list string)
  | OpSave (file : string) (m : Mod).

Definition policyStep (o : policyOp) (st : St) : res (option policyError) * St :=
  match o with
  | OpAdd f sec pt r => AddPolicy f sec pt r st
  | OpRemove f sec pt r => RemovePolicy f sec pt r st
  | OpRemoveFiltered f sec pt i vs => RemoveFilteredPolicy f sec pt i vs st
  | OpSave f m => let '(st, e) := SavePolicy f m st in (Ok e, st)
  end.

(** The same on a map from files to what their texts give, the model or nothing
    when the text cannot be read back. *)
#[local] Abbreviation models := (gmap string (option Mod)).

Definition specSave (f : string) (m : Mod) (s : models) : res (option policyError) * models :=
  match encodeModel m with
  | Some t => (Ok None, <[f := decodeInto t emptyModel]> s)
  | None => (Ok (Some NoText), s)
  end.

Definition specChange (f : string) (change : Mod → res Mod) (s : models) : res (option policyError) * models :=
  match s !! f with
  | None => (Ok (Some (NotStored KeyNotFound)), s)
  | Some None => (Ok (Some BadText), s)
  | Some (Some m) =>
    match change m with
    | Ok m => specSave f m s
    | Panic p => (Panic p, s)
    | OutOfFuel => (OutOfFuel, s)
    end
  end.

Definition specStep (o : policyOp) (s : models) : res (option policyError) * models :=
  match o with
  | OpAdd f sec pt r => specChange f (modelAdd sec pt r) s
  | OpRemove f sec pt r => specChange f (modelRemove sec pt r) s
  | OpRemoveFiltered f sec pt i vs => specChange f (modelRemoveFiltered sec pt i vs) s
  | OpSave f m => specSave f m s
  end.

Fixpoint policyRun (os : list policyOp) (st : St) : list (res (option policyError)) * St :=
  match os with
  | [] => ([], st)
  | o :: os => let '(r, st) := policyStep o st in let '(rs, st) := policyRun os st in (r :: rs, st)
  end.

Fixpoint specRun (os : list policyOp) (s : models) : list (res (option policyError)) * models :=
  match os with
  | [] => ([], s)
  | o :: os => let '(r, s) := specStep o s in let '(rs, s) := specRun os s in (r :: rs, s)
  end.
End Adapter.

Section Refinement.
Context {St : Type} {KV : kvStore St} {KL : kvStoreLaws St} {KR : kvReliable St}.
Context {Mod : Type} {PM : PolicyModel Mod}.

(** The store holds, under the keys of the models, texts that read as the map
    says, and no other models. *)
Definition holdsModels (st : St) (s : gmap string (option Mod)) : Prop :=
  ∀ f, (λ t, decodeInto t emptyModel) <$> kv_lookup st (modelKey f) = s !! f.

Lemma modelKey_inj f g : modelKey f = modelKey g → f = g.
Proof. unfold modelKey. apply (inj (String.append _)). Qed.

Lemma LoadPolicy_held f st s : holdsModels st s →
  LoadPolicy f emptyModel st =
  match s !! f with Some (Some m) => inl m | Some None => inr BadText | None => inr (NotStored KeyNotFound) end.
Proof.
  intros H. specialize (H f). unfold LoadPolicy. rewrite kv_get_total, <- H by done. by destruct (kv_lookup st (modelKey f)).
Qed.

Lemma save_refines f m st s : holdsModels st s →
  let r := (let '(st', e) := SavePolicy f m st in (Ok e, st')) in
  fst r = fst (specSave f m s) ∧ holdsModels (snd r) (snd (specSave f m s)).
Proof.
  intros H. unfold SavePolicy, specSave. destruct (encodeModel m) as [t|]; [|done].
  destruct (kv_set (modelKey f) t st) as [st' e] eqn:Es.
  assert (e = None) as -> by (pose proof (kv_set_total (modelKey f) t st eq_refl) as He; by rewrite Es in He).
  split; [done|]. intros g. simpl. rewrite (kv_set_done _ _ _ _ Es (modelKey g)).
  destruct (decide (f = g)) as [->|Hne].
  - by rewrite lookup_insert_eq, decide_True.
  - rewrite lookup_insert_ne, decide_False by (done || by intros ?%modelKey_inj). apply H.
Qed.

Lemma change_refines f change st s : holdsModels st s →
  fst (changePolicy f change st) = fst (specChange f change s) ∧
  holdsModels (snd (changePolicy f change st)) (snd (specChange f change s)).
Proof.
  intros H. unfold changePolicy, specChange. rewrite (LoadPolicy_held f st s H).
  destruct (s !! f) as [[m|]|]; [|done..]. destruct (change m) as [m'| |]; [|done..]. by apply save_refines.
Qed.

Lemma run_refines os st s : holdsModels st s →
  fst (policyRun os st) = fst (specRun os s) ∧ holdsModels (snd (policyRun os st)) (snd (specRun os s)).
Proof.
  revert st s. induction os as [|o os IH]; intros st s H; [done|].
  assert (Ho : fst (policyStep o st) = fst (specStep o s) ∧ holdsModels (snd (policyStep o st)) (snd (specStep o s)))
    by (destruct o; [by apply change_refines..|by apply save_refines]).
  simpl. destruct (policyStep o st) as [r st1], (specStep o s) as [r' s1]. simpl in Ho. destruct Ho as [-> H1].
  destruct (IH st1 s1 H1) as [Er Hr]. destruct (policyRun os st1), (specRun os s1). simpl in *. by subst.
Qed.

(** C14: The adapter refines a map.  On a store whose operations succeed, any
    sequence of the adapter's operations gives the results of the same sequence on
    a map from files to models, leaves in the store the texts of that map, and an
    enforcer made then has the linked model of its file, or fails as the map says:
    an operation on a file without a model fails and changes nothing, and files do
    not disturb each other. *)
Theorem policies_refine_map os st s file :
  holdsModels st s → clearPolicy emptyModel = emptyModel →
  let '(rs, st') := policyRun os st in
  let '(rs', s') := specRun os s in
  rs = rs' ∧ holdsModels st' s' ∧
  accessControl_init file st' =
    match s' !! file with
    | Some (Some m) => if snd (roleLinks m) then inl (mkAccessControl file (fst (roleLinks m))) else inr BadLinks
    | Some None => inr BadText
    | None => inr (NotStored KeyNotFound)
    end.
Proof.
  intros H He. destruct (run_refines os st s H) as [Er Hr].
  destruct (policyRun os st) as [rs st'], (specRun os s) as [rs' s']. simpl in *. split_and!; [done..|].
  unfold accessControl_init, enforcerLoad. rewrite He, (LoadPolicy_held file st' s' Hr).
  destruct (s' !! file) as [[m|]|]; [|done..]. by destruct (roleLinks m) as [m' []].
Qed.

Lemma specRun_unsaved os :
  Forall (λ o, match o with OpSave _ _ => False | _ => True end) os → snd (specRun (Mod := Mod) os ∅) = ∅.
Proof.
  induction 1 as [|o os Ho Hos IH]; [done|]. simpl.
  assert (Es : specStep o ∅ = (Ok (Some (NotStored KeyNotFound)), ∅))
    by (destruct o; simpl; unfold specChange; by rewrite ?lookup_empty).
  rewrite Es. by destruct (specRun os ∅).
Qed.

(** Nothing can be the first.  On a store without models every enforcer fails
    to start, and no sequence of additions and removals ever stores a model. *)
Theorem policy_cannot_start st os file :
  holdsModels st ∅ → Forall (λ o, match o with OpSave _ _ => False | _ => True end) os →
  clearPolicy emptyModel = emptyModel →
  holdsModels (snd (policyRun os st)) ∅ ∧
  accessControl_init file (snd (policyRun os st)) = inr (NotStored KeyNotFound).
Proof.
  intros H Ho He. destruct (run_refines os st ∅ H) as [_ Hr]. rewrite (specRun_unsaved os Ho) in Hr.
  split; [done|]. unfold accessControl_init, enforcerLoad. by rewrite He, (LoadPolicy_held file _ ∅ Hr).
Qed.
End Refinement.

(** ** The theorems at work *)

(** A model of one section, the first words of its rules. *)
#[local] Instance wordModel : PolicyModel string := {|
  emptyModel := "";
  encodeModel m := Some m;
  decodeInto t m := Some (m +:+ t);
  modelAdd sec _ rule m := if (sec =? "p")%string then Ok (m +:+ default "" (head rule)) else Panic NilDereference;
  modelRemove _ _ _ _ := Ok "";
  modelRemoveFiltered _ _ _ _ _ := Ok "";
  clearPolicy _ := "";
  roleLinks m := (m, true);
|}.

Definition emptyStore : kvStoreDB mapDB := mkKvStoreDB noDB [] [] [] [].

Lemma emptyStore_holds : holdsModels (Mod := string) emptyStore ∅.
Proof.
  intros f. pose proof (noDB_holds (modelKey f)) as Hk. rewrite lookup_empty in *.
  assert (kv_lookup emptyStore (modelKey f) = None) as -> by exact (f_equal (fmap toString) Hk). done.
Qed.

(** An addition before the model is saved, the model, an addition, an addition to
    a section that it lacks. *)
Definition samplePolicies : list policyOp :=
  [OpAdd "f" "p" "p" ["a"]; OpSave "f" "x"; OpAdd "f" "p" "p" ["b"]; OpAdd "f" "q" "p" ["c"]].

Lemma policies_refine_map_witness :
  fst (policyRun samplePolicies emptyStore) =
    [Ok (Some (NotStored KeyNotFound)); Ok None; Ok None; Panic NilDereference] ∧
  accessControl_init "f" (snd (policyRun samplePolicies emptyStore)) = inl (mkAccessControl "f" "xb").
Proof.
  destruct (policies_refine_map samplePolicies emptyStore ∅ "f" emptyStore_holds eq_refl) as (Hr & _ & Hi).
  split; [exact Hr|exact Hi].
Defined.

Lemma policy_cannot_start_witness :
  accessControl_init (Mod := string) "f" (snd (policyRun [OpAdd "f" "p" "p" ["a"]] emptyStore)) =
  inr (NotStored KeyNotFound).
Proof.
  apply (policy_cannot_start emptyStore [OpAdd "f" "p" "p" ["a"]] "f" emptyStore_holds); [|done].
  repeat constructor.
Defined.
