(* ===== verification/Assets.v ===== *)
(** * Pages, icons and header names (src/templates/tpl.go, src/templates/fs.go,
    src/templates/octicons/octicons.go, src/http_headers.go)

    The html templates are read from the embedded files at the first page, and so
    is the file system itself; icons are made for the templates.  The embedded
    files, html/template and the icons are libraries, the classes below. *)

From S2P Require Import Prelude GoStrings Html.

#[local] Open Scope Z_scope.

(** ** [sync.Once] around an initialisation that may panic *)

(** A variable that [once.Do] sets: whether it ran, and the value; nil when the
    initialisation panicked, which counts as done. *)
Record onceVar (A : Type) := mkOnce { once_ran : bool; once_value : option A }.
Arguments mkOnce {A} _ _.
Arguments once_ran {A} _.
Arguments once_value {A} _.

Definition onceStart {A} : onceVar A := mkOnce false None.

Definition once_Do {A} (init : A + string) (o : onceVar A) : res unit * onceVar A :=
  if once_ran o then (Ok (), o)
  else match init with
       | inl a => (Ok (), mkOnce true (Some a))
       | inr _ => (Panic ExplicitPanic, mkOnce true None)
       end.

(** A use of the variable behind the [Do]: a nil value is dereferenced. *)
Definition onceUse {A B} (init : A + string) (f : A → B) (o : onceVar A) : res B * onceVar A :=
  let '(r, o) := once_Do init o in
  (match r with
   | Ok _ => match once_value o with Some a => Ok (f a) | None => Panic NilDereference end
   | Panic p => Panic p
   | OutOfFuel => OutOfFuel
   end, o).

Fixpoint onceUses {A B} (init : A + string) (fs : list (A → B)) (o : onceVar A) : list (res B) * onceVar A :=
  match fs with
  | [] => ([], o)
  | f :: fs => let '(r, o) := onceUse init f o in let '(rs, o) := onceUses init fs o in (r :: rs, o)
  end.

Lemma onceUses_ready {A B} (init : A + string) (fs : list (A → B)) a :
  onceUses init fs (mkOnce true (Some a)) = ((λ f, Ok (f a)) <$> fs, mkOnce true (Some a)).
Proof. induction fs as [|f fs IH]; [done|]. simpl. by rewrite IH. Qed.

Lemma onceUses_broken {A B} (init : A + string) (fs : list (A → B)) :
  onceUses init fs (mkOnce true None) = ((λ _, Panic NilDereference) <$> fs, mkOnce true None).
Proof. induction fs as [|f fs IH]; [done|]. simpl. by rewrite IH. Qed.

(** What a sequence of uses gives. *)
Definition onceResults {A B} (init : A + string) (fs : list (A → B)) : list (res B) :=
  match init with
  | inl a => (λ f, Ok (f a)) <$> fs
  | inr _ => match fs with [] => [] | _ :: fs => Panic ExplicitPanic :: ((λ _, Panic NilDereference) <$> fs) end
  end.

Lemma onceUses_results {A B} (init : A + string) (fs : list (A → B)) :
  fst (onceUses init fs onceStart) = onceResults init fs.
Proof.
  destruct fs as [|f fs]; [by destruct init|]. unfold onceResults. simpl.
  destruct init as [a|e]; unfold onceUse; simpl; [by rewrite onceUses_ready|by rewrite onceUses_broken].
Qed.

(** ** The embedded files *)

(** What fs.Walk calls back with. *)
Record walkEntry := mkEntry { we_path : string; we_dir : bool; we_err : option string }.

(** [statikNew] is fs.New, [walkFiles] the calls that fs.Walk makes, [openAsset]
    and [readAsset] opening and reading a file. *)
Class EmbeddedFS := {
  embeddedFS : Type;
  statikNew : embeddedFS + string;
  walkFiles : embeddedFS → string → list walkEntry;
  openAsset : embeddedFS → string → option string;
  readAsset : embeddedFS → string → string + string;
}.

(** [must] panics with the error; [get] makes the file system at the first call. *)
Definition must {A} (v : A + string) : res A := match v with inl a => Ok a | inr _ => Panic ExplicitPanic end.

Definition fs_get `{E : EmbeddedFS} (o : onceVar embeddedFS) : res (option embeddedFS) * onceVar embeddedFS :=
  if once_ran o then (Ok (once_value o), o)
  else match must statikNew with
       | Ok f => (Ok (Some f), mkOnce true (Some f))
       | Panic p => (Panic p, mkOnce true None)
       | OutOfFuel => (OutOfFuel, o)
       end.

(** ** The html templates *)

(** [newSet] is the empty set of templates with its functions, [parseInto] the
    set after New(name) and Parse, [executeTemplate] what ExecuteTemplate writes
    and its error. *)
Class HtmlTemplate (Data : Type) := {
  tplSet : Type;
  newSet : tplSet;
  parseInto : tplSet → string → string → tplSet + string;
  executeTemplate : tplSet → string → Data → string * option string;
}.

Section Pages.
Context {Data : Type} `{E : EmbeddedFS} `{H : !HtmlTemplate Data}.

Definition htmlRoot : string := "/html".

(** The callback of [loadHTML] over the calls of fs.Walk. *)
Fixpoint walkHTML (files : embeddedFS) (es : list walkEntry) (tpl : tplSet) : tplSet + string :=
  match es with
  | [] => inl tpl
  | e :: es =>
    match we_err e with
    | Some err => inr err
    | None =>
      if we_dir e then walkHTML files es tpl
      else
        let name := TrimPrefix (we_path e) (htmlRoot +:+ "/") in
        match openAsset files (we_path e) with
        | Some err => inr err
        | None =>
          match readAsset files (we_path e) with
          | inr err => inr err
          | inl b =>
            match parseInto tpl name b with inr err => inr err | inl tpl => walkHTML files es tpl end
          end
        end
    end
  end.

Definition loadHTML : tplSet + string :=
  match statikNew with
  | inr err => inr err
  | inl files => walkHTML files (walkFiles files htmlRoot) newSet
  end.

(** [ExecHTML]: template.Must panics when the templates cannot be loaded. *)
Definition ExecHTML (name : string) (data : Data) (o : onceVar tplSet)
    : res (string * option string) * onceVar tplSet :=
  onceUse loadHTML (λ t, executeTemplate t name data) o.

Fixpoint execPages (calls : list (string * Data)) (o : onceVar tplSet)
    : list (res (string * option string)) * onceVar tplSet :=
  match calls with
  | [] => ([], o)
  | (name, data) :: calls =>
    let '(r, o) := ExecHTML name data o in let '(rs, o) := execPages calls o in (r :: rs, o)
  end.

(** Templates, one after the other. *)
Fixpoint parsePages (pages : list (string * string)) (t : tplSet) : tplSet + string :=
  match pages with
  | [] => inl t
  | (name, text) :: pages => match parseInto t name text with inr e => inr e | inl t => parsePages pages t end
  end.

(** The entries of a tree of files below the root. *)
Definition listsPages (files : embeddedFS) (es : list walkEntry) (pages : list (string * string)) : Prop :=
  Forall (λ e, we_err e = None) es ∧
  Forall2 (λ e p, we_path e = htmlRoot +:+ "/" +:+ fst p ∧ openAsset files (we_path e) = None ∧
                  readAsset files (we_path e) = inl (snd p))
    (filter (λ e, we_dir e = false) es) pages.

Lemma TrimPrefix_app p s : TrimPrefix (p +:+ s) p = s.
Proof.
  unfold TrimPrefix. rewrite HasPrefix_app. induction p as [|a p IH]; [by rewrite string_app_nil_l|].
  rewrite string_app_cons. exact IH.
Qed.

Lemma walkHTML_pages files es pages t : listsPages files es pages → walkHTML files es t = parsePages pages t.
Proof.
  intros [He Hp]. revert pages t Hp. induction He as [|e es Herr _ IH]; intros pages t Hp.
  { by inversion Hp. }
  simpl. rewrite Herr, filter_cons in *. destruct (we_dir e); simpl in *; [by apply IH|].
  destruct pages as [|[name text] pages]; [by inversion Hp|].
  apply Forall2_cons in Hp as [(Hpath & Hop & Hrd) Hp]. simpl in *. rewrite Hop, Hrd, Hpath.
  rewrite string_app_assoc, TrimPrefix_app. destruct (parseInto t name text); [by apply IH|done].
Qed.

(** The pages of a program.  When the embedded tree below the root holds certain
    files, all readable, any sequence of pages is answered from the templates of
    these files, each under its path below the root and parsed in the order of
    the walk; when one cannot be loaded, the first page panics with the error and
    every later one dereferences the nil template. *)
Theorem pages_executed files pages calls :
  statikNew = inl files → listsPages files (walkFiles files htmlRoot) pages →
  fst (execPages calls onceStart) =
  match parsePages pages newSet with
  | inl t => (λ c, Ok (executeTemplate t (fst c) (snd c))) <$> calls
  | inr _ => match calls with [] => [] | _ :: cs => Panic ExplicitPanic :: ((λ _, Panic NilDereference) <$> cs) end
  end.
Proof.
  intros Hn Hp. assert (Hl : loadHTML = parsePages pages newSet) by (unfold loadHTML; rewrite Hn; by apply walkHTML_pages).
  assert (Hc : ∀ o, execPages calls o = onceUses loadHTML ((λ c t, executeTemplate t (fst c) (snd c)) <$> calls) o).
  { induction calls as [|[n d] cs IH]; intros o; [done|]. cbn [execPages fmap list_fmap onceUses]. unfold ExecHTML.
    destruct (onceUse _ _ _) as [r o']. by rewrite IH. }
  rewrite Hc, onceUses_results, Hl. unfold onceResults. destruct (parsePages pages newSet) as [t|e].
  - by rewrite <- list_fmap_compose.
  - destruct calls as [|c cs]; [done|]. simpl. by rewrite <- list_fmap_compose.
Qed.
End Pages.

(** ** Icons *)

(** [octicon_Icon], [SetSize] and [renderNode] (html.Render: the text written and
    the error) are the libraries; of a node the code itself reads and sets the
    values of its attributes. *)
Class Octicons := {
  iconNode : Type;
  attrVals : iconNode → list string;
  setAttrVal : nat → string → iconNode → iconNode;
  octicon_Icon : string → option iconNode;
  SetSize : iconNode → Z → iconNode;
  renderNode : iconNode → string * option string;
}.

Inductive iconError := NoIcon (msg : string) | BadSize (arg : string) | RenderFailed (err : string).

Section Icons.
Context `{O : Octicons}.

(** One attribute of the loop of [Icon]; its value is what follows the first
    equals sign, up to the next. *)
Definition iconAttr (attr : string) (h : iconNode) : res (iconNode + iconError) :=
  let p := Split attr 61 in
  p0 ← go_index p 0;
  if (p0 =? "size")%string then
    p1 ← go_index p 1;
    Ok (match Atoi p1 with Some i => inl (SetSize h i) | None => inr (BadSize p1) end)
  else if (p0 =? "vertical-align")%string then
    v ← go_index (attrVals h) 3;
    p1 ← go_index p 1;
    Ok (inl (setAttrVal 3 (Replace v "vertical-align: top" ("vertical-align: " +:+ p1)) h))
  else Ok (inl h).

Fixpoint iconAttrs (attrs : list string) (h : iconNode) : res (iconNode + iconError) :=
  match attrs with
  | [] => Ok (inl h)
  | a :: attrs =>
    r ← iconAttr a h;
    match r with inl h => iconAttrs attrs h | inr e => Ok (inr e) end
  end.

(** [render]: the buffer goes back to the pool on every path. *)
Definition render (choice : option nat) (h : iconNode) (b : buffers) : res (string + iconError) * buffers :=
  let '(buf, b) := GetBytes choice b in
  match buf with
  | Ok buf =>
    let '(text, err) := renderNode h in
    let buf := buf +:+ text in
    (Ok (match err with Some e => inr (RenderFailed e) | None => inl buf end), PutBytes buf b)
  | Panic p => (Panic p, b)
  | OutOfFuel => (OutOfFuel, b)
  end.

Definition Icon (choice : option nat) (name : string) (attrs : list string) (b : buffers)
    : res (string + iconError) * buffers :=
  match octicon_Icon name with
  | None => (Ok (inr (NoIcon ("octicons: " +:+ name +:+ "doesn't exist"))), b)
  | Some h =>
    match iconAttrs attrs h with
    | Ok (inl h) => render choice h b
    | Ok (inr e) => (Ok (inr e), b)
    | Panic p => (Panic p, b)
    | OutOfFuel => (OutOfFuel, b)
    end
  end.

(** What a well-formed attribute asks for. *)
Inductive iconEdit := ESize (i : Z) | EAlign (v : string) | ENone.

Definition attrEdit (attr : string) (e : iconEdit) : Prop :=
  match e with
  | ESize i => ∃ v rest, Split attr 61 = "size" :: v :: rest ∧ Atoi v = Some i
  | EAlign v => ∃ rest, Split attr 61 = "vertical-align" :: v :: rest
  | ENone => ∃ k rest, Split attr 61 = k :: rest ∧ k ≠ "size" ∧ k ≠ "vertical-align"
  end.

Definition applyEdit (h : iconNode) (e : iconEdit) : iconNode :=
  match e with
  | ESize i => SetSize h i
  | EAlign v =>
    setAttrVal 3 (Replace (default "" (attrVals h !! 3%nat)) "vertical-align: top" ("vertical-align: " +:+ v)) h
  | ENone => h
  end.

(** The edits keep the attributes of a node. *)
Class OcticonLaws := {
  SetSize_attrs h i : length (attrVals (SetSize h i)) = length (attrVals h);
  setAttrVal_attrs n v h : length (attrVals (setAttrVal n v h)) = length (attrVals h);
}.

Lemma iconAttr_edit attr e h : attrEdit attr e → (3 < length (attrVals h))%nat →
  iconAttr attr h = Ok (inl (applyEdit h e)).
Proof.
  intros He Hl. unfold iconAttr, go_index. destruct e as [i|v|]; simpl in He.
  - destruct He as (v & rest & -> & Hv). simpl. by rewrite Hv.
  - destruct He as (rest & ->). simpl. destruct (lookup_lt_is_Some_2 _ _ Hl) as [x Hx]. by rewrite Hx.
  - destruct He as (k & rest & -> & H1%String.eqb_neq & H2%String.eqb_neq). simpl. by rewrite H1, H2.
Qed.

Lemma iconAttrs_edits `{L : !OcticonLaws} attrs es h : Forall2 attrEdit attrs es → (3 < length (attrVals h))%nat →
  iconAttrs attrs h = Ok (inl (foldl applyEdit h es)).
Proof.
  intros H. revert h. induction H as [|a e attrs es Ha _ IH]; intros h Hl; [done|]. simpl.
  rewrite (iconAttr_edit a e) by done. simpl. apply IH.
  destruct e; simpl; rewrite ?SetSize_attrs, ?setAttrVal_attrs; done.
Qed.

(** An icon is made.  With attributes of the form size=number and
    vertical-align=value, among others of any name, and a pool that holds only
    reset buffers, [Icon] does not panic and gives the rendering of the node after
    the edits in order, and the pool still holds only reset buffers. *)
Theorem icon_rendered `{L : !OcticonLaws} choice name attrs es h b text slices :
  octicon_Icon name = Some h → (3 < length (attrVals h))%nat → Forall2 attrEdit attrs es → poolsOK slices b →
  renderNode (foldl applyEdit h es) = (text, None) →
  ∃ b', Icon choice name attrs b = (Ok (inl text), b') ∧ poolsOK slices b'.
Proof.
  intros Hi Hl He Hb Hr. unfold Icon. rewrite Hi, (iconAttrs_edits attrs es) by done. unfold render.
  destruct (bufferStep_OK slices (OGetBytes choice) b Hb) as [[Hg|(_ & [c [=]] & _)] Hb'].
  simpl in Hg, Hb'. rewrite orb_false_r in Hb'. destruct (GetBytes choice b) as [r b1]. injection Hg as ->.
  rewrite Hr. simpl in *. eexists. split; [by rewrite string_app_nil_l|].
  by destruct (bufferStep_OK slices (OPutBytes text) b1 Hb') as [_ ?]; rewrite orb_false_r in *.
Qed.

(** A size or an alignment without a value is no error but a panic, whatever the
    well-formed attributes before it are. *)
Theorem icon_attr_panics `{L : !OcticonLaws} choice name attrs es h b a rest :
  octicon_Icon name = Some h → (3 < length (attrVals h))%nat → Forall2 attrEdit attrs es →
  a = "size" ∨ a = "vertical-align" →
  Icon choice name (attrs ++ a :: rest) b = (Panic IndexOutOfRange, b).
Proof.
  intros Hi Hl He Ha. unfold Icon. rewrite Hi. clear Hi.
  assert (iconAttrs (attrs ++ a :: rest) h = Panic IndexOutOfRange) as ->; [|done].
  revert h Hl. induction He as [|x e attrs es Hx _ IH]; intros h Hl; simpl.
  - destruct (lookup_lt_is_Some_2 _ _ Hl) as [v Hv]. unfold iconAttr, go_index.
    destruct Ha as [->| ->]; simpl; [done|]. by rewrite Hv.
  - rewrite (iconAttr_edit x e) by done. simpl. apply IH.
    destruct e; simpl; rewrite ?SetSize_attrs, ?setAttrVal_attrs; done.
Qed.
End Icons.

(** ** Header names *)

(** The constants of src/http_headers.go. *)
Definition httpHeaders : list string :=
  ["Accept"; "Accept-Encoding"; "Allow"; "Authorization"; "Content-Disposition"; "Content-Encoding";
   "Content-Length"; "Content-Type"; "Cookie"; "Set-Cookie"; "If-Modified-Since"; "Last-Modified"; "Location";
   "Upgrade"; "Vary"; "WWW-Authenticate"; "X-Forwarded-For"; "X-Forwarded-Proto"; "X-Forwarded-Protocol";
   "X-Forwarded-Ssl"; "X-Url-Scheme"; "X-HTTP-Method-Override"; "X-Real-IP"; "X-Request-ID";
   "X-Requested-With"; "Server"; "Origin";
   "Access-Control-Request-Method"; "Access-Control-Request-Headers"; "Access-Control-Allow-Origin";
   "Access-Control-Allow-Methods"; "Access-Control-Allow-Headers"; "Access-Control-Allow-Credentials";
   "Access-Control-Expose-Headers"; "Access-Control-Max-Age";
   "Strict-Transport-Security"; "X-Content-Type-Options"; "X-XSS-Protection"; "X-Frame-Options";
   "Content-Security-Policy"; "Content-Security-Policy-Report-Only"; "X-CSRF-Token"; "Referrer-Policy"].

(** The canonical form under which net/http keeps a name of letters and hyphens:
    a capital first and after each hyphen. *)
Fixpoint canonicalKey (upper : bool) (s : string) : string :=
  match s with
  | "" => ""
  | String a s' =>
    let z := byteZ a in
    let a' := if upper && inRange z 97 122 then zbyte (z - 32)
              else if negb upper && inRange z 65 90 then zbyte (z + 32) else a in
    String a' (canonicalKey (z =? 45) s')
  end.

(** The names that a map of headers does not hold as they are written; they must
    be looked up with [Get]. *)
Lemma headers_not_canonical :
  filter (λ h, canonicalKey true h ≠ h) httpHeaders =
  ["WWW-Authenticate"; "X-HTTP-Method-Override"; "X-Real-IP"; "X-Request-ID"; "X-XSS-Protection"; "X-CSRF-Token"].
Proof. vm_compute. reflexivity. Qed.

Lemma headers_distinct : NoDup (canonicalKey true <$> httpHeaders).
Proof. apply (bool_decide_unpack _). vm_compute. exact I. Qed.

(** ** The theorems at work *)

Definition sampleFS : EmbeddedFS := {|
  embeddedFS := unit; statikNew := inl tt;
  walkFiles _ _ := [mkEntry "/html" true None; mkEntry "/html/errors/error.html" false None];
  openAsset _ _ := None; readAsset _ _ := inl "code" |}.

Definition sampleTemplates : HtmlTemplate unit := {|
  tplSet := list (string * string); newSet := [];
  parseInto t n b := inl (t ++ [(n, b)]);
  executeTemplate t n _ := match list_find (λ p, fst p = n) t with
                           | Some (_, (_, b)) => (b, None) | None => ("", Some "undefined") end |}.

Lemma pages_executed_witness :
  fst (@execPages unit sampleFS sampleTemplates [("errors/error.html", tt); ("none", tt)] onceStart) =
  [Ok ("code", None); Ok ("", Some "undefined")].
Proof.
  apply (@pages_executed unit sampleFS sampleTemplates tt [("errors/error.html", "code")]); [reflexivity|].
  split; [repeat constructor|]. constructor; [|constructor]. split_and!; reflexivity.
Defined.

Definition sampleIcons : Octicons := {|
  iconNode := list string; attrVals h := h; setAttrVal n v h := <[n := v]> h;
  octicon_Icon n := if (n =? "repo")%string then Some ["svg"; "16"; "16"; "vertical-align: top;"] else None;
  SetSize h i := h; renderNode h := (Join h " ", None) |}.

#[local] Instance sampleIcons_laws : @OcticonLaws sampleIcons.
Proof. split; [done|]. intros n v h. apply length_insert. Qed.

Lemma icon_rendered_witness :
  ∃ b', @Icon sampleIcons None "repo" ["size=32"; "vertical-align=middle"; "class"] noBuffers =
    (Ok (inl "svg 16 16 vertical-align: middle;"), b') ∧ poolsOK false b'.
Proof.
  apply (@icon_rendered sampleIcons _ None "repo" ["size=32"; "vertical-align=middle"; "class"]
    [ESize 32; EAlign "middle"; ENone] ["svg"; "16"; "16"; "vertical-align: top;"]).
  - reflexivity.
  - simpl. lia.
  - repeat constructor; [by exists "32", []|by exists []|by exists "class", []].
  - split_and!; constructor.
  - vm_compute. reflexivity.
Defined.

Lemma icon_attr_panics_witness :
  @Icon sampleIcons None "repo" ["size=32"; "size"] noBuffers = (Panic IndexOutOfRange, noBuffers).
Proof.
  apply (@icon_attr_panics sampleIcons _ None "repo" ["size=32"] [ESize 32] ["svg"; "16"; "16"; "vertical-align: top;"]
    noBuffers "size" []).
  - reflexivity.
  - simpl. lia.
  - constructor; [by exists "32", []|constructor].
  - by left.
Defined.
