(* ===== verification/Process.v ===== *)
(** * Child processes (src/process_manager.go and src/process_child.go)

    The manager starts a goroutine for each child, which starts the child, keeps
    it in a table under its process number and waits.  The goroutines run beside
    each other: the state has the place of each, and a step is a step of one.
    What the operating system does is the class [OsProcess]. *)

From stdpp Require Import relations.
From S2P Require Import Prelude GoStrings.

#[local] Open Scope Z_scope.

(** ** A child *)

Record processOptions := mkProcessOptions {
  po_Path : string; po_Args : list string; po_Env : list string; po_Dir : string; po_ExtraFiles : list string }.

(** The command and the pipes; [true] is a pipe that is open. *)
Record child := mkChild { cmd : processOptions; inPipe : option bool; outPipe : option bool; process : option Z }.

(** [pipe] says whether the two pipes can be made, [spawn] what comes of starting
    a command, [closePipe] and [kill] what errors a call gives. *)
Class OsProcess := {
  stdinPipe : processOptions → option string;
  stdoutPipe : processOptions → option string;
  spawn : processOptions → Z → option string;
  closePipe : bool → option string;
  osKill : Z → option string;
  osSignal : Z → Z → option string;
}.

Section Child.
Context `{OS : OsProcess}.

(** [execManager.Create] has no error. *)
Definition execManager_Create (opts : processOptions) : child := mkChild opts None None None.

(** [child.Start]; [pid] is the number that the new process gets. *)
Definition child_Start (cancelled : bool) (pid : Z) (ch : child) : child * option string :=
  if cancelled then (ch, Some "context")
  else match stdinPipe (cmd ch) with
       | Some e => (ch, Some e)
       | None =>
         let ch := mkChild (cmd ch) (Some true) (outPipe ch) (process ch) in
         match stdoutPipe (cmd ch) with
         | Some e => (ch, Some e)
         | None =>
           let ch := mkChild (cmd ch) (inPipe ch) (Some true) (process ch) in
           match spawn (cmd ch) pid with
           | Some e => (ch, Some e)
           | None => (mkChild (cmd ch) (inPipe ch) (outPipe ch) (Some pid), None)
           end
         end
       end.

(** The errors of several calls: [nil] when there is none. *)
Definition joinErrors (errs : list string) : option string :=
  match errs with [] => None | _ => Some (Join errs ",") end.

(** [child.Close]: a panic before the pipes are made. *)
Definition child_Close (ch : child) : res (child * option string) :=
  match inPipe ch, outPipe ch with
  | Some i, Some o =>
    Ok (mkChild (cmd ch) (Some false) (Some false) (process ch),
        joinErrors (option_list (closePipe i) ++ option_list (closePipe o)))
  | _, _ => Panic NilDereference
  end.

Definition child_Pid (ch : child) : res Z := match process ch with Some p => Ok p | None => Panic NilDereference end.
Definition child_Kill (ch : child) : res (option string) := p ← child_Pid ch; Ok (osKill p).
Definition child_Signal (sig : Z) (ch : child) : res (option string) := p ← child_Pid ch; Ok (osSignal p sig).
End Child.

(** ** The manager *)

(** The goroutine of [startProcess] has not run, has started the child, waits in
    its loop with the child in the table, or has returned. *)
Inductive workerPC := Fresh | Launched (pid : Z) | Managed (pid : Z) | Returned (err : option string).

(** [table] is the [sync.Map] (the worker of a number), [alive] the processes that
    run and [used] the numbers that were given out: nothing waits for a child, so
    that the system never gives a number twice. *)
Record processManager := mkManager {
  childOptions : processOptions;
  toCreate : nat;
  workers : list workerPC;
  table : gmap Z nat;
  alive : gset Z;
  used : gset Z;
  ctxDone : bool;
}.

(** [newProcessManager]; the options of the children are the zero value, and
    nothing else sets them. *)
Definition zeroOptions : processOptions := mkProcessOptions "" [] [] "" [].
Definition newProcessManager (count numCPU : nat) : processManager :=
  mkManager zeroOptions (if (count =? 0)%nat then numCPU else count) [] ∅ ∅ ∅ false.

Definition set_worker (i : nat) (w : workerPC) (p : processManager) : processManager :=
  mkManager (childOptions p) (toCreate p) (<[i := w]> (workers p)) (table p) (alive p) (used p) (ctxDone p).
Definition set_alive (a : gset Z) (p : processManager) : processManager :=
  mkManager (childOptions p) (toCreate p) (workers p) (table p) a (used p) (ctxDone p).

Section Manager.
Context `{OS : OsProcess}.

(** One turn of the loop of [start]: a child and its goroutine. *)
Definition createChild (p : processManager) : processManager :=
  mkManager (childOptions p) (pred (toCreate p)) (workers p ++ [Fresh]) (table p) (alive p) (used p) (ctxDone p).

(** [startProcess] up to the table: the child is started, then stored. *)
Definition launch (i : nat) (pid : Z) (p : processManager) : processManager :=
  match child_Start (ctxDone p) pid (execManager_Create (childOptions p)) with
  | (_, Some e) => set_worker i (Returned (Some e)) p
  | (_, None) =>
    mkManager (childOptions p) (toCreate p) (<[i := Launched pid]> (workers p)) (table p) ({[pid]} ∪ alive p)
      ({[pid]} ∪ used p) (ctxDone p)
  end.

Definition storeChild (i : nat) (pid : Z) (p : processManager) : processManager :=
  mkManager (childOptions p) (toCreate p) (<[i := Managed pid]> (workers p)) (<[pid := i]> (table p)) (alive p)
    (used p) (ctxDone p).


Definition visit (pid : Z) (p : processManager) : processManager :=
  match osKill pid with
  | None => set_alive (alive p ∖ {[pid]}) p
  | Some _ => p
  end.



Definition signalAll (order : list Z) (onSignal : option (Z → option string)) (sig : Z) : option string :=
  joinErrors ((order ≫= λ pid, option_list (osSignal pid sig)) ++
              match onSignal with Some f => option_list (f sig) | None => [] end).

Inductive managerStep : processManager → processManager → Prop :=
| step_create p : (0 < toCreate p)%nat → managerStep p (createChild p)
| step_launch p i pid : workers p !! i = Some Fresh → pid ∉ used p → managerStep p (launch i pid p)
| step_store p i pid : workers p !! i = Some (Launched pid) → managerStep p (storeChild i pid p)
(** The context is done, or the connection has ended. *)
| step_return p i pid err : workers p !! i = Some (Managed pid) →
    managerStep p (set_worker i (Returned err) p)
| step_done p : managerStep p (mkManager (childOptions p) (toCreate p) (workers p) (table p) (alive p) (used p) true)
(** A process ends by itself, or with the context. *)
| step_exit p pid : managerStep p (set_alive (alive p ∖ {[pid]}) p)
(** Some [kill] is at a child of the table. *)
| step_kill p pid : is_Some (table p !! pid) → managerStep p (visit pid p).

Definition managerReach : processManager → processManager → Prop := rtc managerStep.



(** ** What holds of the manager *)

















(** No child ever runs.  The options of the children are never set; if the
    system does not start a command without a path, then whatever the goroutines
    do nothing runs and the table stays empty, though [start] reports no error. *)
Theorem manager_runs_nothing count numCPU p :
  (∀ pid, spawn zeroOptions pid ≠ None) → managerReach (newProcessManager count numCPU) p →
  alive p = ∅ ∧ table p = ∅ ∧ Forall (λ w, w = Fresh ∨ ∃ e, w = Returned (Some e)) (workers p).
Proof.
  intros Hs Hr. refine (proj2 (rtc_ind_r (R := managerStep) (λ p, childOptions p = zeroOptions ∧ alive p = ∅ ∧
    table p = ∅ ∧ Forall (λ w, w = Fresh ∨ ∃ e, w = Returned (Some e)) (workers p)) _ _ _ _ Hr)); [by split_and!|].
  clear p Hr. intros p p' _ Hst (Hz & Ha & Ht & Hw).
  assert (Hno : ∀ i w, workers p !! i = Some w → w = Fresh ∨ ∃ e, w = Returned (Some e))
    by (intros i w; exact (Forall_lookup_1 _ _ _ _ Hw)).
  destruct Hst as [p Hc|p i pid Hi Hu|p i pid Hi|p i pid err Hi|p|p pid|p pid Hv].
  - split_and!; [done..|]. apply Forall_app_2; [done|]. constructor; [by left|done].
  - unfold launch. destruct (child_Start _ _ _) as [ch [e|]] eqn:Es.
    + split_and!; [done..|]. apply Forall_insert; eauto.
    + exfalso. unfold child_Start, execManager_Create in Es. simpl in Es. rewrite Hz in Es.
      specialize (Hs pid). repeat case_match; congruence.
  - destruct (Hno _ _ Hi) as [|[]]; done.
  - destruct (Hno _ _ Hi) as [|[]]; done.
  - done.
  - split_and!; [done| |done..]. simpl. rewrite Ha. set_solver.
  - destruct Hv as [w Hv]. by rewrite Ht, lookup_empty in Hv.
Qed.
End Manager.

(** ** The theorems at work *)

(** A system that starts what has a path. *)
#[local] Instance plainOS : OsProcess := {|
  stdinPipe _ := None; stdoutPipe _ := None;
  spawn o _ := if (po_Path o =? "")%string then Some "no command" else None;
  closePipe b := if b then None else Some "closed"; osKill _ := None; osSignal _ _ := None;
|}.





Lemma manager_runs_nothing_witness :
  ∃ p, @managerReach plainOS (newProcessManager 0 1) p ∧ workers p = [Returned (Some "no command")] ∧ alive p = ∅.
Proof.
  assert (Hr : @managerReach plainOS (newProcessManager 0 1)
    (mkManager zeroOptions 0 [Returned (Some "no command")] ∅ ∅ ∅ false)).
  { eapply rtc_l; [apply step_create; simpl; lia|]. eapply rtc_l; [by apply (step_launch _ 0 7)|]. apply rtc_refl. }
  eexists. split; [exact Hr|]. split; [done|].
  apply (@manager_runs_nothing plainOS 0 1); [done|exact Hr].
Defined.
