(* ===== verification/Management.v ===== *)
(** * The management pages (src/management.go, src/error.go and
    src/templates/fs.go)

    The pages for administrators: their routes, the error pages, and the chain of
    middlewares (metrics, access log) around every handler, with the response that
    is built on the way.  The router, the pages that html/template renders and the
    embedded files are the class [WebEnv]. *)

From S2P Require Import Prelude GoStrings Parse FileCache Values Routing GoNet Access GoURL Template Vars Logging Html Metrics OAuth2 GitOps.

#[local] Open Scope Z_scope.

(** ** Status texts *)

Definition statusNoResponse : Z := 444.
Definition statusRequestHeaderTooLarge : Z := 494.
Definition statusSSLCertificateError : Z := 495.
Definition statusSSLCertificateRequired : Z := 496.
Definition statusHTTPToHTTPSPort : Z := 497.
Definition statusClientClosedRequest : Z := 499.

Definition statusTextMap : gmap Z string := list_to_map [
  (statusNoResponse, "No Response");
  (statusRequestHeaderTooLarge, "Request header too large");
  (statusSSLCertificateError, "SSL Certificate Error");
  (statusSSLCertificateRequired, "SSL Certificate Required");
  (statusHTTPToHTTPSPort, "HTTP Request Sent to HTTPS Port");
  (statusClientClosedRequest, "Client Closed Request")].

(** [http.StatusText]. *)
Definition httpStatusText : gmap Z string := list_to_map [
  (100, "Continue"); (101, "Switching Protocols"); (102, "Processing"); (103, "Early Hints");
  (200, "OK"); (201, "Created"); (202, "Accepted"); (203, "Non-Authoritative Information"); (204, "No Content");
  (205, "Reset Content"); (206, "Partial Content"); (207, "Multi-Status"); (208, "Already Reported"); (226, "IM Used");
  (300, "Multiple Choices"); (301, "Moved Permanently"); (302, "Found"); (303, "See Other"); (304, "Not Modified");
  (305, "Use Proxy"); (307, "Temporary Redirect"); (308, "Permanent Redirect");
  (400, "Bad Request"); (401, "Unauthorized"); (402, "Payment Required"); (403, "Forbidden"); (404, "Not Found");
  (405, "Method Not Allowed"); (406, "Not Acceptable"); (407, "Proxy Authentication Required");
  (408, "Request Timeout"); (409, "Conflict"); (410, "Gone"); (411, "Length Required"); (412, "Precondition Failed");
  (413, "Request Entity Too Large"); (414, "Request URI Too Long"); (415, "Unsupported Media Type");
  (416, "Requested Range Not Satisfiable"); (417, "Expectation Failed"); (418, "I'm a teapot");
  (421, "Misdirected Request"); (422, "Unprocessable Entity"); (423, "Locked"); (424, "Failed Dependency");
  (425, "Too Early"); (426, "Upgrade Required"); (428, "Precondition Required"); (429, "Too Many Requests");
  (431, "Request Header Fields Too Large"); (451, "Unavailable For Legal Reasons");
  (500, "Internal Server Error"); (501, "Not Implemented"); (502, "Bad Gateway"); (503, "Service Unavailable");
  (504, "Gateway Timeout"); (505, "HTTP Version Not Supported"); (506, "Variant Also Negotiates");
  (507, "Insufficient Storage"); (508, "Loop Detected"); (510, "Not Extended");
  (511, "Network Authentication Required")].

Definition statusText (code : Z) : string :=
  match (if (444 <=? code) && (code <=? 499) then statusTextMap !! code else None) with
  | Some txt => txt
  | None => default "" (httpStatusText !! code)
  end.

(** ** Embedded files *)

(** [path.Join] is [JoinPath].  An embedded file system gives a file, says that
    there is none, or fails otherwise; so does the one of the system. *)
Inductive openError := NotExist | OtherOpen.

Definition PrefixFS_Open {F} (embedded : string → F + openError) (f name : string) : F + openError :=
  embedded (JoinPath f name).

Definition PrefixFallbackFS_Open {F} (embedded osOpen : string → F + openError) (f name : string) : F + openError :=
  match embedded (JoinPath f name) with
  | inr NotExist => osOpen name
  | r => r
  end.

Definition IncludeFS : string := "/confs/includes".
Definition WebFS : string := "/web".

(** ** Responses *)

(** The response of the framework: the status, the headers and the body that
    were sent.  A header that is set after the status was sent has no effect. *)
Record response := mkResponse {
  r_Status : Z; r_Committed : bool; r_Size : Z; r_header : gmap string string; r_body : string }.
Definition newResponse : response := mkResponse 200 false 0 ∅ "".

Definition respSet (name value : string) (r : response) : response :=
  if r_Committed r then r
  else mkResponse (r_Status r) (r_Committed r) (r_Size r) (<[name := value]> (r_header r)) (r_body r).

Definition respHeader (code : Z) (r : response) : response :=
  if r_Committed r then r else mkResponse code true (r_Size r) (r_header r) (r_body r).

Definition respWrite (text : string) (r : response) : response :=
  let r := if r_Committed r then r else respHeader (if r_Status r =? 0 then 200 else r_Status r) r in
  mkResponse (r_Status r) (r_Committed r) (r_Size r + strLen text) (r_header r) (r_body r +:+ text).

(** [http.Error]. *)
Definition httpError (msg : string) (code : Z) (r : response) : response :=
  let r := respSet "Content-Type" "text/plain; charset=utf-8" r in
  let r := respSet "X-Content-Type-Options" "nosniff" r in
  respWrite (msg +:+ str1 10) (respHeader code r).

(** [*echo.HTTPError], or another error. *)
Inductive echoError := HTTPError (code : Z) | OtherError (msg : string).

(** The pages, by handler. *)
Inductive page := PIndex | PAssets | PMetrics | PRefs | PUp | PDown.

(** [gitOps.handler]. *)
Definition gitRoutes : list (string * string * page) :=
  [("GET", "/git/:project/info/refs", PRefs); ("POST", "/git/:project/git-upload-pack", PUp);
   ("POST", "/git/:project/git-receive-pack", PDown)].

(** [management.init]: the routes in the order in which they are added. *)
Definition routes : list (string * string * page) :=
  [("GET", "/", PIndex); ("GET", "/assets/*", PAssets); ("GET", "/metrics", PMetrics)] ++ gitRoutes.

(** What the router finds: a handler, nothing, or the path under another method. *)
Inductive routed := Routed (pattern : string) (p : page) | NoRoute (pattern : string) | WrongMethod (pattern : string).

(** [execHTML] is what a template writes and the error, if any; [serveFile] is
    what http.FileServer makes of a name; [gatherMetrics], [negotiateFormat] (of
    the headers of a request) and [encodeMetrics] (of a format) are the metrics
    library; [gitText] the bytes of a body of the git handlers. *)
Class WebEnv := {
  findRoute : list (string * string * page) → string → string → routed;
  execHTML : string → list (string * string) → string * option string;
  serveFile : (string → string + openError) → string → response → response;
  embeddedFile : string → string + openError;
  gatherMetrics : httpMetrics → list string + string;
  negotiateFormat : list (string * list string) → string;
  encodeMetrics : string → string → string + string;
  gitText : string → string;
}.

Section Pages.
Context `{W : WebEnv} `{GE : GitEnv} `{T : TextTemplate}.

(** ** Error pages *)

Definition eRender (code : Z) (r : response) : response * option string :=
  let r := respHeader code r in
  let '(text, e) := execHTML "errors/error.html" [("code", Itoa code); ("text", statusText code)] in
  (respWrite text r, e).

(** [e404] and [e500] of src/error.go. *)
Definition page404 (r : response) : response * option string := eRender 404 r.
Definition page500 (r : response) : response := fst (eRender 500 r).

Definition echoErrorHandler (err : echoError) (r : response) : response :=
  match err with
  | HTTPError code => fst (eRender code r)
  | OtherError _ => page500 r
  end.

(** ** Handlers *)

Definition echoNotFound (r : response) : response * option echoError :=
  let '(r, e) := page404 r in (r, OtherError <$> e).

Definition index (choice : option nat) (b : buffers) (r : response) : res (response * option echoError) * buffers :=
  let '(buf, b) := GetBytes choice b in
  match buf with
  | Panic p => (Panic p, b)
  | OutOfFuel => (OutOfFuel, b)
  | Ok buf =>
    let '(text, e) := execHTML "management/index.html" [] in
    let buf := buf +:+ text in
    (Ok (match e with
         | Some e => (r, Some (OtherError e))
         | None =>
           let r := if (default "" (r_header r !! "Content-Type") =? "")%string
             then respSet "Content-Type" "text/html; charset=UTF-8" r else r in
           (respWrite buf (respHeader 200 r), None)
         end), PutBytes buf b)
  end.

(** The name under which http.FileServer looks for a path. *)
Definition assetName (path : string) : string :=
  let upath := TrimPrefix path "/assets" in
  Clean (if HasPrefix upath "/" then upath else "/" +:+ upath).

(** [static]: http.StripPrefix and http.FileServer over [WebFS]. *)
Definition static (path : string) (r : response) : response :=
  if HasPrefix path "/assets"
  then serveFile (PrefixFS_Open embeddedFile WebFS) (assetName path) r
  else httpError "404 page not found" 404 r.

(** [metricsHandler] on the response. *)
Definition metricsPage (header : list (string * list string)) (m : httpMetrics) (choice : option nat) (b : buffers)
    (r : response) : res response * buffers :=
  let '(reply, b) := metricsHandler negotiateFormat header (gatherMetrics m) encodeMetrics choice b in
  (reply ← reply;
   Ok (match reply with
       | Failure status msg => httpError msg status r
       | Page contentType contentLength body =>
         respWrite body (respSet "Content-Length" contentLength (respSet "Content-Type" contentType r))
       end), b).

(** The events of a git handler on the response. *)
Definition gitEffect (r : response) (e : gitEvent) : response :=
  match e with
  | Header name value => respSet name value r
  | Status code => respHeader code r
  | Service rpc => respWrite (gitText rpc) r
  | Body what => respWrite (gitText what) r
  | _ => r
  end.

(** ** A request *)

Record mgmtRequest := mkMgmtRequest {
  mq_method : string; mq_path : string; mq_addr : option string;
  mq_log : logCtx; mq_vars : option tplData; mq_ms : string;
  mq_git : gitRequest; mq_sized : sizedRequest; mq_duration : Z; mq_choice : option nat;
}.

(** What all requests share: the pools, the templates of the log lines and the
    metrics. *)
Record mgmtState := mkMgmt { ms_buffers : buffers; ms_tpls : gmap string stringTemplateValue; ms_metrics : httpMetrics }.

(** The handler that the router has found. *)
Definition runPage (g : gitOps) (q : mgmtRequest) (s : mgmtState) (f : routed) (r : response)
    : res (response * option echoError) * buffers :=
  let quiet r := (Ok (r, None), ms_buffers s) in
  match f with
  | NoRoute _ => (Ok (echoNotFound r), ms_buffers s)
  | WrongMethod _ => (Ok (r, Some (HTTPError 405)), ms_buffers s)
  | Routed _ PIndex => index (mq_choice q) (ms_buffers s) r
  | Routed _ PAssets => quiet (static (mq_path q) r)
  | Routed _ PMetrics =>
    let '(out, b) := metricsPage (sz_header (mq_sized q)) (ms_metrics s) (mq_choice q) (ms_buffers s) r in
    (r ← out; Ok (r, None), b)
  | Routed _ PRefs => quiet (foldl gitEffect r (git_refs g (mq_git q)))
  | Routed _ PUp => quiet (foldl gitEffect r (git_up g (mq_git q)))
  | Routed _ PDown => quiet (foldl gitEffect r (git_down g (mq_git q)))
  end.

Definition routedPattern (f : routed) : string :=
  match f with Routed p _ | NoRoute p | WrongMethod p => p end.

(** Whether the access log calls the handler. *)
Definition logOff (c : logCtx) : bool :=
  match logPath c with None => true | Some d => (d =? "")%string || (d =? "/dev/null")%string end.
Definition logCalls (c : logCtx) : bool :=
  logOff c || match logger c with Some true => true | _ => false end.

(** The access log around the handler: its events on the response. *)
Definition logEffect (next : response) (e : option echoError) (r : response) (ev : logEvent) : response :=
  match ev, e with
  | Served, _ => next
  | Shown, Some e => echoErrorHandler e r
  | _, _ => r
  end.

(** [management.ServeHTTP]: the metrics around the access log around the handler.
    An error is shown by the metrics, which return it, and then by the
    framework. *)
Definition management_ServeHTTP (g : gitOps) (q : mgmtRequest) (s : mgmtState) : res (response * mgmtState) :=
  let f := findRoute routes (mq_method q) (mq_path q) in
  let '(out, b) := if logCalls (mq_log q) then runPage g q s f newResponse else (Ok (newResponse, None), ms_buffers s) in
  '(next, e) ← out;
  let '(evs, failed, tpls) := accessLog (mq_log q) (mq_vars q) (mq_ms q) (bool_decide (is_Some e)) (ms_tpls s) in
  failed ← failed;
  let r := foldl (logEffect next e) newResponse evs in
  let e := if (failed : bool) then e else None in
  let show r := match e with Some e => echoErrorHandler e r | None => r end in
  let call := mkEchoCall (mq_addr q) (r_Status r) failed (r_Size (show r)) (mq_method q) (routedPattern f) (mq_sized q)
    (mq_duration q) in
  '(_, m) ← instrumentEcho call (ms_metrics s);
  Ok (show (show r), mkMgmt b tpls m).


(** ** What is answered *)

Definition mgmtOK (s : mgmtState) : Prop := poolsOK true (ms_buffers s) ∧ vecsOK (ms_metrics s).

(** A request that came over a listener, with the access log off. *)
Definition plainRequest (q : mgmtRequest) : Prop := is_Some (mq_addr q) ∧ logOff (mq_log q) = true.

(** The labels of a request: its listener, its method, and the pattern of its
    route. *)
Definition requestLabels (q : mgmtRequest) : Prop :=
  labelsValid (mq_addr q) (mq_method q) (routedPattern (findRoute routes (mq_method q) (mq_path q))).

(** Errors are shown by the middleware and once more by the framework. *)
Definition shownTwice (e : option echoError) (r : response) : response :=
  match e with Some e => echoErrorHandler e (echoErrorHandler e r) | None => r end.

Lemma accessLog_off c vars ms failed tpls : logOff c = true → accessLog c vars ms failed tpls = ([Served], Ok failed, tpls).
Proof. unfold logOff, accessLog. destruct (logPath c); [|done]. by intros ->. Qed.

Lemma runPage_OK g q s f r : poolsOK true (ms_buffers s) →
  ∃ next e b, runPage g q s f r = (Ok (next, e), b) ∧ poolsOK true b.
Proof.
  intros Hs. destruct f as [pat []|pat|pat]; simpl; try (by eauto 6).
  - unfold index. destruct (bufferStep_OK true (OGetBytes (mq_choice q)) _ Hs) as [Hout Hb]. simpl in Hout, Hb.
    destruct (GetBytes (mq_choice q) (ms_buffers s)) as [buf b]. simpl in Hout, Hb.
    destruct Hout as [[= ->]|(_ & [? [=]] & _)]. destruct (execHTML _ _) as [text e].
    pose proof (proj2 (bufferStep_OK true (OPutBytes ("" +:+ text)) b Hb)) as Hp.
    destruct e; eauto 6.
  - unfold metricsPage.
    destruct (metricsHandler_OK negotiateFormat (sz_header (mq_sized q)) (gatherMetrics (ms_metrics s)) encodeMetrics
      (mq_choice q) _ Hs) as (reply & b & -> & Hb). simpl. eauto 6.
  - destruct (echoNotFound r) as [next e]. eauto 6.
Qed.

(** A request up to the metrics. *)
Lemma management_reaches g q s : mgmtOK s → plainRequest q →
  ∃ next e b tpls failed size, runPage g q s (findRoute routes (mq_method q) (mq_path q)) newResponse = (Ok (next, e), b) ∧
    poolsOK true b ∧
    management_ServeHTTP g q s =
    ('(_, m) ← instrumentEcho (mkEchoCall (mq_addr q) (r_Status next) failed size (mq_method q)
        (routedPattern (findRoute routes (mq_method q) (mq_path q))) (mq_sized q) (mq_duration q)) (ms_metrics s);
     Ok (shownTwice e next, mkMgmt b tpls m)).
Proof.
  intros [Hb Hv] [_ Hl].
  destruct (runPage_OK g q s (findRoute routes (mq_method q) (mq_path q)) newResponse Hb) as (next & e & b & Hr & Hb').
  unfold management_ServeHTTP, logCalls. rewrite Hl. cbn [orb]. rewrite Hr. cbn [mbind res_bind].
  rewrite accessLog_off by done. cbn [mbind res_bind foldl logEffect].
  eexists next, e, b, _, _, _. split; [done|]. split; [done|]. f_equal. by destruct e.
Qed.

Lemma management_serves g q s : mgmtOK s → plainRequest q → requestLabels q →
  ∃ next e b s' addr, runPage g q s (findRoute routes (mq_method q) (mq_path q)) newResponse = (Ok (next, e), b) ∧
    management_ServeHTTP g q s = Ok (shownTwice e next, s') ∧ mgmtOK s' ∧ ms_buffers s' = b ∧ mq_addr q = Some addr ∧
    observed (hm_total (ms_metrics s')) [addr; Itoa (r_Status next); mq_method q;
                         routedPattern (findRoute routes (mq_method q) (mq_path q))] =
    observed (hm_total (ms_metrics s)) [addr; Itoa (r_Status next); mq_method q;
                         routedPattern (findRoute routes (mq_method q) (mq_path q))] ++ [1].
Proof.
  intros Hs Hq Hlab. destruct (management_reaches g q s Hs Hq) as (next & e & b & tpls & failed & size & Hr & Hb & Hm).
  destruct Hq as [[addr Ha] _]. destruct Hs as [_ Hv].
  match type of Hm with context [instrumentEcho ?c (ms_metrics s)] =>
    destruct (instrumentEcho_counts c (ms_metrics s) addr Hv Ha) as (m & Hi & Hv' & Hc & _); [exact Hlab|] end.
  rewrite Hi in Hm. cbn [mbind res_bind] in Hm. eexists next, e, b, _, addr. split_and!; [done|exact Hm|done..|].
  simpl. rewrite Hc. f_equal. unfold withLabels. rewrite filter_cons_True by done. by rewrite filter_nil.
Qed.

Lemma management_invalid g q s : mgmtOK s → plainRequest q → ¬ requestLabels q →
  management_ServeHTTP g q s = Panic ExplicitPanic.
Proof.
  intros Hs Hq Hlab. destruct (management_reaches g q s Hs Hq) as (next & e & b & tpls & failed & size & Hr & Hb & ->).
  rewrite instrumentEcho_invalid; [done|apply Hq|done].
Qed.


(** An unknown path that is not UTF-8.  When there is no route for a path, the
    router leaves the path itself as the pattern: a path with a byte that is not
    UTF-8, such as that of GET /%FF, makes the request panic. *)
Theorem unknown_path_panics g q s :
  mgmtOK s → plainRequest q → findRoute routes (mq_method q) (mq_path q) = NoRoute (mq_path q) →
  ¬ validText (mq_path q) → management_ServeHTTP g q s = Panic ExplicitPanic.
Proof.
  intros Hs Hq Hf Hp. apply management_invalid; [done..|]. unfold requestLabels. rewrite Hf. by intros (_ & _ & ?).
Qed.

Lemma eRender_twice code text e :
  execHTML "errors/error.html" [("code", Itoa code); ("text", statusText code)] = (text, e) →
  ∀ r, r_Committed r = false →
  let r' := fst (eRender code (fst (eRender code r))) in
  r_Status r' = code ∧ r_body r' = r_body r +:+ text +:+ text.
Proof. intros Hx r Hr. unfold eRender. rewrite Hx. unfold respHeader, respWrite. rewrite Hr. simpl. by rewrite string_app_assoc. Qed.

(** Error pages come twice and are counted as successes.  When the path is
    known under another method, the client gets the status 405 and the error page
    twice in one body, and the request is counted under the status 200. *)
Theorem error_page_twice g q s pattern addr text e :
  mgmtOK s → plainRequest q → mq_addr q = Some addr → validText addr → validText (mq_method q) → validText pattern →
  findRoute routes (mq_method q) (mq_path q) = WrongMethod pattern →
  execHTML "errors/error.html" [("code", "405"); ("text", "Method Not Allowed")] = (text, e) →
  ∃ r s', management_ServeHTTP g q s = Ok (r, s') ∧ r_Status r = 405 ∧ r_body r = text +:+ text ∧
    observed (hm_total (ms_metrics s')) [addr; "200"; mq_method q; pattern] =
    observed (hm_total (ms_metrics s)) [addr; "200"; mq_method q; pattern] ++ [1].
Proof.
  intros Hs Hq Ha V1 V2 V3 Hf Hx.
  assert (requestLabels q) as Hlab.
  { unfold requestLabels. rewrite Ha, Hf. split_and!; [by intros ? [= <-]|done..]. }
  destruct (management_serves g q s Hs Hq Hlab) as (next & e' & b & s' & a & Hr & Hm & _ & _ & Ha' & Hc).
  rewrite Hf in Hr, Hc. injection Hr as <- <- _. simplify_eq.
  destruct (eRender_twice 405 text e Hx newResponse eq_refl) as [Hst Hb].
  eexists _, s'. split; [exact Hm|]. split_and!; [exact Hst|exact Hb|exact Hc].
Qed.
End Pages.

(** ** Assets *)

(** An element of a path that [Clean] keeps. *)
Definition properElem (e : string) : Prop := hasByte 47 e = false ∧ e ≠ "" ∧ e ≠ "." ∧ e ≠ "..".

Lemma Split_pieces s c : Forall (λ e, hasByte c e = false) (Split s c).
Proof.
  induction s as [|a s IH]; simpl; [by repeat constructor|]. destruct (byteZ a =? c) eqn:Ea; [by constructor|].
  destruct (Split s c) as [|e l]; simpl; inversion_clear IH; constructor; simpl; rewrite ?Ea; done.
Qed.

Lemma clean_proper stack l : Forall properElem stack → Forall (λ e, hasByte 47 e = false) l →
  Forall properElem (foldl (cleanElem true) stack l).
Proof.
  intros Hs Hl. revert stack Hs. induction Hl as [|e l He _ IH]; intros stack Hs; [done|]. simpl. apply IH.
  unfold cleanElem. destruct (String.eqb_spec e "") as [->|H1]; [done|]. destruct (String.eqb_spec e ".") as [->|H2]; [done|].
  destruct (String.eqb_spec e "..") as [->|H3]; [|by constructor].
  destruct Hs as [|top rest Ht Hr]; [done|]. destruct (String.eqb_spec top "..") as [->|]; [|done].
  by destruct Ht as (_ & _ & _ & []).
Qed.

Lemma clean_pushes stack es : Forall properElem es → foldl (cleanElem true) stack es = rev es ++ stack.
Proof.
  intros H. revert stack. induction H as [|e es (_ & H1 & H2 & H3) _ IH]; intros stack; [done|]. simpl.
  rewrite IH, <- (assoc_L (++)). simpl. f_equal. unfold cleanElem.
  by rewrite (proj2 (String.eqb_neq _ _) H1), (proj2 (String.eqb_neq _ _) H2), (proj2 (String.eqb_neq _ _) H3).
Qed.

Lemma Split_Join es : es ≠ [] → Forall properElem es → Split (Join es "/") 47 = es.
Proof.
  intros Hne H. induction H as [|e es [He _] Hes IH]; [done|]. destruct es as [|e' es]; [by apply Split_none|].
  change (Join (e :: e' :: es) "/") with (e +:+ String (zbyte 47) (Join (e' :: es) "/")).
  rewrite Split_app, (Split_none e), IH by (done || lia). done.
Qed.

Lemma Clean_rooted p : HasPrefix p "/" = true →
  ∃ es, Forall properElem es ∧ Clean p = "/" +:+ Join es "/".
Proof.
  intros [x ->]%HasPrefix_split. unfold Clean.
  set (st := foldl (cleanElem true) [] (Split ("/" +:+ x) 47)).
  exists (rev st). split; [|done]. apply Forall_rev, clean_proper; [done|apply Split_pieces].
Qed.

Lemma JoinPath_below es : Forall properElem es →
  JoinPath "/web" ("/" +:+ Join es "/") = match es with [] => "/web" | _ => "/web/" +:+ Join es "/" end.
Proof.
  intros H. destruct es as [|e es]; [reflexivity|].
  change (JoinPath "/web" ("/" +:+ Join (e :: es) "/")) with (Clean ("/web" +:+ String (zbyte 47) (String (zbyte 47) (Join (e :: es) "/")))).
  unfold Clean. change (IsAbs _) with true. cbv zeta.
  rewrite Split_app by lia. change (Split "/web" 47) with [""; "web"].
  assert (Split (String (zbyte 47) (Join (e :: es) "/")) 47 = "" :: e :: es) as ->
    by (change (String (zbyte 47) (Join (e :: es) "/")) with ("" +:+ String (zbyte 47) (Join (e :: es) "/"));
        by rewrite Split_app, Split_Join by (done || lia)).
  rewrite foldl_app. change (foldl (cleanElem true) [] [""; "web"]) with ["web"].
  change (foldl (cleanElem true) ["web"] ("" :: e :: es)) with (foldl (cleanElem true) ["web"] (e :: es)).
  rewrite (clean_pushes ["web"] (e :: es)) by done.
  rewrite rev_app_distr, rev_involutive. reflexivity.
Qed.

(** C28: Assets stay in their directory.  Whatever path a request names, the file
    that is looked for is the directory of the assets or lies below it, and its
    path has no element that leaves it. *)
Theorem assets_confined path :
  ∃ es, Forall properElem es ∧
    ∀ F (embedded : string → F + openError),
      PrefixFS_Open embedded WebFS (assetName path) =
      embedded (match es with [] => "/web" | _ => "/web/" +:+ Join es "/" end).
Proof.
  unfold assetName. set (u := TrimPrefix path "/assets").
  destruct (Clean_rooted (if HasPrefix u "/" then u else "/" +:+ u)) as (es & Hes & Hc).
  { destruct (HasPrefix u "/") eqn:E; [done|apply HasPrefix_app]. }
  exists es. split; [done|]. intros F embedded. unfold PrefixFS_Open. f_equal. rewrite Hc. by apply JoinPath_below.
Qed.

(** ** The theorems at work *)

(** A router for the one path /, pages that are their code. *)
#[local] Instance smallWeb : WebEnv := {|
  findRoute _ m p := if (p =? "/")%string then if (m =? "GET")%string then Routed "/" PIndex else WrongMethod "/" else NoRoute p;
  execHTML _ d := (default "index" (head (snd <$> d)), None);
  serveFile _ _ r := r; embeddedFile _ := inr NotExist;
  gatherMetrics _ := inl []; negotiateFormat _ := "text/plain"; encodeMetrics _ s := inl s; gitText s := s;
|}.
#[local] Instance noGit : GitEnv := {|
  notExist _ := false; mkdirAllOK _ := true; mkdirOK _ := true; initOK _ := true; openOK _ := true;
  gzipOK := true; decodeOK := true; packOK _ := true; advertiseOK := true; encodeOK := true |}.
#[local] Instance noWords : TextTemplate := {| parseWord _ := None; parseRest _ := None |}.

Definition someGit : gitOps := mkGitOps (mkGitOpts "/srv" false) (mkLoader [] "/srv" None).
Definition mgmtCall (method path : string) : mgmtRequest :=
  mkMgmtRequest method path (Some ":9000") (mkLogCtx None None None None) None "0"
    (mkGitRequest path "" false (mkOauthRequest method ∅ false "")) shortRequest 1 None.
Definition mgmtStart : mgmtState := mkMgmt noBuffers ∅ httpMetrics_init.

Lemma mgmtStart_OK : mgmtOK mgmtStart.
Proof. split; [split_and!; by constructor|done]. Qed.


Lemma unknown_path_panics_witness :
  management_ServeHTTP someGit (mgmtCall "GET" ("/" +:+ str1 255)) mgmtStart = Panic ExplicitPanic.
Proof.
  apply (unknown_path_panics someGit (mgmtCall "GET" ("/" +:+ str1 255)) mgmtStart mgmtStart_OK); [|reflexivity|].
  - split; [by eexists|done].
  - intros H%ValidString_spec. vm_compute in H. discriminate.
Defined.

Lemma error_page_twice_witness :
  ∃ r s', management_ServeHTTP someGit (mgmtCall "POST" "/") mgmtStart = Ok (r, s') ∧ r_Status r = 405 ∧ r_body r = "405405" ∧
    observed (hm_total (ms_metrics s')) [":9000"; "200"; "POST"; "/"] = [1].
Proof.
  apply (error_page_twice someGit (mgmtCall "POST" "/") mgmtStart "/" ":9000" "405" None mgmtStart_OK);
    [split; [by eexists|done]|done|apply ValidString_spec; reflexivity..|done|done].
Defined.
