(* ===== verification/Format.v ===== *)
(** * The format command (src/config_format.go)

    The command that prints a configuration file in the standard layout, or as
    JSON, and may write it back.  The JSON of a file and the files of the system
    are the class [FormatEnv]. *)

From S2P Require Import Prelude GoStrings Lexer Directives Stmt Analyze Parse ParseFacts Quoting Build LexSteps RoundTrip Combine Verdict.

#[local] Open Scope Z_scope.

Record formatOption := mkFormatOption { fo_write : bool; fo_json : bool; fo_jsonPretty : bool }.

(** [configJSON] is json.Marshal, or json.MarshalIndent with [true]; [fileMode] is
    os.Stat; the others are the errors of writing. *)
Class FormatEnv := {
  configJSON : bool → parsingContext → string + string;
  stdoutFails : string → option string;
  fileMode : string → Z + string;
  writeFails : string → string → option string;
}.

Inductive formatError := FormatParse (e : error) | FormatMsg (msg : string).
Inductive formatEffect := ToStdout (text : string) | ToFile (file text : string) (mode : Z).

(** The options of [format]: the defaults, with comments. *)
Definition formatOpts : parseOpts :=
  let o := defaultParseOpts in
  {| catchErr := catchErr o; ignore := ignore o; single := single o; strict := strict o;
     comments := true; combine := combine o; checkCtx := checkCtx o; checkArgs := checkArgs o;
     configDir := configDir o; includes := includes o; included := included o; errHandler := errHandler o |}.

Section Format.
Context `{U : Unicode} `{F : Fmt} `{FE : FormatEnv}.

Definition toStdout (text : string) : list formatEffect * option formatError :=
  ([ToStdout text], FormatMsg <$> stdoutFails text).

Definition jsonOut (indent : bool) (cfg : parsingContext) : list formatEffect * option formatError :=
  match configJSON indent cfg with inr e => ([], Some (FormatMsg e)) | inl b => toStdout b end.

(** [format], once the file is read; a configuration that is a nil pointer has a
    JSON text, but no statements. *)
Definition formatParsed (file : string) (opts : formatOption) (p : payload)
    : res (list formatEffect * option formatError) :=
  match pld_Errors p with
  | e :: _ => Ok ([], Some (FormatParse e))
  | [] =>
    match Config p with
    | [] => Panic IndexOutOfRange
    | None :: _ => if fo_json opts || fo_jsonPretty opts then Ok (toStdout "null") else Panic NilDereference
    | Some cfg :: _ =>
      if fo_json opts then Ok (jsonOut false cfg)
      else if fo_jsonPretty opts then Ok (jsonOut true cfg)
      else
        let out := build (Parsed cfg) 2 false in
        if negb (fo_write opts) then Ok (toStdout out)
        else match fileMode file with
             | inr e => Ok ([], Some (FormatMsg e))
             | inl mode => Ok ([ToFile file out mode], FormatMsg <$> writeFails file out)
             end
    end
  end.

Definition format `{FS : FileSystem} (fuel : nat) (file : string) (opts : formatOption) (dirs : gmap string (list Z))
    : res (list formatEffect * option formatError) :=
  '(p, _, _) ← parse fuel file formatOpts dirs; formatParsed file opts p.

(** The action of the command. *)
Definition formatCommand `{FS : FileSystem} (fuel : nat) (args : list string) (w json jsonPretty : bool)
    (dirs : gmap string (list Z)) : res (list formatEffect * option formatError) :=
  let a := default "" (head args) in
  if (a =? "")%string then Ok ([], Some (FormatMsg "missing file"))
  else format fuel a (mkFormatOption w json jsonPretty) dirs.

(** The file system after a file was written. *)
Definition writtenFS (FS : FileSystem) (file text : string) : FileSystem :=
  {| fs_Open n := if (n =? file)%string then inl text else @fs_Open FS n; Glob := @Glob FS |}.

(** The file is read without errors, to [cfg]. *)
Definition formatReads `{FS : FileSystem} (fuel : nat) (file : string) (dirs : gmap string (list Z)) (cfg : parsingContext) : Prop :=
  match parse fuel file formatOpts dirs with
  | Ok (p, _, _) => pld_Errors p = [] ∧ head (Config p) = Some (Some cfg)
  | _ => False
  end.

Lemma format_writes `{FS : FileSystem} fuel file dirs cfg mode :
  formatReads fuel file dirs cfg →
  fileMode file = inl mode → writeFails file (build (Parsed cfg) 2 false) = None →
  format fuel file (mkFormatOption true false false) dirs = Ok ([ToFile file (build (Parsed cfg) 2 false) mode], None).
Proof.
  unfold formatReads, format. destruct (parse fuel file formatOpts dirs) as [[[p o] d]| |]; [|done..].
  intros [He Hc] Hm Hw. simpl. unfold formatParsed. rewrite He. destruct (Config p) as [|c rest]; [done|].
  simplify_eq/=. by rewrite Hm, Hw.
Qed.

(** The printed text of well-formed statements is read back; when the statements
    are accepted, nothing is reported. *)
Lemma written_reads (FS : FileSystem) file dirs b pld :
  Forall stmtOK b → commentsApart b → (∀ s, last b = Some s → isCommentStmt s = false) →
  ∃ k ss, map erase ss = map erase b ∧ ∀ n, (k ≤ n)%nat → ∃ cfg' pld' dirs',
    @parseInclude _ _ (writtenFS FS file (build b 2 false)) n (st_opts (parseInit file formatOpts dirs)) pld dirs
      (mkFileCtx file []) = Ok (inl cfg', st_opts (parseInit file formatOpts dirs), pld', dirs') ∧
    Parsed cfg' = ss ∧ (blockAccepts dirs false true [] ss → pld' = pld).
Proof.
  intros Hb Hap Hl.
  set (w := mkWorld [] (mkParsing file "ok" [] []) (st_opts (parseInit file formatOpts dirs)) pld dirs).
  destruct (@build_reads _ _ (writtenFS FS file (build b 2 false)) b 2 file w []
    Hb Hap Hl eq_refl eq_refl (λ _, eq_refl)) as (k & ts & ss & Hlex & Hss & HP).
  exists (k `max` S (length ts))%nat, ss. split; [done|]. intros n Hn.
  destruct (HP n ltac:(lia)) as (w' & Hw' & Ho & Ha). unfold parseInclude. simpl fs_Open. rewrite String.eqb_refl.
  rewrite (lex_stable _ file k n tt) by (rewrite ?Hlex; (lia || done)). rewrite Hlex. cbn [mbind res_bind].
  change (mkWorld ts _ _ pld dirs) with (set_w_tokens ts w). simpl fctx. rewrite Hw'. cbn [mbind res_bind].
  rewrite Ho. by eexists _, _, _.
Qed.

(** A configuration read without errors is accepted. *)
Lemma formatReads_accepted `{FS : FileSystem} fuel file dirs cfg :
  sameMasks dirs directives → formatReads fuel file dirs cfg → blockAccepts dirs false true [] (Parsed cfg).
Proof.
  intros Hd. unfold formatReads. destruct (parse fuel file formatOpts dirs) as [[[p o] d]| |] eqn:E; [|done..].
  intros [He Hh]. apply (parse_silent fuel file formatOpts dirs p o d cfg); [done..| |done|done|done|done].
  by eapply sameMasks_None.
Qed.

(** A file that includes no other is a configuration of one file. *)
Lemma parse_one_file `{FS : FileSystem} n file o dirs cfg pld' dirs' :
  parseInclude (S n) (st_opts (parseInit file o dirs)) (mkPayload "ok" [] []) dirs (mkFileCtx file []) =
    Ok (inl cfg, st_opts (parseInit file o dirs), pld', dirs') →
  includes o = [] → combine o = false → Config pld' = [] →
  parse (S (S n)) file o dirs =
    Ok (mkPayload (pld_Status pld') (pld_Errors pld') [Some cfg], st_opts (parseInit file o dirs), dirs').
Proof.
  intros H Hi Hc Hcf.
  assert (E : parseStep (S n) (parseInit file o dirs) = Ok (inl (mkParseState 1 (st_opts (parseInit file o dirs))
    (mkPayload (pld_Status pld') (pld_Errors pld') [Some cfg]) dirs'))).
  { unfold parseStep. assert (Hf : includes (st_opts (parseInit file o dirs)) !! st_idx (parseInit file o dirs) =
      Some (mkFileCtx file [])) by (simpl; by rewrite Hi).
    rewrite Hf. change (st_pld (parseInit file o dirs)) with (mkPayload "ok" [] []).
    change (st_dirs (parseInit file o dirs)) with dirs. rewrite H. simpl. by rewrite Hcf. }
  unfold parse, parseFiles. cbn [go_for]. rewrite E. cbn [mbind res_bind]. unfold parseStep. simpl. rewrite Hi. simpl.
  by rewrite Hc.
Qed.


(** C22: formatting is idempotent.  When a file is read without errors to
    well-formed statements without comments, [format -w] writes a text, and run
    again on the file it has written, in a process that has already called
    [analyze] any number of times, it reports no error and writes the same text. *)
Theorem format_idempotent (FS : FileSystem) fuel file dirs dirs2 cfg mode :
  formatReads fuel file dirs cfg → sameMasks dirs directives → sameMasks dirs2 directives →
  fileMode file = inl mode → (∀ text, writeFails file text = None) →
  Forall stmtOK (Parsed cfg) → forallb plainStmt (Parsed cfg) = true →
  ∃ text, format fuel file (mkFormatOption true false false) dirs = Ok ([ToFile file text mode], None) ∧
  ∃ k, ∀ n, (k ≤ n)%nat →
    @format (writtenFS FS file text) n file (mkFormatOption true false false) dirs2 =
      Ok ([ToFile file text mode], None).
Proof.
  intros Hp Hd1 Hd2 Hm Hw Hb Hpl. destruct (plain_last _ Hpl) as [Hap Hl].
  exists (build (Parsed cfg) 2 false). split; [by apply format_writes|].
  destruct (written_reads FS file dirs2 (Parsed cfg) (mkPayload "ok" [] []) Hb Hap Hl) as (k & ss & Hss & HP).
  assert (Hacc : blockAccepts dirs2 false true [] ss).
  { apply (blockAccepts_erase _ _ _ _ (Parsed cfg)); [done|]. rewrite Hd2, <- Hd1.
    by apply (formatReads_accepted fuel file). }
  exists (2 + k)%nat. intros n Hn. destruct n as [|[|n]]; [lia..|].
  destruct (HP (S n) ltac:(lia)) as (cfg' & pld' & dirs' & Hr & Hs & Hpl'). specialize (Hpl' Hacc). subst ss pld'.
  rewrite (build_plain (Parsed cfg) (Parsed cfg')) in * by done.
  apply (@format_writes (writtenFS FS file (build (Parsed cfg') 2 false))); [|done..].
  unfold formatReads. rewrite (parse_one_file _ _ _ _ _ _ _ Hr); done.
Qed.

(** Formatting can break a file.  When the well-formed statements of the file
    end with a comment, [format -w] writes a file that is never read: with no fuel
    does the lexer reach the end of that comment. *)
Theorem format_breaks (FS : FileSystem) fuel file dirs cfg mode b c :
  formatReads fuel file dirs cfg →
  fileMode file = inl mode → (∀ text, writeFails file text = None) →
  Parsed cfg = b ++ [c] → Forall stmtOK (b ++ [c]) → commentsApart (b ++ [c]) → isCommentStmt c = true →
  ∃ text, format fuel file (mkFormatOption true false false) dirs = Ok ([ToFile file text mode], None) ∧
    ∀ n opts, @parse _ _ (writtenFS FS file text) n file (set_includes [] ∅ opts) dirs = OutOfFuel.
Proof.
  intros Hp Hm Hw Hb Hok Hap Hcm.
  exists (build (Parsed cfg) 2 false). split; [by apply format_writes|]. intros [|n] opts; [done|].
  unfold parse, parseFiles. cbn [go_for]. unfold parseStep. simpl. unfold parseInclude. simpl.
  by rewrite String.eqb_refl, Hb, build_final_comment_diverges.
Qed.
End Format.

(** ** The theorems at work *)

#[local] Instance plainFormat : FormatEnv := {|
  configJSON _ _ := inl "{}"; stdoutFails _ := None; fileMode _ := inl 420; writeFails _ _ := None |}.

Definition untidy (tail : string) : FileSystem := {|
  fs_Open n := if (n =? "v.conf")%string then inl ("events   {" +:+ str1 10 +:+ " }" +:+ tail +:+ str1 10) else inr "none";
  Glob _ := inl [] |}.

(** What the file is parsed to. *)
Definition untidyParsed (last : list Stmt) : parsingContext :=
  mkParsing "v.conf" "ok" [] (mkStmt "events" "" 1 [] "" [] (Some []) :: last).



Definition finalComment : Stmt := mkStmt "#" "" 2 [] " end" [] None.

Lemma format_breaks_witness :
  ∃ text, @format asciiOnly noFmt _ (untidy " # end") 100 "v.conf" (mkFormatOption true false false) directives =
      Ok ([ToFile "v.conf" text 420], None) ∧
    ∀ n opts, @parse asciiOnly noFmt (writtenFS (untidy " # end") "v.conf" text) n "v.conf" (set_includes [] ∅ opts) directives =
      OutOfFuel.
Proof.
  apply (@format_breaks asciiOnly noFmt _ (untidy " # end") 100 "v.conf" directives (untidyParsed [finalComment]) 420
    (Parsed (untidyParsed [])) finalComment).
  - vm_compute. split; reflexivity.
  - reflexivity.
  - reflexivity.
  - reflexivity.
  - repeat (apply Forall_cons; split; [apply stmtOKb_sound; vm_compute; reflexivity|]). apply Forall_nil. exact I.
  - apply commentsApartb_sound. reflexivity.
  - reflexivity.
Defined.

Definition untidyHttp : list Stmt :=
  [mkStmt "http" "" 2 [] "" [] (Some [mkStmt "server" "" 2 [] "" [] (Some [mkStmt "listen" "" 2 ["80"] "" [] None])])].

Lemma format_idempotent_witness :
  ∃ text, @format asciiOnly noFmt _ (untidy " http{server{listen 80;} }") 100 "v.conf" (mkFormatOption true false false) directives =
      Ok ([ToFile "v.conf" text 420], None) ∧
  ∃ k, ∀ n, (k ≤ n)%nat →
    @format asciiOnly noFmt _ (writtenFS (untidy " http{server{listen 80;} }") "v.conf" text) n "v.conf"
      (mkFormatOption true false false) directives = Ok ([ToFile "v.conf" text 420], None).
Proof.
  apply (@format_idempotent asciiOnly noFmt _ (untidy " http{server{listen 80;} }") 100 "v.conf" directives directives
    (untidyParsed untidyHttp) 420).
  - vm_compute. split; reflexivity.
  - reflexivity.
  - reflexivity.
  - reflexivity.
  - reflexivity.
  - repeat (apply Forall_cons; split; [apply stmtOKb_sound; vm_compute; reflexivity|]). apply Forall_nil. exact I.
  - reflexivity.
Defined.

(** With comments it is not: a comment behind a closing brace stays there the
    first time, and the second time it gets a line of its own. *)
Definition formatTwice (tail : string) : option (string * string) :=
  let run FS := match @format asciiOnly noFmt _ FS 200 "v.conf" (mkFormatOption true false false) directives with
                | Ok ([ToFile _ text _], None) => Some text
                | _ => None
                end in
  t1 ← run (untidy tail); t2 ← run (writtenFS (untidy tail) "v.conf" t1); Some (t1, t2).

Definition unlines (l : list string) : string := Join l newline.

Lemma format_moves_comment :
  formatTwice (" http { server { } } # c" +:+ newline +:+ "mail { }") =
  Some (unlines ["events {"; "}"; "http {"; "  server {"; "  }"; "} # c"; "mail {"; "}"],
        unlines ["events {"; "}"; "http {"; "  server {"; "  }"; "}"; " # c"; "mail {"; "}"]).
Proof. vm_compute. reflexivity. Qed.
