(* ===== verification/Main.v ===== *)
(** * The program (src/main.go, start of src/ngx_startup.go)

    [main] runs the format command, or finds the configuration, sets the
    directories up and starts everything; an error is printed and ends the
    program with status 1.  The command-line library decides which. *)

From S2P Require Import Prelude GoStrings FileCache GoNet Values Lexer Directives Stmt Analyze Parse Routing RoutingFacts Servers Access ConnManager Listen Serve HttpCore GitOps VinceConfig Startup Build Format.

#[local] Open Scope Z_scope.

(** What the command line asks for: the flag -c is given, or its variable is in
    the environment. *)
Inductive cliCommand := CmdStart (flag env : option string) | CmdFormat (args : list string) (w json jsonPretty : bool).

Definition configFlag (flag env : option string) : string :=
  match flag, env with Some c, _ => c | None, Some c => c | None, None => "" end.

Inductive mainError := MConfig (e : configError) | MStart (e : startError) | MFormat (e : formatError).

Section Main.
Context `{R : Regexp}.

Inductive exit := Serving (s : startState) | Exits (code : Z) (err : option mainError) (s : startState)
  | Dies (p : go_panic) (s : startState) | NeverEnds (s : startState).

(** [os.Exit(1)] after an error. *)
Definition exitWith (err : option mainError) (s : startState) : exit :=
  Exits (match err with Some _ => 1 | None => 0 end) err s.

Context `{E : Env} `{TE : TLSEnv} `{NE : NetEnv} `{GE : GitEnv} `{U : Unicode} `{F : Fmt} `{FS : FileSystem}
  `{OS : OsEnv} `{FE : FormatEnv}.

(** [start]: no flag p is declared, so that the default port is zero. *)
Definition start (fuel : nat) (dirs : gmap string (list Z)) (d : gmap string entry) (c : string) (o : mapOrders)
    (events : list runEvent) : exit :=
  match getConfig d c 0 with
  | inr e => exitWith (Some (MConfig e)) startInit
  | inl cfg =>
    match setup cfg d with
    | (_, (Ok (Some e), _)) => exitWith (Some (MConfig e)) startInit
    | (_, (Panic p, _)) => Dies p startInit
    | (_, (OutOfFuel, _)) => NeverEnds startInit
    | (cfg, (Ok None, _)) =>
      match startEverything fuel dirs cfg o events with
      | (Waiting, s) => Serving s
      | (Ended e, s) => exitWith (MStart <$> e) s
      | (Crashed p, s) => Dies p s
      | (NoFuel, s) => NeverEnds s
      end
    end
  end.

Definition main (fuel : nat) (dirs : gmap string (list Z)) (d : gmap string entry) (cmd : cliCommand) (o : mapOrders)
    (events : list runEvent) : exit :=
  match cmd with
  | CmdStart flag env => start fuel dirs d (configFlag flag env) o events
  | CmdFormat args w json jsonPretty =>
    match formatCommand fuel args w json jsonPretty dirs with
    | Ok (_, e) => exitWith (MFormat <$> e) startInit
    | Panic p => Dies p startInit
    | OutOfFuel => NeverEnds startInit
    end
  end.

(** C13: how the program exits.  Whatever the command line, the configuration, the
    signals and the connections that come, report their states and go, when the
    program exits no address is bound, no connection is open and none has a record;
    when the configuration cannot be found or set up, nothing was started.  The
    same holds when it dies of a panic, unless the panic is that of a nil listener,
    which the loop over the listeners met. *)
Theorem main_releases fuel dirs d cmd o events :
  match main fuel dirs d cmd o events with
  | Exits _ err s =>
    bound s = ∅ ∧ conns (connMgr s) = ∅ ∧ openConns s = ∅ ∧ (∀ e, err = Some (MConfig e) → s = startInit)
  | Dies p s =>
    (bound s = ∅ ∧ conns (connMgr s) = ∅ ∧ openConns s = ∅) ∨
    p = NilDereference ∧ ∃ k, listeners s !! k = Some None
  | Serving _ | NeverEnds _ => True
  end.
Proof.
  destruct cmd as [flag env|args w json jp]; simpl.
  - unfold start. destruct (getConfig _ _ _) as [cfg|e]; [|by split_and!].
    destruct (setup cfg d) as [cfg' [[[e|]|p|] d']]; [by split_and!| |by left|done].
    destruct (startEverything _ _ _ _ _) as [out s] eqn:Es. apply start_releases in Es.
    destruct out as [|e|p|]; [done| |done|done]. destruct Es as (H1 & H2 & H3). split_and!; [done..|]. by destruct e.
  - destruct (formatCommand _ _ _ _ _ _) as [[? e]|p|]; [|by left|done]. split_and!; [done..|]. by destruct e.
Qed.
End Main.

(** ** The theorems at work *)

Section Witnesses.
#[local] Existing Instances noRegexp plainEnv plainTLS plainGit plainNet asciiOnly noFmt plainFormat.
#[local] Instance mayMkdir : OsEnv := {| mkdirGranted _ := true |}.

Definition srvDisk : gmap string entry := {[ "/srv" := ADirectory ]}.

(** Two connections come, one is hijacked, and the program is told to end. *)
Definition someTraffic : list runEvent :=
  [Accept "0.0.0.0:8080" 1%nat; Report 1%nat StateNew; Accept ":9000" 2%nat; Report 2%nat StateNew;
   Report 1%nat StateActive; Report 1%nat StateHijacked; Sig SIGHUP].

Lemma main_releases_witness :
  match main (FS := oneFile ["8080"]) 300 directives srvDisk (CmdStart (Some "/srv") None) (ordersOn "0.0.0.0:8080") someTraffic with
  | Serving s => openConns s = {[ 1%nat; 2%nat ]}
  | _ => False
  end ∧
  match main (FS := oneFile ["8080"]) 300 directives srvDisk (CmdStart (Some "/srv") None) (ordersOn "0.0.0.0:8080")
    (someTraffic ++ [Sig SIGTERM]) with
  | Exits _ err s => err = Some (MStart EExiting) ∧ bound s = ∅ ∧ openConns s = ∅
  | _ => False
  end.
Proof.
  split; [vm_compute; reflexivity|].
  pose proof (main_releases (FS := oneFile ["8080"]) 300 directives srvDisk (CmdStart (Some "/srv") None)
    (ordersOn "0.0.0.0:8080") (someTraffic ++ [Sig SIGTERM])) as H.
  destruct (main (FS := oneFile ["8080"]) 300 directives srvDisk (CmdStart (Some "/srv") None) (ordersOn "0.0.0.0:8080")
    (someTraffic ++ [Sig SIGTERM])) as [|code err s| |] eqn:E; [by vm_compute in E| |by vm_compute in E..].
  destruct H as (Hb & _ & Ho & _). split; [|by split]. vm_compute in E. by injection E as _ <- _.
Defined.
End Witnesses.
